(* ===== verification/_CoqProject ===== *)
-Q . S2P
Prelude.v
GoStd.v
External.v
Json.v
Contract.v
Store.v
MemStore.v
FsStore.v
FsRecovery.v
Webhooks.v
Heap.v
PriorityQueue.v
Cache.v
Window.v
WorkerConn.v
WorkerPool.v
Proto.v
Config.v
Registry.v
RegistryProps.v
Manager.v
Dispatch.v
Lifecycle.v
Orchestrator.v
JobFlow.v
JobProperties.v
Consolidation.v
Routes.v
ArtifactCache.v
SingleFlight.v
Worker.v
WorkerProps.v
WorkerWire.v
TaskKit.v
RateLimiter.v
Handshake.v
Stream.v
ConnServer.v
System.v
StoreTest.v
Server.v
Bench.v
Services.v
MuMap.v
MuWindow.v
Legacy.v
Runner.v
EndToEnd.v
Delivery.v
