(* ===== verification/Prelude.v ===== *)
(** * Workforce: a verification development

    Workforce is a distributed job runner in Go.  Clients submit jobs to a
    manager over HTTP; workers connect to it, and the manager proposes queued
    jobs to them by platform and capacity, dispatches what they accept, collects
    results, fans out child jobs and consolidates them, retries failures, serves
    task binaries from an artifact registry and notifies webhooks.  Workers keep
    an artifact cache, run task binaries as processes and stream their output.

    This library models the program as executable functions on explicit state
    and proves its properties.  File and function names below are under src/.

    ** Conventions

    - State is a record, an operation a function from state to state; a fallible
      call returns [res error A] or a state with [option error]; a run-time panic
      or a handler that never returns is [None].
    - Go's [int] is a [Z] with [wrap64] where arithmetic can overflow; instants
      are nanoseconds since the zero [time.Time]; a [float64] that is computed
      with is binary64 of [SpecFloat].
    - Mutexes make a handler or critical section atomic.  Interleavings are
      sequences of such steps: [Orchestrator.step], [WorkerProps.wstep],
      [SingleFlight.sf_step], [ConnServer.session_step] (a goroutine per message),
      [Services.service_step] (the manager's loops), the store's and the journal
      writer's steps.
    - What the language leaves open (map iteration order, the order [sort.Slice]
      gives equal elements) is the class [GoRuntime]; theorems hold for every
      instance.  Packages outside the repository are classes with the laws the
      program relies on ([External], [Proto.NetArgv], [Stream.NetArgvReader],
      [ConnServer.Verreg], [Server.Muxx], [FsStore.StoreCodec],
      [Registry.RegistryCodec]); each has an instance used in the examples.
    - Loops that are not structural carry a bound that is proved or evidently
      enough: a dispatch pass runs [S (Size queue)] rounds, since nothing is
      pushed during a pass; the log writer's loop runs at most once per byte; the
      benchmark's loop needs as many rounds as the clock has readings before the
      end ([Bench.benchmark_returns]);
      decimal rendering has 20 digits, or 400 for the integer part of a float.

    ** Files

    - [GoStd], [External], [Json]: the standard library, the external packages and
      JSON documents, as far as the program uses them.
    - [Contract]: the shared data (contract/job.go, run.go, task.go, worker.go).
      [Proto]: wire messages, factories and lines (contract/proto_message.go).
    - [Store]: the abstract entity store and its listings; [MemStore] the
      in-memory store with its log subscriptions (store/memstore.go); [FsStore]
      the journalled one (store/fsstore*.go); [FsRecovery] its restarts.
    - [Webhooks]: the dispatcher and its retries (webhooks/dispatcher.go).
    - [Heap], [PriorityQueue]: the dispatch queue (priority_heap.go) over
      container/heap.  [Cache]: the rejection cache (locksmith/cache.go).
    - [WorkerConn], [WorkerPool]: connections, their capacity ledger, the pool and
      its platform index, the selectors (worker_conn.go, worker_pool.go,
      worker_selector.go, resource_management.go).
    - [Config]: manager configuration (config.go).  [Registry], [RegistryProps]:
      the artifact registry on a disk (artifact/).
    - [Manager], [Dispatch]: the dispatcher (dispatcher.go) and its properties.
    - [Lifecycle]: the handlers of worker messages, submission, cancellation,
      recovery (worker_conn_handler.go, manager.go); [Orchestrator] the manager
      as a transition system with its invariant; [JobFlow], [JobProperties] what
      the handlers do to jobs, runs, queue and timers.
    - [Routes]: the handlers of the client API (routes.go).  [RateLimiter]: its
      token buckets (ratelimiter.go).  [Server]: the routing table, the middleware
      and the handlers as one HTTP server (buildMux).
    - [Handshake]: the keys of the upgrade, with SHA-1 and base64
      (contract/proto_magic.go).  [Stream]: frames on a byte stream.
      [ConnServer]: admission of workers and the read loop of a connection
      (worker_conn_handler.go).  [System]: manager and worker composed over their
      two byte streams, the whole life of a job that completes or fails.
      [EndToEnd]: the HTTP server, the dispatcher's loop, the timers and a worker
      as one service with a log of answers; [Delivery] a job from its submission
      to its result, with its failed attempts.
    - [Services]: the manager's loops, its backstop and its shutdown (manager.go,
      dispatcher.go, webhooks/dispatcher.go).  [MuMap], [MuWindow]: the locked map
      and the locked window (mu_map.go, window/mu_window.go).  [StoreTest]: the
      compliance suite of the stores (store/storetest).  [Legacy]: state and
      profile types nothing uses (worker/state.go, contract/host.go).
    - [Window]: the sliding window and the metrics sampler (worker/window,
      worker/metrics_sampler.go).  [ArtifactCache]: worker/cache.
      [SingleFlight]: worker/sf.  [Worker]: the worker (worker/worker.go,
      handle_message.go, runner.go); [WorkerProps] its transition system and the
      capacity invariant; [WorkerWire] its messages against the manager's
      factories.  [Runner]: pipes, directory, command and time limit around a
      process (worker/runner.go).  [TaskKit]: the task side (taskkit/).  [Bench]:
      the benchmark and its tables (worker/bench).

    ** What the theorems show

    - Dispatch: a pass conserves jobs; the queue drains in priority order and
      starving jobs go first; eligible workers are exactly those that are online,
      match the platform, have capacity and did not just reject the job; capacity
      is a ledger of job costs, at the manager and at the worker.
    - Life of a job: completion and failure on every branch, consolidation once
      whatever the order of the children, fan-out, cancellation, recovery after
      a restart; the manager's invariant over every step.
    - End to end: a job posted to an idle service is answered 202, is run, is
      tried again by its timer after every failure the policy allows, and a later
      request is answered 200 with the job completed and its result
      ([Delivery.submitted_job_is_delivered]).
    - The composed system: a job proposed to a worker that may accept it runs to
      completion through the lines both programs write and read; a worker is
      admitted as its headers say and accepts only the answer to its key; every
      message of a connection is handled once in every interleaving.
    - The HTTP server refines the orchestrator: requests reach the handler of
      their route, nothing of the client API runs unchecked, and every request is
      at most one step.
    - The services: a queued job is not forgotten although notifications can be
      dropped, a queued webhook is seen, the benchmark returns.
    - Stores: a restart of the journalled store restores the memory for every
      sequence of operations and compactions; a torn last line is ignored;
      listings and paging are complete; log followers miss nothing, and a live
      stream shows what the finished log shows; every implementation of the
      interface passes the compliance suite.
    - The wire: what either side writes, the other reads as meant, from proposal
      to staged job and for every outcome of a process.
    - Caches, windows, single flight, webhooks, registry, rate limits: against
      their reference behaviour and bounds.
    - Where the code does not do what it means to, theorems say what it does
      (a closed connection is fatal to a worker, its heartbeat timeout never
      fires, a cancelled job keeps its capacity).

    ** Not modelled

    The protocol upgrade itself (cooper), the supervision of services (rungroup),
    encoding of response bodies, SHA-256 and URL signatures (functions without
    laws), I/O errors that the contents of the disk do not cause, the event bus
    (empty types that nothing publishes on), the accessor methods of the manager.
    Logging is left out throughout.  The end-to-end theorem follows one job on one
    worker; what several jobs and workers do to each other is in the theorems on
    the dispatcher, the orchestrator and the connections.

    This file holds what the others share: machine integers, results, proof
    automation, generic lemmas on strings, lists and ledgers, record update. *)
From stdpp Require Export base tactics list gmap strings sorting relations.
From Stdlib Require Export ZArith Lia Ascii.

Declare Scope go_scope.
Delimit Scope go_scope with go.

(** ** Machine integers

    Go's [int] and [int64] are 64-bit two's complement on every platform the
    program targets; [wrap64] is the value an arithmetic result takes. *)
Definition MaxInt64 : Z := 9223372036854775807.
Definition MinInt64 : Z := -9223372036854775808.

Definition wrap64 (z : Z) : Z :=
  ((z + 9223372036854775808) mod 18446744073709551616 - 9223372036854775808)%Z.

Definition in_int64 (z : Z) : Prop := (MinInt64 ≤ z ≤ MaxInt64)%Z.

Notation "x +! y" := (wrap64 (x + y)%Z) (at level 50, left associativity) : go_scope.
Notation "x -! y" := (wrap64 (x - y)%Z) (at level 50, left associativity) : go_scope.
Notation "x *! y" := (wrap64 (x * y)%Z) (at level 40, left associativity) : go_scope.

Lemma wrap64_id z : in_int64 z → wrap64 z = z.
Proof.
  unfold in_int64, wrap64, MinInt64, MaxInt64. intros Hz.
  rewrite Z.mod_small; lia.
Qed.

Lemma wrap64_range z : in_int64 (wrap64 z).
Proof.
  unfold in_int64, wrap64, MinInt64, MaxInt64.
  pose proof (Z.mod_pos_bound (z + 9223372036854775808) 18446744073709551616).
  lia.
Qed.

Lemma wrap64_idem z : wrap64 (wrap64 z) = wrap64 z.
Proof. apply wrap64_id, wrap64_range. Qed.

(** ** Results of fallible calls: a value or an error, as [(T, error)] *)
Inductive res (E A : Type) : Type :=
| Ok (a : A)
| Err (e : E).
Arguments Ok {E A} a.
Arguments Err {E A} e.

#[export] Instance res_ret {E} : MRet (res E) := λ A a, Ok a.
#[export] Instance res_bind {E} : MBind (res E) := λ A B k m,
  match m with Ok a => k a | Err e => Err e end.
#[export] Instance res_fmap {E} : FMap (res E) := λ A B f m,
  match m with Ok a => Ok (f a) | Err e => Err e end.

Lemma res_bind_Ok {E A B} (m : res E A) (k : A → res E B) b :
  m ≫= k = Ok b ↔ ∃ a, m = Ok a ∧ k a = Ok b.
Proof. destruct m; naive_solver. Qed.

Lemma res_bind_Err {E A B} (m : res E A) (k : A → res E B) e :
  m ≫= k = Err e ↔ m = Err e ∨ ∃ a, m = Ok a ∧ k a = Err e.
Proof. destruct m; naive_solver. Qed.

(** ** Proof automation shared by the components *)
Create HintDb workforce.

Ltac zb :=
  repeat match goal with
  | H : (_ <? _)%Z = true |- _ => apply Z.ltb_lt in H
  | H : (_ <? _)%Z = false |- _ => apply Z.ltb_ge in H
  | H : (_ <=? _)%Z = true |- _ => apply Z.leb_le in H
  | H : (_ <=? _)%Z = false |- _ => apply Z.leb_gt in H
  | H : (_ =? _)%Z = true |- _ => apply Z.eqb_eq in H
  | H : (_ =? _)%Z = false |- _ => apply Z.eqb_neq in H
  | H : (_ >? _)%Z = _ |- _ => rewrite Z.gtb_ltb in H
  | H : (_ >=? _)%Z = _ |- _ => rewrite Z.geb_leb in H
  | H : negb _ = true |- _ => apply negb_true_iff in H
  | H : negb _ = false |- _ => apply negb_false_iff in H
  | H : _ && _ = true |- _ => apply andb_true_iff in H as [? ?]
  | H : _ || _ = false |- _ => apply orb_false_iff in H as [? ?]
  end.

(** Split every [match]/[if] of the goal or of a hypothesis and clean up. *)
Ltac splitter := repeat (case_match; simplify_eq/=).

Ltac i64 := unfold in_int64, MaxInt64, MinInt64 in *.

(** ** Byte strings *)
Lemma str_app_assoc (a b c : string) : (a +:+ b) +:+ c = a +:+ (b +:+ c).
Proof. induction a as [|x a IH]; [done|]. exact (f_equal (String x) IH). Qed.

Lemma str_app_nil_r (a : string) : a +:+ "" = a.
Proof. induction a as [|x a IH]; [done|]. exact (f_equal (String x) IH). Qed.

Lemma str_app_length (a b : string) :
  String.length (a +:+ b) = String.length a + String.length b.
Proof. induction a as [|x a IH]; [done|]. exact (f_equal S IH). Qed.

(** The concatenation of a list of chunks. *)
Definition str_concat (l : list string) : string := foldr String.append "" l.

Lemma str_concat_snoc l x : str_concat (l ++ [x]) = str_concat l +:+ x.
Proof.
  unfold str_concat. induction l as [|y l IH]; simpl; [by rewrite str_app_nil_r|].
  by rewrite IH, str_app_assoc.
Qed.

(** ** Generic lemmas on lists *)

(** Exchange of two array cells, as Go's [a[i], a[j] = a[j], a[i]]. *)
Definition lswap {A} (i j : nat) (l : list A) : list A :=
  match l !! i, l !! j with
  | Some x, Some y => <[i:=y]> (<[j:=x]> l)
  | _, _ => l
  end.

Lemma lswap_length {A} i j (l : list A) : length (lswap i j l) = length l.
Proof. unfold lswap. splitter; by rewrite ?length_insert. Qed.

Lemma lswap_lookup {A} i j (l : list A) k :
  i < length l → j < length l →
  lswap i j l !! k = (if decide (k = i) then l !! j
                      else if decide (k = j) then l !! i else l !! k).
Proof.
  intros Hi Hj. unfold lswap.
  destruct (lookup_lt_is_Some_2 l i Hi) as [x Hx].
  destruct (lookup_lt_is_Some_2 l j Hj) as [y Hy].
  rewrite Hx, Hy. repeat case_decide; subst.
  - rewrite list_lookup_insert_eq; [done|by rewrite length_insert].
  - rewrite list_lookup_insert_ne by done. by rewrite list_lookup_insert_eq.
  - by rewrite !list_lookup_insert_ne by done.
Qed.

Lemma lswap_Permutation {A} i j (l : list A) : lswap i j l ≡ₚ l.
Proof.
  unfold lswap. destruct (l !! i) as [x|] eqn:Hx; [|done].
  destruct (l !! j) as [y|] eqn:Hy; [|done].
  by apply Permutation_insert_swap.
Qed.

Lemma lswap_lookup_total `{Inhabited A} i j (l : list A) k :
  i < length l → j < length l →
  lswap i j l !!! k = (if decide (k = i) then l !!! j
                       else if decide (k = j) then l !!! i else l !!! k).
Proof.
  intros Hi Hj. rewrite !list_lookup_total_alt, lswap_lookup by done.
  by repeat case_decide.
Qed.

(** [lookup] through a filter of a map's bindings, as the listing loops use. *)
Lemma elem_of_omap_Some {A B} (f : A → option B) (l : list A) y :
  y ∈ omap f l ↔ ∃ x, x ∈ l ∧ f x = Some y.
Proof. apply list_elem_of_omap. Qed.

Lemma StronglySorted_lookup {A} (R : A → A → Prop) l i j x y : StronglySorted R l →
  l !! i = Some x → l !! j = Some y → i < j → R x y.
Proof.
  intros Hs. revert i j. induction Hs as [|z l Hs IH Hz]; intros i j Hi Hj Hlt; [done|].
  destruct i as [|i], j as [|j]; simplify_eq/=; [lia| |lia|eapply IH; eauto; lia].
  by eapply Forall_lookup_1 in Hz.
Qed.

Lemma StronglySorted_impl {A} (R1 R2 : A → A → Prop) l :
  (∀ x y, R1 x y → R2 x y) → StronglySorted R1 l → StronglySorted R2 l.
Proof.
  intros HR. induction 1 as [|x l _ IH Hx]; constructor; [done|].
  eapply Forall_impl; [exact Hx|]. auto.
Qed.

(** Integer sums of a measure over a list. *)
Definition zsum {A} (f : A → Z) (l : list A) : Z :=
  foldr (λ x acc, f x + acc)%Z 0%Z l.

Lemma zsum_app {A} (f : A → Z) l1 l2 : zsum f (l1 ++ l2) = (zsum f l1 + zsum f l2)%Z.
Proof. induction l1 as [|x l1 IH]; simpl; [done|]. rewrite IH. lia. Qed.

Lemma zsum_perm {A} (f : A → Z) l1 l2 : l1 ≡ₚ l2 → zsum f l1 = zsum f l2.
Proof. induction 1; simpl; lia. Qed.

Lemma zsum_nonneg {A} (f : A → Z) l : (∀ x, x ∈ l → 0 ≤ f x)%Z → (0 ≤ zsum f l)%Z.
Proof.
  induction l as [|x l IH]; simpl; intros Hf; [done|].
  pose proof (Hf x ltac:(set_solver)).
  specialize (IH ltac:(intros; apply Hf; set_solver)). lia.
Qed.

Lemma zsum_one {A} (l : list A) : zsum (λ _, 1%Z) l = Z.of_nat (length l).
Proof. induction l as [|x l IH]; [done|]. change (1 + zsum (λ _ : A, 1%Z) l = Z.of_nat (S (length l)))%Z. lia. Qed.

(** The total of a ledger of amounts. *)
Definition ledger_cost (l : gmap string Z) : Z := zsum snd (map_to_list l).

Lemma ledger_cost_insert l j c : l !! j = None →
  ledger_cost (<[j:=c]> l) = (c + ledger_cost l)%Z.
Proof. intros Hj. unfold ledger_cost. by rewrite (zsum_perm _ _ _ (map_to_list_insert l j c Hj)). Qed.

Lemma ledger_cost_delete l j c : l !! j = Some c →
  ledger_cost l = (c + ledger_cost (delete j l))%Z.
Proof.
  intros Hj. rewrite <- (insert_delete_id l j c Hj) at 1.
  rewrite ledger_cost_insert; [done|]. apply lookup_delete_eq.
Qed.

Lemma ledger_cost_nonneg l : (∀ j c, l !! j = Some c → 0 ≤ c)%Z → (0 ≤ ledger_cost l)%Z.
Proof.
  intros Hl. apply zsum_nonneg. intros [j c] Hin. apply elem_of_map_to_list in Hin. simpl. eauto.
Qed.

(** A running 64-bit sum of non-negative amounts is the sum while it fits. *)
Lemma wrapped_sum {A} (f : A → Z) l z : (∀ x, x ∈ l → 0 ≤ f x)%Z → (0 ≤ z)%Z → (z + zsum f l ≤ MaxInt64)%Z →
  foldl (λ c x, wrap64 (c + f x)) z l = (z + zsum f l)%Z.
Proof.
  revert z. induction l as [|x l IH]; intros z Hf Hz Hmax; [cbn; lia|]. cbn [foldl].
  change (zsum f (x :: l)) with (f x + zsum f l)%Z in *.
  pose proof (Hf x ltac:(left)). assert (0 ≤ zsum f l)%Z by (apply zsum_nonneg; intros; apply Hf; by right).
  rewrite wrap64_id by (unfold in_int64, MinInt64; lia).
  rewrite IH; [lia|intros; apply Hf; by right|lia|lia].
Qed.

(** ** Functional record update, [r <| field := v |>]

    A record type declares how it is rebuilt from its own fields ([rebuild]);
    the setter of a field is obtained by abstracting that field. *)
Class Rebuild (R : Type) := rebuild : R → R.
Class FieldSet {R T : Type} (field : R → T) := field_set : (T → T) → R → R.

Ltac solve_field_set :=
  lazymatch goal with
  | |- @FieldSet ?R ?T ?field =>
      let e := constr:(@rebuild R ltac:(typeclasses eauto)) in
      let body := eval hnf in e in
      lazymatch eval pattern field in body with
      | ?k field => exact (λ (f : T → T) (r : R), k (λ r', f (field r')) r)
      end
  end.
#[export] Hint Extern 1 (FieldSet _) => solve_field_set : typeclass_instances.

Notation "r <| field := v |>" := (field_set (field := field) (λ _, v) r)
  (at level 12, left associativity, field constr, v at level 200, format "r  <|  field  :=  v  |>").
