(* ===== verification/GoStd.v ===== *)
(** * The parts of Go's runtime and standard library the program relies on

    Map iteration order and [sort.Slice] are under-specified by the language
    and its library: [GoRuntime] abstracts over the choices one execution
    makes, and every theorem of the development that lists or ranges holds for
    all of them.  [canonical_runtime] is one such choice, used to evaluate.
    Instants are nanoseconds since the zero [time.Time]; durations are 64-bit. *)
From S2P Require Import Prelude.

(** ** Strict weak orders, the contract of a [less] function *)
Class StrictWeakOrder {A} (less : A → A → bool) : Prop := {
  swo_irrefl x : less x x = false;
  swo_cotrans x y z : less x z = true → less x y = true ∨ less y z = true;
  swo_asym x y : less x y = true → less y x = false;
}.

Section swo.
Context {A} (less : A → A → bool) `{!StrictWeakOrder less}.

(** [x] does not sort after [y]. *)
Definition not_after (x y : A) : Prop := less y x = false.

Lemma not_after_refl x : not_after x x.
Proof. apply swo_irrefl. Qed.

Lemma not_after_trans x y z : not_after x y → not_after y z → not_after x z.
Proof.
  unfold not_after. intros Hxy Hyz. destruct (less z x) eqn:Hzx; [|done].
  destruct (swo_cotrans z y x Hzx); congruence.
Qed.

Lemma less_not_after x y : less x y = true → not_after x y.
Proof. apply swo_asym. Qed.

#[global] Instance not_after_preorder : PreOrder not_after.
Proof. split; [exact not_after_refl | exact not_after_trans]. Qed.

#[global] Instance not_after_total : Total not_after.
Proof.
  intros x y. unfold not_after. destruct (less y x) eqn:E; [|by left].
  right. by apply swo_asym.
Qed.

#[global] Instance not_after_dec : RelDecision not_after.
Proof. intros x y. unfold not_after. apply _. Defined.
End swo.

(** An integer key compared with [<] is a strict weak order. *)
#[export] Instance swo_key {A} (key : A → Z) : StrictWeakOrder (λ x y, key x <? key y)%Z.
Proof. split; intros; zb; rewrite ?Z.ltb_lt, ?Z.ltb_ge; lia. Qed.

(** ** Choices of the runtime *)
Class GoRuntime := {
  range_map {V : Type} : gmap string V → list (string * V);
  range_map_perm {V} (m : gmap string V) : range_map m ≡ₚ map_to_list m;
  sort_slice {A : Type} : (A → A → bool) → list A → list A;
  sort_slice_perm {A} (less : A → A → bool) l : sort_slice less l ≡ₚ l;
  sort_slice_sorted {A} (less : A → A → bool) l :
    StrictWeakOrder less → StronglySorted (not_after less) (sort_slice less l);
}.

#[export] Hint Resolve range_map_perm sort_slice_perm sort_slice_sorted : workforce.

Section range.
Context `{GoRuntime}.

(** The values a [for _, v := range m] visits. *)
Definition range_values {V} (m : gmap string V) : list V := (range_map m).*2.

Lemma elem_of_range_map {V} (m : gmap string V) k v :
  (k, v) ∈ range_map m ↔ m !! k = Some v.
Proof. by rewrite range_map_perm, elem_of_map_to_list. Qed.

Lemma elem_of_range_values {V} (m : gmap string V) v :
  v ∈ range_values m ↔ ∃ k, m !! k = Some v.
Proof.
  unfold range_values. rewrite list_elem_of_fmap. split.
  - intros ([k v'] & -> & Hin). exists k. by apply elem_of_range_map.
  - intros [k Hk]. exists (k, v). split; [done|]. by apply elem_of_range_map.
Qed.

Lemma range_map_NoDup {V} (m : gmap string V) : NoDup (range_map m).*1.
Proof. rewrite range_map_perm. apply NoDup_fst_map_to_list. Qed.

Lemma range_map_length {V} (m : gmap string V) : length (range_map m) = size m.
Proof. rewrite range_map_perm. apply length_map_to_list. Qed.

Lemma elem_of_sort_slice {A} (less : A → A → bool) l x :
  x ∈ sort_slice less l ↔ x ∈ l.
Proof. by rewrite sort_slice_perm. Qed.
End range.

(** One concrete choice: [map_to_list] order and a stable merge sort. *)
Definition insert_by {A} (less : A → A → bool) (x : A) : list A → list A :=
  fix go l := match l with
  | [] => [x]
  | y :: l' => if less y x then y :: go l' else x :: l
  end.

Definition isort {A} (less : A → A → bool) (l : list A) : list A :=
  foldr (insert_by less) [] l.

Lemma insert_by_perm {A} (less : A → A → bool) x l : insert_by less x l ≡ₚ x :: l.
Proof.
  induction l as [|y l IH]; simpl; [done|]. case_match; [|done].
  rewrite IH. constructor.
Qed.

Lemma isort_perm {A} (less : A → A → bool) l : isort less l ≡ₚ l.
Proof. induction l as [|x l IH]; simpl; [done|]. by rewrite insert_by_perm, IH. Qed.

Lemma insert_by_sorted {A} (less : A → A → bool) x l :
  StrictWeakOrder less →
  StronglySorted (not_after less) l → StronglySorted (not_after less) (insert_by less x l).
Proof.
  intros Hswo. induction l as [|y l IH]; simpl; intros Hs.
  { repeat constructor. }
  apply StronglySorted_inv in Hs as [Hs Hy]. case_match eqn:E.
  - constructor; [by apply IH|]. rewrite insert_by_perm. constructor; [|done].
    by apply less_not_after.
  - constructor; [by constructor|]. constructor; [done|].
    eapply Forall_impl; [exact Hy|]. intros z Hyz.
    by eapply not_after_trans.
Qed.

Lemma isort_sorted {A} (less : A → A → bool) l :
  StrictWeakOrder less → StronglySorted (not_after less) (isort less l).
Proof.
  intros. induction l as [|x l IH]; simpl; [constructor|]. by apply insert_by_sorted.
Qed.

Definition canonical_runtime : GoRuntime := {|
  range_map := λ V m, map_to_list m;
  range_map_perm := λ V m, reflexivity _;
  sort_slice := @isort;
  sort_slice_perm := @isort_perm;
  sort_slice_sorted := @isort_sorted;
|}.

(** ** Package [time] *)
Notation Time := Z (only parsing).
Notation Duration := Z (only parsing).

Definition time_zero : Time := 0%Z.
Definition IsZero (t : Time) : bool := (t =? 0)%Z.
Definition Before (t u : Time) : bool := (t <? u)%Z.
Definition After (t u : Time) : bool := (u <? t)%Z.
Definition time_Add (t : Time) (d : Duration) : Time := (t + d)%Z.

(** [t.Sub(u)] saturates at the ends of the [Duration] range. *)
Definition time_Sub (t u : Time) : Duration :=
  Z.max MinInt64 (Z.min MaxInt64 (t - u)).

(** The Unix epoch, 62135596800 seconds after the zero instant. *)
Definition unix_epoch : Time := 62135596800000000000%Z.
Definition Unix (t : Time) : Z := wrap64 ((t - unix_epoch) / 1000000000).
Definition UnixNano (t : Time) : Z := wrap64 (t - unix_epoch).

Definition Millisecond : Duration := 1000000%Z.
Definition Second : Duration := 1000000000%Z.
Definition Minute : Duration := 60000000000%Z.
Definition Hour : Duration := 3600000000000%Z.

Lemma time_Sub_small t u : in_int64 (t - u) → time_Sub t u = (t - u)%Z.
Proof. unfold time_Sub. i64. lia. Qed.

Lemma time_Sub_range t u : in_int64 (time_Sub t u).
Proof. unfold time_Sub. i64. lia. Qed.

(** ** Package [strconv]: [Itoa] and [Atoi] *)
Definition digit_char (d : Z) : ascii := ascii_of_N (48 + Z.to_N d).

Definition char_digit (c : ascii) : option Z :=
  let n := Z.of_N (N_of_ascii c) in
  if (48 <=? n)%Z && (n <=? 57)%Z then Some (n - 48)%Z else None.

Fixpoint digits_fuel (fuel : nat) (n : Z) (acc : string) : string :=
  match fuel with
  | O => acc
  | S fuel =>
      let acc := String (digit_char (n mod 10)) acc in
      if (n / 10 =? 0)%Z then acc else digits_fuel fuel (n / 10) acc
  end.

(** 20 digits are enough for any 64-bit value. *)
Definition Itoa (n : Z) : string :=
  if (n <? 0)%Z then String "-" (digits_fuel 20 (- n) "") else digits_fuel 20 n "".

Fixpoint parse_digits (s : string) (acc : Z) : option Z :=
  match s with
  | EmptyString => Some acc
  | String c s => d ← char_digit c; parse_digits s (10 * acc + d)%Z
  end.

Definition parse_unsigned (s : string) : option Z :=
  match s with EmptyString => None | _ => parse_digits s 0 end.

(** Decimal parse into 64 bits: optional sign, at least one digit, in range. *)
Definition Atoi (s : string) : option Z :=
  v ← match s with
      | String "-" s => Z.opp <$> parse_unsigned s
      | String "+" s => parse_unsigned s
      | _ => parse_unsigned s
      end;
  if ((MinInt64 <=? v) && (v <=? MaxInt64))%Z then Some v else None.

Lemma digit_roundtrip d : (0 ≤ d < 10)%Z → char_digit (digit_char d) = Some d.
Proof.
  intros Hd.
  assert (d = 0 ∨ d = 1 ∨ d = 2 ∨ d = 3 ∨ d = 4 ∨ d = 5 ∨ d = 6 ∨ d = 7 ∨ d = 8 ∨ d = 9)%Z
    as Hc by lia.
  destruct_or! Hc; subst; reflexivity.
Qed.

Lemma parse_digits_fuel fuel n s : (0 ≤ n < 10 ^ Z.of_nat fuel)%Z → 0 < fuel →
  parse_digits (digits_fuel fuel n s) 0 = parse_digits s n.
Proof.
  revert n s. induction fuel as [|fuel IH]; intros n s Hn Hf; [lia|].
  cbn [digits_fuel].
  pose proof (Z.mod_pos_bound n 10 ltac:(lia)).
  pose proof (Z.div_mod n 10 ltac:(lia)).
  assert (10 ^ Z.of_nat (S fuel) = 10 * 10 ^ Z.of_nat fuel)%Z as Hpow.
  { rewrite Nat2Z.inj_succ, Z.pow_succ_r; lia. }
  destruct (n / 10 =? 0)%Z eqn:E; zb.
  - simpl. rewrite digit_roundtrip by lia. simpl. f_equal. lia.
  - assert (0 < n / 10)%Z by (assert (0 ≤ n / 10)%Z by (apply Z.div_pos; lia); lia).
    destruct fuel as [|fuel]; [simpl in Hpow; lia|].
    rewrite IH; [|split; [lia|apply Z.div_lt_upper_bound; lia]|lia].
    cbn [parse_digits]. rewrite digit_roundtrip by lia. simpl. f_equal. lia.
Qed.

(** The first character of a decimal rendering is a digit. *)
Lemma digits_fuel_head fuel n s : 0 < fuel →
  ∃ d s', (0 ≤ d < 10)%Z ∧ digits_fuel fuel n s = String (digit_char d) s'.
Proof.
  revert n s. induction fuel as [|fuel IH]; intros n s Hf; [lia|]. cbn [digits_fuel].
  pose proof (Z.mod_pos_bound n 10 ltac:(lia)).
  case_match; [by eauto|].
  destruct fuel as [|fuel]; [by simpl; eauto|]. apply IH. lia.
Qed.

Lemma Atoi_head_digit d s : (0 ≤ d < 10)%Z →
  Atoi (String (digit_char d) s) =
    (v ← parse_digits (String (digit_char d) s) 0;
     if ((MinInt64 <=? v) && (v <=? MaxInt64))%Z then Some v else None).
Proof.
  intros Hd.
  assert (d = 0 ∨ d = 1 ∨ d = 2 ∨ d = 3 ∨ d = 4 ∨ d = 5 ∨ d = 6 ∨ d = 7 ∨ d = 8 ∨ d = 9)%Z
    as Hc by lia.
  destruct_or! Hc; subst; reflexivity.
Qed.

(** Formatting a 64-bit integer and parsing it back gives the integer. *)
Lemma Atoi_Itoa n : in_int64 n → Atoi (Itoa n) = Some n.
Proof.
  intros Hn. unfold Itoa. i64.
  assert (10 ^ Z.of_nat 20 = 100000000000000000000)%Z as Hp by reflexivity.
  destruct (n <? 0)%Z eqn:E; zb.
  - unfold Atoi. destruct (digits_fuel_head 20 (- n) "" ltac:(lia)) as (d & s' & _ & Hds).
    pose proof (parse_digits_fuel 20 (- n) "" ltac:(lia) ltac:(lia)) as Hparse.
    rewrite Hds in *. unfold parse_unsigned. rewrite Hparse. simpl.
    rewrite Z.opp_involutive. case_match eqn:Hr; [done|]. i64. exfalso.
    apply andb_false_iff in Hr as [?|?]; zb; lia.
  - destruct (digits_fuel_head 20 n "" ltac:(lia)) as (d & s' & Hd & Hds).
    pose proof (parse_digits_fuel 20 n "" ltac:(lia) ltac:(lia)) as Hparse.
    rewrite Hds in *. rewrite Atoi_head_digit by done. rewrite Hparse. simpl.
    case_match eqn:Hr; [done|]. i64. exfalso.
    apply andb_false_iff in Hr as [?|?]; zb; lia.
Qed.

(** ** Package [strings] *)
Fixpoint strings_Join (sep : string) (l : list string) : string :=
  match l with
  | [] => ""
  | [x] => x
  | x :: l => x +:+ sep +:+ strings_Join sep l
  end.

Fixpoint HasPrefix (p s : string) : bool :=
  match p, s with
  | EmptyString, _ => true
  | String a p, String b s => Ascii.eqb a b && HasPrefix p s
  | _, _ => false
  end.

Lemma HasPrefix_spec p s : HasPrefix p s = true ↔ ∃ t, s = p +:+ t.
Proof.
  revert s. induction p as [|a p IH]; intros s; simpl.
  { split; [by eauto|done]. }
  destruct s as [|b s]; simpl; [split; [done|by intros []]|].
  rewrite andb_true_iff, IH, Ascii.eqb_eq. split.
  - intros [-> [t ->]]. by eauto.
  - intros [t [= -> ->]]. by eauto.
Qed.

(** The verb [%q] on text with nothing to escape. *)
Definition Quote (s : string) : string := String (ascii_of_N 34) s +:+ String (ascii_of_N 34) EmptyString.

(** [strings.Split(s, sep)] for a separator of one character. *)
Fixpoint strings_Split (sep : ascii) (s : string) : list string :=
  match s with
  | "" => [""]
  | String c s =>
      if decide (c = sep) then "" :: strings_Split sep s
      else match strings_Split sep s with
           | [] => [String c ""]
           | x :: l => String c x :: l
           end
  end.

(** The character does not occur. *)
Fixpoint no_char (c : ascii) (s : string) : bool :=
  match s with "" => true | String d s => negb (bool_decide (d = c)) && no_char c s end.

Lemma no_char_app c s t : no_char c (s +:+ t) = no_char c s && no_char c t.
Proof. induction s as [|d s IH]; [done|]. simpl. by rewrite IH, andb_assoc. Qed.

Lemma Split_no_char sep s : no_char sep s = true → strings_Split sep s = [s].
Proof.
  induction s as [|c s IH]; [done|]. simpl. intros [Hc Hs]%andb_prop. apply negb_true_iff, bool_decide_eq_false in Hc.
  by rewrite decide_False, IH by done.
Qed.

(** The parts before and after the first occurrence of a character ([strings.Index], slicing). *)
Fixpoint cut_at (c : ascii) (s : string) : option (string * string) :=
  match s with
  | "" => None
  | String d s =>
      if decide (d = c) then Some ("", s) else '(x, y) ← cut_at c s; Some (String d x, y)
  end.

(** [strings.TrimRight(s, c)] for a cutset of one character. *)
Fixpoint TrimRight (c : ascii) (s : string) : string :=
  match s with
  | "" => ""
  | String d s =>
      match TrimRight c s with
      | "" => if decide (d = c) then "" else String d ""
      | t => String d t
      end
  end.

(** ** A [chan struct{}] used as a wake-up signal: its buffer, and whether a
    receiver is blocked on it. *)
Record SigChan := MkSigChan {
  sc_cap : nat;
  sc_len : nat;
  sc_waiting : bool;
}.

(** [select { case ch <- struct{}{}: default: }]: a blocked receiver takes the value, else a
    free buffer slot does, else the signal is dropped. *)
Definition try_send (c : SigChan) : SigChan :=
  if sc_waiting c then MkSigChan (sc_cap c) (sc_len c) false
  else if sc_len c <? sc_cap c then MkSigChan (sc_cap c) (S (sc_len c)) false
  else c.

(** [select { case <-ch: default: }], with whether a value was received. *)
Definition try_recv (c : SigChan) : SigChan * bool :=
  match sc_len c with
  | O => (c, false)
  | S n => (MkSigChan (sc_cap c) n (sc_waiting c), true)
  end.
