(* ===== verification/External.v ===== *)
(** * Interfaces of the packages the program only calls

    Code that is not part of the repository is an argument of the model: each
    class below lists the operations the program calls and the documented
    behaviour it relies on.  Instances exist only to evaluate examples. *)
From S2P Require Import Prelude GoStd.

(** ** Errors the modelled code creates, wraps or compares *)
Inductive error :=
| ErrNotFound (kind id : string)
| ErrUnknownTask (task : string)
| ErrNoEledgibleWorkers
| ErrNoArtifactPlatform
| ErrArtifactNotFound
| ErrArtifactAlreadyExists
| ErrWorkerInsufficientCapacity
| ErrWorkerAtCapacity
| ErrMissingWorkerOS
| ErrMissingWorkerArch
| ErrCapacityZero
| ErrClosedConn
| ErrNotConnected (workerID : string)
| ErrMsg (text : string)
| ErrJoined (e1 e2 : error).

#[export] Instance error_eq_dec : EqDecision error.
Proof. solve_decision. Defined.

(** [err.Error()]. *)
Fixpoint Error (e : error) : string :=
  match e with
  | ErrNotFound kind id => kind +:+ " " +:+ String (ascii_of_N 34) id +:+ String (ascii_of_N 34) " not found"
  | ErrUnknownTask task => "unknown task: taks(" +:+ task +:+ ")"
  | ErrNoEledgibleWorkers => "no elegible workers"
  | ErrNoArtifactPlatform => "no artifact platform available"
  | ErrArtifactNotFound => "artifact not found"
  | ErrArtifactAlreadyExists => "artifact version already exists"
  | ErrWorkerInsufficientCapacity => "worker has insufficient capacity"
  | ErrWorkerAtCapacity => "worker at capacity"
  | ErrMissingWorkerOS => "missing worker os"
  | ErrMissingWorkerArch => "missing worker arch"
  | ErrCapacityZero => "capacity is zero"
  | ErrClosedConn => "use of closed network connection"
  | ErrNotConnected id => "worker " +:+ String (ascii_of_N 34) id +:+ String (ascii_of_N 34) " not connected"
  | ErrMsg text => text
  | ErrJoined e1 e2 => Error e1 +:+ String (ascii_of_N 10) (Error e2)
  end.

(** ** lowbit.dev/sets: [SimpleSet[string]], a set of strings *)
Class SimpleSet (S : Type) := {
  ss_New : S;
  ss_Add : string → S → S;
  ss_Remove : string → S → S;
  ss_Has : string → S → bool;
  ss_Size : S → nat;
  ss_Snapshot : S → list string;
  (** the mathematical set it stands for *)
  ss_view : S → gset string;
  ss_view_New : ss_view ss_New = ∅;
  ss_view_Add x s : ss_view (ss_Add x s) = {[x]} ∪ ss_view s;
  ss_view_Remove x s : ss_view (ss_Remove x s) = ss_view s ∖ {[x]};
  ss_Has_spec x s : ss_Has x s = bool_decide (x ∈ ss_view s);
  ss_Size_spec s : ss_Size s = size (ss_view s);
  ss_Snapshot_spec s : ss_Snapshot s ≡ₚ elements (ss_view s);
}.

#[export] Hint Rewrite @ss_view_New @ss_view_Add @ss_view_Remove @ss_Has_spec @ss_Size_spec
  : simple_set.

Lemma elem_of_Snapshot `{SimpleSet SS} x (s : SS) : x ∈ ss_Snapshot s ↔ x ∈ ss_view s.
Proof. by rewrite ss_Snapshot_spec, elem_of_elements. Qed.

Definition gset_simple_set : SimpleSet (gset string) := {|
  ss_New := ∅;
  ss_Add x s := {[x]} ∪ s;
  ss_Remove x s := s ∖ {[x]};
  ss_Has x s := bool_decide (x ∈ s);
  ss_Size s := size s;
  ss_Snapshot s := elements s;
  ss_view s := s;
  ss_view_New := eq_refl;
  ss_view_Add x s := eq_refl;
  ss_view_Remove x s := eq_refl;
  ss_Has_spec x s := eq_refl;
  ss_Size_spec s := eq_refl;
  ss_Snapshot_spec s := reflexivity _;
|}.

(** ** lowbit.dev/ulid: [ulid.Make().String()], a new identifier per call.
    [ulid n] is the [n]-th identifier of the execution. *)
Class Ulid := {
  ulid : nat → string;
  ulid_inj : Inj (=) (=) ulid;
  ulid_nonempty n : ulid n ≠ "";
}.
#[export] Existing Instance ulid_inj.

(** The [n]-th identifier has [n] further characters. *)
Fixpoint unary (n : nat) : string := match n with O => "u" | S n => String "x" (unary n) end.

Lemma unary_inj n m : unary n = unary m → n = m.
Proof. revert m. induction n as [|n IH]; intros [|m]; simpl; intros [=]; auto. Qed.

Lemma unary_nonempty n : unary n ≠ "".
Proof. by destruct n. Qed.

Definition unary_ulid : Ulid := {| ulid := unary; ulid_inj := unary_inj; ulid_nonempty := unary_nonempty |}.

(** ** lowbit.dev/seriallane: [lanes.Do(ctx, ns, fn)] runs [fn] alone in its
    lane and returns its error, or returns an error without running it (the
    context ended); [lane_error ns] is the latter outcome. *)
Class SerialLanes := { lane_error : string → option error }.

Definition lane_Do `{SerialLanes} {S} (ns : string) (fn : S → S * option error) (s : S)
  : S * option error :=
  match lane_error ns with
  | None => fn s
  | Some e => (s, Some e)
  end.

(** Lanes whose context never ends. *)
Definition open_lanes : SerialLanes := {| lane_error _ := None |}.

(** ** A network connection ([net.Conn]): writes are appended to the stream
    unless it was closed locally or has failed. *)
Record Conn := MkConn {
  conn_remote : string;
  conn_closed : bool;
  conn_broken : bool;
  conn_out : list string;
}.

#[export] Instance Conn_rebuild : Rebuild Conn := λ c,
  MkConn (conn_remote c) (conn_closed c) (conn_broken c) (conn_out c).

Definition conn_usable (c : Conn) : bool := negb (conn_closed c) && negb (conn_broken c).

Definition conn_Write (c : Conn) (data : string) : Conn * option error :=
  if conn_usable c then (c <| conn_out := conn_out c ++ [data] |>, None)
  else (c, Some ErrClosedConn).

Definition conn_Close (c : Conn) : Conn * option error :=
  if conn_closed c then (c, Some ErrClosedConn) else (c <| conn_closed := true |>, None).
