(* ===== verification/Json.v ===== *)
(** * Raw payload bytes in JSON documents (src/contract/json_or_bytes.go)

    The three pieces of [encoding/json] and [encoding/base64] the type relies on are
    written out: the syntax check [json.Valid], the compaction every
    [MarshalJSON] result goes through, and the base64 rendering of a [[]byte].
    Byte strings are Rocq strings. *)
From S2P Require Import Prelude GoStd External.

Definition dquote : ascii := ascii_of_N 34.
Definition backslash : ascii := ascii_of_N 92.

(** ** [encoding/base64], standard alphabet with padding *)
Definition b64_char (n : N) : ascii :=
  ascii_of_N (if (n <? 26)%N then 65 + n else if (n <? 52)%N then 71 + n
              else if (n <? 62)%N then n - 4 else if (n =? 62)%N then 43 else 47).

Definition b64_val (c : ascii) : option N :=
  let n := N_of_ascii c in
  if ((65 <=? n) && (n <=? 90))%N then Some (n - 65)%N
  else if ((97 <=? n) && (n <=? 122))%N then Some (n - 71)%N
  else if ((48 <=? n) && (n <=? 57))%N then Some (n + 4)%N
  else if (n =? 43)%N then Some 62%N
  else if (n =? 47)%N then Some 63%N
  else None.

Definition byte (c : ascii) : N := N_of_ascii c.

Fixpoint b64_encode (s : string) : string :=
  match s with
  | String a (String b (String c s)) =>
      String (b64_char (byte a / 4))
        (String (b64_char (byte a mod 4 * 16 + byte b / 16))
          (String (b64_char (byte b mod 16 * 4 + byte c / 64))
            (String (b64_char (byte c mod 64)) (b64_encode s))))
  | String a (String b EmptyString) =>
      String (b64_char (byte a / 4))
        (String (b64_char (byte a mod 4 * 16 + byte b / 16))
          (String (b64_char (byte b mod 16 * 4)) "="))
  | String a EmptyString =>
      String (b64_char (byte a / 4)) (String (b64_char (byte a mod 4 * 16)) "==")
  | EmptyString => ""
  end.

(** Groups of four symbols; padding only in the last group. *)
Definition is_pad (c : ascii) : bool := Ascii.eqb c "=".

Fixpoint b64_decode (s : string) : option string :=
  match s with
  | EmptyString => Some ""
  | String w (String x (String y (String z s))) =>
      v ← b64_val w; v1 ← b64_val x;
      if is_pad y && is_pad z && bool_decide (s = "") then
        Some (String (ascii_of_N (v * 4 + v1 / 16)) "")
      else
        v2 ← b64_val y;
        if is_pad z && bool_decide (s = "") then
          Some (String (ascii_of_N (v * 4 + v1 / 16))
                 (String (ascii_of_N (v1 mod 16 * 16 + v2 / 4)) ""))
        else
          v3 ← b64_val z; rest ← b64_decode s;
          Some (String (ascii_of_N (v * 4 + v1 / 16))
                 (String (ascii_of_N (v1 mod 16 * 16 + v2 / 4))
                   (String (ascii_of_N (v2 mod 4 * 64 + v3)) rest)))
  | _ => None
  end.

(** Line breaks are skipped by the decoder. *)
Fixpoint strip_newlines (s : string) : string :=
  match s with
  | EmptyString => ""
  | String c s =>
      if bool_decide (c = ascii_of_N 10 ∨ c = ascii_of_N 13) then strip_newlines s
      else String c (strip_newlines s)
  end.

(** ** JSON string literals *)

(** [json.Marshal] of a non-nil [[]byte]. *)
Definition json_bytes (s : string) : string := String dquote (b64_encode s +:+ String dquote "").

Definition hex_digit (c : ascii) : option N :=
  let n := N_of_ascii c in
  if ((48 <=? n) && (n <=? 57))%N then Some (n - 48)%N
  else if ((97 <=? n) && (n <=? 102))%N then Some (n - 87)%N
  else if ((65 <=? n) && (n <=? 70))%N then Some (n - 55)%N
  else None.

(** The one-byte escapes of a string literal. *)
Definition unescape (c : ascii) : option ascii :=
  match c with
  | "b"%char => Some (ascii_of_N 8) | "f"%char => Some (ascii_of_N 12)
  | "n"%char => Some (ascii_of_N 10) | "r"%char => Some (ascii_of_N 13)
  | "t"%char => Some (ascii_of_N 9) | "/"%char => Some c
  | _ => if bool_decide (c = dquote ∨ c = backslash) then Some c else None
  end.

(** The literal that starts after an opening quote: its content and what follows the closing
    quote; [None] if it is malformed. A [\u] escape outside ASCII contributes one non-ASCII byte. *)
Fixpoint json_string (s : string) : option (string * string) :=
  match s with
  | EmptyString => None
  | String c s =>
      if Ascii.eqb c dquote then Some ("", s)
      else if Ascii.eqb c backslash then
        match s with
        | String "u" (String h1 (String h2 (String h3 (String h4 s)))) =>
            d1 ← hex_digit h1; d2 ← hex_digit h2; d3 ← hex_digit h3; d4 ← hex_digit h4;
            '(body, rest) ← json_string s;
            let code := (4096 * d1 + 256 * d2 + 16 * d3 + d4)%N in
            Some (String (ascii_of_N (if (code <? 128)%N then code else 239)) body, rest)
        | String e s =>
            c ← unescape e; '(body, rest) ← json_string s; Some (String c body, rest)
        | EmptyString => None
        end
      else if (N_of_ascii c <? 32)%N then None
      else '(body, rest) ← json_string s; Some (String c body, rest)
  end.

(** [json.Unmarshal] of a quoted document into a [[]byte]. *)
Definition json_unbytes (data : string) : res error string :=
  match data with
  | String c s =>
      if Ascii.eqb c dquote then
        match json_string s with
        | Some (body, "") =>
            match b64_decode (strip_newlines body) with
            | Some b => Ok b
            | None => Err (ErrMsg "illegal base64 data")
            end
        | _ => Err (ErrMsg "invalid character")
        end
      else Err (ErrMsg "cannot unmarshal into []byte")
  | EmptyString => Err (ErrMsg "unexpected end of JSON input")
  end.

(** ** [json.Valid]: the grammar of RFC 8259 *)
Definition is_space (c : ascii) : bool :=
  bool_decide (N_of_ascii c ∈ [32; 9; 10; 13]%N).

Definition is_digit (c : ascii) : bool :=
  (48 <=? N_of_ascii c)%N && (N_of_ascii c <=? 57)%N.

Fixpoint skip_ws (s : string) : string :=
  match s with
  | String c s' => if is_space c then skip_ws s' else s
  | EmptyString => ""
  end.

Fixpoint skip_digits (s : string) : string :=
  match s with
  | String c s' => if is_digit c then skip_digits s' else s
  | EmptyString => ""
  end.

(** One or more digits. *)
Definition digits1 (s : string) : option string :=
  match s with
  | String c s' => if is_digit c then Some (skip_digits s') else None
  | EmptyString => None
  end.

Definition number_exp (s : string) : option string :=
  match s with
  | String "e" s | String "E" s =>
      match s with
      | String "+" s | String "-" s => digits1 s
      | _ => digits1 s
      end
  | _ => Some s
  end.

Definition json_number (s : string) : option string :=
  let s := match s with String "-" s => s | _ => s end in
  s ← match s with
      | String "0" s => Some s
      | _ => digits1 s
      end;
  s ← match s with String "." s => digits1 s | _ => Some s end;
  number_exp s.

Definition literal (lit s : string) : option string :=
  if HasPrefix lit s then Some (String.substring (String.length lit) (String.length s) s) else None.

(** A value and what follows it; the fuel bounds nesting and members, and the length of the
    text always suffices. *)
Fixpoint json_value (fuel : nat) (s : string) : option string :=
  match fuel with
  | O => None
  | S fuel =>
      let elements := fix elements n s :=
        match n with
        | O => None
        | S n =>
            s ← json_value fuel s;
            match skip_ws s with
            | String "," s => elements n s
            | String "]" s => Some s
            | _ => None
            end
        end in
      let members := fix members n s :=
        match n with
        | O => None
        | S n =>
            match skip_ws s with
            | String c s =>
                if Ascii.eqb c dquote then
                  '(_, s) ← json_string s;
                  match skip_ws s with
                  | String ":" s =>
                      s ← json_value fuel s;
                      match skip_ws s with
                      | String "," s => members n s
                      | String "}" s => Some s
                      | _ => None
                      end
                  | _ => None
                  end
                else None
            | _ => None
            end
        end in
      match skip_ws s with
      | String "{" s' =>
          match skip_ws s' with String "}" s => Some s | _ => members fuel s' end
      | String "[" s' =>
          match skip_ws s' with String "]" s => Some s | _ => elements fuel s' end
      | String "t" _ as s => literal "true" s
      | String "f" _ as s => literal "false" s
      | String "n" _ as s => literal "null" s
      | String c s' as s => if Ascii.eqb c dquote then snd <$> json_string s' else json_number s
      | EmptyString => None
      end
  end.

Definition json_Valid (s : string) : bool :=
  match json_value (S (String.length s)) s with
  | Some rest => bool_decide (skip_ws rest = "")
  | None => false
  end.

(** ** Compaction of a [MarshalJSON] result: white space outside literals is dropped; [<], [>] and [&] and the
    separators U+2028 and U+2029 (bytes E2 80 A8 and E2 80 A9) are written as escapes *)
Definition is_separator (c x y : ascii) : bool :=
  (N_of_ascii c =? 226)%N && (N_of_ascii x =? 128)%N && ((N_of_ascii y =? 168) || (N_of_ascii y =? 169))%N.

Definition escape_markup (c : ascii) : string :=
  match c with
  | "<"%char => "\u003c" | ">"%char => "\u003e" | "&"%char => "\u0026"
  | _ => String c ""
  end.

Fixpoint json_compact (in_string : bool) (s : string) : string :=
  match s with
  | EmptyString => ""
  | String c s =>
      let one :=
        if in_string then
          if Ascii.eqb c backslash then
            match s with
            | String e s => String c (String e (json_compact true s))
            | EmptyString => String c ""
            end
          else escape_markup c +:+ json_compact (negb (Ascii.eqb c dquote)) s
        else if is_space c then json_compact false s
        else escape_markup c +:+ json_compact (Ascii.eqb c dquote) s in
      match s with
      | String x (String y rest) =>
          if is_separator c x y
          then "\u202" +:+ String (if (N_of_ascii y =? 168)%N then "8" else "9") (json_compact in_string rest)
          else one
      | _ => one
      end
  end.

(** ** [JsonOrBytes]; [None] is the nil slice *)
Definition MarshalJSON (r : option string) : string :=
  match r with
  | None => "null"
  | Some r => if bool_decide (r ≠ "") && json_Valid r then r else json_bytes r
  end.

Definition UnmarshalJSON (data : string) : res error string :=
  match data with
  | String c (String _ _) => if Ascii.eqb c dquote then json_unbytes data else Ok data
  | _ => Ok data
  end.

(** A payload written into a document and read back. *)
Definition reload (r : option string) : res error string :=
  UnmarshalJSON (json_compact false (MarshalJSON r)).

(** ** Base64 round trip *)
Lemma below64 (P : N → bool) : forallb (λ k, P (N.of_nat k)) (seq 0 64) = true →
  ∀ n, (n < 64)%N → P n = true.
Proof.
  intros Hall n Hn. rewrite forallb_forall in Hall.
  rewrite <- (N2Nat.id n). apply Hall, in_seq. lia.
Qed.

Lemma b64_val_char n : (n < 64)%N → b64_val (b64_char n) = Some n.
Proof.
  intros Hn. eapply bool_decide_eq_true_1.
  exact (below64 (λ n, bool_decide (b64_val (b64_char n) = Some n)) eq_refl n Hn).
Qed.

Lemma b64_char_not_pad n : (n < 64)%N → is_pad (b64_char n) = false.
Proof. intros Hn. apply negb_true_iff. by apply (below64 (λ n, negb (is_pad (b64_char n)))). Qed.

Lemma byte_lt c : (byte c < 256)%N.
Proof. apply N_ascii_bounded. Qed.

Ltac b64_bytes :=
  repeat match goal with c : ascii |- _ =>
    lazymatch goal with
    | _ : (byte c < 256)%N |- _ => fail
    | _ => pose proof (byte_lt c)
    end
  end.

Ltac n_arith := zify; Z.to_euclidean_division_equations; lia.

Lemma ascii_of_byte c n : n = byte c → ascii_of_N n = c.
Proof. intros ->. apply ascii_N_embedding. Qed.

(** Strong induction in steps of three characters. *)
Lemma string_ind3 (P : string → Prop) :
  P "" → (∀ a, P (String a "")) → (∀ a b, P (String a (String b ""))) →
  (∀ a b c s, P s → P (String a (String b (String c s)))) → ∀ s, P s.
Proof.
  intros H0 H1 H2 H3. fix IH 1. intros [|a [|b [|c s]]]; [exact H0|apply H1|apply H2|apply H3, IH].
Qed.

Lemma b64_roundtrip s : b64_decode (b64_encode s) = Some s.
Proof.
  induction s as [|a|a b|a b c s IH] using string_ind3; [done|..];
    cbn [b64_encode b64_decode]; b64_bytes.
  - rewrite !b64_val_char by n_arith. simpl. do 2 f_equal. apply ascii_of_byte. n_arith.
  - rewrite !b64_val_char by n_arith. simpl.
    rewrite b64_char_not_pad by n_arith. simpl.
    do 2 f_equal; [|f_equal]; apply ascii_of_byte; n_arith.
  - rewrite !b64_val_char by n_arith. simpl.
    rewrite !b64_char_not_pad by n_arith. simpl. rewrite IH. simpl.
    do 2 f_equal; [|f_equal; [|f_equal]]; apply ascii_of_byte; n_arith.
Qed.

Lemma b64_decode_length s b : b64_decode s = Some b → String.length b ≤ String.length s.
Proof.
  revert s b. fix IH 1. intros [|w [|x [|y [|z s]]]] b; simpl; try done; [by intros [= <-]|].
  destruct (b64_val w), (b64_val x); simpl; try done. case_match; [intros [= <-]; simpl; lia|].
  destruct (b64_val y); simpl; [|done]. case_match; [intros [= <-]; simpl; lia|].
  destruct (b64_val z); simpl; [|done].
  destruct (b64_decode s) as [r|] eqn:E; simpl; [|done]. apply IH in E. intros [= <-]. simpl. lia.
Qed.

(** ** Characters that literals and compaction leave alone *)
Definition plain (c : ascii) : bool :=
  negb (Ascii.eqb c dquote) && negb (Ascii.eqb c backslash) && (32 <? N_of_ascii c)%N
  && negb (bool_decide (c ∈ ["<"; ">"; "&"]%char)) && (N_of_ascii c <? 128)%N.

Fixpoint all_chars (P : ascii → bool) (s : string) : bool :=
  match s with EmptyString => true | String c s => P c && all_chars P s end.

Lemma b64_char_plain n : (n < 64)%N → plain (b64_char n) = true.
Proof. intros Hn. by apply (below64 (λ n, plain (b64_char n))). Qed.

Lemma b64_encode_plain s : all_chars plain (b64_encode s) = true.
Proof.
  induction s as [|a|a b|a b c s IH] using string_ind3; [done|..];
    cbn [b64_encode all_chars]; b64_bytes; rewrite !b64_char_plain by n_arith; [done..|].
  by rewrite IH.
Qed.

Lemma plain_spec c : plain c = true →
  Ascii.eqb c dquote = false ∧ Ascii.eqb c backslash = false ∧ (32 < N_of_ascii c)%N ∧
  c ∉ ["<"; ">"; "&"]%char ∧ N_of_ascii c ≠ 226%N.
Proof.
  unfold plain. rewrite !andb_true_iff, !negb_true_iff. intros [[[[H1 H2] H3] H4] H5].
  apply N.ltb_lt in H5. split_and!; [done|done|by apply N.ltb_lt|by apply bool_decide_eq_false_1 in H4|lia].
Qed.

(** A character that starts no separator. *)
Lemma json_compact_cons b c s : N_of_ascii c ≠ 226%N → json_compact b (String c s) =
  if b then
    if Ascii.eqb c backslash then
      match s with String e s => String c (String e (json_compact true s)) | EmptyString => String c "" end
    else escape_markup c +:+ json_compact (negb (Ascii.eqb c dquote)) s
  else if is_space c then json_compact false s
  else escape_markup c +:+ json_compact (Ascii.eqb c dquote) s.
Proof.
  intros Hc. assert (∀ x y, is_separator c x y = false) as Hs.
  { intros x y. unfold is_separator. by rewrite (proj2 (N.eqb_neq _ _)). }
  cbn [json_compact]. destruct s as [|x [|y rest]]; [done..|]. by rewrite Hs.
Qed.

Lemma escape_markup_id c : c ∉ ["<"; ">"; "&"]%char → escape_markup c = String c "".
Proof.
  intros Hc. destruct (decide (c = "<"%char)) as [->|]; [set_solver|].
  destruct (decide (c = ">"%char)) as [->|]; [set_solver|].
  destruct (decide (c = "&"%char)) as [->|]; [set_solver|].
  destruct c as [[] [] [] [] [] [] [] []]; done.
Qed.

Lemma is_space_code c : is_space c = true → N_of_ascii c ≠ 226%N.
Proof. unfold is_space. rewrite bool_decide_eq_true. intros Hc E. rewrite E in Hc. revert Hc. vm_compute. set_solver. Qed.

Lemma strip_newlines_plain s : all_chars plain s = true → strip_newlines s = s.
Proof.
  induction s as [|c s IH]; simpl; [done|]. intros [Hc Hs]%andb_true_iff.
  apply plain_spec in Hc as (_ & _ & Hc & _ & _). rewrite bool_decide_eq_false_2.
  - by rewrite IH.
  - intros [->| ->]; revert Hc; vm_compute; done.
Qed.

Lemma json_string_plain s : all_chars plain s = true →
  json_string (s +:+ String dquote "") = Some (s, "").
Proof.
  induction s as [|c s IH]; [done|]. intros [Hc Hs]%andb_true_iff.
  apply plain_spec in Hc as (Hq & Hb & Hc & _ & _).
  change (String c s +:+ String dquote "") with (String c (s +:+ String dquote "")).
  cbn [json_string]. rewrite Hq, Hb, IH by done.
  by rewrite (proj2 (N.ltb_ge _ _)) by lia.
Qed.

Lemma json_compact_plain s : all_chars plain s = true →
  json_compact true (s +:+ String dquote "") = s +:+ String dquote "".
Proof.
  induction s as [|c s IH]; [done|]. intros [Hc Hs]%andb_true_iff.
  apply plain_spec in Hc as (Hq & Hb & _ & Hesc & Hsep).
  change (String c s +:+ String dquote "") with (String c (s +:+ String dquote "")).
  rewrite json_compact_cons, Hq, Hb by done. cbn [negb]. by rewrite IH, escape_markup_id.
Qed.

Lemma json_compact_literal s : all_chars plain s = true →
  json_compact false (String dquote (s +:+ String dquote "")) = String dquote (s +:+ String dquote "").
Proof.
  intros Hs. rewrite json_compact_cons by done. change (is_space dquote) with false.
  change (Ascii.eqb dquote dquote) with true. by rewrite json_compact_plain.
Qed.

Lemma json_bytes_roundtrip r : json_unbytes (json_compact false (json_bytes r)) = Ok r.
Proof.
  unfold json_bytes. pose proof (b64_encode_plain r) as Hp. rewrite json_compact_literal by done.
  unfold json_unbytes. change (Ascii.eqb dquote dquote) with true.
  by rewrite json_string_plain, strip_newlines_plain, b64_roundtrip.
Qed.

Lemma json_compact_skip_ws s : json_compact false s = json_compact false (skip_ws s).
Proof.
  induction s as [|c s IH]; [done|]. cbn [skip_ws]. destruct (is_space c) eqn:E; [|done].
  rewrite json_compact_cons by by apply is_space_code. by rewrite E.
Qed.

Lemma skip_ws_head s c t : skip_ws s = String c t → is_space c = false.
Proof. induction s as [|d s IH]; simpl; [done|]. destruct (is_space d) eqn:E; [done|]. by intros [= <- _]. Qed.

(** The first character of a compacted document is a quote only if the document is a literal. *)
Lemma json_compact_head s t : json_compact false s = String dquote t →
  ∃ t', skip_ws s = String dquote t'.
Proof.
  rewrite json_compact_skip_ws. destruct (skip_ws s) as [|c u] eqn:E; [done|].
  destruct (decide (c = dquote)) as [->|Hne]; [by eauto|]. intros Hc. exfalso.
  assert (∀ rest, escape_markup c +:+ rest ≠ String dquote t) as Hm.
  { intros rest. destruct (decide (c ∈ ["<"; ">"; "&"]%char)) as [Hin|Hin].
    - rewrite !elem_of_cons, elem_of_nil in Hin. by destruct_or! Hin; subst c.
    - rewrite escape_markup_id by done. intros Hr. by injection Hr. }
  revert Hc. cbn [json_compact]. rewrite (skip_ws_head _ _ _ E).
  destruct u as [|x [|y u]]; [apply Hm..|]. destruct (is_separator c x y); [done|apply Hm].
Qed.

Lemma UnmarshalJSON_inline data : (∀ t, data ≠ String dquote t) → UnmarshalJSON data = Ok data.
Proof.
  intros Hd. unfold UnmarshalJSON. destruct data as [|c [|d s]]; [done..|].
  destruct (Ascii.eqb_spec c dquote) as [->|]; [by destruct (Hd (String d s))|done].
Qed.

Lemma strip_newlines_length s : String.length (strip_newlines s) ≤ String.length s.
Proof. induction s as [|c s IH]; simpl; [done|]. case_match; simpl; lia. Qed.

Lemma json_string_length s body rest : json_string s = Some (body, rest) →
  String.length body + String.length rest < String.length s.
Proof.
  remember (String.length s) as n eqn:Hn. revert s body rest Hn.
  induction (lt_wf n) as [n _ IHn]. intros s body rest ->.
  assert (∀ s' b r, String.length s' < String.length s → json_string s' = Some (b, r) →
    String.length b + String.length r < String.length s') as IH by eauto. clear IHn.
  destruct s as [|c s]; [done|]. cbn [json_string String.length] in *.
  destruct (Ascii.eqb c dquote); [intros [= <- <-]; simpl; lia|].
  assert (∀ d s', String.length s' ≤ String.length s →
    ('(body, rest) ← json_string s'; Some (String d body, rest)) = Some (body, rest) →
    String.length body + String.length rest < S (String.length s)) as Hcons.
  { intros d s' Hs'. destruct (json_string s') as [[b r]|] eqn:E; simpl; [|done].
    apply IH in E; [|lia]. intros [= <- <-]. simpl. lia. }
  destruct (Ascii.eqb c backslash).
  - assert (∀ e s', s = String e s' →
      (c ← unescape e; '(body, rest) ← json_string s'; Some (String c body, rest)) =
        Some (body, rest) → String.length body + String.length rest < S (String.length s)) as Hesc.
    { intros e s' ->. destruct (unescape e); simpl; [|done]. apply Hcons. simpl. lia. }
    destruct s as [|e s]; [done|]. destruct (decide (e = "u"%char)) as [->|Hne].
    + destruct s as [|h1 [|h2 [|h3 [|h4 s]]]]; try by apply (Hesc "u"%char).
      destruct (hex_digit h1), (hex_digit h2), (hex_digit h3), (hex_digit h4); simpl; try done.
      apply Hcons. simpl. lia.
    + intros Hx. apply (Hesc e s eq_refl). clear -Hx Hne.
      destruct e as [[] [] [] [] [] [] [] []]; done.
  - destruct (_ <? _)%N; [done|]. by apply Hcons.
Qed.

Lemma json_unbytes_length data b : json_unbytes data = Ok b → String.length b < String.length data.
Proof.
  unfold json_unbytes. destruct data as [|c s]; [done|]. destruct (Ascii.eqb c dquote); [|done].
  destruct (json_string s) as [[body rest]|] eqn:E; [|done]. destruct rest; [|done].
  destruct (b64_decode (strip_newlines body)) as [b'|] eqn:Eb; [|done]. intros [= <-].
  apply json_string_length in E. apply b64_decode_length in Eb.
  pose proof (strip_newlines_length body). simpl. lia.
Qed.

(** A [JsonOrBytes] field of a stored struct; the empty string is the nil slice. *)
Definition reload_field (p : string) : res error string :=
  reload (if bool_decide (p = "") then None else Some p).

(** ** Properties *)

(** C32: Stored payloads round-trip. Bytes that are not JSON come back exactly, through base64, the empty slice
    included. A JSON document other than a string literal comes back as the same document with insignificant
    white space removed and markup characters and line separators written as escapes, hence byte for byte if it
    is compact and has none of them. The nil payload comes back as the four bytes null. *)
Theorem payload_roundtrip (r : string) :
  (json_Valid r = false → reload (Some r) = Ok r) ∧
  (json_Valid r = true → (∀ t, skip_ws r ≠ String dquote t) → reload (Some r) = Ok (json_compact false r)) ∧
  reload None = Ok "null".
Proof.
  unfold reload, MarshalJSON. split; [|split; [|reflexivity]].
  - intros ->. rewrite andb_false_r. pose proof (json_bytes_roundtrip r) as Hr.
    unfold json_bytes in *. rewrite json_compact_literal in * by apply b64_encode_plain.
    unfold UnmarshalJSON. change (Ascii.eqb dquote dquote) with true. by destruct (b64_encode r).
  - intros Hv Hs. rewrite Hv, bool_decide_eq_true_2 by (by intros ->). simpl.
    apply UnmarshalJSON_inline. intros t [t' Ht]%json_compact_head. by eapply Hs.
Qed.

(** The text of a document with a line separator and a markup character. *)
Definition separated : string :=
  "[1, " +:+ String dquote (String (ascii_of_N 226) (String (ascii_of_N 128) (String (ascii_of_N 169) ("<" +:+ String dquote "]")))).

Lemma payload_roundtrip_witness :
  reload (Some "not json") = Ok "not json" ∧
  reload (Some separated) = Ok ("[1," +:+ String dquote ("\u2029\u003c" +:+ String dquote "]")).
Proof.
  split.
  - destruct (payload_roundtrip "not json") as [Hb _]. apply Hb. vm_compute. reflexivity.
  - destruct (payload_roundtrip separated) as (_ & Hj & _).
    etrans; [apply Hj; [vm_compute; reflexivity|]|vm_compute; reflexivity]. intros t. vm_compute. intros [=].
Defined.

(** A payload that is a JSON string literal never survives storage: it is written verbatim but read
    back as base64, which either fails or yields different bytes. (White space around or markup
    characters inside the literal are excluded by the compactness hypothesis.) *)
Theorem json_string_payload_lost (r t : string) :
  json_Valid r = true → json_compact false r = r → r = String dquote t → t ≠ "" →
  reload (Some r) ≠ Ok r.
Proof.
  intros Hv Hc Hr Ht. unfold reload, MarshalJSON. rewrite Hv, bool_decide_eq_true_2 by (by rewrite Hr).
  simpl. rewrite Hc. intros Hu.
  assert (json_unbytes r = Ok r) as Hx%json_unbytes_length; [|lia].
  rewrite <- Hu. subst r. unfold UnmarshalJSON. destruct t as [|d t]; [done|].
  by change (Ascii.eqb dquote dquote) with true.
Qed.

Lemma json_string_payload_lost_witness :
  let r := String dquote ("hello" +:+ String dquote "") in
  json_Valid r = true ∧ reload (Some r) ≠ Ok r.
Proof.
  split; [vm_compute; reflexivity|].
  apply (json_string_payload_lost _ ("hello" +:+ String dquote "")); done.
Defined.
