(* ===== verification/Contract.v ===== *)
(** * Package [contract]: the data shared by the manager and its workers

    Jobs, runs, tasks, worker states and retry policies, with the source's
    fields and constructors (src/contract/job.go, run.go, task.go, worker.go).
    Payload bytes ([JsonOrBytes], [[]byte]) are Rocq strings, i.e. byte
    sequences; a [float64] that is only stored is its IEEE-754 bit pattern. *)
From S2P Require Import Prelude GoStd.

(** ** Job lifecycle states (job.go) *)
Inductive JobStatus :=
| JobStatusPending
| JobStatusProposing
| JobStatusAccepted
| JobStatusProvisioning
| JobStatusRunning
| JobStatusAwaitingChildren
| JobStatusCompleted
| JobStatusFailed
| JobStatusCancelled.

#[export] Instance JobStatus_eq_dec : EqDecision JobStatus.
Proof. solve_decision. Defined.

Definition IsTerminal (s : JobStatus) : bool :=
  bool_decide (s = JobStatusCompleted) || bool_decide (s = JobStatusFailed)
  || bool_decide (s = JobStatusCancelled).

Lemma IsTerminal_true s :
  IsTerminal s = true ↔ s = JobStatusCompleted ∨ s = JobStatusFailed ∨ s = JobStatusCancelled.
Proof. destruct s; naive_solver. Qed.

Definition JobStatus_string (s : JobStatus) : string :=
  match s with
  | JobStatusPending => "pending"
  | JobStatusProposing => "proposing"
  | JobStatusAccepted => "accepted"
  | JobStatusProvisioning => "provisioning"
  | JobStatusRunning => "running"
  | JobStatusAwaitingChildren => "awaiting_children"
  | JobStatusCompleted => "completed"
  | JobStatusFailed => "failed"
  | JobStatusCancelled => "cancelled"
  end.

Inductive JobPhase := JobPhaseRun | JobPhaseConsolidate.

#[export] Instance JobPhase_eq_dec : EqDecision JobPhase.
Proof. solve_decision. Defined.

Definition JobPhase_string (p : JobPhase) : string :=
  match p with JobPhaseRun => "run" | JobPhaseConsolidate => "consolidate" end.

(** ** Jobs (job.go) *)
Record Job := MkJob {
  job_ID : string;
  job_ParentJobID : string;
  job_TaskName : string;
  job_ArtifactVersion : string;
  job_Status : JobStatus;
  job_Phase : JobPhase;
  job_Priority : Z;
  job_Cost : Z;
  job_Attempts : Z;
  job_Payload : string;
  job_Result : string;
  job_FailureReason : string;
  job_WebhookURL : string;
  job_WebhookEvents : list string;
  job_WebhookHeaders : gmap string string;
  job_CreatedAt : Time;
  job_UpdatedAt : Time;
  job_CompletedAt : option Time;
  job_Duration : option Duration;
}.

#[export] Instance Job_rebuild : Rebuild Job := λ j,
  MkJob (job_ID j) (job_ParentJobID j) (job_TaskName j) (job_ArtifactVersion j)
    (job_Status j) (job_Phase j) (job_Priority j) (job_Cost j) (job_Attempts j)
    (job_Payload j) (job_Result j) (job_FailureReason j) (job_WebhookURL j)
    (job_WebhookEvents j) (job_WebhookHeaders j) (job_CreatedAt j) (job_UpdatedAt j)
    (job_CompletedAt j) (job_Duration j).

#[export] Instance Job_eq_dec : EqDecision Job.
Proof. solve_decision. Defined.

(** The zero [Job], and the zero value of the other structs below. *)
Definition zero_job : Job :=
  MkJob "" "" "" "" JobStatusPending JobPhaseRun
    0%Z 0%Z 0%Z "" "" "" "" [] ∅ time_zero time_zero None None.

#[export] Instance Job_inhabited : Inhabited Job := populate zero_job.

(** A child result carried by a consolidate payload (job.go). *)
Record ChildJobResult := MkChildJobResult {
  cjr_JobID : string;
  cjr_TaskName : string;
  cjr_Result : string;
}.

Record ConsolidatePayload := MkConsolidatePayload {
  cp_Payload : string;
  cp_Children : list ChildJobResult;
}.

(** ** Execution attempts (run.go) *)
Inductive RunStatus :=
| RunStatusProvisioning | RunStatusRunning | RunStatusCompleted | RunStatusFailed.

#[export] Instance RunStatus_eq_dec : EqDecision RunStatus.
Proof. solve_decision. Defined.

(** [ResultType] of proto_message.go. *)
Inductive ResultType := ResultSuccess | ResultError | ResultSubjobs.

#[export] Instance ResultType_eq_dec : EqDecision ResultType.
Proof. solve_decision. Defined.

Record JobRun := MkJobRun {
  run_ID : string;
  run_JobID : string;
  run_Phase : JobPhase;
  run_Attempt : Z;
  run_WorkerID : string;
  run_Status : RunStatus;
  run_InputPayload : string;
  run_OutputPayload : string;
  run_FailureReason : string;
  run_ExitCode : Z;
  (** [None] is the empty string, before a result is known *)
  run_ResultType : option ResultType;
  run_StartedAt : Time;
  run_FinishedAt : Time;
}.

#[export] Instance JobRun_rebuild : Rebuild JobRun := λ r,
  MkJobRun (run_ID r) (run_JobID r) (run_Phase r) (run_Attempt r) (run_WorkerID r)
    (run_Status r) (run_InputPayload r) (run_OutputPayload r) (run_FailureReason r)
    (run_ExitCode r) (run_ResultType r) (run_StartedAt r) (run_FinishedAt r).

#[export] Instance JobRun_eq_dec : EqDecision JobRun.
Proof. solve_decision. Defined.

(** ** Tasks and retry policies (task.go) *)
Notation float64 := Z (only parsing).

Record RetryPolicy := MkRetryPolicy {
  MaxAttempts : Z;
  RetryDelay : Duration;
  MaxRetryDelay : Duration;
}.

Record Limitations := MkLimitations {
  MaxExecutionTime : Duration;
  MaxMemoryBytes : Z;
  MaxCPUCores : float64;
}.

Record Task := MkTask {
  task_Name : string;
  task_Limitations : Limitations;
  task_RetryPolicy : RetryPolicy;
  task_NoResult : bool;
  task_Cost : Z;
}.

#[export] Instance Task_rebuild : Rebuild Task := λ t,
  MkTask (task_Name t) (task_Limitations t) (task_RetryPolicy t) (task_NoResult t) (task_Cost t).

#[export] Instance RetryPolicy_eq_dec : EqDecision RetryPolicy.
Proof. solve_decision. Defined.
#[export] Instance Limitations_eq_dec : EqDecision Limitations.
Proof. solve_decision. Defined.
#[export] Instance Task_eq_dec : EqDecision Task.
Proof. solve_decision. Defined.

Record ArtifactInfo := MkArtifactInfo {
  ai_Hash : string;
  ai_URL : string;
  ai_Dependencies : list string;
}.

(** ** Worker states (worker.go): an [int32] with named values *)
Notation WorkerState := Z (only parsing).
Definition WorkerStateOnline : WorkerState := 0%Z.
Definition WorkerStatePressure : WorkerState := 1%Z.
Definition WorkerStateDraining : WorkerState := 2%Z.
Definition WorkerStateOffline : WorkerState := 3%Z.
Definition WorkerStateShuttingDown : WorkerState := 4%Z.

(** Conversion [WorkerState(v)] of an [int] keeps the low 32 bits. *)
Definition wrap32 (z : Z) : Z := ((z + 2147483648) mod 4294967296 - 2147483648)%Z.

Definition WorkerState_String (s : WorkerState) : string :=
  if (s =? WorkerStateOnline)%Z then "online"
  else if (s =? WorkerStatePressure)%Z then "pressured"
  else if (s =? WorkerStateDraining)%Z then "draining"
  else if (s =? WorkerStateShuttingDown)%Z then "shuttingDown"
  else if (s =? WorkerStateOffline)%Z then "offline"
  else "unknown".

Definition IsValidWorkerState (v : Z) : bool :=
  negb (bool_decide (WorkerState_String (wrap32 v) = "unknown")).

Lemma IsValidWorkerState_spec v :
  IsValidWorkerState v = true ↔ (0 ≤ wrap32 v ≤ 4)%Z.
Proof.
  unfold IsValidWorkerState, WorkerState_String. unfold_leibniz.
  generalize (wrap32 v) as n; intros n.
  unfold WorkerStateOnline, WorkerStatePressure, WorkerStateDraining,
    WorkerStateShuttingDown, WorkerStateOffline.
  repeat match goal with |- context [(?a =? ?b)%Z] => destruct (Z.eqb_spec a b) end;
    simpl; split; intros Hx; try done; lia.
Qed.

(** [AtomicWorkerState]: the cell with its load, store and compare-and-swap. *)
Record AtomicWorkerState := MkAtomicWorkerState { aws_v : WorkerState }.

Definition aws_Load (a : AtomicWorkerState) : WorkerState := aws_v a.
Definition aws_Is (a : AtomicWorkerState) (s : WorkerState) : bool := (aws_Load a =? s)%Z.
Definition aws_Store (a : AtomicWorkerState) (s : WorkerState) : AtomicWorkerState :=
  MkAtomicWorkerState s.
Definition aws_Transition (a : AtomicWorkerState) (from to : WorkerState)
  : AtomicWorkerState * bool :=
  if (aws_v a =? from)%Z then (MkAtomicWorkerState to, true) else (a, false).
