(* ===== verification/Store.v ===== *)
(** * The store contract and its in-memory implementation (src/manager/store/memstore.go)

    [Entities] is the state both stores keep in memory: jobs, task definitions,
    runs and pending webhooks, by identifier.  The functions on it are the
    bodies of the store methods; they also serve as the specification that the
    interface [Store] (the Go interfaces of src/manager/config.go and
    src/manager/webhooks/store.go) promises to its clients.  Values are copied
    on every read and write, as the methods do. *)
From S2P Require Import Prelude GoStd External Contract.

(** A pending webhook delivery (src/manager/webhooks/store.go). *)
Record WebhookEntry := MkWebhookEntry {
  wh_ID : string;
  wh_JobID : string;
  wh_Event : string;
  wh_URL : string;
  wh_Payload : string;
  wh_Headers : gmap string string;
  wh_Attempts : Z;
  wh_NextAttemptAt : Time;
  wh_CreatedAt : Time;
}.

#[export] Instance WebhookEntry_rebuild : Rebuild WebhookEntry := λ w,
  MkWebhookEntry (wh_ID w) (wh_JobID w) (wh_Event w) (wh_URL w) (wh_Payload w) (wh_Headers w)
    (wh_Attempts w) (wh_NextAttemptAt w) (wh_CreatedAt w).

#[export] Instance WebhookEntry_eq_dec : EqDecision WebhookEntry.
Proof. solve_decision. Defined.

Record Entities := MkEntities {
  jobs : gmap string Job;
  taskDefs : gmap string Task;
  runs : gmap string JobRun;
  webhooks : gmap string WebhookEntry;
}.

#[export] Instance Entities_rebuild : Rebuild Entities := λ e,
  MkEntities (jobs e) (taskDefs e) (runs e) (webhooks e).

Definition no_entities : Entities := MkEntities ∅ ∅ ∅ ∅.

(** ** Jobs *)
Definition SaveJob (e : Entities) (job : Job) : Entities :=
  e <| jobs := <[job_ID job := job]> (jobs e) |>.

Definition GetJob (e : Entities) (id : string) : res error Job :=
  match jobs e !! id with
  | Some job => Ok job
  | None => Err (ErrNotFound "job" id)
  end.

Definition UpdateJob (e : Entities) (id : string) (mutate : Job → Job) : Entities * option error :=
  match jobs e !! id with
  | Some job => (e <| jobs := <[id := mutate job]> (jobs e) |>, None)
  | None => (e, Some (ErrNotFound "job" id))
  end.

(** [all[i].CreatedAt.After(all[j].CreatedAt)] and its siblings. *)
Definition newer_first (x y : Job) : bool := After (job_CreatedAt x) (job_CreatedAt y).
Definition older_first (x y : Job) : bool := Before (job_CreatedAt x) (job_CreatedAt y).
Definition higher_first (x y : Job) : bool := (job_Priority y <? job_Priority x)%Z.

Section listing.
Context `{GoRuntime}.

Definition root_jobs (e : Entities) : list Job :=
  sort_slice newer_first (filter (λ j, job_ParentJobID j = "") (range_values (jobs e))).

(** [ListJobs]; [None] is a slice-bounds or index panic. *)
Definition ListJobs (e : Entities) (cursor : string) (limit : Z) : option (list Job * string) :=
  let all := root_jobs e in
  let start := if bool_decide (cursor = "") then O
               else match list_find (λ j, job_ID j = cursor) all with
                    | Some (i, _) => S i
                    | None => O
                    end in
  if length all <=? start then Some ([], "")
  else
    let stop := wrap64 (Z.of_nat start + limit) in
    let stop := if (Z.of_nat (length all) <? stop)%Z then Z.of_nat (length all) else stop in
    if (stop <? Z.of_nat start)%Z then None
    else
      let page := take (Z.to_nat stop - start) (drop start all) in
      if (stop <? Z.of_nat (length all))%Z then
        match last page with
        | Some j => Some (page, job_ID j)
        | None => None
        end
      else Some (page, "").

Definition ListPendingJobs (e : Entities) : list Job :=
  sort_slice higher_first (filter (λ j, job_Status j = JobStatusPending) (range_values (jobs e))).

Definition recoverable (s : JobStatus) : bool :=
  match s with
  | JobStatusProposing | JobStatusProvisioning | JobStatusRunning => true
  | _ => false
  end.

Definition ListRecoverableJobs (e : Entities) : list Job :=
  filter (λ j, recoverable (job_Status j) = true) (range_values (jobs e)).

Definition ListChildJobs (e : Entities) (parentJobID : string) : list Job :=
  sort_slice older_first (filter (λ j, job_ParentJobID j = parentJobID) (range_values (jobs e))).

Definition CountJobsByStatus (e : Entities) : JobStatus → Z :=
  foldl (λ counts j s, if bool_decide (s = job_Status j) then wrap64 (counts s + 1) else counts s)
    (λ _, 0%Z) (range_values (jobs e)).

(** ** Task definitions *)
Definition SaveTask (e : Entities) (task : Task) : Entities :=
  e <| taskDefs := <[task_Name task := task]> (taskDefs e) |>.

Definition GetTask (e : Entities) (name : string) : res error Task :=
  match taskDefs e !! name with
  | Some task => Ok task
  | None => Err (ErrNotFound "task" name)
  end.

(** Go compares strings bytewise. *)
Fixpoint str_lt (a b : string) : bool :=
  match a, b with
  | EmptyString, EmptyString => false
  | EmptyString, String _ _ => true
  | String _ _, EmptyString => false
  | String x a, String y b =>
      (N_of_ascii x <? N_of_ascii y)%N || (Ascii.eqb x y && str_lt a b)
  end.

Definition ListTasks (e : Entities) : list Task :=
  sort_slice (λ x y, str_lt (task_Name x) (task_Name y)) (range_values (taskDefs e)).

Definition UpdateTask (e : Entities) (name : string) (mutate : Task → Task)
  : Entities * option error :=
  match taskDefs e !! name with
  | Some task => (e <| taskDefs := <[name := mutate task]> (taskDefs e) |>, None)
  | None => (e, Some (ErrNotFound "task" name))
  end.

Definition DeleteTask (e : Entities) (name : string) : Entities * option error :=
  match taskDefs e !! name with
  | Some _ => (e <| taskDefs := delete name (taskDefs e) |>, None)
  | None => (e, Some (ErrNotFound "task" name))
  end.

(** ** Runs *)
Definition CreateRun (e : Entities) (run : JobRun) : Entities :=
  e <| runs := <[run_ID run := run]> (runs e) |>.

Definition UpdateRun (e : Entities) (id : string) (mutate : JobRun → JobRun)
  : Entities * option error :=
  match runs e !! id with
  | Some run => (e <| runs := <[id := mutate run]> (runs e) |>, None)
  | None => (e, Some (ErrNotFound "run" id))
  end.

Definition GetRun (e : Entities) (id : string) : res error JobRun :=
  match runs e !! id with
  | Some run => Ok run
  | None => Err (ErrNotFound "run" id)
  end.

Definition run_less (x y : JobRun) : bool :=
  if IsZero (run_StartedAt x) || IsZero (run_StartedAt y)
  then (run_Attempt x <? run_Attempt y)%Z
  else Before (run_StartedAt x) (run_StartedAt y).

Definition ListJobRuns (e : Entities) (jobID : string) : list JobRun :=
  sort_slice run_less (filter (λ r, run_JobID r = jobID) (range_values (runs e))).

(** ** Webhooks *)
Definition EnqueueWebhook (e : Entities) (entry : WebhookEntry) : Entities :=
  e <| webhooks := <[wh_ID entry := entry]> (webhooks e) |>.

Definition DequeueWebhooks (e : Entities) (now : Time) : list WebhookEntry :=
  filter (λ w, After (wh_NextAttemptAt w) now = false) (range_values (webhooks e)).

Definition AckWebhook (e : Entities) (id : string) : Entities :=
  e <| webhooks := delete id (webhooks e) |>.

Definition nack (attempts : Z) (nextAttemptAt : Time) (w : WebhookEntry) : WebhookEntry :=
  w <| wh_Attempts := attempts |> <| wh_NextAttemptAt := nextAttemptAt |>.

Definition NackWebhook (e : Entities) (id : string) (attempts : Z) (nextAttemptAt : Time)
  : Entities * option error :=
  match webhooks e !! id with
  | Some entry => (e <| webhooks := <[id := nack attempts nextAttemptAt entry]> (webhooks e) |>, None)
  | None => (e, Some (ErrNotFound "webhook entry" id))
  end.
End listing.

(** ** The interface: a store whose every method behaves as on its [Entities] *)
Class Store (ST : Type) := {
  entities : ST → Entities;
  st_SaveJob : ST → Job → ST * option error;
  st_UpdateJob : ST → string → (Job → Job) → ST * option error;
  st_SaveTask : ST → Task → ST * option error;
  st_UpdateTask : ST → string → (Task → Task) → ST * option error;
  st_DeleteTask : ST → string → ST * option error;
  st_CreateRun : ST → JobRun → ST * option error;
  st_UpdateRun : ST → string → (JobRun → JobRun) → ST * option error;
  st_EnqueueWebhook : ST → WebhookEntry → ST * option error;
  st_AckWebhook : ST → string → ST * option error;
  st_NackWebhook : ST → string → Z → Time → ST * option error;
  st_AppendRunLog : ST → string → string → ST * option error;
  st_CloseRunLogSubscribers : ST → string → ST;
  st_CloseJobLogSubscribers : ST → string → ST;
  st_SubscribeJobLogs : ST → string → option (nat * ST);
  st_SubscribeRunLogs : ST → string → option (nat * ST);
  st_job_subscription_done : ST → string → nat → ST;
  ent_SaveJob s j : entities (st_SaveJob s j).1 = SaveJob (entities s) j;
  err_SaveJob s j : (st_SaveJob s j).2 = None;
  ent_UpdateJob s id f : entities (st_UpdateJob s id f).1 = (UpdateJob (entities s) id f).1;
  err_UpdateJob s id f : (st_UpdateJob s id f).2 = (UpdateJob (entities s) id f).2;
  ent_SaveTask s t : entities (st_SaveTask s t).1 = SaveTask (entities s) t;
  err_SaveTask s t : (st_SaveTask s t).2 = None;
  ent_UpdateTask s n f : entities (st_UpdateTask s n f).1 = (UpdateTask (entities s) n f).1;
  err_UpdateTask s n f : (st_UpdateTask s n f).2 = (UpdateTask (entities s) n f).2;
  ent_DeleteTask s n : entities (st_DeleteTask s n).1 = (DeleteTask (entities s) n).1;
  err_DeleteTask s n : (st_DeleteTask s n).2 = (DeleteTask (entities s) n).2;
  ent_CreateRun s r : entities (st_CreateRun s r).1 = CreateRun (entities s) r;
  err_CreateRun s r : (st_CreateRun s r).2 = None;
  ent_UpdateRun s id f : entities (st_UpdateRun s id f).1 = (UpdateRun (entities s) id f).1;
  err_UpdateRun s id f : (st_UpdateRun s id f).2 = (UpdateRun (entities s) id f).2;
  ent_EnqueueWebhook s w : entities (st_EnqueueWebhook s w).1 = EnqueueWebhook (entities s) w;
  err_EnqueueWebhook s w : (st_EnqueueWebhook s w).2 = None;
  ent_AckWebhook s id : entities (st_AckWebhook s id).1 = AckWebhook (entities s) id;
  err_AckWebhook s id : (st_AckWebhook s id).2 = None;
  ent_NackWebhook s id n t : entities (st_NackWebhook s id n t).1 = (NackWebhook (entities s) id n t).1;
  err_NackWebhook s id n t : (st_NackWebhook s id n t).2 = (NackWebhook (entities s) id n t).2;
  ent_AppendRunLog s id d : entities (st_AppendRunLog s id d).1 = entities s;
  ent_CloseRun s id : entities (st_CloseRunLogSubscribers s id) = entities s;
  ent_CloseJob s id : entities (st_CloseJobLogSubscribers s id) = entities s;
  ent_SubscribeJob s id ch s' : st_SubscribeJobLogs s id = Some (ch, s') → entities s' = entities s;
  ent_SubscribeRun s id ch s' : st_SubscribeRunLogs s id = Some (ch, s') → entities s' = entities s;
  ent_job_subscription s id ch : entities (st_job_subscription_done s id ch) = entities s;
}.

#[export] Hint Rewrite @ent_SaveJob @err_SaveJob @ent_UpdateJob @err_UpdateJob @ent_SaveTask
  @err_SaveTask @ent_UpdateTask @err_UpdateTask @ent_DeleteTask @err_DeleteTask @ent_CreateRun
  @err_CreateRun @ent_UpdateRun @err_UpdateRun @ent_EnqueueWebhook @err_EnqueueWebhook
  @ent_AckWebhook @err_AckWebhook @ent_NackWebhook @err_NackWebhook @ent_AppendRunLog
  @ent_CloseRun @ent_CloseJob : store.

(** ** Identifiers: every entity is stored under its own id *)
Record ids_ok (e : Entities) : Prop := {
  ids_jobs : ∀ id j, jobs e !! id = Some j → job_ID j = id;
  ids_tasks : ∀ id t, taskDefs e !! id = Some t → task_Name t = id;
  ids_runs : ∀ id r, runs e !! id = Some r → run_ID r = id;
  ids_webhooks : ∀ id w, webhooks e !! id = Some w → wh_ID w = id;
}.

Lemma no_entities_ids : ids_ok no_entities.
Proof. split; intros id x; simpl; by rewrite lookup_empty. Qed.

(** ** The listings *)
#[export] Instance swo_newer : StrictWeakOrder newer_first.
Proof. split; unfold newer_first, After; intros; zb; rewrite ?Z.ltb_lt, ?Z.ltb_ge; lia. Qed.
#[export] Instance swo_older : StrictWeakOrder older_first.
Proof. split; unfold older_first, Before; intros; zb; rewrite ?Z.ltb_lt, ?Z.ltb_ge; lia. Qed.
#[export] Instance swo_higher : StrictWeakOrder higher_first.
Proof. split; unfold higher_first; intros; zb; rewrite ?Z.ltb_lt, ?Z.ltb_ge; lia. Qed.

Section listings.
Context `{GoRuntime}.
Implicit Types e : Entities.

Lemma elem_of_root_jobs e j :
  j ∈ root_jobs e ↔ (∃ id, jobs e !! id = Some j) ∧ job_ParentJobID j = "".
Proof. unfold root_jobs. rewrite elem_of_sort_slice, list_elem_of_filter, elem_of_range_values. naive_solver. Qed.

Lemma elem_of_ListPendingJobs e j :
  j ∈ ListPendingJobs e ↔ (∃ id, jobs e !! id = Some j) ∧ job_Status j = JobStatusPending.
Proof. unfold ListPendingJobs. rewrite elem_of_sort_slice, list_elem_of_filter, elem_of_range_values. naive_solver. Qed.

Lemma elem_of_ListRecoverableJobs e j :
  j ∈ ListRecoverableJobs e ↔ (∃ id, jobs e !! id = Some j) ∧ recoverable (job_Status j) = true.
Proof. unfold ListRecoverableJobs. rewrite list_elem_of_filter, elem_of_range_values. naive_solver. Qed.

Lemma elem_of_ListChildJobs e p j :
  j ∈ ListChildJobs e p ↔ (∃ id, jobs e !! id = Some j) ∧ job_ParentJobID j = p.
Proof. unfold ListChildJobs. rewrite elem_of_sort_slice, list_elem_of_filter, elem_of_range_values. naive_solver. Qed.

(** Values of a map whose entries carry their own key are distinct. *)
Lemma range_values_NoDup {V} (m : gmap string V) (key : V → string) :
  (∀ k v, m !! k = Some v → key v = k) → NoDup (key <$> range_values m).
Proof.
  intros Hk. unfold range_values.
  replace (key <$> (range_map m).*2) with (range_map m).*1; [apply range_map_NoDup|].
  rewrite <- list_fmap_compose. apply list_fmap_ext. intros i [k v] Hi. simpl.
  symmetry. apply Hk. apply elem_of_range_map. by eapply list_elem_of_lookup_2.
Qed.

Lemma filter_fmap_NoDup {A B} (f : A → B) (P : A → Prop) `{∀ x, Decision (P x)} l :
  NoDup (f <$> l) → NoDup (f <$> filter P l).
Proof.
  intros Hl. eapply sublist_NoDup; [exact Hl|]. apply fmap_sublist, sublist_filter.
Qed.

Lemma root_jobs_NoDup e : ids_ok e → NoDup (job_ID <$> root_jobs e).
Proof.
  intros He. unfold root_jobs. rewrite sort_slice_perm.
  apply filter_fmap_NoDup, range_values_NoDup. apply (ids_jobs _ He).
Qed.
End listings.

(** ** Paging *)

(** Follow the cursors from [cursor] until the last page; call [n] runs under the runtime
    choices [rts n], since neither map order nor the sort is the same from call to call. *)
Fixpoint list_pages (rts : nat → GoRuntime) (fuel n : nat) (e : Entities) (cursor : string)
    (limit : Z) : option (list Job) :=
  match fuel with
  | O => None
  | S fuel =>
      match @ListJobs (rts n) e cursor limit with
      | None => None
      | Some (page, next) =>
          if bool_decide (next = "") then Some page
          else (page ++.) <$> list_pages rts fuel (S n) e next limit
      end
  end.

Definition distinct_ages (e : Entities) : Prop := ∀ id1 id2 j1 j2,
  jobs e !! id1 = Some j1 → jobs e !! id2 = Some j2 →
  job_CreatedAt j1 = job_CreatedAt j2 → id1 = id2.

(** When creation times differ the listing is the same under every runtime. *)
Lemma root_jobs_unique (rt1 rt2 : GoRuntime) e : distinct_ages e →
  @root_jobs rt1 e = @root_jobs rt2 e.
Proof.
  intros Hd. apply (StronglySorted_unique_strong (not_after newer_first)).
  - intros x y Hx Hy. unfold not_after, newer_first, After. intros H1 H2. zb.
    apply elem_of_root_jobs in Hx as [[i Hi] _]. apply elem_of_root_jobs in Hy as [[k Hk] _].
    assert (i = k) as -> by (eapply Hd; [done|done|lia]). congruence.
  - apply sort_slice_sorted, _.
  - apply sort_slice_sorted, _.
  - unfold root_jobs. rewrite !sort_slice_perm. f_equiv.
    unfold range_values. by rewrite (@range_map_perm rt1), (@range_map_perm rt2).
Qed.

(** The page that starts at position [start] of a listing with distinct ids. *)
Lemma list_find_id (l : list Job) i j : NoDup (job_ID <$> l) → l !! i = Some j →
  list_find (λ x, job_ID x = job_ID j) l = Some (i, j).
Proof.
  intros Hnd Hi. apply list_find_Some. split_and!; [done|done|].
  intros k y Hk Hki Heq. apply (NoDup_lookup (job_ID <$> l) i k (job_ID j)) in Hnd; [lia|..];
    rewrite list_lookup_fmap; [by rewrite Hi|by rewrite Hk, <- Heq].
Qed.

Section paging.
Context (rts : nat → GoRuntime) (e : Entities) (limit : Z).
Hypothesis He : ids_ok e.
Hypothesis Hd : distinct_ages e.
Hypothesis Hne : ∀ id j, jobs e !! id = Some j → id ≠ "".
Hypothesis Hlimit : (0 < limit)%Z.
Hypothesis Hwidth : (Z.of_nat (size (jobs e)) + limit ≤ MaxInt64)%Z.

Let all := @root_jobs canonical_runtime e.

(** [cursor] resumes the listing at position [start]. *)
Definition resumes (cursor : string) (start : nat) : Prop :=
  (cursor = "" ∧ start = 0) ∨
  ∃ i j, all !! i = Some j ∧ cursor = job_ID j ∧ start = S i.

Lemma all_length : (Z.of_nat (length all) ≤ Z.of_nat (size (jobs e)))%Z.
Proof.
  unfold all, root_jobs. rewrite (Permutation_length (sort_slice_perm _ _)).
  apply inj_le. etrans; [apply length_filter|].
  unfold range_values. by rewrite length_fmap, range_map_length.
Qed.

Lemma all_id_ne i j : all !! i = Some j → job_ID j ≠ "".
Proof.
  intros Hi%list_elem_of_lookup_2. apply elem_of_root_jobs in Hi as [[id Hid] _].
  rewrite (ids_jobs _ He _ _ Hid). by eapply Hne.
Qed.

Lemma ListJobs_at n cursor start : resumes cursor start →
  ∃ page next, @ListJobs (rts n) e cursor limit = Some (page, next) ∧
    ((next = "" ∧ page = drop start all) ∨
     ∃ stop, start < stop < length all ∧ resumes next stop ∧ next ≠ "" ∧
       page = take (stop - start) (drop start all)).
Proof.
  intros Hr. unfold ListJobs. rewrite (root_jobs_unique (rts n) canonical_runtime e Hd). fold all.
  assert ((if bool_decide (cursor = "") then O
           else match list_find (λ j, job_ID j = cursor) all with
                | Some (i, _) => S i | None => O end) = start) as ->.
  { destruct Hr as [[-> ->]|(i & j & Hi & -> & ->)]; [done|].
    rewrite bool_decide_eq_false_2 by by eapply all_id_ne.
    rewrite (list_find_id all i j); [done| |done]. by apply root_jobs_NoDup. }
  pose proof all_length. destruct (length all <=? start) eqn:Estart.
  { apply Nat.leb_le in Estart. eexists _, _. split; [done|]. left. split; [done|].
    by rewrite drop_ge. }
  apply Nat.leb_gt in Estart. rewrite wrap64_id by (i64; lia).
  destruct (Z.of_nat (length all) <? Z.of_nat start + limit)%Z eqn:E1; zb.
  - rewrite (proj2 (Z.ltb_ge _ _)) by lia. rewrite Z.ltb_irrefl.
    eexists _, _. split; [done|]. left. split; [done|]. rewrite Nat2Z.id.
    apply take_ge. rewrite length_drop. lia.
  - rewrite (proj2 (Z.ltb_ge _ _)) by lia.
    set (stop := Z.to_nat (Z.of_nat start + limit)).
    destruct (Z.of_nat start + limit <? Z.of_nat (length all))%Z eqn:E2; zb.
    + destruct (lookup_lt_is_Some_2 all (stop - 1) ltac:(lia)) as [j Hj].
      assert (last (take (stop - start) (drop start all)) = Some j) as ->.
      { rewrite last_lookup, length_take, length_drop, lookup_take_lt, lookup_drop by lia.
        rewrite <- Hj. f_equal. lia. }
      eexists _, _. split; [done|]. right. exists stop. split_and!; [lia|lia|..|done].
      * right. exists (stop - 1), j. split_and!; [done|done|lia].
      * by eapply all_id_ne.
    + eexists _, _. split; [done|]. left. split; [done|].
      apply take_ge. rewrite length_drop. lia.
Qed.

Lemma list_pages_from fuel n cursor start : resumes cursor start →
  length all - start < fuel → list_pages rts fuel n e cursor limit = Some (drop start all).
Proof.
  revert n cursor start. induction fuel as [|fuel IH]; intros n cursor start Hr Hf; [lia|].
  cbn [list_pages]. destruct (ListJobs_at n cursor start Hr) as (page & next & -> & Hpage).
  destruct Hpage as [[-> ->]|(stop & Hstop & Hnext & Hne' & ->)].
  - by rewrite bool_decide_eq_true_2.
  - rewrite bool_decide_eq_false_2 by done. rewrite (IH _ _ stop) by (done || lia). simpl. f_equal.
    rewrite <- (take_drop (stop - start) (drop start all)) at 2. rewrite drop_drop. do 2 f_equal. lia.
Qed.
End paging.

(** ** Properties *)

(** C26: Following the cursors lists every root job exactly once, newest first. Whatever order the runtime
    ranges over the map and sorts in on each request, as long as creation times differ and the page
    size is positive: no page fails, the pages end, and their concatenation is a duplicate-free listing
    of precisely the jobs without a parent in descending order of creation. *)
Theorem paging_lists_every_root_job (rts : nat → GoRuntime) (e : Entities) (limit : Z) (fuel : nat) :
  ids_ok e → distinct_ages e → (∀ id j, jobs e !! id = Some j → id ≠ "") →
  (0 < limit)%Z → (Z.of_nat (size (jobs e)) + limit ≤ MaxInt64)%Z → size (jobs e) < fuel →
  ∃ l, list_pages rts fuel 0 e "" limit = Some l ∧ NoDup (job_ID <$> l) ∧
    StronglySorted (λ x y, job_CreatedAt y ≤ job_CreatedAt x)%Z l ∧
    ∀ j, j ∈ l ↔ (∃ id, jobs e !! id = Some j) ∧ job_ParentJobID j = "".
Proof.
  intros He Hd Hne Hlimit Hwidth Hfuel. exists (@root_jobs canonical_runtime e). split_and!.
  - rewrite (list_pages_from rts e limit He Hd Hne Hlimit Hwidth fuel 0 "" 0); [done|by left|].
    pose proof (all_length e). lia.
  - by apply root_jobs_NoDup.
  - eapply StronglySorted_impl; [|apply sort_slice_sorted, swo_newer].
    intros x y. unfold not_after, newer_first, After. intros Hxy. zb. done.
  - intros j. apply elem_of_root_jobs.
Qed.

Definition sample_entities : Entities :=
  SaveJob (SaveJob (SaveJob no_entities (zero_job <| job_ID := "a" |> <| job_CreatedAt := 1%Z |>))
    (zero_job <| job_ID := "b" |> <| job_CreatedAt := 2%Z |>))
    (zero_job <| job_ID := "c" |> <| job_CreatedAt := 3%Z |> <| job_ParentJobID := "a" |>).

Lemma paging_lists_every_root_job_witness :
  ∃ l, list_pages (λ _, canonical_runtime) 4 0 sample_entities "" 1 = Some l ∧
    job_ID <$> l = ["b"; "a"].
Proof.
  destruct (paging_lists_every_root_job (λ _, canonical_runtime) sample_entities 1 4)
    as (l & Hl & _).
  - split; intros id x; simpl; rewrite ?lookup_empty; try done.
    rewrite !lookup_insert_Some, lookup_empty. naive_solver.
  - intros i1 i2 j1 j2. simpl. rewrite !lookup_insert_Some, !lookup_empty. naive_solver.
  - intros id j. simpl. rewrite !lookup_insert_Some, lookup_empty. naive_solver.
  - lia.
  - vm_compute. congruence.
  - vm_compute. lia.
  - exists l. split; [exact Hl|].
    assert (list_pages (λ _, canonical_runtime) 4 0 sample_entities "" 1 =
      list_pages (λ _, canonical_runtime) 4 0 sample_entities "" 1) as E by reflexivity.
    rewrite Hl in E at 1. revert E. vm_compute. by intros [= ->].
Defined.

(** A runtime that ranges over maps the other way round. *)
Definition reversed_runtime : GoRuntime := {|
  range_map := λ V m, reverse (map_to_list m);
  range_map_perm := λ V m, reverse_Permutation _;
  sort_slice := @isort;
  sort_slice_perm := @isort_perm;
  sort_slice_sorted := @isort_sorted;
|}.

(** Two jobs created at the same instant. *)
Definition twin_entities : Entities :=
  SaveJob (SaveJob no_entities (zero_job <| job_ID := "a" |>)) (zero_job <| job_ID := "b" |>).

(** Distinct creation times are needed: of two jobs of one instant, the listing by pages of one leaves one out when
    the runtime orders them differently for the second request. *)
Lemma equal_ages_lose_a_job :
  ∃ x y, list_pages (λ n, if n =? 0 then canonical_runtime else reversed_runtime) 3 0 twin_entities "" 1 = Some [x] ∧
    jobs twin_entities !! job_ID y = Some y ∧ job_ParentJobID y = "" ∧ job_ID x ≠ job_ID y.
Proof.
  eexists _, (zero_job <| job_ID := "b" |>). split; [vm_compute; reflexivity|].
  split; [vm_compute; reflexivity|]. split; [reflexivity|vm_compute; discriminate].
Qed.

(** The other listings are exact: [ListPendingJobs] returns precisely the pending jobs by descending
    priority, [ListChildJobs] precisely the jobs of a parent by creation time, [ListRecoverableJobs]
    precisely the jobs that are being proposed, provisioned or run; none of them returns a job twice. *)
Theorem listings_exact `{GoRuntime} (e : Entities) (parent : string) :
  ids_ok e →
  (NoDup (job_ID <$> ListPendingJobs e) ∧
   StronglySorted (λ x y, job_Priority y ≤ job_Priority x)%Z (ListPendingJobs e) ∧
   ∀ j, j ∈ ListPendingJobs e ↔ (∃ id, jobs e !! id = Some j) ∧ job_Status j = JobStatusPending) ∧
  (NoDup (job_ID <$> ListChildJobs e parent) ∧
   StronglySorted (λ x y, job_CreatedAt x ≤ job_CreatedAt y)%Z (ListChildJobs e parent) ∧
   ∀ j, j ∈ ListChildJobs e parent ↔ (∃ id, jobs e !! id = Some j) ∧ job_ParentJobID j = parent) ∧
  (NoDup (job_ID <$> ListRecoverableJobs e) ∧
   ∀ j, j ∈ ListRecoverableJobs e ↔ (∃ id, jobs e !! id = Some j) ∧
     (job_Status j = JobStatusProposing ∨ job_Status j = JobStatusProvisioning ∨
      job_Status j = JobStatusRunning)).
Proof.
  intros He. pose proof (range_values_NoDup (jobs e) job_ID (ids_jobs _ He)) as Hnd. split_and!.
  - unfold ListPendingJobs. rewrite sort_slice_perm. by apply filter_fmap_NoDup.
  - eapply StronglySorted_impl; [|apply sort_slice_sorted, swo_higher].
    intros x y. unfold not_after, higher_first. intros Hxy. zb. done.
  - intros j. apply elem_of_ListPendingJobs.
  - unfold ListChildJobs. rewrite sort_slice_perm. by apply filter_fmap_NoDup.
  - eapply StronglySorted_impl; [|apply sort_slice_sorted, swo_older].
    intros x y. unfold not_after, older_first, Before. intros Hxy. zb. done.
  - intros j. apply elem_of_ListChildJobs.
  - by apply filter_fmap_NoDup.
  - intros j. rewrite elem_of_ListRecoverableJobs. f_equiv. destruct (job_Status j); simpl; naive_solver.
Qed.

Lemma sample_entities_ids : ids_ok sample_entities.
Proof.
  split; intros id x; simpl; rewrite ?lookup_empty; try done.
  rewrite !lookup_insert_Some, lookup_empty. naive_solver.
Qed.

Lemma listings_exact_witness :
  NoDup (job_ID <$> @ListChildJobs canonical_runtime sample_entities "a") ∧
  job_ID <$> @ListChildJobs canonical_runtime sample_entities "a" = ["c"].
Proof.
  destruct (@listings_exact canonical_runtime sample_entities "a" sample_entities_ids) as (_ & (H & _) & _).
  split; [exact H|vm_compute; reflexivity].
Defined.

(** The order in which runs of a job are listed is not an order: comparing by attempt when one
    of two runs has not started, and by start time otherwise, is cyclic as soon as an unstarted run's
    attempt number falls between two started runs whose start times are reversed, so the listing then
    depends on the order the map was ranged in. *)
Theorem run_order_is_cyclic (r1 r2 r3 : JobRun) :
  run_StartedAt r2 = time_zero → (run_Attempt r1 < run_Attempt r2 < run_Attempt r3)%Z →
  (0 < run_StartedAt r3 < run_StartedAt r1)%Z →
  run_less r1 r2 = true ∧ run_less r2 r3 = true ∧ run_less r3 r1 = true ∧
  ¬ StrictWeakOrder run_less.
Proof.
  intros H2 Ha Hs.
  assert (run_less r1 r2 = true ∧ run_less r2 r3 = true ∧ run_less r3 r1 = true) as (H12 & H23 & H31).
  { unfold run_less, IsZero, Before, time_zero in *. rewrite H2. simpl. rewrite orb_true_r.
    rewrite !(proj2 (Z.eqb_neq _ 0)) by lia. simpl. split_and!; apply Z.ltb_lt; lia. }
  split_and!; try done. intros Hswo.
  destruct (swo_cotrans _ r3 _ H12) as [Hx|Hx];
    [apply swo_asym in Hx|apply swo_asym in Hx]; congruence.
Qed.

Definition sample_run (attempt : Z) (started : Time) : JobRun :=
  MkJobRun "r" "j" JobPhaseRun attempt "w" RunStatusRunning "" "" "" 0 None started time_zero.

Lemma run_order_is_cyclic_witness : ¬ StrictWeakOrder run_less.
Proof.
  destruct (run_order_is_cyclic (sample_run 1 9) (sample_run 2 0) (sample_run 3 5)) as (_ & _ & _ & H);
    [reflexivity|simpl; lia|simpl; lia|exact H].
Defined.
