(* ===== verification/MemStore.v ===== *)
(** * [MemStore] (src/manager/store/memstore.go): log streams and the store instance

    Run logs are byte buffers; a subscriber is a channel of capacity 64 held by address,
    so that the subscriber lists and the goroutine watching its context share it.  A send
    on, or a second close of, a closed channel panics: [panicked] records that the
    process has died. *)
From S2P Require Import Prelude GoStd External Contract Store.

Record LogChan := MkLogChan {
  lc_buf : list string;
  lc_closed : bool;
}.

#[export] Instance LogChan_rebuild : Rebuild LogChan := λ c, MkLogChan (lc_buf c) (lc_closed c).

Record LogState := MkLogState {
  runLogs : gmap string string;
  runSubscribers : gmap string (list nat);
  jobSubscribers : gmap string (list nat);
  chans : gmap nat LogChan;
  next_chan : nat;
  panicked : bool;
}.

#[export] Instance LogState_rebuild : Rebuild LogState := λ l,
  MkLogState (runLogs l) (runSubscribers l) (jobSubscribers l) (chans l) (next_chan l) (panicked l).

Definition no_logs : LogState := MkLogState ∅ ∅ ∅ ∅ 0 false.

Definition chan_capacity : nat := 64.

(** [select { case ch <- chunk: default: }]. *)
Definition offer (chunk : string) (l : LogState) (ch : nat) : LogState :=
  match chans l !! ch with
  | None => l
  | Some c =>
      if lc_closed c then l <| panicked := true |>
      else if length (lc_buf c) <? chan_capacity
      then l <| chans := <[ch := c <| lc_buf := lc_buf c ++ [chunk] |>]> (chans l) |>
      else l
  end.

Definition close_chan (l : LogState) (ch : nat) : LogState :=
  match chans l !! ch with
  | None => l
  | Some c =>
      if lc_closed c then l <| panicked := true |>
      else l <| chans := <[ch := c <| lc_closed := true |>]> (chans l) |>
  end.

Section logs.
Context `{GoRuntime}.
Implicit Types (e : Entities) (l : LogState).

Definition AppendRunLog e l (runID data : string) : LogState :=
  let l := l <| runLogs := <[runID := default "" (runLogs l !! runID) +:+ data]> (runLogs l) |> in
  let runSubs := default [] (runSubscribers l !! runID) in
  let jobSubs := match runs e !! runID with
                 | Some run => default [] (jobSubscribers l !! run_JobID run)
                 | None => []
                 end in
  foldl (offer data) (foldl (offer data) l runSubs) jobSubs.

Definition GetRunLogReader l (runID : string) : string := default "" (runLogs l !! runID).

Definition run_logs_of e l (jobID : string) : string :=
  foldl (λ out run, match runLogs l !! run_ID run with Some buf => out +:+ buf | None => out end)
    "" (ListJobRuns e jobID).

Definition GetJobLogReader e l (jobID : string) : string := run_logs_of e l jobID.

Definition GetRootJobLogReader e l (rootJobID : string) : string :=
  let jobIDs := rootJobID :: (job_ID <$> ListChildJobs e rootJobID) in
  foldl (λ out jobID, out +:+ run_logs_of e l jobID) "" jobIDs.

(** A new channel pre-filled with [chunks]; [None] when the sends block, since nobody
    receives before the function returns. *)
Definition make_chan l (chunks : list string) : option (nat * LogState) :=
  if chan_capacity <? length chunks then None
  else Some (next_chan l, l <| chans := <[next_chan l := MkLogChan chunks false]> (chans l) |>
                            <| next_chan := S (next_chan l) |>).

Definition SubscribeJobLogs e l (jobID : string) : option (nat * LogState) :=
  let chunks := omap (λ run, match runLogs l !! run_ID run with
                             | Some buf => if bool_decide (buf = "") then None else Some buf
                             | None => None
                             end) (ListJobRuns e jobID) in
  '(ch, l) ← make_chan l chunks;
  Some (ch, l <| jobSubscribers :=
    <[jobID := default [] (jobSubscribers l !! jobID) ++ [ch]]> (jobSubscribers l) |>).

(** The goroutine [SubscribeJobLogs] leaves behind, when the context ends. *)
Fixpoint remove_first (ch : nat) (subs : list nat) : list nat :=
  match subs with
  | [] => []
  | sub :: subs => if decide (sub = ch) then subs else sub :: remove_first ch subs
  end.

Definition job_subscription_done l (jobID : string) (ch : nat) : LogState :=
  let subs := default [] (jobSubscribers l !! jobID) in
  let l := if decide (ch ∈ subs)
           then l <| jobSubscribers := <[jobID := remove_first ch subs]> (jobSubscribers l) |>
           else l in
  close_chan l ch.

Definition SubscribeRunLogs l (runID : string) : option (nat * LogState) :=
  let chunks := match runLogs l !! runID with
                | Some buf => if bool_decide (buf = "") then [] else [buf]
                | None => []
                end in
  '(ch, l) ← make_chan l chunks;
  Some (ch, l <| runSubscribers :=
    <[runID := default [] (runSubscribers l !! runID) ++ [ch]]> (runSubscribers l) |>).

Definition CloseRunLogSubscribers l (runID : string) : LogState :=
  let l := foldl close_chan l (default [] (runSubscribers l !! runID)) in
  l <| runSubscribers := delete runID (runSubscribers l) |>.

Definition CloseJobLogSubscribers l (jobID : string) : LogState :=
  let l := foldl close_chan l (default [] (jobSubscribers l !! jobID)) in
  l <| jobSubscribers := delete jobID (jobSubscribers l) |>.

(** A reader takes the oldest chunk. *)
Definition receive l (ch : nat) : option string * LogState :=
  match chans l !! ch with
  | Some (MkLogChan (chunk :: buf) closed) =>
      (Some chunk, l <| chans := <[ch := MkLogChan buf closed]> (chans l) |>)
  | _ => (None, l)
  end.
End logs.

(** ** The store *)
Record MemStore := MkMemStore { mem_entities : Entities; mem_logs : LogState }.

#[export] Instance MemStore_rebuild : Rebuild MemStore := λ s,
  MkMemStore (mem_entities s) (mem_logs s).

Definition NewMemStore : MemStore := MkMemStore no_entities no_logs.

Definition mem_total (f : Entities → Entities) (s : MemStore) : MemStore * option error :=
  (s <| mem_entities := f (mem_entities s) |>, None).

Definition mem_partial (f : Entities → Entities * option error) (s : MemStore)
  : MemStore * option error :=
  let '(e, err) := f (mem_entities s) in (s <| mem_entities := e |>, err).

#[export, refine] Instance MemStore_Store `{GoRuntime} : Store MemStore := {|
  entities := mem_entities;
  st_SaveJob s j := mem_total (λ e, SaveJob e j) s;
  st_UpdateJob s id f := mem_partial (λ e, UpdateJob e id f) s;
  st_SaveTask s t := mem_total (λ e, SaveTask e t) s;
  st_UpdateTask s n f := mem_partial (λ e, UpdateTask e n f) s;
  st_DeleteTask s n := mem_partial (λ e, DeleteTask e n) s;
  st_CreateRun s r := mem_total (λ e, CreateRun e r) s;
  st_UpdateRun s id f := mem_partial (λ e, UpdateRun e id f) s;
  st_EnqueueWebhook s w := mem_total (λ e, EnqueueWebhook e w) s;
  st_AckWebhook s id := mem_total (λ e, AckWebhook e id) s;
  st_NackWebhook s id n t := mem_partial (λ e, NackWebhook e id n t) s;
  st_AppendRunLog s id d :=
    (s <| mem_logs := AppendRunLog (mem_entities s) (mem_logs s) id d |>, None);
  st_CloseRunLogSubscribers s id := s <| mem_logs := CloseRunLogSubscribers (mem_logs s) id |>;
  st_CloseJobLogSubscribers s id := s <| mem_logs := CloseJobLogSubscribers (mem_logs s) id |>;
  st_SubscribeJobLogs s id :=
    '(ch, l) ← SubscribeJobLogs (mem_entities s) (mem_logs s) id; Some (ch, s <| mem_logs := l |>);
  st_SubscribeRunLogs s id := '(ch, l) ← SubscribeRunLogs (mem_logs s) id; Some (ch, s <| mem_logs := l |>);
  st_job_subscription_done s id ch := s <| mem_logs := job_subscription_done (mem_logs s) id ch |>;
|}.
Proof.
  all: intros; unfold mem_partial, mem_total; try reflexivity.
  all: try (match goal with E : mbind _ _ = Some _ |- _ => apply bind_Some in E as ([? ?] & _ & [= <- <-]); reflexivity end).
  all: match goal with |- context [let '(_, _) := ?p in _] => by destruct p end.
Defined.

(** ** Subscribers *)
Definition chunks_of (l : LogState) (ch : nat) : string :=
  match chans l !! ch with Some c => str_concat (lc_buf c) | None => "" end.

(** Every registered subscriber is a channel that was created. *)
Definition subs_fresh (l : LogState) : Prop := ∀ id ch,
  ch ∈ default [] (runSubscribers l !! id) ∨ ch ∈ default [] (jobSubscribers l !! id) →
  ch < next_chan l.

Definition same_subs (l l' : LogState) : Prop :=
  runSubscribers l' = runSubscribers l ∧ jobSubscribers l' = jobSubscribers l ∧
  runLogs l' = runLogs l.

Lemma offer_subs chunk l ch : same_subs l (offer chunk l ch).
Proof. unfold offer. repeat case_match; done. Qed.

Lemma offers_subs chunk l subs : same_subs l (foldl (offer chunk) l subs).
Proof.
  revert l. induction subs as [|s subs IH]; intros l; simpl; [done|].
  destruct (IH (offer chunk l s)) as (E1 & E2 & E3). destruct (offer_subs chunk l s) as (E4 & E5 & E6).
  split_and!; congruence.
Qed.

Lemma offers_other chunk l subs ch : ch ∉ subs →
  chans (foldl (offer chunk) l subs) !! ch = chans l !! ch.
Proof.
  revert l. induction subs as [|s subs IH]; intros l Hch; simpl; [done|].
  rewrite IH by set_solver. unfold offer. repeat case_match; simpl; try done.
  rewrite lookup_insert_ne by set_solver. done.
Qed.

(** A follower that keeps up: an open channel, subscribed once to its run and nowhere else. *)
Record follows (runID : string) (l : LogState) (ch : nat) (buf : list string) : Prop := {
  fo_chan : chans l !! ch = Some (MkLogChan buf false);
  fo_sub : ∃ old, runSubscribers l !! runID = Some (old ++ [ch]) ∧ ch ∉ old;
  fo_only : ∀ id, id ≠ runID → ch ∉ default [] (runSubscribers l !! id);
  fo_job : ∀ id, ch ∉ default [] (jobSubscribers l !! id);
  fo_log : str_concat buf = default "" (runLogs l !! runID);
}.

Lemma AppendRunLog_follows e l runID ch buf id data : follows runID l ch buf →
  (id = runID → length buf < chan_capacity) →
  follows runID (AppendRunLog e l id data) ch (if decide (id = runID) then buf ++ [data] else buf).
Proof.
  intros Hf Hroom. unfold AppendRunLog.
  set (l1 := l <| runLogs := _ |>).
  set (jobSubs := match runs e !! id with Some _ => _ | None => _ end).
  assert (ch ∉ jobSubs) as Hjob.
  { unfold jobSubs. destruct (runs e !! id); [apply (fo_job _ _ _ _ Hf)|set_solver]. }
  set (l2 := foldl (offer data) l1 _).
  pose proof (offers_subs data l2 jobSubs) as (E1 & E2 & E3).
  pose proof (offers_subs data l1 (default [] (runSubscribers l1 !! id))) as (E4 & E5 & E6).
  fold l2 in E4, E5, E6.
  split.
  - rewrite offers_other by done. unfold l2. simpl. case_decide as Hid; [subst id|].
    + destruct (fo_sub _ _ _ _ Hf) as (old & -> & Hold). simpl. rewrite foldl_snoc.
      unfold offer at 1. rewrite offers_other by done. simpl. rewrite (fo_chan _ _ _ _ Hf). simpl.
      rewrite (proj2 (Nat.ltb_lt _ _)) by auto. simpl. by rewrite lookup_insert_eq.
    + rewrite offers_other by by apply (fo_only _ _ _ _ Hf). apply (fo_chan _ _ _ _ Hf).
  - rewrite E1, E4. apply (fo_sub _ _ _ _ Hf).
  - rewrite E1, E4. apply (fo_only _ _ _ _ Hf).
  - rewrite E2, E5. apply (fo_job _ _ _ _ Hf).
  - rewrite E3, E6. simpl. case_decide as Hid; [subst id|].
    + rewrite lookup_insert_eq, str_concat_snoc. simpl. by rewrite (fo_log _ _ _ _ Hf).
    + rewrite lookup_insert_ne by done. apply (fo_log _ _ _ _ Hf).
Qed.

Lemma SubscribeRunLogs_follows l runID : subs_fresh l →
  ∃ ch l' buf, SubscribeRunLogs l runID = Some (ch, l') ∧ follows runID l' ch buf ∧ length buf ≤ 1.
Proof.
  intros Hfresh. unfold SubscribeRunLogs, make_chan.
  set (chunks := match runLogs l !! runID with Some _ => _ | None => _ end).
  assert (length chunks ≤ 1 ∧ str_concat chunks = default "" (runLogs l !! runID)) as [Hlen Hlog].
  { unfold chunks. destruct (runLogs l !! runID) as [buf|]; simpl; [|by split; [lia|]].
    case_bool_decide; simpl; subst; (split; [lia|by rewrite ?str_app_nil_r]). }
  rewrite (proj2 (Nat.ltb_ge _ _)) by (unfold chan_capacity; lia). simpl.
  assert (∀ id, next_chan l ∉ default [] (runSubscribers l !! id)) as Hr.
  { intros id Hin. specialize (Hfresh id (next_chan l) (or_introl Hin)). lia. }
  assert (∀ id, next_chan l ∉ default [] (jobSubscribers l !! id)) as Hj.
  { intros id Hin. specialize (Hfresh id (next_chan l) (or_intror Hin)). lia. }
  eexists _, _, chunks. split_and!; [done| |done]. split; simpl.
  - by rewrite lookup_insert_eq.
  - exists (default [] (runSubscribers l !! runID)). by rewrite lookup_insert_eq.
  - intros id Hid. by rewrite lookup_insert_ne.
  - done.
  - done.
Qed.

Lemma appends_follow e runID ch ops l buf : follows runID l ch buf →
  length buf + length (filter (λ op, op.1 = runID) ops) ≤ chan_capacity →
  ∃ buf', follows runID (foldl (λ l op, AppendRunLog e l op.1 op.2) l ops) ch buf'.
Proof.
  revert l buf. induction ops as [|[id data] ops IH]; intros l buf Hf Hroom; simpl; [by eauto|].
  rewrite filter_cons in Hroom. simpl in Hroom.
  eapply IH; [apply AppendRunLog_follows; [done|]|].
  - intros ->. case_decide; [|done]. simpl in Hroom. lia.
  - case_decide; [|done]. rewrite length_app. simpl in *. lia.
Qed.

Lemma close_chan_panicked l ch : panicked l = true → panicked (close_chan l ch) = true.
Proof. intros Hl. unfold close_chan. by repeat case_match. Qed.

Lemma close_chan_closed l ch c :
  (∃ x, chans l !! ch = Some x ∧ lc_closed x = true) →
  ∃ x, chans (close_chan l c) !! ch = Some x ∧ lc_closed x = true.
Proof.
  intros (x & Hx & Hc). unfold close_chan. repeat case_match; simpl; try by eauto.
  destruct (decide (c = ch)) as [->|]; [rewrite lookup_insert_eq; by eauto|].
  rewrite lookup_insert_ne by done. by eauto.
Qed.

Lemma close_chan_open l ch c b : chans l !! ch = Some (MkLogChan b false) →
  ∃ b', chans (close_chan l c) !! ch = Some (MkLogChan b' (bool_decide (c = ch))).
Proof.
  intros Hx. unfold close_chan. destruct (decide (c = ch)) as [->|Hne].
  - rewrite Hx. simpl. rewrite lookup_insert_eq, bool_decide_eq_true_2 by done. by eauto.
  - rewrite bool_decide_eq_false_2 by done. repeat case_match; simpl; eauto.
    rewrite lookup_insert_ne by done. by eauto.
Qed.

Lemma close_all_closed l subs ch b : chans l !! ch = Some (MkLogChan b false) → ch ∈ subs →
  ∃ x, chans (foldl close_chan l subs) !! ch = Some x ∧ lc_closed x = true.
Proof.
  intros Hx Hin.
  assert (∀ subs l, (∃ x, chans l !! ch = Some x ∧ lc_closed x = true) →
    ∃ x, chans (foldl close_chan l subs) !! ch = Some x ∧ lc_closed x = true) as Hkeep.
  { clear. intros subs. induction subs as [|s subs IH]; intros l Hl; simpl; [done|].
    apply IH. by apply close_chan_closed. }
  revert l b Hx Hin. induction subs as [|s subs IH]; intros l b Hx Hin; simpl; [set_solver|].
  destruct (close_chan_open l ch s b Hx) as (b' & Hb).
  destruct (decide (s = ch)) as [->|Hne].
  - apply Hkeep. eexists. split; [done|]. by rewrite bool_decide_eq_true_2.
  - rewrite bool_decide_eq_false_2 in Hb by done. eapply IH; [done|]. set_solver.
Qed.

(** ** Properties *)

(** Following a run's log misses nothing and repeats nothing. However appends to this and to other
    runs interleave after the subscription, as long as at most 63 chunks of the run are waiting, what the
    subscriber has received is exactly the run's log as a reader sees it: the part from before the
    subscription followed by every later chunk in order. *)
Theorem log_follow_complete (e : Entities) (l : LogState) (runID : string) (ops : list (string * string)) :
  subs_fresh l → length (filter (λ op, op.1 = runID) ops) < chan_capacity →
  ∃ ch l', SubscribeRunLogs l runID = Some (ch, l') ∧
    let final := foldl (λ l op, AppendRunLog e l op.1 op.2) l' ops in
    chunks_of final ch = GetRunLogReader final runID.
Proof.
  intros Hfresh Hroom. destruct (SubscribeRunLogs_follows l runID Hfresh) as (ch & l' & buf & E & Hf & Hb).
  exists ch, l'. split; [done|].
  destruct (appends_follow e runID ch ops l' buf Hf ltac:(lia)) as [buf' Hf'].
  unfold chunks_of, GetRunLogReader. simpl.
  by rewrite (fo_chan _ _ _ _ Hf'), <- (fo_log _ _ _ _ Hf').
Qed.

Lemma log_follow_complete_witness :
  ∃ ch l', SubscribeRunLogs (AppendRunLog no_entities no_logs "r1" "ab") "r1" = Some (ch, l') ∧
    chunks_of (AppendRunLog no_entities l' "r1" "cd") ch =
      GetRunLogReader (AppendRunLog no_entities l' "r1" "cd") "r1".
Proof.
  destruct (log_follow_complete no_entities (AppendRunLog no_entities no_logs "r1" "ab") "r1" [("r1", "cd")])
    as (ch & l' & E & Hx).
  - intros id ch. change (runSubscribers _) with (∅ : gmap string (list nat)).
    change (jobSubscribers _) with (∅ : gmap string (list nat)). rewrite lookup_empty. set_solver.
  - vm_compute. lia.
  - exists ch, l'. split; [exact E|exact Hx].
Defined.

(** A client that follows a job's log until the job ends takes the manager down. When a job reaches
    a final state its subscriber channels are closed; the request of the client then ends, and the
    goroutine that watches the request closes the same channel a second time, which panics outside
    any recovery. *)
Theorem following_finished_job_panics `{GoRuntime} (e : Entities) (l l1 : LogState)
    (jobID : string) (ch : nat) :
  SubscribeJobLogs e l jobID = Some (ch, l1) →
  panicked (job_subscription_done (CloseJobLogSubscribers l1 jobID) jobID ch) = true.
Proof.
  unfold SubscribeJobLogs, make_chan. destruct (_ <? _); [done|]. simpl. intros [= <- <-].
  unfold CloseJobLogSubscribers. simpl. rewrite lookup_insert_eq. simpl.
  set (l1 := l <| chans := _ |> <| next_chan := _ |> <| jobSubscribers := _ |>).
  set (subs := default [] (jobSubscribers l !! jobID) ++ [next_chan l]).
  edestruct (close_all_closed l1 subs (next_chan l)) as (x & Hx & Hc).
  { simpl. by rewrite lookup_insert_eq. } { unfold subs. set_solver. }
  unfold job_subscription_done. simpl. rewrite lookup_delete_eq. simpl.
  unfold close_chan at 1. simpl. by rewrite Hx, Hc.
Qed.

Lemma following_finished_job_panics_witness :
  ∃ ch l1, @SubscribeJobLogs canonical_runtime no_entities no_logs "j1" = Some (ch, l1) ∧
    panicked l1 = false ∧
    panicked (job_subscription_done (CloseJobLogSubscribers l1 "j1") "j1" ch) = true.
Proof.
  eexists _, _. split; [reflexivity|split; [reflexivity|]].
  eapply (@following_finished_job_panics canonical_runtime no_entities no_logs). reflexivity.
Defined.
