(* ===== verification/FsStore.v ===== *)
(** * [FSStore] (src/manager/store/fsstore.go, fsstore_journal.go, fsstore_snapshot.go)

    Memory is the same [Entities]; every mutation is also an entry for the
    journal, sent after the mutex is released, and a single writer turns entries
    into lines, syncs them and now and then replaces the snapshot.  The files
    are a list of complete journal lines, an unterminated rest, and the
    snapshot document.

    The rendering of structs as JSON text is a parameter ([StoreCodec]): a
    document reads back as the struct it was made from with every
    [JsonOrBytes] field reloaded (see [Json.reload]), as long as the struct is
    representable, that is its strings are valid UTF-8 (other bytes are replaced)
    and its times lie in the years 0 to 9999 (others do not marshal); and no
    proper prefix of a journal line is a document. *)
From S2P Require Import Prelude GoStd External Json Contract Store MemStore.

(** ** Structs through JSON *)
Definition reload_job (j : Job) : res error Job :=
  p ← reload_field (job_Payload j); r ← reload_field (job_Result j);
  Ok (j <| job_Payload := p |> <| job_Result := r |>).

Definition reload_run (r : JobRun) : res error JobRun :=
  i ← reload_field (run_InputPayload r); o ← reload_field (run_OutputPayload r);
  Ok (r <| run_InputPayload := i |> <| run_OutputPayload := o |>).

Definition reload_webhook (w : WebhookEntry) : res error WebhookEntry :=
  p ← reload_field (wh_Payload w); Ok (w <| wh_Payload := p |>).

Inductive journalOp :=
| opJob | opTaskDef | opTaskDefDelete | opWebhookEnqueue | opWebhookAck | opWebhookNack
| opRunCreate | opRunUpdate.

Record journalEntry := MkJournalEntry {
  je_Op : journalOp;
  je_Ts : Time;
  je_Data : string;
  je_ID : string;
  je_Attempts : Z;
  je_NextAttemptAt : Time;
}.

Record snapshot := MkSnapshot {
  snap_Jobs : list Job;
  snap_TaskDefs : list Task;
  snap_Webhooks : list WebhookEntry;
  snap_Runs : list JobRun;
}.

Definition reload_snapshot (s : snapshot) : res error snapshot :=
  let all {A} (f : A → res error A) : list A → res error (list A) :=
    foldr (λ x acc, y ← f x; l ← acc; Ok (y :: l)) (Ok []) in
  js ← all reload_job (snap_Jobs s); ws ← all reload_webhook (snap_Webhooks s);
  rs ← all reload_run (snap_Runs s);
  Ok (MkSnapshot js (snap_TaskDefs s) ws rs).

Class StoreCodec := {
  (** what JSON represents exactly, apart from the [JsonOrBytes] fields *)
  rep_job : Job → Prop;
  rep_task : Task → Prop;
  rep_webhook : WebhookEntry → Prop;
  rep_run : JobRun → Prop;
  rep_entry : journalEntry → Prop;
  rep_time : Time → Prop;
  rep_nack w n t : rep_webhook w → rep_time t →
    rep_webhook (w <| wh_Attempts := n |> <| wh_NextAttemptAt := t |>);
  marshal_job : Job → string;
  unmarshal_job : string → res error Job;
  unmarshal_marshal_job j : rep_job j → unmarshal_job (marshal_job j) = reload_job j;
  marshal_task : Task → string;
  unmarshal_task : string → res error Task;
  unmarshal_marshal_task t : rep_task t → unmarshal_task (marshal_task t) = Ok t;
  marshal_webhook : WebhookEntry → string;
  unmarshal_webhook : string → res error WebhookEntry;
  unmarshal_marshal_webhook w : rep_webhook w → unmarshal_webhook (marshal_webhook w) = reload_webhook w;
  marshal_run : JobRun → string;
  unmarshal_run : string → res error JobRun;
  unmarshal_marshal_run r : rep_run r → unmarshal_run (marshal_run r) = reload_run r;
  (** one journal line; [decode_line] is [None] for text that is not a valid document *)
  encode_line : journalEntry → string;
  decode_line : string → option journalEntry;
  decode_encode_line e : rep_entry e → decode_line (encode_line e) = Some e;
  decode_truncated e p q : encode_line e = p +:+ q → q ≠ "" → decode_line p = None;
  encode_snapshot : snapshot → string;
  decode_snapshot : string → res error snapshot;
  decode_encode_snapshot s : Forall rep_job (snap_Jobs s) → Forall rep_task (snap_TaskDefs s) →
    Forall rep_webhook (snap_Webhooks s) → Forall rep_run (snap_Runs s) →
    decode_snapshot (encode_snapshot s) = reload_snapshot s;
}.

(** ** State *)
Record Disk := MkDisk {
  d_snapshot : option string;
  d_journal : list string;
  d_tail : string;
}.

Record FSStoreConfig := MkFSStoreConfig {
  SyncInterval : Duration;
  CompactAfter : Z;
  JournalBufSize : Z;
}.

Definition setDefaults (c : FSStoreConfig) : FSStoreConfig :=
  MkFSStoreConfig
    (if (SyncInterval c <? 0)%Z then 0%Z else SyncInterval c)
    (if (CompactAfter c <=? 0)%Z then 500%Z else CompactAfter c)
    (if (JournalBufSize c <=? 0)%Z then 256%Z else JournalBufSize c).

Record FSStore := MkFSStore {
  fs_cfg : FSStoreConfig;
  fs_mem : Entities;
  fs_logs : LogState;
  fs_logFiles : gmap string string;
  fs_journalCh : list journalEntry;
  fs_buffered : list string;
  fs_entryCount : Z;
  fs_disk : Disk;
}.

#[export] Instance Disk_rebuild : Rebuild Disk := λ d,
  MkDisk (d_snapshot d) (d_journal d) (d_tail d).
#[export] Instance FSStore_rebuild : Rebuild FSStore := λ s,
  MkFSStore (fs_cfg s) (fs_mem s) (fs_logs s) (fs_logFiles s) (fs_journalCh s) (fs_buffered s)
    (fs_entryCount s) (fs_disk s).

(** Outcomes of the file operations of one compaction: everything succeeds, a step up to the
    rename fails, or the journal cannot be truncated after the rename. *)
Inductive compact_outcome := CompactOk | CompactFailed | CompactNotTruncated.

(** Failures of opening and writing a run's log file. *)
Class FsEnv := { log_open_error : string → option error; log_write_error : string → option error }.

Section fsstore.
Context `{GoRuntime} `{StoreCodec}.

(** ** Boot: snapshot and journal *)
Definition applyJournalEntry (m : Entities) (e : journalEntry) : res error Entities :=
  match je_Op e with
  | opJob => job ← unmarshal_job (je_Data e); Ok (m <| jobs := <[job_ID job := job]> (jobs m) |>)
  | opTaskDef =>
      task ← unmarshal_task (je_Data e);
      Ok (m <| taskDefs := <[task_Name task := task]> (taskDefs m) |>)
  | opTaskDefDelete => Ok (m <| taskDefs := delete (je_ID e) (taskDefs m) |>)
  | opWebhookEnqueue =>
      w ← unmarshal_webhook (je_Data e);
      Ok (m <| webhooks := <[wh_ID w := w]> (webhooks m) |>)
  | opWebhookAck => Ok (m <| webhooks := delete (je_ID e) (webhooks m) |>)
  | opWebhookNack =>
      Ok (m <| webhooks := alter (nack (je_Attempts e) (je_NextAttemptAt e)) (je_ID e) (webhooks m) |>)
  | opRunCreate | opRunUpdate =>
      run ← unmarshal_run (je_Data e); Ok (m <| runs := <[run_ID run := run]> (runs m) |>)
  end.

(** The scanner's buffer of 1 MiB holds one line and its newline. *)
Definition fits (line : string) : bool := (Z.of_nat (String.length line) <? 1048576)%Z.

Fixpoint replay_lines (m : Entities) (lines : list string) : res error Entities :=
  match lines with
  | [] => Ok m
  | line :: lines =>
      if negb (fits line) then Err (ErrMsg "bufio.Scanner: token too long")
      else match decode_line line with
           | None => Ok m
           | Some e => m ← applyJournalEntry m e; replay_lines m lines
           end
  end.

Definition replayJournal (m : Entities) (d : Disk) : res error Entities :=
  replay_lines m (d_journal d ++ (if bool_decide (d_tail d = "") then [] else [d_tail d])).

Definition loadSnapshot (m : Entities) (d : Disk) : res error Entities :=
  match d_snapshot d with
  | None => Ok m
  | Some text =>
      snap ← decode_snapshot text;
      Ok (MkEntities
            (foldl (λ m j, <[job_ID j := j]> m) (jobs m) (snap_Jobs snap))
            (foldl (λ m t, <[task_Name t := t]> m) (taskDefs m) (snap_TaskDefs snap))
            (foldl (λ m r, <[run_ID r := r]> m) (runs m) (snap_Runs snap))
            (foldl (λ m w, <[wh_ID w := w]> m) (webhooks m) (snap_Webhooks snap)))
  end.

Definition snapshot_of (m : Entities) : snapshot :=
  MkSnapshot (range_values (jobs m)) (range_values (taskDefs m)) (range_values (webhooks m))
    (range_values (runs m)).

Definition compact (s : FSStore) (outcome : compact_outcome) : FSStore * option error :=
  let text := encode_snapshot (snapshot_of (fs_mem s)) in
  match outcome with
  | CompactFailed => (s, Some (ErrMsg "compact"))
  | CompactNotTruncated =>
      (s <| fs_disk := fs_disk s <| d_snapshot := Some text |> |>, Some (ErrMsg "compact: truncate journal"))
  | CompactOk => (s <| fs_disk := MkDisk (Some text) [] "" |>, None)
  end.

Definition OpenFSStore (cfg : FSStoreConfig) (d : Disk) (logFiles : gmap string string)
    (outcome : compact_outcome) : res error FSStore :=
  m ← loadSnapshot no_entities d;
  m ← replayJournal m d;
  let '(s, err) := compact (MkFSStore (setDefaults cfg) m no_logs logFiles [] [] 0 d) outcome in
  match err with
  | Some e => Err e
  | None => Ok s
  end.

(** ** The writer *)
Definition flushSync (s : FSStore) : FSStore :=
  s <| fs_disk := fs_disk s <| d_journal := d_journal (fs_disk s) ++ fs_buffered s |> |>
    <| fs_buffered := [] |>.

Definition doCompact (s : FSStore) (outcome : compact_outcome) : FSStore :=
  let '(s, err) := compact (flushSync s) outcome in
  match err with
  | Some _ => s
  | None => s <| fs_entryCount := 0%Z |>
  end.

Definition writeEntry (s : FSStore) (e : journalEntry) (outcome : compact_outcome) : FSStore :=
  let s := s <| fs_buffered := fs_buffered s ++ [encode_line e] |>
             <| fs_entryCount := wrap64 (fs_entryCount s + 1) |> in
  let s := if (SyncInterval (fs_cfg s) =? 0)%Z then flushSync s else s in
  if (CompactAfter (fs_cfg s) <=? fs_entryCount s)%Z then doCompact s outcome else s.

(** One turn of [runWriter] that receives an entry. *)
Definition runWriter_receive (s : FSStore) (outcome : compact_outcome) : FSStore :=
  match fs_journalCh s with
  | [] => s
  | e :: rest => writeEntry (s <| fs_journalCh := rest |>) e outcome
  end.

(** The drain on shutdown: every queued entry, then a last sync. *)
Fixpoint drain (fuel : nat) (s : FSStore) (outcome : compact_outcome) : FSStore :=
  match fuel with
  | O => s
  | S fuel => drain fuel (runWriter_receive s outcome) outcome
  end.

Definition Close (s : FSStore) (outcome : compact_outcome) : FSStore :=
  flushSync (drain (length (fs_journalCh s)) s outcome).

(** ** Mutations: the part under the mutex, with the entry it leads to *)
Definition journal (s : FSStore) (e : journalEntry) : FSStore :=
  s <| fs_journalCh := fs_journalCh s ++ [e] |>.

Definition fs_entry (op : journalOp) (data id : string) (ts : Time) : journalEntry :=
  MkJournalEntry op ts data id 0 time_zero.

Definition fs_SaveJob_locked (s : FSStore) (job : Job) (ts : Time) : FSStore * journalEntry :=
  (s <| fs_mem := SaveJob (fs_mem s) job |>, fs_entry opJob (marshal_job job) "" ts).

(** The mutators of the other entities journal the value they leave behind. *)
Definition fs_partial {A} (f : Entities → Entities * option error) (look : Entities → option A)
    (mk : A → journalEntry) (s : FSStore) : FSStore * option error :=
  let '(m, err) := f (fs_mem s) in
  match err, look m with
  | None, Some x => (journal (s <| fs_mem := m |>) (mk x), None)
  | _, _ => (s <| fs_mem := m |>, err)
  end.

Definition fs_SaveJob (ts : Time) (s : FSStore) (job : Job) : FSStore * option error :=
  let '(s, e) := fs_SaveJob_locked s job ts in (journal s e, None).

Definition fs_UpdateJob (ts : Time) (s : FSStore) (id : string) (mutate : Job → Job)
  : FSStore * option error :=
  fs_partial (λ m, UpdateJob m id mutate) (λ m, jobs m !! id)
    (λ job, fs_entry opJob (marshal_job job) "" ts) s.

Definition fs_SaveTask (ts : Time) (s : FSStore) (task : Task) : FSStore * option error :=
  (journal (s <| fs_mem := SaveTask (fs_mem s) task |>) (fs_entry opTaskDef (marshal_task task) "" ts), None).

Definition fs_UpdateTask (ts : Time) (s : FSStore) (name : string) (mutate : Task → Task)
  : FSStore * option error :=
  fs_partial (λ m, UpdateTask m name mutate) (λ m, taskDefs m !! name)
    (λ task, fs_entry opTaskDef (marshal_task task) "" ts) s.

Definition fs_DeleteTask (ts : Time) (s : FSStore) (name : string) : FSStore * option error :=
  fs_partial (λ m, DeleteTask m name) (λ _, Some tt) (λ _, fs_entry opTaskDefDelete "" name ts) s.

Definition fs_CreateRun (ts : Time) (s : FSStore) (run : JobRun) : FSStore * option error :=
  (journal (s <| fs_mem := CreateRun (fs_mem s) run |>) (fs_entry opRunCreate (marshal_run run) "" ts), None).

Definition fs_UpdateRun (ts : Time) (s : FSStore) (id : string) (mutate : JobRun → JobRun)
  : FSStore * option error :=
  fs_partial (λ m, UpdateRun m id mutate) (λ m, runs m !! id)
    (λ run, fs_entry opRunUpdate (marshal_run run) "" ts) s.

Definition fs_EnqueueWebhook (ts : Time) (s : FSStore) (w : WebhookEntry) : FSStore * option error :=
  (journal (s <| fs_mem := EnqueueWebhook (fs_mem s) w |>)
     (fs_entry opWebhookEnqueue (marshal_webhook w) "" ts), None).

Definition fs_AckWebhook (ts : Time) (s : FSStore) (id : string) : FSStore * option error :=
  (journal (s <| fs_mem := AckWebhook (fs_mem s) id |>) (fs_entry opWebhookAck "" id ts), None).

Definition fs_NackWebhook (ts : Time) (s : FSStore) (id : string) (attempts : Z) (next : Time)
  : FSStore * option error :=
  fs_partial (λ m, NackWebhook m id attempts next) (λ _, Some tt)
    (λ _, MkJournalEntry opWebhookNack ts "" id attempts next) s.

(** ** Reads come from memory *)
Definition fs_GetJob (s : FSStore) (id : string) : res error Job := GetJob (fs_mem s) id.
Definition fs_ListJobs (s : FSStore) (cursor : string) (limit : Z) : option (list Job * string) :=
  ListJobs (fs_mem s) cursor limit.
Definition fs_ListPendingJobs (s : FSStore) : list Job := ListPendingJobs (fs_mem s).
Definition fs_ListRecoverableJobs (s : FSStore) : list Job := ListRecoverableJobs (fs_mem s).
Definition fs_ListChildJobs (s : FSStore) (parent : string) : list Job := ListChildJobs (fs_mem s) parent.
Definition fs_CountJobsByStatus (s : FSStore) : JobStatus → Z := CountJobsByStatus (fs_mem s).
Definition fs_GetTask (s : FSStore) (name : string) : res error Task := GetTask (fs_mem s) name.
Definition fs_ListTasks (s : FSStore) : list Task := ListTasks (fs_mem s).
Definition fs_GetRun (s : FSStore) (id : string) : res error JobRun := GetRun (fs_mem s) id.
Definition fs_ListJobRuns (s : FSStore) (jobID : string) : list JobRun := ListJobRuns (fs_mem s) jobID.
Definition fs_DequeueWebhooks (s : FSStore) (now : Time) : list WebhookEntry :=
  DequeueWebhooks (fs_mem s) now.

(** ** Logs: each chunk is a line of the run's file *)
Definition fs_AppendRunLog `{FsEnv} (s : FSStore) (runID data : string) : FSStore * option error :=
  match log_open_error runID with
  | Some e => (s, Some e)
  | None =>
      let line := data +:+ String (ascii_of_N 10) "" in
      match log_write_error runID with
      | Some e => (s, Some e)
      | None =>
          (s <| fs_logFiles := <[runID := default "" (fs_logFiles s !! runID) +:+ line]> (fs_logFiles s) |>
             <| fs_logs := AppendRunLog (fs_mem s) (fs_logs s) runID line |>, None)
      end
  end.

Definition fs_GetRunLogReader (s : FSStore) (runID : string) : string :=
  default "" (fs_logFiles s !! runID).

(** [multiReadCloser.Close]: every reader is closed, in order; the first error is the answer. *)
Fixpoint multi_Close (closed : list (option error)) (first : option error) : option error :=
  match closed with
  | [] => first
  | err :: closed => multi_Close closed (match first with None => err | Some _ => first end)
  end.

Lemma multi_Close_first closed : multi_Close closed None = head (omap id closed).
Proof.
  assert (∀ l e, multi_Close l (Some e) = Some e) as Hs by by induction l.
  induction closed as [|[e|] closed IH]; [done| |exact IH]. cbn. apply Hs.
Qed.

(** With no run of the job the legacy per-job file, if any, is read. *)
Definition fs_GetJobLogReader (legacy : string → option string) (s : FSStore) (jobID : string) : string :=
  match ListJobRuns (fs_mem s) jobID with
  | [] => default "" (legacy jobID)
  | rs => str_concat ((λ r, fs_GetRunLogReader s (run_ID r)) <$> rs)
  end.

Definition fs_GetRootJobLogReader (legacy : string → option string) (s : FSStore) (rootJobID : string)
  : string :=
  str_concat (fs_GetJobLogReader legacy s <$>
    rootJobID :: (job_ID <$> ListChildJobs (fs_mem s) rootJobID)).

Definition fs_SubscribeJobLogs (s : FSStore) (jobID : string) : option (nat * FSStore) :=
  '(ch, l) ← SubscribeJobLogs (fs_mem s) (fs_logs s) jobID; Some (ch, s <| fs_logs := l |>).

Definition fs_SubscribeRunLogs (s : FSStore) (runID : string) : option (nat * FSStore) :=
  '(ch, l) ← SubscribeRunLogs (fs_logs s) runID; Some (ch, s <| fs_logs := l |>).

Definition fs_job_subscription_done (s : FSStore) (jobID : string) (ch : nat) : FSStore :=
  s <| fs_logs := job_subscription_done (fs_logs s) jobID ch |>.

Definition fs_CloseRunLogSubscribers (s : FSStore) (runID : string) : FSStore :=
  s <| fs_logs := CloseRunLogSubscribers (fs_logs s) runID |>.

Definition fs_CloseJobLogSubscribers (s : FSStore) (jobID : string) : FSStore :=
  s <| fs_logs := CloseJobLogSubscribers (fs_logs s) jobID |>.
End fsstore.

(** ** [FSStore] implements the store interface *)
#[refine] Definition FSStore_Store `{GoRuntime} `{StoreCodec} `{FsEnv} (ts : Time) : Store FSStore := {|
  entities := fs_mem;
  st_SaveJob := fs_SaveJob ts;
  st_UpdateJob := fs_UpdateJob ts;
  st_SaveTask := fs_SaveTask ts;
  st_UpdateTask := fs_UpdateTask ts;
  st_DeleteTask := fs_DeleteTask ts;
  st_CreateRun := fs_CreateRun ts;
  st_UpdateRun := fs_UpdateRun ts;
  st_EnqueueWebhook := fs_EnqueueWebhook ts;
  st_AckWebhook := fs_AckWebhook ts;
  st_NackWebhook := fs_NackWebhook ts;
  st_AppendRunLog := fs_AppendRunLog;
  st_CloseRunLogSubscribers := fs_CloseRunLogSubscribers;
  st_CloseJobLogSubscribers := fs_CloseJobLogSubscribers;
  st_SubscribeJobLogs := fs_SubscribeJobLogs;
  st_SubscribeRunLogs := fs_SubscribeRunLogs;
  st_job_subscription_done := fs_job_subscription_done;
|}.
Proof.
  all: intros; try reflexivity.
  all: try (match goal with E : _ = Some _ |- _ => apply bind_Some in E as ([? ?] & _ & [= <- <-]); reflexivity end).
  all: unfold fs_UpdateJob, fs_UpdateTask, fs_DeleteTask, fs_UpdateRun, fs_NackWebhook, fs_partial,
    fs_AppendRunLog.
  all: repeat case_match; simplify_eq/=; done.
Defined.
