(* ===== verification/FsRecovery.v ===== *)
(** * Durability of [FSStore]: recovery from snapshot and journal

    A mutation is an [effect] on the entities; the journal records effects.
    The theorems relate the files of a running store to its memory: what a
    clean restart and a crash recover, and where the guarantee ends. *)
From S2P Require Import Prelude GoStd External Json Contract Store MemStore FsStore.

(** ** Effects *)
Inductive effect :=
| EJob (j : Job)
| ETask (t : Task)
| EDeleteTask (name : string)
| EEnqueue (w : WebhookEntry)
| EAck (id : string)
| ENack (id : string) (attempts : Z) (next : Time)
| ERun (r : JobRun).

Definition effect_apply (m : Entities) (f : effect) : Entities :=
  match f with
  | EJob j => m <| jobs := <[job_ID j := j]> (jobs m) |>
  | ETask t => m <| taskDefs := <[task_Name t := t]> (taskDefs m) |>
  | EDeleteTask n => m <| taskDefs := delete n (taskDefs m) |>
  | EEnqueue w => m <| webhooks := <[wh_ID w := w]> (webhooks m) |>
  | EAck id => m <| webhooks := delete id (webhooks m) |>
  | ENack id n t => m <| webhooks := alter (nack n t) id (webhooks m) |>
  | ERun r => m <| runs := <[run_ID r := r]> (runs m) |>
  end.

Definition effects_apply (m : Entities) (fs : list effect) : Entities := foldl effect_apply m fs.

(** ** Applying a batch of effects twice is applying it once *)

(** What a batch does to one key: nothing, a fixed outcome, or an update of a family whose
    members overwrite each other. *)
Definition settling {V} (N : (V → V) → Prop) (g : option V → option V) : Prop :=
  (∀ x, g x = x) ∨ (∃ c, ∀ x, g x = c) ∨ (∃ h, N h ∧ ∀ x, g x = h <$> x).

Lemma settling_compose {V} (N : (V → V) → Prop) g1 g2 :
  (∀ h1 h2 v, N h1 → N h2 → h1 (h2 v) = h1 v) →
  settling N g1 → settling N g2 → settling N (λ x, g1 (g2 x)).
Proof.
  intros HN [H1|[[c1 H1]|(h1 & N1 & H1)]] [H2|[[c2 H2]|(h2 & N2 & H2)]].
  - left. intros x. by rewrite H1.
  - right; left. exists c2. intros x. by rewrite H1.
  - right; right. exists h2. split; [done|]. intros x. by rewrite H1.
  - right; left. eauto.
  - right; left. eauto.
  - right; left. eauto.
  - right; right. exists h1. split; [done|]. intros x. by rewrite H1, H2.
  - right; left. exists (h1 <$> c2). intros x. by rewrite H1, H2.
  - right; right. exists h1. split; [done|]. intros x. rewrite H1, H2.
    destruct x; simpl; f_equal. auto.
Qed.

Lemma settling_idem {V} (N : (V → V) → Prop) g x :
  (∀ h1 h2 v, N h1 → N h2 → h1 (h2 v) = h1 v) → settling N g → g (g x) = g x.
Proof.
  intros HN [Hg|[[c Hg]|(h & Nh & Hg)]]; rewrite !Hg; try done.
  destruct x; simpl; f_equal. auto.
Qed.

(** One map of the entities: if every effect acts on each key in a settling way, so does a batch. *)
Section one_map.
Context {V : Type} (field : Entities → gmap string V) (N : (V → V) → Prop).
Context (act : effect → string → option V → option V).
Hypothesis act_spec : ∀ m f k, field (effect_apply m f) !! k = act f k (field m !! k).
Hypothesis act_settling : ∀ f k, settling N (act f k).
Hypothesis N_overwrites : ∀ h1 h2 v, N h1 → N h2 → h1 (h2 v) = h1 v.

Lemma effects_field_settling fs k : ∃ g, settling N g ∧
  ∀ m, field (effects_apply m fs) !! k = g (field m !! k).
Proof.
  induction fs as [|f fs IH] using rev_ind.
  { exists (λ x, x). split; [by left|done]. }
  destruct IH as (g & Hg & Hfs). exists (λ x, act f k (g x)). split.
  - by apply settling_compose.
  - intros m. unfold effects_apply. rewrite foldl_snoc, act_spec. f_equal. apply Hfs.
Qed.

Lemma effects_field_idem fs m :
  field (effects_apply (effects_apply m fs) fs) = field (effects_apply m fs).
Proof.
  apply map_eq. intros k. destruct (effects_field_settling fs k) as (g & Hg & Hfs).
  rewrite !Hfs. by apply (settling_idem N).
Qed.
End one_map.

Definition job_act (f : effect) (k : string) (x : option Job) : option Job :=
  match f with EJob j => if decide (job_ID j = k) then Some j else x | _ => x end.
Definition task_act (f : effect) (k : string) (x : option Task) : option Task :=
  match f with
  | ETask t => if decide (task_Name t = k) then Some t else x
  | EDeleteTask n => if decide (n = k) then None else x
  | _ => x
  end.
Definition run_act (f : effect) (k : string) (x : option JobRun) : option JobRun :=
  match f with ERun r => if decide (run_ID r = k) then Some r else x | _ => x end.
Definition webhook_act (f : effect) (k : string) (x : option WebhookEntry) : option WebhookEntry :=
  match f with
  | EEnqueue w => if decide (wh_ID w = k) then Some w else x
  | EAck id => if decide (id = k) then None else x
  | ENack id n t => if decide (id = k) then nack n t <$> x else x
  | _ => x
  end.

Definition is_nack (h : WebhookEntry → WebhookEntry) : Prop := ∃ n t, h = nack n t.

Ltac act_cases :=
  intros; repeat match goal with f : effect |- _ => destruct f end; simpl;
  repeat case_decide; subst;
  rewrite ?lookup_insert_eq, ?lookup_delete_eq, ?lookup_alter_eq, ?lookup_insert_ne,
    ?lookup_delete_ne, ?lookup_alter_ne by done; try done.

Ltac settling_cases :=
  intros f k; unfold job_act, task_act, run_act, webhook_act; destruct f;
  repeat case_decide;
  first [ left; intros; reflexivity
        | right; left; eexists; intros; reflexivity
        | right; right; eexists; split; [by eexists _, _|intros; reflexivity] ].

Lemma effects_idem fs m : effects_apply (effects_apply m fs) fs = effects_apply m fs.
Proof.
  assert (∀ m1 m2, jobs m1 = jobs m2 → taskDefs m1 = taskDefs m2 → runs m1 = runs m2 →
    webhooks m1 = webhooks m2 → m1 = m2) as Hext.
  { intros [] []; simpl. by intros -> -> -> ->. }
  apply Hext.
  - apply (effects_field_idem jobs (λ _, False) job_act); [by act_cases|settling_cases|done].
  - apply (effects_field_idem taskDefs (λ _, False) task_act); [by act_cases|settling_cases|done].
  - apply (effects_field_idem runs (λ _, False) run_act); [by act_cases|settling_cases|done].
  - apply (effects_field_idem webhooks is_nack webhook_act); [by act_cases|settling_cases|].
    intros h1 h2 v (n1 & t1 & ->) (n2 & t2 & ->). by destruct v.
Qed.

Lemma effects_apply_app m fs1 fs2 :
  effects_apply m (fs1 ++ fs2) = effects_apply (effects_apply m fs1) fs2.
Proof. apply foldl_app. Qed.

(** Replaying the last part of a batch on its outcome changes nothing. *)
Lemma effects_suffix m fs1 fs2 :
  effects_apply (effects_apply m (fs1 ++ fs2)) fs2 = effects_apply m (fs1 ++ fs2).
Proof. rewrite effects_apply_app. apply effects_idem. Qed.

(** ** What the files hold: structs with their payloads reloaded *)
Definition norm_job (j : Job) : Job := match reload_job j with Ok j => j | Err _ => j end.
Definition norm_run (r : JobRun) : JobRun := match reload_run r with Ok r => r | Err _ => r end.
Definition norm_webhook (w : WebhookEntry) : WebhookEntry :=
  match reload_webhook w with Ok w => w | Err _ => w end.

Definition loadable_job (j : Job) : Prop := reload_job j = Ok (norm_job j).
Definition loadable_run (r : JobRun) : Prop := reload_run r = Ok (norm_run r).
Definition loadable_webhook (w : WebhookEntry) : Prop := reload_webhook w = Ok (norm_webhook w).

Definition norm (m : Entities) : Entities :=
  MkEntities (norm_job <$> jobs m) (taskDefs m) (norm_run <$> runs m) (norm_webhook <$> webhooks m).

Record loadable (m : Entities) : Prop := {
  ld_jobs : ∀ k j, jobs m !! k = Some j → loadable_job j;
  ld_runs : ∀ k r, runs m !! k = Some r → loadable_run r;
  ld_webhooks : ∀ k w, webhooks m !! k = Some w → loadable_webhook w;
}.

Definition norm_effect (f : effect) : effect :=
  match f with
  | EJob j => EJob (norm_job j)
  | EEnqueue w => EEnqueue (norm_webhook w)
  | ERun r => ERun (norm_run r)
  | f => f
  end.

Definition loadable_effect (f : effect) : Prop :=
  match f with
  | EJob j => loadable_job j
  | EEnqueue w => loadable_webhook w
  | ERun r => loadable_run r
  | _ => True
  end.

Lemma norm_job_ID j : job_ID (norm_job j) = job_ID j.
Proof.
  unfold norm_job, reload_job. destruct (reload_field (job_Payload j)); simpl; [|done].
  by destruct (reload_field (job_Result j)).
Qed.
Lemma norm_run_ID r : run_ID (norm_run r) = run_ID r.
Proof.
  unfold norm_run, reload_run. destruct (reload_field (run_InputPayload r)); simpl; [|done].
  by destruct (reload_field (run_OutputPayload r)).
Qed.
Lemma norm_webhook_ID w : wh_ID (norm_webhook w) = wh_ID w.
Proof. unfold norm_webhook, reload_webhook. by destruct (reload_field (wh_Payload w)). Qed.

Lemma norm_webhook_nack n t w : norm_webhook (nack n t w) = nack n t (norm_webhook w).
Proof.
  unfold norm_webhook, reload_webhook. change (wh_Payload (nack n t w)) with (wh_Payload w).
  by destruct (reload_field (wh_Payload w)).
Qed.

Lemma norm_effect_apply m f : norm (effect_apply m f) = effect_apply (norm m) (norm_effect f).
Proof.
  assert (∀ j t r w j' t' r' w', j = j' → t = t' → r = r' → w = w' →
    MkEntities j t r w = MkEntities j' t' r' w') as Hext by (by intros; subst).
  destruct f; unfold norm; apply Hext; simpl;
    rewrite ?fmap_insert, ?fmap_delete, ?norm_job_ID, ?norm_run_ID, ?norm_webhook_ID; try done.
  apply map_eq. intros k. rewrite lookup_fmap. destruct (decide (id = k)) as [->|].
  - rewrite !lookup_alter_eq, lookup_fmap. destruct (webhooks m !! k); simpl; [|done].
    by rewrite norm_webhook_nack.
  - by rewrite !lookup_alter_ne, lookup_fmap.
Qed.

Lemma norm_effects_apply m fs :
  norm (effects_apply m fs) = effects_apply (norm m) (norm_effect <$> fs).
Proof.
  revert m. induction fs as [|f fs IH]; intros m; [done|].
  unfold effects_apply in *. simpl. by rewrite IH, norm_effect_apply.
Qed.

Lemma loadable_apply m f : loadable m → loadable_effect f → loadable (effect_apply m f).
Proof.
  intros [Hj Hr Hw] Hf. destruct f; simpl in *; split; simpl; intros k x;
    rewrite ?lookup_insert_Some, ?lookup_delete_Some; try naive_solver.
  rewrite lookup_alter_Some. intros [(<- & w & Hk & ->)|[_ Hk]]; [|by eauto].
  specialize (Hw _ _ Hk). unfold loadable_webhook in *. rewrite norm_webhook_nack.
  unfold reload_webhook in *. change (wh_Payload (nack attempts next w)) with (wh_Payload w).
  destruct (reload_field (wh_Payload w)); simpl in *; [|done]. by injection Hw as <-.
Qed.

Lemma no_entities_loadable : loadable no_entities.
Proof. split; intros k x; simpl; by rewrite lookup_empty. Qed.

(** ** Reading the files back *)
Section recovery.
Context `{GoRuntime} `{StoreCodec}.

(** [e] is a journal entry of the effect [f]. *)
Definition records (e : journalEntry) (f : effect) : Prop :=
  match f with
  | EJob j => je_Op e = opJob ∧ je_Data e = marshal_job j
  | ETask t => je_Op e = opTaskDef ∧ je_Data e = marshal_task t
  | EDeleteTask n => je_Op e = opTaskDefDelete ∧ je_ID e = n
  | EEnqueue w => je_Op e = opWebhookEnqueue ∧ je_Data e = marshal_webhook w
  | EAck id => je_Op e = opWebhookAck ∧ je_ID e = id
  | ENack id n t => je_Op e = opWebhookNack ∧ je_ID e = id ∧ je_Attempts e = n ∧ je_NextAttemptAt e = t
  | ERun r => (je_Op e = opRunCreate ∨ je_Op e = opRunUpdate) ∧ je_Data e = marshal_run r
  end.

(** Entities that JSON represents, and effects that keep them so. *)
Record representable (m : Entities) : Prop := {
  rp_jobs : ∀ k j, jobs m !! k = Some j → rep_job j;
  rp_tasks : ∀ k t, taskDefs m !! k = Some t → rep_task t;
  rp_runs : ∀ k r, runs m !! k = Some r → rep_run r;
  rp_webhooks : ∀ k w, webhooks m !! k = Some w → rep_webhook w;
}.

Definition rep_effect (f : effect) : Prop :=
  match f with
  | EJob j => rep_job j
  | ETask t => rep_task t
  | EEnqueue w => rep_webhook w
  | ENack _ _ t => rep_time t
  | ERun r => rep_run r
  | _ => True
  end.

Lemma representable_apply m f : representable m → rep_effect f → representable (effect_apply m f).
Proof.
  intros [Hj Ht Hr Hw] Hf. destruct f; simpl in *; split; simpl; intros k x;
    rewrite ?lookup_insert_Some, ?lookup_delete_Some; try naive_solver.
  rewrite lookup_alter_Some. intros [(<- & w & Hk & ->)|[_ Hk]]; [|by eauto].
  apply rep_nack; eauto.
Qed.

Lemma no_entities_representable : representable no_entities.
Proof. split; intros k x; simpl; by rewrite lookup_empty. Qed.

(** The effect can be read back from the line of [e]. *)
Definition writable (e : journalEntry) (f : effect) : Prop :=
  records e f ∧ (loadable_effect f ∧ rep_effect f ∧ rep_entry e) ∧ fits (encode_line e) = true.

Lemma apply_records m e f : records e f → loadable_effect f → rep_effect f →
  applyJournalEntry m e = Ok (effect_apply m (norm_effect f)).
Proof.
  unfold applyJournalEntry. destruct f; simpl; intros Hr Hl Hrep.
  all: try (destruct Hr as [-> ->]); try (destruct Hr as [-> (-> & -> & ->)]); try done.
  - by rewrite unmarshal_marshal_job, Hl.
  - by rewrite unmarshal_marshal_task.
  - by rewrite unmarshal_marshal_webhook, Hl.
  - destruct Hr as [[-> | ->] ->]; by rewrite unmarshal_marshal_run, Hl.
Qed.

Lemma replay_records m es fs rest : Forall2 writable es fs →
  replay_lines m ((encode_line <$> es) ++ rest) =
    replay_lines (effects_apply m (norm_effect <$> fs)) rest.
Proof.
  intros Hes. revert m. induction Hes as [|e f es fs (Hr & (Hl & Hrep & He) & Hfit) Hes IH]; intros m; [done|].
  simpl. rewrite Hfit, (decode_encode_line e He). simpl. rewrite (apply_records m e f Hr Hl Hrep). simpl.
  by rewrite IH.
Qed.

(** A line cut short by a crash ends the replay. *)
Lemma replay_truncated m e p q : encode_line e = p +:+ q → q ≠ "" → fits (encode_line e) = true →
  replay_lines m [p] = Ok m.
Proof.
  intros He Hq Hfit. simpl.
  assert (fits p = true) as ->.
  { unfold fits in *. zb. apply Z.ltb_lt. rewrite He, str_app_length in Hfit. lia. }
  by rewrite (decode_truncated e p q He Hq).
Qed.

Lemma foldl_insert_lookup {V} (key : V → string) (l : list V) k x : NoDup (key <$> l) →
  foldl (λ m v, <[key v := v]> m) (∅ : gmap string V) l !! k = Some x ↔ x ∈ l ∧ key x = k.
Proof.
  induction l as [|v l IH] using rev_ind; intros Hnd.
  { simpl. rewrite lookup_empty. set_solver. }
  rewrite fmap_app in Hnd. apply NoDup_app in Hnd as (Hl & Hdis & _).
  rewrite foldl_snoc, lookup_insert_Some, IH by done. simpl in Hdis. split.
  - intros [[<- <-]|[Hne [Hx <-]]]; set_solver.
  - intros [[Hx|Hx]%elem_of_app <-]; [|left; set_solver].
    right. split; [|done]. intros Heq.
    apply (Hdis (key x)); [apply list_elem_of_fmap; by eauto|set_solver].
Qed.

Lemma rebuild_map {V} (m : gmap string V) (f : V → V) (key : V → string) :
  (∀ k v, m !! k = Some v → key (f v) = k) →
  foldl (λ m v, <[key v := v]> m) ∅ (f <$> range_values m) = f <$> m.
Proof.
  intros Hk. apply map_eq. intros k. apply option_eq. intros x.
  rewrite foldl_insert_lookup.
  - rewrite lookup_fmap, fmap_Some, list_elem_of_fmap. split.
    + intros [(v & -> & [k' Hv]%elem_of_range_values) <-]. rewrite (Hk _ _ Hv). by eauto.
    + intros (v & Hv & ->). split; [|by apply Hk]. exists v. split; [done|].
      apply elem_of_range_values. by eauto.
  - rewrite <- list_fmap_compose. by apply (range_values_NoDup m (key ∘ f)).
Qed.

Lemma reload_all {A} (reload : A → res error A) (nrm : A → A) l :
  (∀ x, x ∈ l → reload x = Ok (nrm x)) →
  foldr (λ x acc, y ← reload x; l ← acc; Ok (y :: l)) (Ok []) l = Ok (nrm <$> l).
Proof.
  induction l as [|x l IH]; intros Hl; simpl; [done|].
  rewrite IH by (intros; apply Hl; set_solver). by rewrite Hl by set_solver.
Qed.

Lemma loadSnapshot_of m d : ids_ok m → loadable m → representable m →
  loadSnapshot no_entities (d <| d_snapshot := Some (encode_snapshot (snapshot_of m)) |>) = Ok (norm m).
Proof.
  intros Hids Hl Hrep. unfold loadSnapshot. simpl.
  rewrite decode_encode_snapshot by (apply Forall_forall; intros x [k Hk]%elem_of_range_values; by eapply Hrep).
  unfold reload_snapshot, snapshot_of. simpl.
  rewrite (reload_all reload_job norm_job)
    by (intros x [k Hk]%elem_of_range_values; by eapply (ld_jobs _ Hl)). simpl.
  rewrite (reload_all reload_webhook norm_webhook)
    by (intros x [k Hk]%elem_of_range_values; by eapply (ld_webhooks _ Hl)). simpl.
  rewrite (reload_all reload_run norm_run)
    by (intros x [k Hk]%elem_of_range_values; by eapply (ld_runs _ Hl)). simpl.
  f_equal. unfold norm. f_equal.
  - apply rebuild_map. intros k v Hv. rewrite norm_job_ID. by apply (ids_jobs _ Hids).
  - rewrite <- (list_fmap_id (range_values (taskDefs m))).
    rewrite (rebuild_map (taskDefs m) id task_Name); [apply map_fmap_id|apply (ids_tasks _ Hids)].
  - apply rebuild_map. intros k v Hv. rewrite norm_run_ID. by apply (ids_runs _ Hids).
  - apply rebuild_map. intros k v Hv. rewrite norm_webhook_ID. by apply (ids_webhooks _ Hids).
Qed.

(** ** The invariant: base snapshot and all recorded effects give the memory *)
Record durable (s : FSStore) (base : Entities) (disk buf chan : list effect)
    (edisk ebuf : list journalEntry) : Prop := {
  du_ids : ids_ok (fs_mem s);
  du_load : loadable (fs_mem s);
  du_rep : representable (fs_mem s);
  du_base : loadSnapshot no_entities (fs_disk s) = Ok base;
  du_tail : d_tail (fs_disk s) = "";
  du_journal : d_journal (fs_disk s) = encode_line <$> edisk;
  du_buffered : fs_buffered s = encode_line <$> ebuf;
  du_disk : Forall2 writable edisk disk;
  du_buf : Forall2 writable ebuf buf;
  du_chan : Forall2 writable (fs_journalCh s) chan;
  du_mem : effects_apply base (norm_effect <$> disk ++ buf ++ chan) = norm (fs_mem s);
}.

Definition fs_inv (s : FSStore) : Prop := ∃ base disk buf chan edisk ebuf,
  durable s base disk buf chan edisk ebuf.

Lemma mutate_inv s e f : fs_inv s → writable e f → ids_ok (effect_apply (fs_mem s) f) →
  fs_inv (journal (s <| fs_mem := effect_apply (fs_mem s) f |>) e).
Proof.
  intros (base & disk & buf & chan & edisk & ebuf & [Hi Hl Hrp Hb Ht Hj Hbuf Hd Hbf Hc Hm]) Hw Hids.
  exists base, disk, buf, (chan ++ [f]), edisk, ebuf. split; simpl; try done.
  - apply loadable_apply; [done|apply Hw].
  - apply representable_apply; [done|apply Hw].
  - apply Forall2_app; [done|]. by constructor.
  - rewrite !app_assoc, fmap_app, effects_apply_app, <- !app_assoc, Hm. simpl.
    by rewrite <- norm_effect_apply.
Qed.

Lemma flush_inv s : fs_inv s → fs_inv (flushSync s).
Proof.
  intros (base & disk & buf & chan & edisk & ebuf & [Hi Hl Hrp Hb Ht Hj Hbuf Hd Hbf Hc Hm]).
  exists base, (disk ++ buf), [], chan, (edisk ++ ebuf), []. split; simpl; try done.
  - by rewrite Hj, Hbuf, fmap_app.
  - by apply Forall2_app.
  - by rewrite <- app_assoc.
Qed.

Lemma compact_inv s outcome : fs_inv s → fs_buffered s = [] → fs_inv (compact s outcome).1.
Proof.
  intros (base & disk & buf & chan & edisk & ebuf & [Hi Hl Hrp Hb Ht Hj Hbuf Hd Hbf Hc Hm]) Hnil.
  assert (ebuf = []) as -> by (rewrite Hnil in Hbuf; by destruct ebuf).
  apply Forall2_nil_inv_l in Hbf as ->. simpl in Hm.
  destruct outcome; simpl.
  - exists (norm (fs_mem s)), [], [], chan, [], []. split; simpl; try done.
    + apply (loadSnapshot_of (fs_mem s) (MkDisk None [] "") Hi Hl Hrp).
    + rewrite <- Hm. rewrite fmap_app. apply effects_suffix.
  - exists base, disk, [], chan, edisk, []. by split.
  - exists (norm (fs_mem s)), disk, [], chan, edisk, []. split; simpl; try done.
    + by apply loadSnapshot_of.
    + rewrite <- Hm. apply effects_idem.
Qed.

Lemma count_inv s n : fs_inv s → fs_inv (s <| fs_entryCount := n |>).
Proof. intros (base & disk & buf & chan & edisk & ebuf & []). exists base, disk, buf, chan, edisk, ebuf. by split. Qed.

Lemma doCompact_inv s outcome : fs_inv s → fs_inv (doCompact s outcome).
Proof.
  intros Hs. unfold doCompact.
  pose proof (compact_inv (flushSync s) outcome (flush_inv s Hs) eq_refl) as Hc.
  destruct (compact (flushSync s) outcome) as [s' [err|]]; simpl in *; [done|]. by apply count_inv.
Qed.

Lemma receive_inv s outcome : fs_inv s → fs_inv (runWriter_receive s outcome).
Proof.
  intros Hs. unfold runWriter_receive. destruct (fs_journalCh s) as [|e rest] eqn:Ech; [done|].
  unfold writeEntry. set (s1 := _ <| fs_entryCount := _ |>).
  assert (fs_inv s1) as Hs1.
  { apply count_inv.
    destruct Hs as (base & disk & buf & chan & edisk & ebuf & [Hi Hl Hrp Hb Ht Hj Hbuf Hd Hbf Hc Hm]).
    rewrite Ech in Hc. apply Forall2_cons_inv_l in Hc as (f & chan' & Hf & Hc & ->).
    exists base, disk, (buf ++ [f]), chan', edisk, (ebuf ++ [e]). split; simpl; try done.
    - by rewrite Hbuf, fmap_app.
    - apply Forall2_app; [done|]. by constructor.
    - rewrite <- Hm. f_equal. rewrite <- !app_assoc. done. }
  assert (fs_inv (if (SyncInterval (fs_cfg s1) =? 0)%Z then flushSync s1 else s1)) as Hs2.
  { case_match; [by apply flush_inv|done]. }
  destruct (_ <=? _)%Z; [|done]. by apply doCompact_inv.
Qed.

Lemma drain_inv fuel s outcome : fs_inv s → fs_inv (drain fuel s outcome).
Proof. revert s. induction fuel as [|fuel IH]; intros s Hs; simpl;
  [done|]. apply IH. by apply receive_inv. Qed.

Lemma doCompact_chan s outcome : fs_journalCh (doCompact s outcome) = fs_journalCh s.
Proof. unfold doCompact, compact. by destruct outcome. Qed.

Lemma receive_chan s outcome : fs_journalCh (runWriter_receive s outcome) = tail (fs_journalCh s).
Proof.
  unfold runWriter_receive. destruct (fs_journalCh s) as [|e rest] eqn:E; [done|].
  unfold writeEntry. simpl.
  destruct (_ =? _)%Z; (destruct (_ <=? _)%Z; [by rewrite doCompact_chan|done]).
Qed.

Lemma drain_chan fuel s outcome : length (fs_journalCh s) ≤ fuel →
  fs_journalCh (drain fuel s outcome) = [].
Proof.
  revert s. induction fuel as [|fuel IH]; intros s Hs; simpl.
  { by apply nil_length_inv; lia. }
  apply IH. rewrite receive_chan. destruct (fs_journalCh s); simpl in *; lia.
Qed.

(** The state a reopened store starts from, given what reading the files yields. *)
Lemma Open_ok cfg d files m1 m2 : loadSnapshot no_entities d = Ok m1 → replayJournal m1 d = Ok m2 →
  ∃ s, OpenFSStore cfg d files CompactOk = Ok s ∧ fs_mem s = m2.
Proof.
  intros H1 H2. unfold OpenFSStore. rewrite H1. simpl. rewrite H2. simpl. by eexists.
Qed.

(** ** Steps: calls one at a time, and the writer at its own pace *)
Inductive fs_step : FSStore → FSStore → Prop :=
| fss_SaveJob ts s j : writable (fs_entry opJob (marshal_job j) "" ts) (EJob j) →
    fs_step s (fs_SaveJob ts s j).1
| fss_UpdateJob ts s id f :
    (∀ j, jobs (fs_mem s) !! id = Some j → job_ID (f j) = id ∧
       writable (fs_entry opJob (marshal_job (f j)) "" ts) (EJob (f j))) →
    fs_step s (fs_UpdateJob ts s id f).1
| fss_SaveTask ts s t : writable (fs_entry opTaskDef (marshal_task t) "" ts) (ETask t) →
    fs_step s (fs_SaveTask ts s t).1
| fss_UpdateTask ts s name f :
    (∀ t, taskDefs (fs_mem s) !! name = Some t → task_Name (f t) = name ∧
       writable (fs_entry opTaskDef (marshal_task (f t)) "" ts) (ETask (f t))) →
    fs_step s (fs_UpdateTask ts s name f).1
| fss_DeleteTask ts s name : writable (fs_entry opTaskDefDelete "" name ts) (EDeleteTask name) →
    fs_step s (fs_DeleteTask ts s name).1
| fss_CreateRun ts s r : writable (fs_entry opRunCreate (marshal_run r) "" ts) (ERun r) →
    fs_step s (fs_CreateRun ts s r).1
| fss_UpdateRun ts s id f :
    (∀ r, runs (fs_mem s) !! id = Some r → run_ID (f r) = id ∧
       writable (fs_entry opRunUpdate (marshal_run (f r)) "" ts) (ERun (f r))) →
    fs_step s (fs_UpdateRun ts s id f).1
| fss_Enqueue ts s w : writable (fs_entry opWebhookEnqueue (marshal_webhook w) "" ts) (EEnqueue w) →
    fs_step s (fs_EnqueueWebhook ts s w).1
| fss_Ack ts s id : writable (fs_entry opWebhookAck "" id ts) (EAck id) →
    fs_step s (fs_AckWebhook ts s id).1
| fss_Nack ts s id n t :
    writable (MkJournalEntry opWebhookNack ts "" id n t) (ENack id n t) →
    fs_step s (fs_NackWebhook ts s id n t).1
| fss_write s outcome : fs_step s (runWriter_receive s outcome)
| fss_sync s : fs_step s (flushSync s).

Lemma ids_effect m f : ids_ok m → ids_ok (effect_apply m f).
Proof.
  intros [Hj Ht Hr Hw]. destruct f; simpl; split; simpl; intros k x;
    rewrite ?lookup_insert_Some, ?lookup_delete_Some; try naive_solver.
  rewrite lookup_alter_Some. intros [(<- & w & Hk & ->)|[_ Hk]]; [|by eauto].
  change (wh_ID (nack attempts next w)) with (wh_ID w). eauto.
Qed.

Lemma effect_inv s s' e f : fs_inv s → writable e f →
  s' = journal (s <| fs_mem := effect_apply (fs_mem s) f |>) e → fs_inv s'.
Proof.
  intros Hs Hw ->. apply mutate_inv; [done|done|]. apply ids_effect.
  by destruct Hs as (? & ? & ? & ? & ? & ? & []).
Qed.

Lemma same_mem_inv s : fs_inv s → fs_inv (s <| fs_mem := fs_mem s |>).
Proof. intros (base & disk & buf & chan & edisk & ebuf & []). exists base, disk, buf, chan, edisk, ebuf. by split. Qed.

Lemma fs_step_inv s s' : fs_step s s' → fs_inv s → fs_inv s'.
Proof.
  assert (∀ (m : gmap string WebhookEntry) id n t w, m !! id = Some w →
    alter (nack n t) id m = <[id := nack n t w]> m) as Halter.
  { intros m id n t w Hw. apply map_eq. intros k. destruct (decide (k = id)) as [->|].
    - by rewrite lookup_alter_eq, lookup_insert_eq, Hw.
    - by rewrite lookup_alter_ne, lookup_insert_ne. }
  destruct 1 as [ts s j Hw|ts s id f Hw|ts s t Hw|ts s name f Hw|ts s name Hw|ts s r Hw|ts s id f Hw|
    ts s w Hw|ts s id Hw|ts s id n t Hw|s outcome|s]; intros Hs.
  - by eapply effect_inv.
  - unfold fs_UpdateJob, fs_partial, UpdateJob. destruct (jobs (fs_mem s) !! id) as [j|] eqn:E; simpl;
      [|by apply same_mem_inv].
    destruct (Hw j eq_refl) as [Hid Hwr]. rewrite lookup_insert_eq. simpl.
    eapply effect_inv; [done|done|]. simpl. by rewrite Hid.
  - by eapply effect_inv.
  - unfold fs_UpdateTask, fs_partial, UpdateTask.
    destruct (taskDefs (fs_mem s) !! name) as [t|] eqn:E; simpl; [|by apply same_mem_inv].
    destruct (Hw t eq_refl) as [Hid Hwr]. rewrite lookup_insert_eq. simpl.
    eapply effect_inv; [done|done|]. simpl. by rewrite Hid.
  - unfold fs_DeleteTask, fs_partial, DeleteTask.
    destruct (taskDefs (fs_mem s) !! name) as [t|] eqn:E; simpl; [|by apply same_mem_inv].
    by eapply effect_inv.
  - by eapply effect_inv.
  - unfold fs_UpdateRun, fs_partial, UpdateRun.
    destruct (runs (fs_mem s) !! id) as [t|] eqn:E; simpl; [|by apply same_mem_inv].
    destruct (Hw t eq_refl) as [Hid Hwr]. rewrite lookup_insert_eq. simpl.
    eapply effect_inv; [done|done|]. simpl. by rewrite Hid.
  - by eapply effect_inv.
  - by eapply effect_inv.
  - unfold fs_NackWebhook, fs_partial, NackWebhook.
    destruct (webhooks (fs_mem s) !! id) as [w|] eqn:E; simpl; [|by apply same_mem_inv].
    eapply effect_inv; [done|done|]. simpl. by rewrite (Halter _ _ _ _ w).
  - by apply receive_inv.
  - by apply flush_inv.
Qed.

Lemma fs_steps_inv s s' : rtc fs_step s s' → fs_inv s → fs_inv s'.
Proof. induction 1; eauto using fs_step_inv. Qed.

(** The first open of an empty directory. *)
Definition empty_disk : Disk := MkDisk None [] "".

Lemma norm_no_entities : norm no_entities = no_entities.
Proof. unfold norm, no_entities. simpl. by rewrite !fmap_empty. Qed.

Lemma fresh_inv cfg s : OpenFSStore cfg empty_disk ∅ CompactOk = Ok s → fs_inv s.
Proof.
  unfold OpenFSStore. simpl. intros [= <-].
  exists (norm no_entities), [], [], [], [], []. split; simpl; try done.
  apply (loadSnapshot_of no_entities empty_disk no_entities_ids no_entities_loadable no_entities_representable).
Qed.

Lemma Close_recovers cfg s outcome : fs_inv s →
  ∃ s', OpenFSStore cfg (fs_disk (Close s outcome)) (fs_logFiles s) CompactOk = Ok s' ∧
    fs_mem s' = norm (fs_mem (Close s outcome)).
Proof.
  intros Hs. unfold Close. set (s1 := drain _ s outcome).
  assert (fs_journalCh s1 = []) as Hch by by apply drain_chan.
  pose proof (flush_inv s1 (drain_inv _ s outcome Hs)) as
    (base & disk & buf & chan & edisk & ebuf & [Hi Hl Hrp Hb Ht Hj Hbuf Hd Hbf Hc Hm]).
  simpl in Hc. rewrite Hch in Hc. apply Forall2_nil_inv_l in Hc as ->.
  simpl in Hbuf. symmetry in Hbuf. apply fmap_nil_inv in Hbuf as ->. apply Forall2_nil_inv_l in Hbf as ->.
  eapply Open_ok; [done|]. unfold replayJournal. rewrite Ht, Hj, bool_decide_eq_true_2 by done.
  rewrite (replay_records base edisk disk [] Hd). simpl in Hm |- *. rewrite <- Hm. by rewrite !app_nil_r.
Qed.

Lemma receive_mem s outcome : fs_mem (runWriter_receive s outcome) = fs_mem s.
Proof.
  unfold runWriter_receive. destruct (fs_journalCh s); [done|]. unfold writeEntry. simpl.
  destruct (_ =? _)%Z; (destruct (_ <=? _)%Z; [unfold doCompact, compact; by destruct outcome|done]).
Qed.

Lemma Close_mem s outcome : fs_mem (Close s outcome) = fs_mem s.
Proof.
  unfold Close. simpl. generalize (length (fs_journalCh s)) as n. intros n. revert s.
  induction n as [|n IH]; intros s; simpl; [done|]. by rewrite IH, receive_mem.
Qed.
End recovery.

(** ** Properties *)

(** C11: A clean restart restores the store. Starting from an empty directory, take any sequence of store calls made
    one at a time on entities that JSON can hold (valid UTF-8 strings, payloads that read back, a journal line
    below one megabyte), interleaved in any way with the writer's work (entries written, synced, compactions
    succeeding or failing at any of their steps). Then closing and reopening the store succeeds and yields the
    entities that were in memory, each payload in the form JSON reads it back. *)
Theorem restart_restores_memory `{GoRuntime} `{StoreCodec} (cfg cfg' : FSStoreConfig)
    (s0 s : FSStore) (outcome : compact_outcome) :
  OpenFSStore cfg empty_disk ∅ CompactOk = Ok s0 → rtc fs_step s0 s →
  ∃ s', OpenFSStore cfg' (fs_disk (Close s outcome)) (fs_logFiles s) CompactOk = Ok s' ∧
    fs_mem s' = norm (fs_mem s).
Proof.
  intros Hopen Hsteps. pose proof (fs_steps_inv s0 s Hsteps (fresh_inv cfg s0 Hopen)) as Hs.
  destruct (Close_recovers cfg' s outcome Hs) as (s' & Hs' & Hm). exists s'. split; [done|].
  by rewrite Hm, Close_mem.
Qed.

(** C33: A crash in the middle of a journal write loses only that line. If the file ends in a proper
    prefix of the line being written, the store opens, with the same entities as if the file ended after
    the last complete line. *)
Theorem torn_line_is_ignored `{GoRuntime} `{StoreCodec} (cfg cfg' : FSStoreConfig)
    (s0 s : FSStore) (n : nat) (p q : string) :
  OpenFSStore cfg empty_disk ∅ CompactOk = Ok s0 → rtc fs_step s0 s →
  d_journal (fs_disk s) !! n = Some (p +:+ q) → q ≠ "" →
  let complete := take n (d_journal (fs_disk s)) in
  ∃ s1 s2,
    OpenFSStore cfg' (MkDisk (d_snapshot (fs_disk s)) complete p) ∅ CompactOk = Ok s1 ∧
    OpenFSStore cfg' (MkDisk (d_snapshot (fs_disk s)) complete "") ∅ CompactOk = Ok s2 ∧
    fs_mem s1 = fs_mem s2.
Proof.
  intros Hopen Hsteps Hn Hq complete.
  destruct (fs_steps_inv s0 s Hsteps (fresh_inv cfg s0 Hopen))
    as (base & disk & buf & chan & edisk & ebuf & [Hi Hl Hrp Hb Ht Hj Hbuf Hd Hbf Hc Hm]).
  assert (complete = encode_line <$> take n edisk) as Ec by (unfold complete; by rewrite Hj, fmap_take).
  assert (Forall2 writable (take n edisk) (take n disk)) as Htake by by apply Forall2_take.
  rewrite Hj, list_lookup_fmap in Hn. apply fmap_Some in Hn as (e & He & Hline).
  destruct (Forall2_lookup_l _ _ _ _ _ Hd He) as (f & _ & _ & _ & Hfit).
  set (m := effects_apply base (norm_effect <$> take n disk)).
  assert (∀ t, t = p ∨ t = "" → ∃ s1,
    OpenFSStore cfg' (MkDisk (d_snapshot (fs_disk s)) complete t) ∅ CompactOk = Ok s1 ∧ fs_mem s1 = m)
    as Hopen'.
  { intros t Ht'. eapply Open_ok; [exact Hb|]. unfold replayJournal. simpl. rewrite Ec.
    rewrite (replay_records base _ _ _ Htake). fold m.
    case_bool_decide as Hempty; [done|].
    destruct Ht' as [->| ->]; [|done]. by apply (replay_truncated m e p q). }
  destruct (Hopen' p ltac:(auto)) as (s1 & ? & E1). destruct (Hopen' "" ltac:(auto)) as (s2 & ? & E2).
  exists s1, s2. by rewrite E1, E2.
Qed.

Lemma fresh_snapshot `{GoRuntime} `{StoreCodec} js t :
  loadSnapshot no_entities (MkDisk (Some (encode_snapshot (snapshot_of no_entities))) js t) =
    Ok (norm no_entities).
Proof. apply (loadSnapshot_of no_entities (MkDisk None js t) no_entities_ids no_entities_loadable no_entities_representable). Qed.

(** The writer below the compaction threshold. *)
Lemma receive_small `{GoRuntime} `{StoreCodec} cfg m logs files e rest buffered count d outcome :
  (wrap64 (count + 1) < CompactAfter cfg)%Z →
  runWriter_receive (MkFSStore cfg m logs files (e :: rest) buffered count d) outcome =
  (if (SyncInterval cfg =? 0)%Z
   then MkFSStore cfg m logs files rest [] (wrap64 (count + 1))
          (MkDisk (d_snapshot d) (d_journal d ++ buffered ++ [encode_line e]) (d_tail d))
   else MkFSStore cfg m logs files rest (buffered ++ [encode_line e]) (wrap64 (count + 1)) d).
Proof.
  intros Hc. unfold runWriter_receive, writeEntry. simpl.
  destruct (SyncInterval cfg =? 0)%Z; simpl; by rewrite (proj2 (Z.leb_gt _ _)) by done.
Qed.

Lemma Close_two `{GoRuntime} `{StoreCodec} cfg s0 m e1 e2 :
  OpenFSStore cfg empty_disk ∅ CompactOk = Ok s0 → (2 < CompactAfter (setDefaults cfg))%Z →
  fs_disk (Close (journal (journal (s0 <| fs_mem := m |>) e1) e2) CompactOk) =
    MkDisk (Some (encode_snapshot (snapshot_of no_entities))) [encode_line e1; encode_line e2] "".
Proof.
  intros [= <-] Hc. set (c := setDefaults cfg) in *. set (snap := Some (encode_snapshot _)).
  change (fs_disk (flushSync (runWriter_receive (runWriter_receive
    (MkFSStore c m no_logs ∅ [e1; e2] [] 0 (MkDisk snap [] "")) CompactOk) CompactOk)) =
    MkDisk snap [encode_line e1; encode_line e2] "").
  assert (wrap64 (0 + 1) = 1 ∧ wrap64 (1 + 1) = 2)%Z as [W1 W2] by (split; apply wrap64_id; i64; lia).
  rewrite receive_small by (rewrite W1; lia). rewrite W1.
  destruct (SyncInterval c =? 0)%Z eqn:Es; simpl; rewrite receive_small by (rewrite W2; lia);
    by rewrite Es.
Qed.

(** Concurrent updates of a job can be lost by a restart. Memory is updated under the mutex but the journal
    entry is sent after it is released; if two saves of the same job reach the journal in the opposite
    order, the restarted store holds the older value although memory held the newer one. *)
Theorem reordered_saves_lose_update `{GoRuntime} `{StoreCodec} (cfg cfg' : FSStoreConfig)
    (s0 : FSStore) (older newer : Job) (ts1 ts2 : Time) :
  OpenFSStore cfg empty_disk ∅ CompactOk = Ok s0 → (2 < CompactAfter (setDefaults cfg))%Z →
  job_ID older = job_ID newer →
  writable (fs_entry opJob (marshal_job older) "" ts1) (EJob older) →
  writable (fs_entry opJob (marshal_job newer) "" ts2) (EJob newer) →
  let '(s1, e1) := fs_SaveJob_locked s0 older ts1 in
  let '(s2, e2) := fs_SaveJob_locked s1 newer ts2 in
  let s3 := journal (journal s2 e2) e1 in
  jobs (fs_mem s3) !! job_ID newer = Some newer ∧
  ∃ s', OpenFSStore cfg' (fs_disk (Close s3 CompactOk)) ∅ CompactOk = Ok s' ∧
    jobs (fs_mem s') !! job_ID newer = Some (norm_job older).
Proof.
  intros Hopen Hc Hid Hw1 Hw2. unfold fs_SaveJob_locked. cbv beta iota zeta.
  split; [simpl; by rewrite lookup_insert_eq|].
  pose proof (Close_two cfg s0 (SaveJob (SaveJob (fs_mem s0) older) newer)
    (fs_entry opJob (marshal_job newer) "" ts2) (fs_entry opJob (marshal_job older) "" ts1) Hopen Hc) as Hd.
  match type of Hd with _ = ?d =>
    match goal with |- context [Close ?s _] => change (fs_disk (Close s CompactOk) = d) in Hd end end.
  rewrite Hd. set (lines := [encode_line _; encode_line _]).
  pose proof (replay_records (norm no_entities) [fs_entry opJob (marshal_job newer) "" ts2;
    fs_entry opJob (marshal_job older) "" ts1] [EJob newer; EJob older] []
    ltac:(constructor; [exact Hw2|constructor; [exact Hw1|constructor]])) as Hreplay.
  destruct (Open_ok cfg' _ ∅ _ _ (fresh_snapshot lines "") Hreplay) as (s' & Hs' & Hm).
  exists s'. split; [exact Hs'|]. rewrite Hm. simpl. rewrite norm_job_ID, <- Hid.
  by rewrite lookup_insert_eq.
Qed.

(** One entry that cannot be read back keeps the store from ever opening again. If a job whose payload
    does not survive JSON (such as a string literal), or whose journal line reaches one megabyte, is saved,
    then closing and reopening fails with an error, and the journal that causes it is left in place. *)
Theorem unreadable_entry_blocks_restart `{GoRuntime} `{StoreCodec} (cfg cfg' : FSStoreConfig)
    (s0 : FSStore) (job next : Job) (ts : Time) :
  OpenFSStore cfg empty_disk ∅ CompactOk = Ok s0 → (2 < CompactAfter (setDefaults cfg))%Z →
  rep_job job → rep_entry (fs_entry opJob (marshal_job job) "" ts) →
  (∃ err, reload_job job = Err err) ∨ fits (encode_line (fs_entry opJob (marshal_job job) "" ts)) = false →
  let s := (fs_SaveJob ts (fs_SaveJob ts s0 job).1 next).1 in
  jobs (fs_mem s) !! job_ID next = Some next ∧
  ∃ err, OpenFSStore cfg' (fs_disk (Close s CompactOk)) ∅ CompactOk = Err err.
Proof.
  intros Hopen Hc Hrj Hre Hbad s. split; [simpl; by rewrite lookup_insert_eq|].
  pose proof (Close_two cfg s0 (SaveJob (SaveJob (fs_mem s0) job) next)
    (fs_entry opJob (marshal_job job) "" ts) (fs_entry opJob (marshal_job next) "" ts) Hopen Hc) as Hd.
  match type of Hd with _ = ?d => change (fs_disk (Close s CompactOk) = d) in Hd end.
  rewrite Hd. unfold OpenFSStore.
  rewrite fresh_snapshot.
  simpl. unfold replayJournal. simpl. set (m := norm no_entities).
  destruct (fits (encode_line (fs_entry opJob (marshal_job job) "" ts))) eqn:Hfit; [|by eexists].
  destruct Hbad as [[err Herr]|]; [|done]. simpl. rewrite decode_encode_line by done. unfold applyJournalEntry. simpl.
  rewrite unmarshal_marshal_job, Herr by done. by eexists.
Qed.

(** ** Witnesses: a codec over numberings of the structs *)
Section samples.

#[local] Instance JobStatus_countable : Countable JobStatus.
Proof.
  refine (inj_countable' (λ s, match s with
    | JobStatusPending => 0 | JobStatusProposing => 1 | JobStatusAccepted => 2
    | JobStatusProvisioning => 3 | JobStatusRunning => 4 | JobStatusAwaitingChildren => 5
    | JobStatusCompleted => 6 | JobStatusFailed => 7 | JobStatusCancelled => 8 end)
    (λ n, match n with
    | 0 => JobStatusPending | 1 => JobStatusProposing | 2 => JobStatusAccepted
    | 3 => JobStatusProvisioning | 4 => JobStatusRunning | 5 => JobStatusAwaitingChildren
    | 6 => JobStatusCompleted | 7 => JobStatusFailed | _ => JobStatusCancelled end) _).
  by intros [].
Defined.

#[local] Instance JobPhase_countable : Countable JobPhase.
Proof.
  refine (inj_countable' (λ p, match p with JobPhaseRun => true | _ => false end)
    (λ b, if b then JobPhaseRun else JobPhaseConsolidate) _).
  by intros [].
Defined.

#[local] Instance RunStatus_countable : Countable RunStatus.
Proof.
  refine (inj_countable' (λ s, match s with RunStatusProvisioning => 0 | RunStatusRunning => 1
      | RunStatusCompleted => 2 | RunStatusFailed => 3 end)
    (λ n, match n with 0 => RunStatusProvisioning | 1 => RunStatusRunning
      | 2 => RunStatusCompleted | _ => RunStatusFailed end) _).
  by intros [].
Defined.

#[local] Instance ResultType_countable : Countable ResultType.
Proof.
  refine (inj_countable' (λ s, match s with ResultSuccess => 0 | ResultError => 1 | ResultSubjobs => 2 end)
    (λ n, match n with 0 => ResultSuccess | 1 => ResultError | _ => ResultSubjobs end) _).
  by intros [].
Defined.

#[local] Instance journalOp_eq_dec : EqDecision journalOp.
Proof. solve_decision. Defined.

#[local] Instance journalOp_countable : Countable journalOp.
Proof.
  refine (inj_countable' (λ o, match o with
    | opJob => 0 | opTaskDef => 1 | opTaskDefDelete => 2 | opWebhookEnqueue => 3
    | opWebhookAck => 4 | opWebhookNack => 5 | opRunCreate => 6 | opRunUpdate => 7 end)
    (λ n, match n with
    | 0 => opJob | 1 => opTaskDef | 2 => opTaskDefDelete | 3 => opWebhookEnqueue
    | 4 => opWebhookAck | 5 => opWebhookNack | 6 => opRunCreate | _ => opRunUpdate end) _).
  by intros [].
Defined.

#[local] Instance Job_countable : Countable Job.
Proof.
  refine (inj_countable (λ v : Job, [encode (job_ID v); encode (job_ParentJobID v);
    encode (job_TaskName v); encode (job_ArtifactVersion v); encode (job_Status v); encode (job_Phase v);
      encode (job_Priority v); encode (job_Cost v); encode (job_Attempts v); encode (job_Payload v);
        encode (job_Result v); encode (job_FailureReason v); encode (job_WebhookURL v);
          encode (job_WebhookEvents v); encode (job_WebhookHeaders v); encode (job_CreatedAt v);
            encode (job_UpdatedAt v); encode (job_CompletedAt v); encode (job_Duration v)])
    (λ l, match l with
          | [x1; x2; x3; x4; x5; x6; x7; x8; x9; x10; x11; x12; x13; x14; x15; x16; x17; x18; x19] =>
              x1 ← decode x1; x2 ← decode x2; x3 ← decode x3; x4 ← decode x4; x5 ← decode x5;
                x6 ← decode x6; x7 ← decode x7; x8 ← decode x8; x9 ← decode x9; x10 ← decode x10;
                  x11 ← decode x11; x12 ← decode x12; x13 ← decode x13; x14 ← decode x14; x15 ← decode x15;
                    x16 ← decode x16; x17 ← decode x17; x18 ← decode x18; x19 ← decode x19;
              Some (MkJob x1 x2 x3 x4 x5 x6 x7 x8 x9 x10 x11 x12 x13 x14 x15 x16 x17 x18 x19)
          | _ => None
          end) _).
  intros v. rewrite !decode_encode. simpl. by destruct v.
Defined.

#[local] Instance Task_countable : Countable Task.
Proof.
  refine (inj_countable (λ v : Task, [encode (task_Name v); encode (MaxExecutionTime (task_Limitations v));
    encode (MaxMemoryBytes (task_Limitations v)); encode (MaxCPUCores (task_Limitations v));
      encode (MaxAttempts (task_RetryPolicy v)); encode (RetryDelay (task_RetryPolicy v));
        encode (MaxRetryDelay (task_RetryPolicy v)); encode (task_NoResult v); encode (task_Cost v)])
    (λ l, match l with
          | [x1; x2; x3; x4; x5; x6; x7; x8; x9] =>
              x1 ← decode x1; x2 ← decode x2; x3 ← decode x3; x4 ← decode x4; x5 ← decode x5;
                x6 ← decode x6; x7 ← decode x7; x8 ← decode x8; x9 ← decode x9;
              Some (MkTask x1 (MkLimitations x2 x3 x4) (MkRetryPolicy x5 x6 x7) x8 x9)
          | _ => None
          end) _).
  intros v. rewrite !decode_encode. simpl. by destruct v as [? [] [] ? ?].
Defined.

#[local] Instance WebhookEntry_countable : Countable WebhookEntry.
Proof.
  refine (inj_countable (λ v : WebhookEntry, [encode (wh_ID v); encode (wh_JobID v); encode (wh_Event v);
    encode (wh_URL v); encode (wh_Payload v); encode (wh_Headers v); encode (wh_Attempts v);
      encode (wh_NextAttemptAt v); encode (wh_CreatedAt v)])
    (λ l, match l with
          | [x1; x2; x3; x4; x5; x6; x7; x8; x9] =>
              x1 ← decode x1; x2 ← decode x2; x3 ← decode x3; x4 ← decode x4; x5 ← decode x5;
                x6 ← decode x6; x7 ← decode x7; x8 ← decode x8; x9 ← decode x9;
              Some (MkWebhookEntry x1 x2 x3 x4 x5 x6 x7 x8 x9)
          | _ => None
          end) _).
  intros v. rewrite !decode_encode. simpl. by destruct v.
Defined.

#[local] Instance JobRun_countable : Countable JobRun.
Proof.
  refine (inj_countable (λ v : JobRun, [encode (run_ID v); encode (run_JobID v); encode (run_Phase v);
    encode (run_Attempt v); encode (run_WorkerID v); encode (run_Status v); encode (run_InputPayload v);
      encode (run_OutputPayload v); encode (run_FailureReason v); encode (run_ExitCode v);
        encode (run_ResultType v); encode (run_StartedAt v); encode (run_FinishedAt v)])
    (λ l, match l with
          | [x1; x2; x3; x4; x5; x6; x7; x8; x9; x10; x11; x12; x13] =>
              x1 ← decode x1; x2 ← decode x2; x3 ← decode x3; x4 ← decode x4; x5 ← decode x5;
                x6 ← decode x6; x7 ← decode x7; x8 ← decode x8; x9 ← decode x9; x10 ← decode x10;
                  x11 ← decode x11; x12 ← decode x12; x13 ← decode x13;
              Some (MkJobRun x1 x2 x3 x4 x5 x6 x7 x8 x9 x10 x11 x12 x13)
          | _ => None
          end) _).
  intros v. rewrite !decode_encode. simpl. by destruct v.
Defined.

#[local] Instance journalEntry_eq_dec : EqDecision journalEntry.
Proof. solve_decision. Defined.

#[local] Instance journalEntry_countable : Countable journalEntry.
Proof.
  refine (inj_countable (λ v : journalEntry, [encode (je_Op v); encode (je_Ts v); encode (je_Data v);
    encode (je_ID v); encode (je_Attempts v); encode (je_NextAttemptAt v)])
    (λ l, match l with
          | [x1; x2; x3; x4; x5; x6] =>
              x1 ← decode x1; x2 ← decode x2; x3 ← decode x3; x4 ← decode x4; x5 ← decode x5; x6 ← decode x6;
              Some (MkJournalEntry x1 x2 x3 x4 x5 x6)
          | _ => None
          end) _).
  intros v. rewrite !decode_encode. simpl. by destruct v.
Defined.

#[local] Instance snapshot_eq_dec : EqDecision snapshot.
Proof. solve_decision. Defined.

#[local] Instance snapshot_countable : Countable snapshot.
Proof.
  refine (inj_countable' (λ s, (snap_Jobs s, snap_TaskDefs s, snap_Webhooks s, snap_Runs s))
    (λ '(a, b, c, d), MkSnapshot a b c d) _).
  by intros [].
Defined.

(** A number as binary digits ended by a full stop. *)
Fixpoint pos_text (p : positive) : string :=
  match p with
  | xH => "." | xO p => String "0" (pos_text p) | xI p => String "1" (pos_text p)
  end.

Fixpoint text_pos (s : string) : option positive :=
  match s with
  | String c EmptyString => if Ascii.eqb c "." then Some xH else None
  | String c s =>
      p ← text_pos s;
      if Ascii.eqb c "0" then Some (xO p) else if Ascii.eqb c "1" then Some (xI p) else None
  | EmptyString => None
  end.

Lemma text_pos_text p : text_pos (pos_text p) = Some p.
Proof.
  induction p as [p IH|p IH|]; simpl; [| |done];
    (destruct (pos_text p) eqn:E; [by destruct p|]); by rewrite IH.
Qed.

Lemma text_pos_prefix p a b : pos_text p = a +:+ b → b ≠ "" → text_pos a = None.
Proof.
  revert a. induction p as [p IH|p IH|]; intros [|c a]; simpl; try done.
  all: try (intros [= <- E] Hb; destruct a as [|d a]; [done|]; by rewrite (IH (String d a) E Hb)).
  intros [= <- E] Hb. destruct a; simpl in E; [by subst|done].
Qed.

Definition text_of `{Countable A} (x : A) : string := pos_text (encode x).
Definition of_text `{Countable A} (s : string) : option A := text_pos s ≫= decode.

Lemma of_text_of `{Countable A} (x : A) : of_text (text_of x) = Some x.
Proof. unfold of_text, text_of. rewrite text_pos_text. simpl. apply decode_encode. Qed.

Definition via {A B} (d : option A) (f : A → res error B) : res error B :=
  match d with Some x => f x | None => Err (ErrMsg "invalid") end.

#[refine] Definition numbering_codec : StoreCodec := {|
  rep_job _ := True; rep_task _ := True; rep_webhook _ := True; rep_run _ := True; rep_entry _ := True;
  rep_time _ := True;
  marshal_job := text_of;
  unmarshal_job s := via (of_text s) reload_job;
  marshal_task := text_of;
  unmarshal_task s := via (of_text s) Ok;
  marshal_webhook := text_of;
  unmarshal_webhook s := via (of_text s) reload_webhook;
  marshal_run := text_of;
  unmarshal_run s := via (of_text s) reload_run;
  encode_line := text_of;
  decode_line := of_text;
  encode_snapshot := text_of;
  decode_snapshot s := via (of_text s) reload_snapshot;
|}.
Proof.
  all: intros; rewrite ?of_text_of; try done.
  unfold of_text, text_of in *. by erewrite text_pos_prefix.
Defined.

Local Existing Instances canonical_runtime numbering_codec.

Definition sample_cfg : FSStoreConfig := MkFSStoreConfig 0 500 256.
Definition sample_store : FSStore :=
  match OpenFSStore sample_cfg empty_disk ∅ CompactOk with
  | Ok s => s
  | Err _ => MkFSStore sample_cfg no_entities no_logs ∅ [] [] 0 empty_disk
  end.
Definition job_v1 : Job := zero_job <| job_ID := "j" |> <| job_Attempts := 1%Z |>.
Definition job_v2 : Job := zero_job <| job_ID := "j" |> <| job_Attempts := 2%Z |>.

Lemma sample_open : OpenFSStore sample_cfg empty_disk ∅ CompactOk = Ok sample_store.
Proof. reflexivity. Qed.

Lemma job_v1_writable : writable (fs_entry opJob (marshal_job job_v1) "" 0) (EJob job_v1).
Proof. split; [done|]. split; [split; [|done]|]; vm_compute; reflexivity. Qed.

Lemma job_v2_writable : writable (fs_entry opJob (marshal_job job_v2) "" 1) (EJob job_v2).
Proof. split; [done|]. split; [split; [|done]|]; vm_compute; reflexivity. Qed.

Definition saved_store : FSStore := runWriter_receive (fs_SaveJob 0 sample_store job_v1).1 CompactOk.

Lemma saved_steps : rtc fs_step sample_store saved_store.
Proof.
  eapply rtc_l; [exact (fss_SaveJob 0 sample_store job_v1 job_v1_writable)|].
  apply rtc_once. apply fss_write.
Qed.

Lemma restart_restores_memory_witness :
  ∃ s', OpenFSStore sample_cfg (fs_disk (Close saved_store CompactOk)) (fs_logFiles saved_store) CompactOk
      = Ok s' ∧ jobs (fs_mem s') !! "j" = Some (norm_job job_v1).
Proof.
  destruct (restart_restores_memory sample_cfg sample_cfg sample_store saved_store CompactOk
    sample_open saved_steps) as (s' & Hs' & Hm).
  exists s'. split; [exact Hs'|]. rewrite Hm. reflexivity.
Defined.

Lemma torn_line_is_ignored_witness : ∃ p q s1 s2,
  q ≠ "" ∧ d_journal (fs_disk saved_store) !! 0 = Some (p +:+ q) ∧
  OpenFSStore sample_cfg (MkDisk (d_snapshot (fs_disk saved_store)) [] p) ∅ CompactOk = Ok s1 ∧
  OpenFSStore sample_cfg (MkDisk (d_snapshot (fs_disk saved_store)) [] "") ∅ CompactOk = Ok s2 ∧
  fs_mem s1 = fs_mem s2.
Proof.
  set (line := encode_line (fs_entry opJob (marshal_job job_v1) "" 0)).
  destruct line as [|c q] eqn:E; [vm_compute in E; discriminate E|].
  assert (d_journal (fs_disk saved_store) !! 0 = Some (String c "" +:+ q)) as Hn.
  { change (Some line = Some (String c "" +:+ q)). rewrite E. reflexivity. }
  assert (q ≠ "") as Hq. { intros ->. vm_compute in E. discriminate E. }
  destruct (torn_line_is_ignored sample_cfg sample_cfg sample_store saved_store 0 (String c "") q
    sample_open saved_steps Hn Hq) as (s1 & s2 & H1 & H2 & H3).
  exists (String c ""), q, s1, s2. exact (conj Hq (conj Hn (conj H1 (conj H2 H3)))).
Defined.

Lemma reordered_saves_lose_update_witness :
  let '(s1, e1) := fs_SaveJob_locked sample_store job_v1 0 in
  let '(s2, e2) := fs_SaveJob_locked s1 job_v2 1 in
  let s3 := journal (journal s2 e2) e1 in
  jobs (fs_mem s3) !! "j" = Some job_v2 ∧
  ∃ s', OpenFSStore sample_cfg (fs_disk (Close s3 CompactOk)) ∅ CompactOk = Ok s' ∧
    jobs (fs_mem s') !! "j" = Some (norm_job job_v1).
Proof.
  exact (reordered_saves_lose_update sample_cfg sample_cfg sample_store job_v1 job_v2 0 1
    sample_open ltac:(vm_compute; reflexivity) eq_refl job_v1_writable job_v2_writable).
Defined.

Definition string_payload : string := String dquote ("hello" +:+ String dquote "").

Lemma unreadable_entry_blocks_restart_witness :
  ∃ err, OpenFSStore sample_cfg (fs_disk (Close
    (fs_SaveJob 0 (fs_SaveJob 0 sample_store (job_v1 <| job_Payload := string_payload |>)).1 job_v2).1
    CompactOk)) ∅ CompactOk = Err err.
Proof.
  destruct (unreadable_entry_blocks_restart sample_cfg sample_cfg sample_store
    (job_v1 <| job_Payload := string_payload |>) job_v2 0 sample_open ltac:(vm_compute; reflexivity) Logic.I Logic.I
    (or_introl (ex_intro _ (ErrMsg "illegal base64 data") eq_refl))) as [_ Hx].
  exact Hx.
Defined.
End samples.
