(* ===== verification/Webhooks.v ===== *)
(** * Webhook delivery (src/manager/webhooks/dispatcher.go)

    The dispatcher keeps its queue in the store and is woken through a channel
    with one slot.  The HTTP exchange and the JSON text of an event are
    parameters; [now] is the clock reading of a call. *)
From S2P Require Import Prelude GoStd External Contract Store MemStore.

(** The envelope of an event; [Data] values are strings, integers or raw JSON. *)
Inductive EventValue := EvString (s : string) | EvInt (n : Z) | EvRaw (s : string).

Record webhookEvent := MkWebhookEvent {
  ev_Event : string;
  ev_JobID : string;
  ev_ParentJobID : string;
  ev_Timestamp : Time;
  ev_Data : list (string * EventValue);
}.

Definition eventTaskProposing : string := "task.proposing".
Definition eventJobRunning : string := "job.running".
Definition eventJobProgress : string := "job.progress".
Definition eventJobCompleted : string := "job.completed".
Definition eventJobFailed : string := "job.failed".
Definition eventJobCancelled : string := "job.cancelled".

Record WebhookDispatcherConfig := MkWebhookDispatcherConfig {
  WebhookTimeout : Duration;
  WebhookMaxBackoff : Duration;
  MaxWebhookAttempts : Z;
}.

(** [json.Marshal] of an envelope, and one HTTP POST: [None] when the request cannot be
    built or sent, else the status code. *)
Class WebhookEnv := {
  marshal_event : webhookEvent → res error string;
  is_event_json : string → bool;
  http_post : string → gmap string string → string → option Z;
}.

Record WebhookDispatcher (ST : Type) := MkWebhookDispatcher {
  wd_store : ST;
  wd_wakeCh : SigChan;
  wd_ulids : nat;
}.
Arguments MkWebhookDispatcher {ST} _ _ _.
Arguments wd_store {ST} _.
Arguments wd_wakeCh {ST} _.
Arguments wd_ulids {ST} _.

#[export] Instance WebhookDispatcher_rebuild {ST} : Rebuild (WebhookDispatcher ST) := λ w,
  MkWebhookDispatcher (wd_store w) (wd_wakeCh w) (wd_ulids w).

Section webhooks.
Context `{Store ST} `{GoRuntime} `{WebhookEnv} `{Ulid}.
Implicit Types w : WebhookDispatcher ST.
Local Open Scope go_scope.

(** The defaults [NewWebhookDispatcher] writes into its configuration. *)
Definition webhook_defaults (cfg : WebhookDispatcherConfig) : WebhookDispatcherConfig :=
  MkWebhookDispatcherConfig
    (if (WebhookTimeout cfg <=? 0)%Z then Second else WebhookTimeout cfg)
    (if (WebhookMaxBackoff cfg <=? 0)%Z then (5 * Minute)%Z else WebhookMaxBackoff cfg)
    (MaxWebhookAttempts cfg).

Definition NewWebhookDispatcher (store : ST) (ulids : nat) : WebhookDispatcher ST :=
  MkWebhookDispatcher store (MkSigChan 1 0 false) ulids.

Definition wake w : WebhookDispatcher ST := w <| wd_wakeCh := try_send (wd_wakeCh w) |>.

Definition sliceContains (s : list string) (v : string) : bool := bool_decide (v ∈ s).

Definition ShouldDispatchEvent (job : Job) (event : string) : bool :=
  if bool_decide (job_WebhookURL job = "") then false
  else if bool_decide (job_WebhookEvents job ≠ []) && negb (sliceContains (job_WebhookEvents job) event)
  then false
  else true.

Definition enqueue w (job : Job) (event : string) (data : list (string * EventValue)) (now : Time)
  : WebhookDispatcher ST :=
  if bool_decide (job_WebhookURL job = "") then w
  else if bool_decide (job_WebhookEvents job ≠ []) && negb (sliceContains (job_WebhookEvents job) event)
  then w
  else
    let env := MkWebhookEvent event (job_ID job) (job_ParentJobID job) now data in
    match marshal_event env with
    | Err _ => w
    | Ok payload =>
        let e := MkWebhookEntry (ulid (wd_ulids w)) (job_ID job) event (job_WebhookURL job) payload
                   (job_WebhookHeaders job) 0 now now in
        let w := w <| wd_ulids := S (wd_ulids w) |> in
        let '(store, err) := st_EnqueueWebhook (wd_store w) e in
        let w := w <| wd_store := store |> in
        match err with
        | Some _ => w
        | None => wake w
        end
    end.

Definition FireJobProposing w (job : Job) (workerID : string) (now : Time) : WebhookDispatcher ST :=
  enqueue w job eventTaskProposing
    [("task_name", EvString (job_TaskName job)); ("cost", EvInt (job_Cost job));
     ("worker_id", EvString workerID)] now.
Definition FireJobRunning w (job : Job) (workerID : string) (now : Time) : WebhookDispatcher ST :=
  enqueue w job eventJobRunning [("worker_id", EvString workerID)] now.
Definition FireJobFailed w (job : Job) (reason : string) (now : Time) : WebhookDispatcher ST :=
  enqueue w job eventJobFailed [("failure_reason", EvString reason)] now.
Definition FireJobCompleted w (job : Job) (now : Time) : WebhookDispatcher ST :=
  enqueue w job eventJobCompleted [("result", EvRaw (job_Result job))] now.
Definition FireJobCancelled w (job : Job) (now : Time) : WebhookDispatcher ST :=
  enqueue w job eventJobCancelled [] now.
Definition FireJobProgress w (job : Job) (completed total : Z) (now : Time) : WebhookDispatcher ST :=
  enqueue w job eventJobProgress
    [("completed_tasks", EvInt completed); ("total_tasks", EvInt total)] now.

(** ** Delivery *)

(** [Header.Set] stores a name in its canonical form: the first letter and those after a hyphen upper case, the others
    lower case; a name with a byte that no header name may have stays as it is. *)
Definition header_byte (c : ascii) : bool :=
  let n := N_of_ascii c in
  ((48 <=? n) && (n <=? 57) || (65 <=? n) && (n <=? 90) || (97 <=? n) && (n <=? 122))%N ||
  bool_decide (n ∈ [33; 35; 36; 37; 38; 39; 42; 43; 45; 46; 94; 95; 96; 124; 126]%N).

Definition set_case (upper : bool) (c : ascii) : ascii :=
  let n := N_of_ascii c in
  if upper then (if (97 <=? n) && (n <=? 122) then ascii_of_N (n - 32) else c)%N
  else (if (65 <=? n) && (n <=? 90) then ascii_of_N (n + 32) else c)%N.

Fixpoint header_case (upper : bool) (s : string) : string :=
  match s with
  | EmptyString => ""
  | String c s => String (set_case upper c) (header_case (Ascii.eqb c "-") s)
  end.

Definition CanonicalHeaderKey (s : string) : string :=
  if forallb header_byte (String.list_ascii_of_string s) then header_case true s else s.

Definition request_headers (e : WebhookEntry) : gmap string string :=
  let base : gmap string string := <["Content-Type" := "application/json"]> ∅ in
  let base := if is_event_json (wh_Payload e) then <["X-Workforce-Event" := wh_Event e]> base else base in
  foldl (λ h '(k, v), if HasPrefix "X-" k || bool_decide (k = "Authorization")
                       then <[CanonicalHeaderKey k := v]> h else h)
    base (range_map (wh_Headers e)).

Example canonical_header : CanonicalHeaderKey "X-my-TOKEN" = "X-My-Token" ∧ CanonicalHeaderKey "X-a b" = "X-a b".
Proof. split; reflexivity. Qed.

Definition deliver w (e : WebhookEntry) : WebhookDispatcher ST * option error :=
  match http_post (wh_URL e) (request_headers e) (wh_Payload e) with
  | None => (w, Some (ErrMsg "http post"))
  | Some code =>
      if negb (code =? 200)%Z then (w, Some (ErrMsg ("non-200 response: " +:+ Itoa code)))
      else let '(store, err) := st_AckWebhook (wd_store w) (wh_ID e) in (w <| wd_store := store |>, err)
  end.

(** [time.Duration(math.Pow(2, float64(n)))]: powers of two are exact floats; beyond 63 bits
    the conversion yields the smallest integer (amd64), and a negative exponent truncates to 0. *)
Definition pow2_duration (n : Z) : Duration :=
  if (n <? 0)%Z then 0%Z else if (n <? 63)%Z then (2 ^ n)%Z else MinInt64.

Definition backoff (cfg : WebhookDispatcherConfig) (attempts : Z) : Duration :=
  let b := pow2_duration (attempts -! 1) *! Second in
  if (WebhookMaxBackoff cfg <? b)%Z then WebhookMaxBackoff cfg else b.

Definition scheduleRetry (cfg : WebhookDispatcherConfig) w (e : WebhookEntry) (now : Time)
  : WebhookDispatcher ST * Time :=
  let attempts := wh_Attempts e +! 1 in
  if (0 <? MaxWebhookAttempts cfg)%Z && (MaxWebhookAttempts cfg <=? attempts)%Z then
    (w <| wd_store := (st_AckWebhook (wd_store w) (wh_ID e)).1 |>, time_zero)
  else
    let next := time_Add now (backoff cfg attempts) in
    (w <| wd_store := (st_NackWebhook (wd_store w) (wh_ID e) attempts next).1 |>, next).

(** One due entry of [processPending], with the earliest retry seen so far. *)
Definition process_entry (cfg : WebhookDispatcherConfig) (now : Time)
    (st : WebhookDispatcher ST * Time) (e : WebhookEntry) : WebhookDispatcher ST * Time :=
  let '(w, nextWake) := st in
  let '(w, err) := deliver w e in
  match err with
  | None => (w, nextWake)
  | Some _ =>
      let '(w, next) := scheduleRetry cfg w e now in
      if negb (IsZero next) && (IsZero nextWake || Before next nextWake) then (w, next)
      else (w, nextWake)
  end.

Definition processPending (cfg : WebhookDispatcherConfig) w (now : Time)
  : WebhookDispatcher ST * Duration :=
  let entries := DequeueWebhooks (entities (wd_store w)) now in
  let '(w, nextWake) := foldl (process_entry cfg now) (w, time_zero) entries in
  if IsZero nextWake then (w, Hour)
  else
    let delay := time_Sub nextWake now in
    (w, if (delay <? 0)%Z then 0%Z else delay).

(** Queueing an event touches nothing but the webhook queue. *)
Lemma enqueue_entities w job event data now :
  let e := entities (wd_store w) in
  let e' := entities (wd_store (enqueue w job event data now)) in
  jobs e' = jobs e ∧ taskDefs e' = taskDefs e ∧ runs e' = runs e.
Proof.
  unfold enqueue. destruct (bool_decide (job_WebhookURL job = "")); [done|].
  destruct (bool_decide (job_WebhookEvents job ≠ []) && _); [done|].
  destruct (marshal_event _) as [payload|]; [|done]. simpl.
  match goal with |- context [st_EnqueueWebhook ?s ?x] =>
    pose proof (ent_EnqueueWebhook s x) as He; destruct (st_EnqueueWebhook s x) as [s' err] end.
  simpl in He. destruct err; unfold wake; simpl; by rewrite He.
Qed.

(** ** What processing does to one queue entry *)
Definition delivered (e : WebhookEntry) : bool :=
  match http_post (wh_URL e) (request_headers e) (wh_Payload e) with
  | Some code => (code =? 200)%Z
  | None => false
  end.

Definition outcome (cfg : WebhookDispatcherConfig) (now : Time) (e : WebhookEntry) : option WebhookEntry :=
  if delivered e then None
  else
    let attempts := wh_Attempts e +! 1 in
    if (0 <? MaxWebhookAttempts cfg)%Z && (MaxWebhookAttempts cfg <=? attempts)%Z then None
    else Some (nack attempts (now + backoff cfg attempts)%Z e).

Definition set_webhook (m : Entities) (id : string) (x : option WebhookEntry) : Entities :=
  m <| webhooks := partial_alter (λ _, x) id (webhooks m) |>.

Lemma process_entry_entities cfg now w nextWake e :
  webhooks (entities (wd_store w)) !! wh_ID e = Some e →
  entities (wd_store (process_entry cfg now (w, nextWake) e).1) =
    set_webhook (entities (wd_store w)) (wh_ID e) (outcome cfg now e).
Proof.
  intros He. unfold process_entry, deliver, outcome, delivered, set_webhook.
  assert (∀ w', entities (wd_store (scheduleRetry cfg w' e now).1) =
    (if (0 <? MaxWebhookAttempts cfg)%Z && (MaxWebhookAttempts cfg <=? wh_Attempts e +! 1)%Z
     then AckWebhook (entities (wd_store w')) (wh_ID e)
     else (NackWebhook (entities (wd_store w')) (wh_ID e) (wh_Attempts e +! 1)
       (now + backoff cfg (wh_Attempts e +! 1))%Z).1)) as Hretry.
  { intros w'. unfold scheduleRetry. destruct (_ && _); simpl; by autorewrite with store. }
  assert (∀ w' , (let '(w'', next) := scheduleRetry cfg w' e now in
      if negb (IsZero next) && (IsZero nextWake || Before next nextWake) then (w'', next)
      else (w'', nextWake)).1 = (scheduleRetry cfg w' e now).1) as Hfst.
  { intros w'. destruct (scheduleRetry cfg w' e now). by destruct (negb _ && _). }
  destruct (http_post _ _ _) as [code|]; simpl.
  - destruct (code =? 200)%Z; simpl.
    + pose proof (err_AckWebhook (wd_store w) (wh_ID e)) as Herr.
      pose proof (ent_AckWebhook (wd_store w) (wh_ID e)) as Hent.
      destruct (st_AckWebhook (wd_store w) (wh_ID e)) as [s' err]. simpl in *. subst err. simpl. done.
    + rewrite Hfst, Hretry. destruct (_ && _); [done|].
      unfold NackWebhook. rewrite He. done.
  - rewrite Hfst, Hretry. destruct (_ && _); [done|]. unfold NackWebhook. rewrite He. done.
Qed.

Lemma process_entries_spec cfg now l w nextWake :
  NoDup (wh_ID <$> l) → (∀ e, e ∈ l → webhooks (entities (wd_store w)) !! wh_ID e = Some e) →
  let m := entities (wd_store w) in
  let m' := entities (wd_store (foldl (process_entry cfg now) (w, nextWake) l).1) in
  jobs m' = jobs m ∧ taskDefs m' = taskDefs m ∧ runs m' = runs m ∧
  ∀ id, webhooks m' !! id =
    match list_find (λ e, wh_ID e = id) l with
    | Some (_, e) => outcome cfg now e
    | None => webhooks m !! id
    end.
Proof.
  revert w nextWake. induction l as [|e l IH]; intros w nextWake Hnd Hl; [done|]. cbn [foldl].
  apply NoDup_cons in Hnd as [Hnot Hnd].
  pose proof (process_entry_entities cfg now w nextWake e (Hl e ltac:(set_solver))) as He.
  destruct (process_entry cfg now (w, nextWake) e) as [w1 next1]. simpl in He.
  destruct (IH w1 next1 Hnd) as (E1 & E2 & E3 & E4).
  { intros e' He'. rewrite He. unfold set_webhook. simpl. rewrite lookup_partial_alter_ne; [apply Hl; set_solver|].
    intros Heq. apply Hnot. rewrite Heq. apply list_elem_of_fmap. eauto. }
  cbv zeta. rewrite E1, E2, E3, He. split_and!; [done..|]. intros id. rewrite E4, He.
  unfold set_webhook. cbn [webhooks list_find]. simpl.
  destruct (decide (wh_ID e = id)) as [<-|Hne].
  - replace (list_find (λ e0, wh_ID e0 = wh_ID e) l) with (@None (nat * WebhookEntry)).
    + by rewrite lookup_partial_alter_eq.
    + symmetry. apply list_find_None. apply Forall_forall. intros e' He' Heq.
      apply Hnot. rewrite <- Heq. apply list_elem_of_fmap. eauto.
  - destruct (list_find (λ e0, wh_ID e0 = id) l) as [[i e']|] eqn:Ef; simpl; [done|].
    by rewrite lookup_partial_alter_ne.
Qed.
End webhooks.

(** ** Properties *)

(** C28: One pass over the webhook queue treats every entry as specified. An entry that is not yet due stays
    exactly as it is; a due entry whose endpoint answers 200 is removed; a due entry that fails is removed
    once its attempts are exhausted and otherwise stays with its attempt counted and its next attempt
    one backoff later. Nothing else in the store changes. *)
Theorem webhook_pass_correct `{Store ST} `{GoRuntime} `{WebhookEnv}
    (cfg : WebhookDispatcherConfig) (w : WebhookDispatcher ST) (now : Time) :
  ids_ok (entities (wd_store w)) →
  let m := entities (wd_store w) in
  let m' := entities (wd_store (processPending cfg w now).1) in
  jobs m' = jobs m ∧ taskDefs m' = taskDefs m ∧ runs m' = runs m ∧
  ∀ id, webhooks m' !! id =
    match webhooks m !! id with
    | Some e => if After (wh_NextAttemptAt e) now then Some e else outcome cfg now e
    | None => None
    end.
Proof.
  intros Hids. unfold processPending. set (due := DequeueWebhooks _ now).
  assert (NoDup (wh_ID <$> due)) as Hnd.
  { apply filter_fmap_NoDup, range_values_NoDup, (ids_webhooks _ Hids). }
  assert (∀ e, e ∈ due ↔ webhooks (entities (wd_store w)) !! wh_ID e = Some e ∧
    After (wh_NextAttemptAt e) now = false) as Hdue.
  { intros e. unfold due, DequeueWebhooks. rewrite list_elem_of_filter, elem_of_range_values. split.
    - intros [Ha [k Hk]]. by rewrite (ids_webhooks _ Hids k e Hk).
    - intros [Hk Ha]. by eauto. }
  destruct (process_entries_spec cfg now due w time_zero Hnd ltac:(by intros e [? _]%Hdue)) as (E1 & E2 & E3 & E4).
  cbv zeta in *. destruct (foldl _ _ due) as [w' next].
  assert (∀ b : bool, (if b then (w', Hour) else (w', if (time_Sub next now <? 0)%Z then 0%Z
    else time_Sub next now)).1 = w') as Hfst by (by intros []).
  rewrite Hfst. simpl in *. split_and!; [done..|]. intros id. rewrite E4.
  destruct (list_find (λ e, wh_ID e = id) due) as [[i e]|] eqn:Ef.
  - apply list_find_Some in Ef as (Hi & <- & _). apply list_elem_of_lookup_2 in Hi.
    apply Hdue in Hi as [He Ha]. by rewrite He, Ha.
  - destruct (webhooks (entities (wd_store w)) !! id) as [e|] eqn:He; [|done].
    destruct (After (wh_NextAttemptAt e) now) eqn:Ha; [done|].
    apply list_find_None in Ef. rewrite Forall_forall in Ef.
    pose proof (ids_webhooks _ Hids id e He) as Hid.
    destruct (Ef e); [apply Hdue; by rewrite Hid|done].
Qed.

(** Retry delays double from one second up to the cap: for the first 34 attempts the delay is
    the smaller of 2^(n-1) seconds and the configured maximum, so it is positive and monotone. *)
Theorem backoff_doubles_to_cap (cfg : WebhookDispatcherConfig) (n : Z) :
  (1 ≤ n ≤ 34)%Z →
  backoff cfg n = Z.min (2 ^ (n - 1) * Second) (WebhookMaxBackoff cfg).
Proof.
  intros Hn. unfold backoff, pow2_duration.
  rewrite (wrap64_id (n - 1)) by (i64; lia).
  rewrite (proj2 (Z.ltb_ge (n - 1) 0)), (proj2 (Z.ltb_lt (n - 1) 63)) by lia.
  assert (1 ≤ 2 ^ (n - 1) ≤ 2 ^ 33)%Z as Hp.
  { split; [apply (Z.pow_le_mono_r 2 0); lia|apply Z.pow_le_mono_r; lia]. }
  rewrite wrap64_id by (unfold Second; i64; change (2 ^ 33)%Z with 8589934592%Z in Hp; lia).
  destruct (_ <? _)%Z eqn:E; zb; lia.
Qed.

Lemma backoff_doubles_to_cap_witness :
  backoff (MkWebhookDispatcherConfig Second (5 * Minute)%Z 0) 4 = (8 * Second)%Z.
Proof. rewrite (backoff_doubles_to_cap _ 4); [vm_compute; reflexivity|lia]. Defined.

(** From the 35th failure on, an endpoint that stays down is retried without any delay: the doubled
    delay overflows 64 bits, is no longer above the cap, and the next attempt is scheduled in the past or
    at once, whatever the configured maximum. *)
Theorem backoff_overflows (cfg : WebhookDispatcherConfig) (n : Z) (now : Time) :
  n = 35%Z ∨ (56 ≤ n ≤ MaxInt64)%Z → (0 ≤ WebhookMaxBackoff cfg)%Z →
  (time_Add now (backoff cfg n) ≤ now)%Z.
Proof.
  intros Hn Hmax. enough (pow2_duration (wrap64 (n - 1)) *! Second ≤ 0)%go%Z as Hle.
  { unfold backoff, time_Add. rewrite (proj2 (Z.ltb_ge _ _)) by lia. lia. }
  rewrite (wrap64_id (n - 1)) by (i64; lia).
  destruct Hn as [->|Hn]; [vm_compute; congruence|].
  unfold pow2_duration. rewrite (proj2 (Z.ltb_ge _ _)) by lia.
  destruct (n - 1 <? 63)%Z eqn:E; zb; [|vm_compute; congruence].
  assert (2 ^ (n - 1) = 2 ^ 55 * 2 ^ (n - 56))%Z as ->.
  { rewrite <- Z.pow_add_r by lia. f_equal. lia. }
  unfold wrap64, Second.
  replace (2 ^ 55 * 2 ^ (n - 56) * 1000000000 + 9223372036854775808)%Z
    with (9223372036854775808 + (1953125 * 2 ^ (n - 56)) * 18446744073709551616)%Z by lia.
  rewrite Z.mod_add by lia. vm_compute. congruence.
Qed.

Lemma backoff_overflows_witness :
  (time_Add 100 (backoff (MkWebhookDispatcherConfig Second (5 * Minute)%Z 0) 35) ≤ 100)%Z.
Proof. apply (backoff_overflows _ 35 100); [left; reflexivity|vm_compute; congruence]. Defined.

(** A pass with nothing left to retry parks the loop for an hour even though entries that failed
    earlier are waiting for a retry that is due much sooner: the returned delay only accounts for the
    entries handled in this pass. *)
Theorem scheduled_retries_are_parked `{Store ST} `{GoRuntime} `{WebhookEnv}
    (cfg : WebhookDispatcherConfig) (w : WebhookDispatcher ST) (now : Time) (id : string) (e : WebhookEntry) :
  ids_ok (entities (wd_store w)) →
  (∀ k d, webhooks (entities (wd_store w)) !! k = Some d →
     After (wh_NextAttemptAt d) now = false → delivered d = true) →
  webhooks (entities (wd_store w)) !! id = Some e → (now < wh_NextAttemptAt e < now + Hour)%Z →
  (processPending cfg w now).2 = Hour ∧
  webhooks (entities (wd_store (processPending cfg w now).1)) !! id = Some e.
Proof.
  intros Hids Hok He Hsoon.
  assert (∀ l w', (∀ d, d ∈ l → delivered d = true) →
    (foldl (process_entry cfg now) (w', time_zero) l).2 = time_zero ∧
    ∀ k x, webhooks (entities (wd_store w')) !! k = Some x → (∀ d, d ∈ l → wh_ID d ≠ k) →
      webhooks (entities (wd_store (foldl (process_entry cfg now) (w', time_zero) l).1)) !! k = Some x) as Hfold.
  { intros l. induction l as [|d l IH]; intros w' Hl; [done|]. cbn [foldl].
    assert (∃ w2, process_entry cfg now (w', time_zero) d = (w2, time_zero) ∧
      entities (wd_store w2) = AckWebhook (entities (wd_store w')) (wh_ID d)) as (w2 & -> & Ew2).
    { specialize (Hl d ltac:(set_solver)). unfold delivered in Hl. unfold process_entry, deliver.
      destruct (http_post _ _ _) as [code|]; [|done]. rewrite Hl. simpl.
      pose proof (err_AckWebhook (wd_store w') (wh_ID d)). pose proof (ent_AckWebhook (wd_store w') (wh_ID d)).
      destruct (st_AckWebhook _ _) as [s' err]. simpl in *. subst err. by eexists. }
    destruct (IH w2 ltac:(set_solver)) as [-> Hkeep]. split; [done|].
    intros k x Hk Hd. apply Hkeep; [|set_solver]. rewrite Ew2. simpl.
    rewrite lookup_delete_ne; [done|]. apply Hd. set_solver. }
  assert (∀ d, d ∈ DequeueWebhooks (entities (wd_store w)) now →
    delivered d = true ∧ wh_ID d ≠ id) as Hdue.
  { intros d [Ha [k Hk]%elem_of_range_values]%list_elem_of_filter. split; [by eauto|].
    rewrite (ids_webhooks _ Hids k d Hk). intros ->. simplify_eq. unfold After in Ha. zb. lia. }
  unfold processPending. destruct (Hfold _ w (λ d Hd, proj1 (Hdue d Hd))) as [Hz Hkeep].
  specialize (Hkeep id e He (λ d Hd, proj2 (Hdue d Hd))).
  destruct (foldl _ _ _) as [w' next]. simpl in *. by subst next.
Qed.

(** ** Witnesses *)
Section samples.
Local Existing Instance canonical_runtime.

(** Endpoints named "up" answer 200, all others 503. *)
#[local] Instance sample_env : WebhookEnv := {|
  marshal_event ev := Ok (ev_Event ev);
  is_event_json _ := true;
  http_post url _ _ := Some (if bool_decide (url = "up") then 200 else 503)%Z;
|}.

Definition sample_hook (id url : string) (next : Time) : WebhookEntry :=
  MkWebhookEntry id "j1" eventJobFailed url "{}" ∅ 0 next 0.

Definition sample_dispatcher : WebhookDispatcher MemStore :=
  MkWebhookDispatcher
    (NewMemStore <| mem_entities := EnqueueWebhook (EnqueueWebhook no_entities (sample_hook "a" "up" 5))
                                      (sample_hook "b" "down" (10 + 2 * Second)%Z) |>)
    (MkSigChan 1 0 false) 0.

Definition sample_webhook_cfg : WebhookDispatcherConfig :=
  webhook_defaults (MkWebhookDispatcherConfig 0 0 0).

Lemma sample_dispatcher_ids : ids_ok (entities (wd_store sample_dispatcher)).
Proof.
  split; intros id x; simpl; rewrite ?lookup_empty; try done.
  rewrite !lookup_insert_Some, lookup_empty. naive_solver.
Qed.

Lemma webhook_pass_correct_witness :
  webhooks (entities (wd_store (processPending sample_webhook_cfg sample_dispatcher 10).1)) !! "a" = None.
Proof.
  destruct (webhook_pass_correct sample_webhook_cfg sample_dispatcher 10 sample_dispatcher_ids)
    as (_ & _ & _ & Hw).
  rewrite Hw. vm_compute. reflexivity.
Defined.

Lemma scheduled_retries_are_parked_witness :
  (processPending sample_webhook_cfg sample_dispatcher 10).2 = Hour ∧
  webhooks (entities (wd_store (processPending sample_webhook_cfg sample_dispatcher 10).1)) !! "b" =
    Some (sample_hook "b" "down" (10 + 2 * Second)%Z).
Proof.
  apply (scheduled_retries_are_parked sample_webhook_cfg sample_dispatcher 10 "b").
  - exact sample_dispatcher_ids.
  - intros k d. simpl. rewrite !lookup_insert_Some, lookup_empty.
    intros [[<- <-]|[_ [[<- <-]|[_ [=]]]]]; vm_compute; congruence.
  - reflexivity.
  - vm_compute. split; reflexivity.
Defined.
End samples.
