(* ===== verification/Heap.v ===== *)
(** * Go's [container/heap] over an abstract [heap.Interface]

    The dispatch queue is driven by this library package, so its loops are
    modelled as the standard library writes them ([up], [down], [Init], [Push],
    [Pop], [Fix]).  [HeapInterface] is the interface the loops call, and
    [HeapLaws] what an implementation promises: an array of values on which
    [Swap] exchanges two cells and [Less] compares them. *)
From S2P Require Import Prelude GoStd.

Class HeapInterface (H : Type) := {
  hLen : H → nat;
  hLess : H → nat → nat → bool;
  hSwap : H → nat → nat → H;
}.

(** ** The loops *)
Section algorithms.
Context `{HeapInterface H}.

Definition parent (j : nat) : nat := (j - 1) / 2.

(** The index moves to its parent at every turn, so [S j] turns suffice. *)
Fixpoint up_loop (fuel : nat) (h : H) (j : nat) : H :=
  match fuel with
  | O => h
  | S fuel =>
      let i := parent j in
      if bool_decide (i = j) || negb (hLess h j i) then h
      else up_loop fuel (hSwap h i j) i
  end.

Definition up (h : H) (j : nat) : H := up_loop (S j) h j.

(** The child of [i] below [n] that [down] compares with. *)
Definition pick_child (h : H) (i n : nat) : nat :=
  let j1 := 2 * i + 1 in
  let j2 := j1 + 1 in
  if bool_decide (j2 < n) && hLess h j2 j1 then j2 else j1.

(** The index at least doubles at every turn, so [S n] turns suffice. *)
Fixpoint down_loop (fuel : nat) (h : H) (i n : nat) : H * nat :=
  match fuel with
  | O => (h, i)
  | S fuel =>
      if bool_decide (n ≤ 2 * i + 1) then (h, i)
      else
        let j := pick_child h i n in
        if negb (hLess h j i) then (h, i)
        else down_loop fuel (hSwap h i j) j n
  end.

Definition down (h : H) (i0 n : nat) : H * bool :=
  let '(h', i) := down_loop (S n) h i0 n in (h', bool_decide (i0 < i)).

Fixpoint init_loop (k : nat) (h : H) (n : nat) : H :=
  match k with
  | O => h
  | S i => init_loop i (down h i n).1 n
  end.

Definition heap_Init (h : H) : H := init_loop (hLen h / 2) h (hLen h).

Definition heap_Fix (h : H) (i : nat) : H :=
  let '(h', moved) := down h i (hLen h) in
  if moved then h' else up h' i.
End algorithms.

(** ** What an implementation promises *)
Class HeapLaws {H A : Type} `{Inhabited A} `{HI : HeapInterface H}
    (less : A → A → bool) (vals : H → list A) : Prop := {
  hlaw_len h : hLen h = length (vals h);
  hlaw_less h i j : i < length (vals h) → j < length (vals h) →
    hLess h i j = less (vals h !!! i) (vals h !!! j);
  hlaw_swap h i j : i < length (vals h) → j < length (vals h) →
    vals (hSwap h i j) = lswap i j (vals h);
}.

(** ** Heap order on an array *)
Section order.
Context `{Inhabited A} (less : A → A → bool) `{!StrictWeakOrder less}.
Implicit Types l : list A.

(** The edge into cell [c] is in order: its parent does not sort after it. *)
Definition edge_ok l (c : nat) : Prop := not_after less (l !!! parent c) (l !!! c).

(** Edges below [n] whose parent is at least [k] are in order. *)
Definition ordered_from (k n : nat) l : Prop :=
  ∀ c, 0 < c < n → k ≤ parent c → edge_ok l c.

Definition heap_ordered l : Prop := ordered_from 0 (length l) l.

Lemma parent_lt c : 0 < c → parent c < c.
Proof. intros Hc. unfold parent. apply Nat.Div0.div_lt_upper_bound. lia. Qed.

Lemma parent_children i c : 0 < c → parent c = i ↔ c = 2 * i + 1 ∨ c = 2 * i + 2.
Proof.
  intros Hc. unfold parent. split.
  - intros <-. pose proof (Nat.div_mod_eq (c - 1) 2).
    pose proof (Nat.mod_upper_bound (c - 1) 2 ltac:(lia)). lia.
  - intros [->| ->].
    + replace (2 * i + 1 - 1) with (i * 2) by lia. apply Nat.div_mul. lia.
    + replace (2 * i + 2 - 1) with (1 + i * 2) by lia.
      rewrite Nat.div_add by lia. reflexivity.
Qed.

(** In a heap the root does not sort after any cell. *)
Lemma heap_root_first n l : ordered_from 0 n l →
  ∀ i, i < n → not_after less (l !!! 0) (l !!! i).
Proof.
  intros Hord. induction i as [i IH] using lt_wf_ind. intros Hi.
  destruct (decide (i = 0)) as [->|Hne]; [apply (not_after_refl less)|].
  pose proof (parent_lt i ltac:(lia)).
  apply (not_after_trans less _ (l !!! parent i)); [apply IH; lia|].
  apply (Hord i); lia.
Qed.

(** Cell [i] may be out of order with respect to its children and, when
    [loose] holds, to its parent; everything around it is in order. *)
Definition hole_at (k n i : nat) (loose : Prop) l : Prop :=
  (∀ c, 0 < c < n → k ≤ parent c → parent c ≠ i → c ≠ i ∨ ¬ loose → edge_ok l c) ∧
  (∀ c, 0 < c < n → parent c = i → 0 < i → k ≤ parent i →
    not_after less (l !!! parent i) (l !!! c)).
End order.

(** ** Correctness of the loops *)
Section correctness.
Context `{Inhabited A} (less : A → A → bool) `{!StrictWeakOrder less}.
Context `{HI : HeapInterface H'} (vals : H' → list A) `{!HeapLaws less vals}.
Implicit Types h : H'.

Lemma vals_swap_total h i j k : i < length (vals h) → j < length (vals h) →
  vals (hSwap h i j) !!! k =
    (if decide (k = i) then vals h !!! j
     else if decide (k = j) then vals h !!! i else vals h !!! k).
Proof. intros. rewrite hlaw_swap by done. by apply lswap_lookup_total. Qed.

Lemma vals_swap_length h i j : i < length (vals h) → j < length (vals h) →
  length (vals (hSwap h i j)) = length (vals h).
Proof. intros. rewrite hlaw_swap by done. apply lswap_length. Qed.

Lemma vals_swap_perm h i j : i < length (vals h) → j < length (vals h) →
  vals (hSwap h i j) ≡ₚ vals h.
Proof. intros. rewrite hlaw_swap by done. apply lswap_Permutation. Qed.

(** The chosen child is a child, and the other child does not precede it. *)
Lemma pick_child_spec h i n : 2 * i + 1 < n → n ≤ length (vals h) →
  let j := pick_child h i n in
  i < j < n ∧ parent j = i ∧
  ∀ c, 0 < c < n → parent c = i → not_after less (vals h !!! j) (vals h !!! c).
Proof.
  intros Hi Hn. unfold pick_child.
  assert (∀ c, 0 < c → parent c = i → c = 2 * i + 1 ∨ c = 2 * i + 2) as Hch.
  { intros c Hc. by apply parent_children. }
  case_match eqn:E.
  - apply andb_true_iff in E as [E1%bool_decide_eq_true E2].
    rewrite hlaw_less in E2 by lia.
    split; [lia|]. split; [apply parent_children; lia|].
    intros c Hc Hp. destruct (Hch c ltac:(lia) Hp) as [->| ->].
    + by apply less_not_after.
    + replace (2 * i + 2) with (2 * i + 1 + 1) by lia. apply (not_after_refl less).
  - split; [lia|]. split; [apply parent_children; lia|].
    intros c Hc Hp. destruct (Hch c ltac:(lia) Hp) as [->| ->].
    + apply (not_after_refl less).
    + apply andb_false_iff in E as [E%bool_decide_eq_false|E]; [lia|].
      replace (2 * i + 2) with (2 * i + 1 + 1) by lia.
      rewrite hlaw_less in E by lia. done.
Qed.

Lemma down_swap_hole k n i loose h : 2 * i + 1 < n → n ≤ length (vals h) →
  hole_at less k n i loose (vals h) →
  hLess h (pick_child h i n) i = true →
  hole_at less k n (pick_child h i n) False (vals (hSwap h i (pick_child h i n))).
Proof.
  intros Hi Hn [Hedge Hgrand] Hless.
  destruct (pick_child_spec h i n Hi Hn) as (Hj & Hpj & Hmin).
  set (j := pick_child h i n) in *. clearbody j.
  rewrite hlaw_less in Hless by lia. apply less_not_after in Hless; [|done].
  split.
  - intros c Hc Hk Hpc _. unfold edge_ok. pose proof (parent_lt c ltac:(lia)).
    rewrite !vals_swap_total by lia.
    repeat case_decide; subst; try lia; try congruence.
    + by apply Hmin.
    + apply Hgrand; try lia; by auto.
    + apply Hedge; auto; lia.
  - intros c Hc Hpc Hj0 Hk. pose proof (parent_lt c ltac:(lia)).
    rewrite !vals_swap_total by lia. rewrite Hpj in *.
    repeat case_decide; subst; try lia; try congruence.
    apply Hedge; auto; lia.
Qed.

Lemma down_stop_edges k n i loose h :
  n ≤ length (vals h) → hole_at less k n i loose (vals h) →
  (2 * i + 1 < n → hLess h (pick_child h i n) i = false) →
  ∀ c, 0 < c < n → k ≤ parent c → c ≠ i ∨ ¬ loose → edge_ok less (vals h) c.
Proof.
  intros Hn [Hedge _] Hstop c Hc Hk Hl.
  destruct (decide (parent c = i)) as [Hp|Hp]; [|by apply Hedge].
  assert (2 * i + 1 < n).
  { apply parent_children in Hp; lia. }
  destruct (pick_child_spec h i n ltac:(lia) Hn) as (Hj & Hpj & Hmin).
  specialize (Hstop ltac:(lia)). rewrite hlaw_less in Hstop by lia.
  unfold edge_ok. rewrite Hp. eapply (not_after_trans less); [exact Hstop|].
  by apply Hmin.
Qed.

Lemma down_loop_spec fuel k n i loose h :
  n < i + fuel → n ≤ length (vals h) → i < n → hole_at less k n i loose (vals h) →
  let '(h', i') := down_loop fuel h i n in
  i ≤ i' ∧ vals h' ≡ₚ vals h ∧ (∀ m, n ≤ m → vals h' !!! m = vals h !!! m) ∧
  (i' = i → h' = h) ∧
  (∀ c, 0 < c < n → k ≤ parent c → c ≠ i ∨ ¬ loose ∨ i < i' → edge_ok less (vals h') c).
Proof.
  revert i loose h. induction fuel as [|fuel IH]; intros i loose h Hf Hn Hi Hhole; [lia|].
  cbn [down_loop]. case_bool_decide.
  { split_and!; [lia|done|done|done|]. intros c Hc Hk Hl.
    eapply down_stop_edges; eauto; [lia|]. destruct_or! Hl; auto; lia. }
  destruct (hLess h (pick_child h i n) i) eqn:Hless; simpl.
  2:{ split_and!; [lia|done|done|done|]. intros c Hc Hk Hl.
      eapply down_stop_edges; eauto. destruct_or! Hl; auto; lia. }
  destruct (pick_child_spec h i n ltac:(lia) Hn) as (Hj & Hpj & _).
  pose proof (down_swap_hole k n i loose h ltac:(lia) Hn Hhole Hless) as Hhole'.
  set (j := pick_child h i n) in *.
  pose proof (vals_swap_length h i j ltac:(lia) ltac:(lia)) as Hlen.
  specialize (IH j False (hSwap h i j) ltac:(lia) ltac:(lia) ltac:(lia) Hhole').
  destruct (down_loop fuel (hSwap h i j) j n) as [h' i'].
  destruct IH as (Hle & Hperm & Hout & _ & Hedges).
  split_and!.
  - lia.
  - rewrite Hperm. apply vals_swap_perm; lia.
  - intros m Hm. rewrite Hout by done. rewrite vals_swap_total by lia.
    repeat case_decide; lia || done.
  - lia.
  - intros c Hc Hk _. apply Hedges; auto.
Qed.

(** [down] from [i0]: a permutation that leaves the cells from [n] on alone;
    if it moved, or if the parent edge of [i0] was in order, everything from
    [k] on is in order. *)
Lemma down_spec k n i0 loose h :
  n ≤ length (vals h) → hole_at less k n i0 loose (vals h) →
  let '(h', moved) := down h i0 n in
  vals h' ≡ₚ vals h ∧ (∀ m, n ≤ m → vals h' !!! m = vals h !!! m) ∧
  (moved = false → h' = h) ∧
  (∀ c, 0 < c < n → k ≤ parent c → c ≠ i0 ∨ ¬ loose ∨ moved = true →
    edge_ok less (vals h') c).
Proof.
  intros Hn Hhole. unfold down.
  destruct (decide (i0 < n)) as [Hi|Hi].
  - pose proof (down_loop_spec (S n) k n i0 loose h ltac:(lia) Hn Hi Hhole) as Hspec.
    destruct (down_loop (S n) h i0 n) as [h' i'].
    destruct Hspec as (Hle & Hperm & Hout & Heq & Hedges).
    split_and!; auto.
    + intros Hm%bool_decide_eq_false. apply Heq. lia.
    + intros c Hc Hk Hl. apply Hedges; auto. rewrite bool_decide_eq_true in Hl. done.
  - cbn [down_loop]. rewrite bool_decide_true by lia.
    split_and!; auto. intros c Hc Hk _. destruct Hhole as [Hedge _].
    apply Hedge; auto; [|left; lia]. pose proof (parent_lt c). lia.
Qed.

(** [up] from [j]: repairs the only edge that may be out of order. *)
Lemma up_loop_spec fuel n j h :
  j < fuel → n ≤ length (vals h) → j < n →
  (∀ c, 0 < c < n → c ≠ j → edge_ok less (vals h) c) →
  (∀ c, 0 < c < n → parent c = j → 0 < j →
    not_after less (vals h !!! parent j) (vals h !!! c)) →
  let h' := up_loop fuel h j in
  vals h' ≡ₚ vals h ∧ ordered_from less 0 n (vals h').
Proof.
  revert j h. induction fuel as [|fuel IH]; intros j h Hf Hn Hj Hedge Hgrand; [lia|].
  cbn [up_loop].
  case_bool_decide as Hroot; simpl.
  { split; [done|]. intros c Hc _. apply Hedge; [done|].
    intros ->. pose proof (parent_lt j). lia. }
  assert (0 < j) as Hj0. { destruct j; [done|lia]. }
  pose proof (parent_lt j Hj0).
  rewrite hlaw_less by lia.
  destruct (less (vals h !!! j) (vals h !!! parent j)) eqn:Hless; simpl.
  2:{ split; [done|]. intros c Hc _. destruct (decide (c = j)) as [->|]; [done|].
      by apply Hedge. }
  apply less_not_after in Hless; [|done].
  pose proof (vals_swap_length h (parent j) j ltac:(lia) ltac:(lia)) as Hlen.
  edestruct (IH (parent j) (hSwap h (parent j) j)) as [Hperm Hord]; try lia.
  - intros c Hc Hcp. pose proof (parent_lt c ltac:(lia)). unfold edge_ok.
    rewrite !vals_swap_total by lia.
    repeat case_decide; subst; try lia; try congruence.
    + apply (not_after_trans less _ (vals h !!! parent j)); [done|].
      replace (parent j) with (parent c). by apply Hedge.
    + by apply Hgrand; try lia.
    + apply Hedge; auto; lia.
  - intros c Hc Hcp Hp0. pose proof (parent_lt c ltac:(lia)).
    pose proof (parent_lt (parent j) ltac:(lia)).
    rewrite !vals_swap_total by lia.
    assert (not_after less (vals h !!! parent (parent j)) (vals h !!! parent j)) as Hpp.
    { apply (Hedge (parent j)); lia. }
    repeat case_decide; subst; try lia; try congruence.
    apply (not_after_trans less _ (vals h !!! parent j)); [done|].
    rewrite <- Hcp. apply Hedge; lia.
  - split; [|done]. rewrite Hperm. apply vals_swap_perm; lia.
Qed.

(** ** The exported operations *)

(** A value appended to a heap and sifted up gives a heap. *)
Lemma up_push_spec h j : length (vals h) = S j →
  ordered_from less 0 j (vals h) →
  vals (up h j) ≡ₚ vals h ∧ heap_ordered less (vals (up h j)).
Proof.
  intros Hlen Hord. unfold up.
  destruct (up_loop_spec (S j) (S j) j h) as [Hperm Hordered]; try lia.
  - intros c Hc Hne. apply Hord; lia.
  - intros c Hc Hpc. pose proof (parent_lt c). lia.
  - split; [done|]. unfold heap_ordered. by rewrite (Permutation_length Hperm), Hlen.
Qed.

(** Sifting the root of the first [n] cells down restores them to a heap. *)
Lemma down_root_spec h n : n ≤ length (vals h) →
  (∀ c, 0 < c < n → parent c ≠ 0 → edge_ok less (vals h) c) →
  let h' := (down h 0 n).1 in
  vals h' ≡ₚ vals h ∧ (∀ m, n ≤ m → vals h' !!! m = vals h !!! m) ∧
  ordered_from less 0 n (vals h').
Proof.
  intros Hn Hedge.
  pose proof (down_spec 0 n 0 False h Hn) as Hspec.
  destruct (down h 0 n) as [h' moved]. simpl.
  destruct Hspec as (Hperm & Hout & _ & Hedges).
  { split; [intros c ???; auto|lia]. }
  split_and!; auto. intros c Hc Hk. by apply Hedges; auto.
Qed.

Lemma init_loop_spec k n h : n ≤ length (vals h) →
  ordered_from less k n (vals h) →
  let h' := init_loop k h n in
  vals h' ≡ₚ vals h ∧ ordered_from less 0 n (vals h').
Proof.
  revert h. induction k as [|i IH]; intros h Hn Hord; [done|]. cbn [init_loop].
  pose proof (down_spec i n i True h Hn) as Hspec.
  destruct (down h i n) as [h' moved]. simpl.
  destruct Hspec as (Hperm & _ & _ & Hedges).
  { split.
    - intros c Hc Hk Hp _. apply Hord; lia.
    - intros c Hc Hp Hi0 Hk. pose proof (parent_lt i Hi0). lia. }
  assert (length (vals h') = length (vals h)) as Hlen by (by rewrite Hperm).
  destruct (IH h' ltac:(lia)) as [Hperm' Hord'].
  - intros c Hc Hk. apply Hedges; auto. left. intros ->.
    pose proof (parent_lt i). lia.
  - split; [by rewrite Hperm'|done].
Qed.

(** [heap.Init] orders an arbitrary array. *)
Lemma heap_Init_spec h :
  vals (heap_Init h) ≡ₚ vals h ∧ heap_ordered less (vals (heap_Init h)).
Proof.
  unfold heap_Init. rewrite hlaw_len.
  destruct (init_loop_spec (length (vals h) / 2) (length (vals h)) h) as [Hperm Hord]; [done|..].
  - intros c Hc Hk. exfalso.
    assert (2 * parent c + 1 ≤ c).
    { pose proof (parent_children (parent c) c ltac:(lia)) as [Hp _].
      specialize (Hp eq_refl). lia. }
    pose proof (Nat.div_mod_eq (length (vals h)) 2).
    pose proof (Nat.mod_upper_bound (length (vals h)) 2 ltac:(lia)). lia.
  - split; [done|]. unfold heap_ordered. by rewrite (Permutation_length Hperm).
Qed.

(** [heap.Fix] restores a heap in which only cell [i] was changed. *)
Lemma heap_Fix_spec h i : i < length (vals h) →
  hole_at less 0 (length (vals h)) i True (vals h) →
  vals (heap_Fix h i) ≡ₚ vals h ∧ heap_ordered less (vals (heap_Fix h i)).
Proof.
  intros Hi Hhole. unfold heap_Fix. rewrite hlaw_len.
  pose proof (down_spec 0 (length (vals h)) i True h ltac:(lia) Hhole) as Hspec.
  destruct (down h i (length (vals h))) as [h' moved].
  destruct Hspec as (Hperm & _ & Heq & Hedges).
  destruct moved.
  - split; [done|]. unfold heap_ordered. rewrite (Permutation_length Hperm). intros c Hc Hk. by apply Hedges; auto.
  - rewrite Heq in * by done. unfold up.
    destruct (up_loop_spec (S i) (length (vals h)) i h) as [Hp Hord]; try lia.
    + intros c Hc Hne. apply Hedges; auto; lia.
    + intros c Hc Hpc Hi0. destruct Hhole as [_ Hg]. apply Hg; auto; lia.
    + split; [done|]. unfold heap_ordered. by rewrite (Permutation_length Hp).
Qed.
End correctness.

(** ** Properties every [Swap] keeps are kept by the loops *)
Section stable.
Context `{HI : HeapInterface H} (P : H → Prop).
Hypothesis swap_len : ∀ h i j, i < hLen h → j < hLen h → hLen (hSwap h i j) = hLen h.
Hypothesis swap_P : ∀ h i j, i < hLen h → j < hLen h → P h → P (hSwap h i j).

Lemma up_loop_stable fuel h j : j < hLen h → P h →
  P (up_loop fuel h j) ∧ hLen (up_loop fuel h j) = hLen h.
Proof using swap_len swap_P.
  revert h j. induction fuel as [|fuel IH]; intros h j Hj HP; [done|]. cbn [up_loop].
  case_bool_decide; simpl; [done|]. case_match; simpl; [done|].
  assert (0 < j) by (destruct j; [done|lia]). pose proof (parent_lt j).
  destruct (IH (hSwap h (parent j) j) (parent j)) as [? Hlen];
    rewrite ?swap_len; try lia; [apply swap_P; auto; lia|].
  split; [done|]. rewrite Hlen. apply swap_len; lia.
Qed.

Lemma down_loop_stable fuel h i n : n ≤ hLen h → P h →
  P (down_loop fuel h i n).1 ∧ hLen (down_loop fuel h i n).1 = hLen h.
Proof using swap_len swap_P.
  revert h i. induction fuel as [|fuel IH]; intros h i Hn HP; [done|]. cbn [down_loop].
  case_bool_decide; [done|]. case_match; [done|].
  assert (pick_child h i n < n).
  { unfold pick_child. case_match eqn:E; [|lia].
    by apply andb_true_iff in E as [?%bool_decide_eq_true ?]. }
  destruct (IH (hSwap h i (pick_child h i n)) (pick_child h i n)) as [? Hlen];
    rewrite ?swap_len; try lia; [apply swap_P; auto; lia|].
  split; [done|]. rewrite Hlen. apply swap_len; lia.
Qed.

Lemma down_stable h i n : n ≤ hLen h → P h →
  P (down h i n).1 ∧ hLen (down h i n).1 = hLen h.
Proof using swap_len swap_P.
  intros Hn HP. unfold down. pose proof (down_loop_stable (S n) h i n Hn HP).
  by destruct (down_loop (S n) h i n).
Qed.

Lemma init_loop_stable k h n : n ≤ hLen h → P h → P (init_loop k h n).
Proof using swap_len swap_P.
  revert h. induction k as [|i IH]; intros h Hn HP; [done|]. cbn [init_loop].
  destruct (down_stable h i n Hn HP). apply IH; [lia|done].
Qed.

Lemma heap_Init_stable h : P h → P (heap_Init h).
Proof using swap_len swap_P. intros HP. by apply init_loop_stable. Qed.

Lemma heap_Fix_stable h i : i < hLen h → P h → P (heap_Fix h i).
Proof using swap_len swap_P.
  intros Hi HP. unfold heap_Fix.
  destruct (down_stable h i (hLen h) ltac:(lia) HP) as [HP' Hlen].
  destruct (down h i (hLen h)) as [h' moved]. simpl in *.
  destruct moved; [done|]. apply up_loop_stable; [lia|done].
Qed.
End stable.
