(* ===== verification/PriorityQueue.v ===== *)
(** * The dispatch queue (src/manager/priority_heap.go)

    Queue items are heap objects shared by address: the slice holds pointers
    and [Update] is given a pointer, so the state keeps the item cells beside
    the slice.  The mutex makes every exported method one atomic step.  The
    comparator the manager installs (manager.go, [New]) is [job_higher]. *)
From S2P Require Import Prelude GoStd Contract Heap.

Record Item (T : Type) := MkItem { item_Value : T; item_Index : Z }.
Arguments MkItem {T} _ _.
Arguments item_Value {T} _.
Arguments item_Index {T} _.

Record PriorityQueue (T : Type) := MkPQ {
  pq_items : list nat;
  pq_cells : gmap nat (Item T);
  pq_next : nat;
}.
Arguments MkPQ {T} _ _ _.
Arguments pq_items {T} _.
Arguments pq_cells {T} _.
Arguments pq_next {T} _.

Section pq.
Context `{Inhabited T} (isHigherPriority : T → T → bool).
Implicit Types pq : PriorityQueue T.

Definition NewPriorityQueue : PriorityQueue T := MkPQ [] ∅ 0.

(** Dereference of an item pointer (pointers in use are never dangling). *)
Definition deref pq (a : nat) : Item T := default (MkItem inhabitant (-1)) (pq_cells pq !! a).

Definition set_index pq (a : nat) (i : Z) : PriorityQueue T :=
  MkPQ (pq_items pq) (<[a := MkItem (item_Value (deref pq a)) i]> (pq_cells pq)) (pq_next pq).

Definition set_value pq (a : nat) (v : T) : PriorityQueue T :=
  MkPQ (pq_items pq) (<[a := MkItem v (item_Index (deref pq a))]> (pq_cells pq)) (pq_next pq).

(** ** [heap.Interface] *)
Definition pq_Len pq : nat := length (pq_items pq).

Definition pq_Less pq (i j : nat) : bool :=
  match pq_items pq !! i, pq_items pq !! j with
  | Some a, Some b => isHigherPriority (item_Value (deref pq a)) (item_Value (deref pq b))
  | _, _ => false
  end.

Definition pq_Swap pq (i j : nat) : PriorityQueue T :=
  let pq := MkPQ (lswap i j (pq_items pq)) (pq_cells pq) (pq_next pq) in
  match pq_items pq !! i, pq_items pq !! j with
  | Some a, Some b => set_index (set_index pq a (Z.of_nat i)) b (Z.of_nat j)
  | _, _ => pq
  end.

#[export] Instance pq_interface : HeapInterface (PriorityQueue T) :=
  {| hLen := pq_Len; hLess := pq_Less; hSwap := pq_Swap |}.

Definition pq_Push pq (a : nat) : PriorityQueue T :=
  let pq := set_index pq a (Z.of_nat (length (pq_items pq))) in
  MkPQ (pq_items pq ++ [a]) (pq_cells pq) (pq_next pq).

(** Removes the last pointer and marks its item; [None] is the slice panic. *)
Definition pq_Pop pq : option (nat * PriorityQueue T) :=
  match last (pq_items pq) with
  | None => None
  | Some a =>
      let pq := set_index pq a (-1) in
      Some (a, MkPQ (removelast (pq_items pq)) (pq_cells pq) (pq_next pq))
  end.

(** ** [heap.Push] and [heap.Pop] on the queue *)
Definition heap_Push pq (a : nat) : PriorityQueue T :=
  let pq := pq_Push pq a in up pq (hLen pq - 1).

Definition heap_Pop pq : option (nat * PriorityQueue T) :=
  let n := hLen pq - 1 in
  let pq := hSwap pq 0 n in
  pq_Pop (down pq 0 n).1.

(** ** Exported methods *)
Definition PushItem pq (value : T) : nat * PriorityQueue T :=
  let a := pq_next pq in
  let pq := MkPQ (pq_items pq) (<[a := MkItem value 0]> (pq_cells pq)) (S a) in
  (a, heap_Push pq a).

Definition PopItem pq : option T * PriorityQueue T :=
  if bool_decide (pq_items pq = []) then (None, pq)
  else match heap_Pop pq with
       | Some (a, pq') => (Some (item_Value (deref pq' a)), pq')
       | None => (None, pq)
       end.

Definition Update pq (item : nat) (newValue : T) : PriorityQueue T :=
  let idx := item_Index (deref pq item) in
  if (idx <? 0)%Z || (Z.of_nat (length (pq_items pq)) <=? idx)%Z
     || negb (bool_decide (pq_items pq !! Z.to_nat idx = Some item))
  then pq
  else heap_Fix (set_value pq item newValue) (Z.to_nat idx).

Definition Reheapify pq : PriorityQueue T := heap_Init pq.
Definition Size pq : nat := length (pq_items pq).
Definition Snapshot pq : list nat := pq_items pq.
Definition Values pq : list T := (λ a, item_Value (deref pq a)) <$> Snapshot pq.
Definition Entries pq : list nat := Snapshot pq.

(** ** The queue implements the interface's contract *)
Lemma deref_set_index_value pq a i b :
  item_Value (deref (set_index pq a i) b) = item_Value (deref pq b).
Proof.
  unfold deref at 1; simpl. destruct (decide (a = b)) as [->|Hne]; by simplify_map_eq.
Qed.

Lemma Values_set_index pq a i : Values (set_index pq a i) = Values pq.
Proof. apply list_fmap_ext. intros. apply deref_set_index_value. Qed.

Lemma Values_swap pq i j : Values (pq_Swap pq i j) = lswap i j (Values pq).
Proof.
  assert (Values (pq_Swap pq i j)
    = Values (MkPQ (lswap i j (pq_items pq)) (pq_cells pq) (pq_next pq))) as ->.
  { unfold pq_Swap. splitter; by rewrite ?Values_set_index. }
  unfold Values, Snapshot, lswap; simpl. rewrite !list_lookup_fmap.
  destruct (pq_items pq !! i); simpl; [|done].
  destruct (pq_items pq !! j); simpl; [|done].
  by rewrite !list_fmap_insert.
Qed.

Lemma Values_length pq : length (Values pq) = length (pq_items pq).
Proof. apply length_fmap. Qed.

#[export] Instance pq_heap_laws : HeapLaws isHigherPriority Values.
Proof.
  split; simpl.
  - intros pq. by rewrite Values_length.
  - intros pq i j. rewrite Values_length. intros Hi Hj. unfold pq_Less.
    rewrite !list_lookup_total_alt. unfold Values, Snapshot. rewrite !list_lookup_fmap.
    destruct (lookup_lt_is_Some_2 _ _ Hi) as [a ->].
    by destruct (lookup_lt_is_Some_2 _ _ Hj) as [b ->].
  - intros. apply Values_swap.
Qed.
End pq.

(** ** Functional correctness: a priority queue over a multiset of values *)
Section spec.
Context `{Inhabited T} (higher : T → T → bool) `{!StrictWeakOrder higher}.
Implicit Types pq : PriorityQueue T.

(** The order the slice is kept in between two method calls. *)
Definition pq_heap pq : Prop := heap_ordered higher (Values pq).

#[local] Hint Extern 0 (HeapInterface (PriorityQueue T)) =>
  exact (pq_interface higher) : typeclass_instances.
#[local] Hint Extern 0 (HeapLaws _ _) => exact (pq_heap_laws higher) : typeclass_instances.

Lemma Values_Push pq a :
  Values (pq_Push pq a) = Values pq ++ [item_Value (deref pq a)].
Proof.
  unfold Values, Snapshot, pq_Push; simpl. rewrite fmap_app; simpl. f_equal.
  - apply list_fmap_ext. intros. apply (deref_set_index_value pq a).
  - f_equal. apply (deref_set_index_value pq a).
Qed.

Lemma heap_Push_spec pq a : pq_heap pq →
  pq_heap (heap_Push higher pq a) ∧
  Values (heap_Push higher pq a) ≡ₚ item_Value (deref pq a) :: Values pq.
Proof.
  intros Hh. unfold heap_Push. rewrite (hlaw_len (vals := Values)), Values_Push.
  rewrite length_app; simpl. replace (length (Values pq) + 1 - 1) with (length (Values pq)) by lia.
  destruct (up_push_spec higher Values (pq_Push pq a) (length (Values pq))) as [Hp Ho].
  - rewrite Values_Push, length_app. simpl. lia.
  - intros c Hc Hk. unfold edge_ok. rewrite Values_Push.
    pose proof (parent_lt c ltac:(lia)).
    rewrite !lookup_total_app_l by lia. by apply Hh.
  - split; [done|]. rewrite Hp, Values_Push. by rewrite Permutation_app_comm.
Qed.

Lemma pq_Pop_spec pq : pq_items pq ≠ [] →
  ∃ a pq', pq_Pop pq = Some (a, pq') ∧
    item_Value (deref pq' a) = Values pq !!! (length (pq_items pq) - 1) ∧
    Values pq' = take (length (pq_items pq) - 1) (Values pq).
Proof.
  destruct (pq_items pq) as [|a l _] eqn:E using rev_ind; [done|]. intros _.
  unfold pq_Pop. rewrite E, last_snoc. eexists _, _. split; [reflexivity|].
  rewrite length_app; simpl. replace (length l + 1 - 1) with (length l) by lia.
  assert (Values pq = ((λ b, item_Value (deref pq b)) <$> l) ++ [item_Value (deref pq a)]) as Hv.
  { unfold Values, Snapshot. rewrite E. by rewrite fmap_app. }
  rewrite E, removelast_last. split.
  - rewrite Hv, lookup_total_app_r by (by rewrite length_fmap).
    rewrite length_fmap, Nat.sub_diag. apply (deref_set_index_value pq a).
  - rewrite Hv, take_app_length' by (by rewrite length_fmap).
    apply list_fmap_ext. intros. apply (deref_set_index_value pq a).
Qed.

Lemma heap_Pop_spec pq : pq_heap pq → pq_items pq ≠ [] →
  ∃ a pq', heap_Pop higher pq = Some (a, pq') ∧ pq_heap pq' ∧
    item_Value (deref pq' a) = Values pq !!! 0 ∧
    Values pq ≡ₚ item_Value (deref pq' a) :: Values pq'.
Proof.
  intros Hh Hne. unfold heap_Pop. rewrite (hlaw_len (vals := Values)).
  remember (length (Values pq) - 1) as n eqn:Hn.
  assert (0 < length (Values pq)) as Hlen.
  { rewrite Values_length. destruct (pq_items pq); [done|simpl; lia]. }
  assert (length (Values (hSwap pq 0 n)) = length (Values pq)) as Hl1.
  { eapply (vals_swap_length higher Values pq 0 n); lia. }
  destruct (down_root_spec higher Values (hSwap pq 0 n) n) as (Hp & Hout & Ho).
  { lia. }
  { intros c Hc Hpc. pose proof (parent_lt c ltac:(lia)). unfold edge_ok.
    rewrite !(vals_swap_total higher Values) by lia.
    repeat case_decide; try lia. apply Hh; lia. }
  set (pq2 := (down (hSwap pq 0 n) 0 n).1) in *.
  assert (length (Values pq2) = length (Values pq)) as Hl2.
  { by rewrite (Permutation_length Hp), Hl1. }
  destruct (pq_Pop_spec pq2) as (a & pq' & Hpop & Hval & Hvals).
  { intros E. apply (f_equal length) in E. rewrite <- Values_length in E. simpl in E. lia. }
  rewrite <- Values_length, Hl2 in Hval, Hvals. rewrite <- Hn in Hval, Hvals.
  exists a, pq'. split; [done|]. rewrite Hval, Hout by done.
  rewrite (vals_swap_total higher Values) by lia. split_and!.
  - unfold pq_heap, heap_ordered. rewrite Hvals, length_take.
    intros c Hc Hk. pose proof (parent_lt c ltac:(lia)). unfold edge_ok.
    rewrite !lookup_total_take_lt by lia. apply Ho; lia.
  - repeat case_decide; [|done|done]. by replace n with 0 by lia.
  - rewrite Hvals. transitivity (Values pq2).
    { rewrite Hp. symmetry. apply (vals_swap_perm higher Values); lia. }
    rewrite <- (take_drop n (Values pq2)) at 1.
    assert (drop n (Values pq2) = [Values pq2 !!! n]) as ->.
    { destruct (drop n (Values pq2)) as [|x [|y r]] eqn:Ed;
        apply (f_equal length) in Ed as Ed'; rewrite length_drop in Ed'; simpl in Ed'; [lia| |lia].
      f_equal. rewrite <- (Nat.add_0_r n). rewrite <- lookup_total_drop. by rewrite Ed. }
    rewrite Hout by done. rewrite (vals_swap_total higher Values) by lia.
    rewrite Permutation_app_comm. simpl. done.
Qed.

Lemma heap_top_first pq : pq_heap pq → ∀ x, x ∈ Values pq → not_after higher (Values pq !!! 0) x.
Proof.
  intros Hh x [i Hi]%list_elem_of_lookup.
  apply list_lookup_total_correct in Hi as Hx. subst x.
  apply lookup_lt_Some in Hi. by eapply heap_root_first.
Qed.

(** ** Item pointers: every queued item knows its position, every other
    item ever created is marked with [-1] *)
Record pq_wf pq : Prop := {
  wf_nodup : NoDup (pq_items pq);
  wf_index : ∀ i a, pq_items pq !! i = Some a →
    ∃ it, pq_cells pq !! a = Some it ∧ item_Index it = Z.of_nat i;
  wf_popped : ∀ a it, pq_cells pq !! a = Some it → a ∉ pq_items pq → item_Index it = (-1)%Z;
  wf_fresh : ∀ a, is_Some (pq_cells pq !! a) → a < pq_next pq;
}.

Definition pq_inv pq : Prop := pq_wf pq ∧ pq_heap pq.

Lemma wf_deref pq i a : pq_wf pq → pq_items pq !! i = Some a →
  item_Index (deref pq a) = Z.of_nat i.
Proof. intros Hwf Hi. destruct (wf_index _ Hwf i a Hi) as (it & Hit & <-).
  unfold deref. by rewrite Hit. Qed.

Lemma wf_items_lt pq a : pq_wf pq → a ∈ pq_items pq → a < pq_next pq.
Proof.
  intros Hwf [i Hi]%list_elem_of_lookup. apply (wf_fresh _ Hwf).
  destruct (wf_index _ Hwf i a Hi) as (it & -> & _). by eauto.
Qed.

Lemma pq_Swap_items pq i j : pq_items (pq_Swap pq i j) = lswap i j (pq_items pq).
Proof. unfold pq_Swap. by splitter. Qed.

Lemma pq_Swap_wf pq i j : i < length (pq_items pq) → j < length (pq_items pq) →
  pq_wf pq → pq_wf (pq_Swap pq i j).
Proof.
  intros Hi Hj Hwf. pose proof (pq_Swap_items pq i j) as Hitems.
  destruct (lookup_lt_is_Some_2 _ _ Hi) as [a Ha].
  destruct (lookup_lt_is_Some_2 _ _ Hj) as [b Hb].
  assert (∀ k, lswap i j (pq_items pq) !! k = if decide (k = i) then Some b
    else if decide (k = j) then Some a else pq_items pq !! k) as Hlook.
  { intros k. rewrite lswap_lookup by done. repeat case_decide; congruence. }
  destruct (wf_index _ Hwf i a Ha) as (ia & Hca & _).
  destruct (wf_index _ Hwf j b Hb) as (ib & Hcb & _).
  assert (pq_cells (pq_Swap pq i j) = <[a := MkItem (item_Value ia) (Z.of_nat j)]>
    (<[b := MkItem (item_Value ib) (Z.of_nat i)]> (pq_cells pq))) as Hcells.
  { unfold pq_Swap; simpl. rewrite !Hlook.
    rewrite decide_True by done.
    destruct (decide (j = i)) as [->|]; [|rewrite decide_True by done].
    - assert (b = a) as -> by congruence. simpl. rewrite deref_set_index_value.
      unfold deref; simpl. rewrite Hca. by assert (ib = ia) as -> by congruence.
    - unfold set_index, deref; simpl. rewrite Hcb; simpl.
      rewrite lookup_insert_ne; [by rewrite Hca|]. intros ->.
      apply (NoDup_lookup _ _ _ a (wf_nodup _ Hwf) Hb) in Ha. lia. }
  split; rewrite ?Hitems.
  - rewrite lswap_Permutation. apply Hwf.
  - intros k c. rewrite Hlook, Hcells. intros Hk.
    destruct (decide (k = j)) as [->|Hkj].
    { assert (c = a) as -> by (repeat case_decide; congruence).
      eexists. by rewrite lookup_insert_eq. }
    destruct (decide (k = i)) as [->|Hki].
    { simplify_eq. rewrite lookup_insert_ne.
      2:{ intros ->. apply Hkj. eapply NoDup_lookup; [apply Hwf|eassumption..]. }
      eexists. by rewrite lookup_insert_eq. }
    rewrite !lookup_insert_ne; [by apply Hwf|..]; intros ->.
    + apply Hkj. eapply NoDup_lookup; [apply Hwf|eassumption..].
    + apply Hki. eapply NoDup_lookup; [apply Hwf|eassumption..].
  - intros c it. rewrite Hcells, lswap_Permutation. intros Hc Hnot.
    apply (wf_popped _ Hwf c it); [|done].
    rewrite !lookup_insert_ne in Hc; [done|..]; intros ->; apply Hnot;
      by eapply list_elem_of_lookup_2.
  - intros c. rewrite Hcells. intros [it Hit].
    assert (is_Some (pq_cells pq !! c)) as Hs.
    { destruct (decide (c = a)) as [->|]; [by eauto|].
      destruct (decide (c = b)) as [->|]; [by eauto|].
      rewrite !lookup_insert_ne in Hit by done. by eauto. }
    apply (wf_fresh _ Hwf) in Hs. unfold pq_Swap. by splitter.
Qed.

Lemma pq_Swap_stable_len pq i j : i < hLen pq → j < hLen pq → hLen (hSwap pq i j) = hLen pq.
Proof. intros. simpl. unfold pq_Len. by rewrite pq_Swap_items, lswap_length. Qed.

(** The queue after [item := &Item[T]{Value: value}]. *)
Definition alloc pq (v : T) : PriorityQueue T :=
  MkPQ (pq_items pq) (<[pq_next pq := MkItem v 0]> (pq_cells pq)) (S (pq_next pq)).

Lemma wf_next_fresh pq : pq_wf pq → pq_cells pq !! pq_next pq = None.
Proof.
  intros Hwf. destruct (pq_cells pq !! pq_next pq) eqn:E; [|done].
  pose proof (wf_fresh _ Hwf (pq_next pq) ltac:(eauto)). lia.
Qed.

Lemma wf_next_not_queued pq : pq_wf pq → pq_next pq ∉ pq_items pq.
Proof. intros Hwf Hin. apply (wf_items_lt _ _ Hwf) in Hin. lia. Qed.

Lemma alloc_Values pq v : pq_wf pq → Values (alloc pq v) = Values pq.
Proof.
  intros Hwf. pose proof (wf_next_not_queued _ Hwf) as Hn.
  unfold Values, Snapshot; simpl. apply list_fmap_ext. intros i b Hb.
  unfold deref; simpl. rewrite lookup_insert_ne; [done|].
  intros <-. apply Hn. by eapply list_elem_of_lookup_2.
Qed.

Lemma pq_Push_wf pq v : pq_wf pq → pq_wf (pq_Push (alloc pq v) (pq_next pq)).
Proof.
  intros Hwf. pose proof (wf_next_not_queued _ Hwf) as Ha.
  split; simpl.
  - apply NoDup_app. split_and!; [apply Hwf|set_solver|apply NoDup_singleton].
  - intros i b [Hi|[Hge Hb]]%lookup_app_Some.
    + assert (pq_next pq ≠ b). { intros <-. apply Ha. by eapply list_elem_of_lookup_2. }
      rewrite !lookup_insert_ne by done. by apply Hwf.
    + apply list_lookup_singleton_Some in Hb as [Hi <-].
      rewrite lookup_insert_eq. eexists; split; [done|]. simpl. lia.
  - intros b it. rewrite elem_of_app, list_elem_of_singleton. intros Hb Hn.
    rewrite !lookup_insert_ne in Hb by naive_solver. apply (wf_popped _ Hwf b); naive_solver.
  - intros b [it Hit]. destruct (decide (pq_next pq = b)) as [->|]; [lia|].
    rewrite !lookup_insert_ne in Hit by done.
    pose proof (wf_fresh _ Hwf b ltac:(eauto)). lia.
Qed.

Lemma pq_Pop_wf pq a pq' : pq_wf pq → pq_Pop pq = Some (a, pq') →
  pq_wf pq' ∧ a ∉ pq_items pq' ∧ item_Index (deref pq' a) = (-1)%Z.
Proof.
  intros Hwf. unfold pq_Pop.
  destruct (pq_items pq) as [|b l _] eqn:E using rev_ind; [done|].
  rewrite last_snoc. intros [= <- <-]. simpl. rewrite E, removelast_last.
  pose proof (wf_nodup _ Hwf) as Hnd. rewrite E in Hnd.
  apply NoDup_app in Hnd as (Hnd & Hdis & _).
  assert (b ∉ l) as Hb. { intros Hin. apply (Hdis b Hin). set_solver. }
  split_and!; [|done|unfold deref; simpl; by rewrite lookup_insert_eq].
  assert (is_Some (pq_cells pq !! b)) as Hsome.
  { destruct (wf_index _ Hwf (length l) b) as (it & -> & _); [|by eauto].
    rewrite E. by rewrite list_lookup_middle. }
  split; simpl.
  - done.
  - intros i c Hi. rewrite lookup_insert_ne.
    2:{ intros ->. apply Hb. by eapply list_elem_of_lookup_2. }
    apply Hwf. rewrite E. by apply lookup_app_l_Some.
  - intros c it Hc Hn. destruct (decide (b = c)) as [->|Hne].
    + rewrite lookup_insert_eq in Hc. by simplify_eq.
    + rewrite lookup_insert_ne in Hc by done. apply (wf_popped _ Hwf c it Hc).
      rewrite E, elem_of_app, list_elem_of_singleton. naive_solver.
  - intros c Hc. apply (wf_fresh _ Hwf). destruct (decide (b = c)) as [->|]; [done|].
    by rewrite lookup_insert_ne in Hc.
Qed.

(** ** Method by method *)

(** The loops only permute the slice: item values and fresh addresses stay. *)
Definition same_items pq0 pq : Prop :=
  pq_items pq ≡ₚ pq_items pq0 ∧ pq_next pq = pq_next pq0 ∧
  ∀ b, item_Value (deref pq b) = item_Value (deref pq0 b).

Lemma pq_Swap_same pq0 pq i j : same_items pq0 pq → same_items pq0 (pq_Swap pq i j).
Proof.
  intros (Hp & Hn & Hv). split_and!.
  - by rewrite pq_Swap_items, lswap_Permutation.
  - unfold pq_Swap. by splitter.
  - intros b. rewrite <- Hv. unfold pq_Swap; cbn [pq_items].
    destruct (_ !! i); [|done]. destruct (_ !! j); [|done].
    by rewrite !deref_set_index_value.
Qed.

Definition swap_closed pq0 pq : Prop := pq_wf pq ∧ same_items pq0 pq.

Lemma swap_closed_step pq0 pq i j : i < hLen pq → j < hLen pq →
  swap_closed pq0 pq → swap_closed pq0 (hSwap pq i j).
Proof. intros Hi Hj [Hwf Hs]. split; [by apply pq_Swap_wf|by apply pq_Swap_same]. Qed.

Lemma swap_closed_refl pq : pq_wf pq → swap_closed pq pq.
Proof. intros Hwf. by split; [|repeat split]. Qed.

Lemma heap_Init_wf pq : pq_wf pq → swap_closed pq (heap_Init pq).
Proof.
  intros Hwf. apply (heap_Init_stable _ pq_Swap_stable_len (swap_closed_step pq)).
  by apply swap_closed_refl.
Qed.

Lemma heap_Push_wf pq v : pq_wf pq →
  swap_closed (pq_Push (alloc pq v) (pq_next pq)) (heap_Push higher (alloc pq v) (pq_next pq)).
Proof.
  intros Hwf. unfold heap_Push. set (pq1 := pq_Push _ _).
  apply (up_loop_stable _ pq_Swap_stable_len (swap_closed_step pq1)).
  - unfold pq1; simpl. unfold pq_Len; simpl. rewrite length_app. simpl. lia.
  - apply swap_closed_refl. by apply pq_Push_wf.
Qed.

Lemma PushItem_inv pq v : pq_inv pq → pq_inv (PushItem higher pq v).2.
Proof.
  intros [Hwf Hh]. split.
  - apply (heap_Push_wf pq v Hwf).
  - apply (heap_Push_spec (alloc pq v)). unfold pq_heap. by rewrite alloc_Values.
Qed.

Lemma PushItem_values pq v : pq_inv pq → Values (PushItem higher pq v).2 ≡ₚ v :: Values pq.
Proof.
  intros [Hwf Hh]. simpl. fold (alloc pq v).
  destruct (heap_Push_spec (alloc pq v) (pq_next pq)) as [_ ->].
  - unfold pq_heap. by rewrite alloc_Values.
  - rewrite alloc_Values by done. unfold deref; simpl. by rewrite lookup_insert_eq.
Qed.

Lemma heap_Pop_wf pq a pq' : pq_wf pq → pq_items pq ≠ [] → heap_Pop higher pq = Some (a, pq') →
  pq_wf pq' ∧ a ∉ pq_items pq' ∧ item_Index (deref pq' a) = (-1)%Z.
Proof.
  intros Hwf E. unfold heap_Pop. intros Hpop.
  assert (0 < hLen pq) as Hlen.
  { simpl. unfold pq_Len. destruct (pq_items pq); [done|simpl; lia]. }
  eapply pq_Pop_wf; [|exact Hpop].
  apply (down_stable (swap_closed pq) pq_Swap_stable_len (swap_closed_step pq)).
  - rewrite pq_Swap_stable_len; lia.
  - apply swap_closed_step; [lia|lia|]. by apply swap_closed_refl.
Qed.

(** What [PopItem] does, in terms of the multiset of queued values. *)
Definition pop_spec pq (r : option T) pq' : Prop :=
  match r with
  | None => Values pq = [] ∧ pq' = pq
  | Some v => pq_inv pq' ∧ Values pq ≡ₚ v :: Values pq' ∧
              ∀ x, x ∈ Values pq → not_after higher v x
  end.

Lemma PopItem_spec pq : pq_inv pq →
  pop_spec pq (PopItem higher pq).1 (PopItem higher pq).2.
Proof.
  intros [Hwf Hh]. unfold PopItem. case_bool_decide as E.
  { split; [|done]. unfold Values, Snapshot. by rewrite E. }
  destruct (heap_Pop_spec pq Hh E) as (a & pq' & Hpop & Hh' & Hv & Hp).
  rewrite Hpop. simpl. split_and!.
  - split; [|done]. by eapply heap_Pop_wf.
  - done.
  - rewrite Hv. by apply heap_top_first.
Qed.

Lemma set_value_wf pq a v : pq_wf pq → is_Some (pq_cells pq !! a) → pq_wf (set_value pq a v).
Proof.
  intros Hwf [it Hit]. unfold set_value, deref. rewrite Hit; simpl. split; simpl.
  - apply Hwf.
  - intros i b Hi. destruct (wf_index _ Hwf i b Hi) as (it' & Hb & Hidx).
    destruct (decide (a = b)) as [->|]; [|rewrite lookup_insert_ne by done; by eauto].
    rewrite lookup_insert_eq. simplify_eq. by eexists.
  - intros b it' Hb Hn. destruct (decide (a = b)) as [->|].
    + rewrite lookup_insert_eq in Hb. simplify_eq. by apply (wf_popped _ Hwf b it).
    + rewrite lookup_insert_ne in Hb by done. by apply (wf_popped _ Hwf b it').
  - intros b Hb. apply (wf_fresh _ Hwf). destruct (decide (a = b)) as [->|]; [by eauto|].
    by rewrite lookup_insert_ne in Hb.
Qed.

Lemma set_value_Values pq i a v : pq_wf pq → pq_items pq !! i = Some a →
  Values (set_value pq a v) = <[i:=v]> (Values pq).
Proof.
  intros Hwf Hi. apply list_eq. intros k. unfold Values, Snapshot; simpl.
  rewrite list_lookup_fmap. destruct (decide (k = i)) as [->|Hne].
  - rewrite Hi; simpl. rewrite list_lookup_insert_eq.
    + unfold deref; simpl. by rewrite lookup_insert_eq.
    + rewrite length_fmap. by eapply lookup_lt_Some.
  - rewrite list_lookup_insert_ne by done. rewrite list_lookup_fmap.
    destruct (pq_items pq !! k) as [b|] eqn:Hk; simpl; [|done].
    f_equal. unfold deref; simpl. rewrite lookup_insert_ne; [done|].
    intros ->. apply Hne. eapply NoDup_lookup; [apply Hwf|eassumption..].
Qed.

Lemma set_value_hole pq i a v : pq_inv pq → pq_items pq !! i = Some a →
  hole_at higher 0 (length (Values (set_value pq a v))) i True (Values (set_value pq a v)).
Proof.
  intros [Hwf Hh] Hi. rewrite (set_value_Values pq i a v) by done.
  rewrite length_insert.
  assert (∀ c, c ≠ i → <[i:=v]> (Values pq) !!! c = Values pq !!! c) as Hne.
  { intros c Hc. rewrite !list_lookup_total_alt. by rewrite list_lookup_insert_ne. }
  split.
  - intros c Hc Hk Hp [Hci|Hf]; [|done]. unfold edge_ok. rewrite !Hne by done. by apply Hh.
  - intros c Hc Hp Hi0 Hk. pose proof (parent_lt c ltac:(lia)).
    pose proof (parent_lt i Hi0). rewrite !Hne by lia.
    apply (not_after_trans higher _ (Values pq !!! i)); [apply Hh; lia|].
    rewrite <- Hp. apply Hh; lia.
Qed.

Lemma Update_queued pq i a v : pq_inv pq → pq_items pq !! i = Some a →
  pq_inv (Update higher pq a v) ∧ Values (Update higher pq a v) ≡ₚ <[i:=v]> (Values pq).
Proof.
  intros [Hwf Hh] Hi. unfold Update. rewrite (wf_deref pq i a Hwf Hi).
  pose proof (lookup_lt_Some _ _ _ Hi).
  rewrite (proj2 (Z.ltb_ge _ _)) by lia. rewrite (proj2 (Z.leb_gt _ _)) by lia.
  rewrite Nat2Z.id, bool_decide_true by done. simpl.
  assert (pq_wf (set_value pq a v)) as Hwf'.
  { apply set_value_wf; [done|]. by destruct (wf_index _ Hwf i a Hi) as (it & -> & _). }
  destruct (heap_Fix_spec higher Values (set_value pq a v) i) as [Hp Ho].
  { rewrite (set_value_Values pq i a v) by done. rewrite length_insert, Values_length. done. }
  { by apply set_value_hole. }
  split.
  - split; [|done].
    apply (heap_Fix_stable (swap_closed (set_value pq a v)) pq_Swap_stable_len
      (swap_closed_step _)); [done|]. by apply swap_closed_refl.
  - by rewrite Hp, (set_value_Values pq i a v).
Qed.

Lemma Update_popped pq a v : pq_wf pq → a ∉ pq_items pq → Update higher pq a v = pq.
Proof.
  intros Hwf Ha. unfold Update. unfold deref.
  destruct (pq_cells pq !! a) as [it|] eqn:E; simpl; [|done].
  by rewrite (wf_popped _ Hwf a it E Ha).
Qed.

Lemma Reheapify_spec pq : pq_wf pq →
  pq_inv (Reheapify higher pq) ∧ Values (Reheapify higher pq) ≡ₚ Values pq.
Proof.
  intros Hwf. destruct (heap_Init_spec higher Values pq) as [Hp Ho].
  split; [split; [|done]|done]. by apply heap_Init_wf.
Qed.

(** Popping until the queue is empty. *)
Fixpoint pop_all (fuel : nat) pq : list T :=
  match fuel with
  | O => []
  | S fuel => match PopItem higher pq with
              | (Some v, pq') => v :: pop_all fuel pq'
              | (None, _) => []
              end
  end.

Lemma pop_all_spec fuel pq : pq_inv pq → length (Values pq) ≤ fuel →
  pop_all fuel pq ≡ₚ Values pq ∧ StronglySorted (not_after higher) (pop_all fuel pq).
Proof.
  revert pq. induction fuel as [|fuel IH]; intros pq Hinv Hlen; simpl.
  { apply Nat.le_0_r, nil_length_inv in Hlen. rewrite Hlen. split; [done|constructor]. }
  pose proof (PopItem_spec pq Hinv) as Hpop.
  destruct (PopItem higher pq) as [[v|] pq']; simpl in Hpop.
  2:{ destruct Hpop as [-> _]. split; [done|constructor]. }
  destruct Hpop as (Hinv' & Hp & Hmin).
  apply Permutation_length in Hp as Hlen'. simpl in Hlen'.
  destruct (IH pq' Hinv' ltac:(lia)) as [IHp IHs]. split.
  - by rewrite IHp, Hp.
  - constructor; [done|]. rewrite IHp. apply Forall_forall. intros x Hx.
    apply Hmin. rewrite Hp. set_solver.
Qed.

Lemma New_inv : pq_inv (NewPriorityQueue : PriorityQueue T).
Proof.
  split; [split|]; simpl.
  - constructor.
  - done.
  - intros a it. by rewrite lookup_empty.
  - intros a [it Hit]. by rewrite lookup_empty in Hit.
  - intros c Hc. simpl in Hc. lia.
Qed.
End spec.

(** ** The comparator installed by [New] (manager.go): higher priority first,
    then the older job *)
Definition job_higher (a b : Job) : bool :=
  if negb (job_Priority a =? job_Priority b)%Z then (job_Priority b <? job_Priority a)%Z
  else Before (job_CreatedAt a) (job_CreatedAt b).

#[export] Instance job_higher_swo : StrictWeakOrder job_higher.
Proof.
  unfold job_higher, Before. split.
  - intros x. rewrite Z.eqb_refl. simpl. by rewrite Z.ltb_irrefl.
  - intros x y z. repeat case_match; intros; zb; rewrite ?Z.ltb_lt; lia.
  - intros x y. repeat case_match; intros; zb; rewrite ?Z.ltb_ge; lia.
Qed.

(** Evaluation samples. *)
Definition sample_job (id : string) (prio created : Z) : Job :=
  zero_job <| job_ID := id |> <| job_Priority := prio |> <| job_CreatedAt := created |>.

Definition sample_queue : PriorityQueue Job :=
  foldl (λ q j, (PushItem job_higher q j).2) NewPriorityQueue
    [sample_job "a" 1 30; sample_job "b" 5 20; sample_job "c" 5 10; sample_job "d" 0 5].

Lemma PushItem_all_inv `{Inhabited T} (higher : T → T → bool) `{!StrictWeakOrder higher} l pq :
  pq_inv higher pq → pq_inv higher (foldl (λ q j, (PushItem higher q j).2) pq l).
Proof.
  revert pq. induction l as [|x l IH]; intros pq Hinv; [done|]. apply IH. by apply PushItem_inv.
Qed.

Lemma sample_queue_inv : pq_inv job_higher sample_queue.
Proof. apply PushItem_all_inv; [apply _|]. apply New_inv. Qed.

(** ** Properties of the queue *)

(** C21: Every value pushed comes out exactly once and in priority order: popping a
    well-formed queue until it is empty yields a permutation of its values in which no
    value precedes one of strictly higher priority. *)
Theorem queue_drains_in_priority_order `{Inhabited T} (higher : T → T → bool)
    `{!StrictWeakOrder higher} (pq : PriorityQueue T) :
  pq_inv higher pq →
  pop_all higher (Size pq) pq ≡ₚ Values pq ∧
  StronglySorted (not_after higher) (pop_all higher (Size pq) pq).
Proof. intros Hinv. apply pop_all_spec; [done|done|]. by rewrite Values_length. Qed.

Lemma queue_drains_in_priority_order_witness :
  map job_ID (pop_all job_higher 4 sample_queue) = ["c"; "b"; "a"; "d"] ∧
  StronglySorted (not_after job_higher) (pop_all job_higher (Size sample_queue) sample_queue).
Proof.
  split; [vm_compute; reflexivity|].
  apply (queue_drains_in_priority_order job_higher sample_queue sample_queue_inv).
Defined.

(** [PushItem] keeps the heap order and the item positions and adds exactly the pushed
    value; [PopItem] on a non-empty queue keeps them too, removes exactly the value it
    returns, and no queued value has higher priority than that one; on an empty queue it
    reports absence and changes nothing. *)
Theorem push_pop_correct `{Inhabited T} (higher : T → T → bool)
    `{!StrictWeakOrder higher} (pq : PriorityQueue T) (v : T) :
  pq_inv higher pq →
  (pq_inv higher (PushItem higher pq v).2 ∧
   Values (PushItem higher pq v).2 ≡ₚ v :: Values pq) ∧
  match PopItem higher pq with
  | (None, pq') => pq_items pq = [] ∧ pq' = pq
  | (Some top, pq') =>
      pq_inv higher pq' ∧ Values pq ≡ₚ top :: Values pq' ∧
      ∀ x, x ∈ Values pq → higher x top = false
  end.
Proof.
  intros Hinv. split; [split; [by apply PushItem_inv|by apply PushItem_values]|].
  pose proof (PopItem_spec higher pq Hinv) as Hpop.
  destruct (PopItem higher pq) as [[top|] pq']; [done|].
  simpl in Hpop. destruct Hpop as [Hv ->]. split; [|done].
  by apply fmap_nil_inv in Hv.
Qed.

Lemma push_pop_correct_witness :
  (job_ID <$> (PopItem job_higher sample_queue).1) = Some "c" ∧
  pq_inv job_higher (PushItem job_higher sample_queue (sample_job "e" 9 99)).2.
Proof.
  split; [vm_compute; reflexivity|].
  destruct (push_pop_correct job_higher sample_queue (sample_job "e" 9 99)
    sample_queue_inv) as [[Hpush _] _].
  exact Hpush.
Defined.

(** [Update] on a queued item replaces exactly that item's value and restores the heap;
    on an item that was already popped it does nothing. [Reheapify] restores the heap order
    after values were changed in place, without losing a value. *)
Theorem update_reheapify_correct `{Inhabited T} (higher : T → T → bool)
    `{!StrictWeakOrder higher} (pq : PriorityQueue T) (a : nat) (v : T) :
  pq_inv higher pq →
  (∀ i, pq_items pq !! i = Some a →
    pq_inv higher (Update higher pq a v) ∧
    Values (Update higher pq a v) ≡ₚ <[i:=v]> (Values pq)) ∧
  (a ∉ pq_items pq → Update higher pq a v = pq) ∧
  (is_Some (pq_cells pq !! a) →
    pq_inv higher (Reheapify higher (set_value pq a v)) ∧
    Values (Reheapify higher (set_value pq a v)) ≡ₚ Values (set_value pq a v)).
Proof.
  intros Hinv. split_and!.
  - intros i Hi. by apply Update_queued.
  - intros Ha. apply Update_popped; [apply Hinv|done].
  - intros Ha. apply Reheapify_spec; [done|]. apply set_value_wf; [apply Hinv|done].
Qed.

Lemma update_reheapify_correct_witness :
  (job_ID <$> (PopItem job_higher (Update job_higher sample_queue 3 (sample_job "d" 7 5))).1)
    = Some "d" ∧
  pq_inv job_higher (Reheapify job_higher (set_value sample_queue 3 (sample_job "d" 7 5))).
Proof.
  split; [vm_compute; reflexivity|].
  destruct (update_reheapify_correct job_higher sample_queue 3
    (sample_job "d" 7 5) sample_queue_inv) as (_ & _ & Hheap).
  apply Hheap. exists (MkItem (sample_job "d" 0 5) 3). vm_compute. reflexivity.
Defined.
