(* ===== verification/Cache.v ===== *)
(** * The rejection cache (src/manager/locksmith/cache.go)

    A map of list-element pointers beside a recency list of the same elements,
    plus a quarantine map and list.  Elements are addresses into [c_elems]; the
    map and the list are separate, as in the source, because [QuarantineEvict]
    updates only one of them.  Keys are strings, the program's instantiation
    ([rejectedJobsCache]).  [now] is the reading of [time.Now()] in the call. *)
From S2P Require Import Prelude GoStd.

Record entry (V : Type) := MkEntry {
  e_key : string;
  e_value : V;
  e_expiry : Time;
  e_quarantine : bool;
}.
Arguments MkEntry {V} _ _ _ _.
Arguments e_key {V} _.
Arguments e_value {V} _.
Arguments e_expiry {V} _.
Arguments e_quarantine {V} _.

#[export] Instance entry_rebuild {V} : Rebuild (entry V) := λ e,
  MkEntry (e_key e) (e_value e) (e_expiry e) (e_quarantine e).

Record Cache (V : Type) := MkCache {
  c_capacity : Z;
  c_cache : gmap string nat;
  c_lruList : list nat;
  c_ttl : Duration;
  c_quarantineTTL : Duration;
  c_quarantine : gmap string Time;
  c_quarantineList : list string;
  c_elems : gmap nat (entry V);
  c_next : nat;
}.
Arguments MkCache {V} _ _ _ _ _ _ _ _ _.
Arguments c_capacity {V} _.
Arguments c_cache {V} _.
Arguments c_lruList {V} _.
Arguments c_ttl {V} _.
Arguments c_quarantineTTL {V} _.
Arguments c_quarantine {V} _.
Arguments c_quarantineList {V} _.
Arguments c_elems {V} _.
Arguments c_next {V} _.

#[export] Instance Cache_rebuild {V} : Rebuild (Cache V) := λ c,
  MkCache (c_capacity c) (c_cache c) (c_lruList c) (c_ttl c) (c_quarantineTTL c)
    (c_quarantine c) (c_quarantineList c) (c_elems c) (c_next c).

Section cache.
Context {V : Type}.
Implicit Types c : Cache V.

(** ** Construction *)
Definition Option := Cache V → Cache V.

Definition WithCapacity (capacity : Z) : Option := λ c, c <| c_capacity := capacity |>.
Definition WithLRU (enabled : bool) : Option := λ c, c.
Definition WithTTL (ttl : Duration) : Option := λ c, c <| c_ttl := ttl |>.
Definition WithQuarantine (ttl : Duration) : Option := λ c, c <| c_quarantineTTL := ttl |>.

Definition NewCache (opts : list Option) : Cache V :=
  foldl (λ c opt, opt c) (MkCache 100 ∅ [] (15 * Minute)%Z (15 * Minute)%Z ∅ [] ∅ 0) opts.

(** ** Operations *)
Definition MoveToFront (a : nat) (l : list nat) : list nat :=
  a :: filter (λ b, b ≠ a) l.

(** [evict] removes the back of the recency list and deletes that key. *)
Definition evict c : Cache V :=
  match last (c_lruList c) with
  | None => c
  | Some a =>
      let c := c <| c_lruList := removelast (c_lruList c) |> in
      match c_elems c !! a with
      | Some e => c <| c_cache := delete (e_key e) (c_cache c) |>
      | None => c
      end
  end.

Definition Put c (key : string) (value : V) (now : Time) : Cache V :=
  match c_cache c !! key with
  | Some a =>
      c <| c_elems := alter (λ e, e <| e_value := value |>) a (c_elems c) |>
        <| c_lruList := MoveToFront a (c_lruList c) |>
  | None =>
      let c := if (c_capacity c <=? Z.of_nat (size (c_cache c)))%Z then evict c else c in
      let a := c_next c in
      c <| c_elems := <[a := MkEntry key value (time_Add now (c_ttl c)) false]> (c_elems c) |>
        <| c_next := S a |>
        <| c_lruList := a :: c_lruList c |>
        <| c_cache := <[key := a]> (c_cache c) |>
  end.

Definition quarantineItem c (key : string) (now : Time) : Cache V :=
  match c_cache c !! key with
  | None => c
  | Some a =>
      c <| c_elems := alter (λ e, e <| e_quarantine := true |>) a (c_elems c) |>
        <| c_quarantine := <[key := now]> (c_quarantine c) |>
        <| c_quarantineList := key :: c_quarantineList c |>
  end.

Definition Get c (key : string) (now : Time) : option V * Cache V :=
  match c_cache c !! key with
  | None => (None, c)
  | Some a =>
      match c_elems c !! a with
      | None => (None, c)
      | Some ent =>
          if After now (e_expiry ent) then
            (None, if negb (e_quarantine ent) then quarantineItem c key now else c)
          else (Some (e_value ent), c <| c_lruList := MoveToFront a (c_lruList c) |>)
      end
  end.

Definition QuarantineExpiredItems `{GoRuntime} c (now : Time) : Cache V :=
  foldl (λ c '(key, a),
    match c_elems c !! a with
    | Some ent =>
        if After now (e_expiry ent) && negb (e_quarantine ent)
        then quarantineItem c key now else c
    | None => c
    end) c (range_map (c_cache c)).

(** One turn of the [QuarantineEvict] loop; [true] when the loop breaks. *)
Definition QuarantineEvict_turn c (now : Time) : Cache V * bool :=
  match last (c_quarantineList c) with
  | None => (c, true)
  | Some key =>
      if After now (time_Add (default time_zero (c_quarantine c !! key)) (c_quarantineTTL c)) then
        (c <| c_quarantineList := removelast (c_quarantineList c) |>
           <| c_cache := delete key (c_cache c) |>
           <| c_quarantine := delete key (c_quarantine c) |>, false)
      else (c, false)
  end.

(** The loop, one clock reading per turn; [None] while it has not returned. *)
Fixpoint QuarantineEvict c (clock : list Time) : option (Cache V) :=
  match clock with
  | [] => None
  | now :: clock =>
      match QuarantineEvict_turn c now with
      | (c', true) => Some c'
      | (c', false) => QuarantineEvict c' clock
      end
  end.

Definition cache_Size c : nat := size (c_cache c).

Definition IncreaseTTL c (key : string) (now : Time) : option (Cache V) :=
  match c_cache c !! key with
  | Some a =>
      Some (c <| c_elems := alter (λ e, e <| e_expiry := time_Add now (c_ttl c) |>) a (c_elems c) |>)
  | None => None
  end.

(** ** Invariant: the map and the recency list describe the same elements *)
Record cache_inv c : Prop := {
  ci_nodup : NoDup (c_lruList c);
  ci_elem : ∀ k a, c_cache c !! k = Some a → a ∈ c_lruList c ∧
    ∃ e, c_elems c !! a = Some e ∧ e_key e = k;
  ci_list : ∀ a, a ∈ c_lruList c →
    ∃ e, c_elems c !! a = Some e ∧ c_cache c !! e_key e = Some a;
  ci_fresh : ∀ a, is_Some (c_elems c !! a) → a < c_next c;
  ci_size : (Z.of_nat (size (c_cache c)) ≤ Z.max 1 (c_capacity c))%Z;
}.

Lemma MoveToFront_elem a b l : a ∈ l → b ∈ MoveToFront a l ↔ b ∈ l.
Proof.
  intros Ha. unfold MoveToFront. rewrite elem_of_cons, list_elem_of_filter.
  destruct (decide (b = a)); naive_solver.
Qed.

Lemma MoveToFront_NoDup a l : NoDup l → NoDup (MoveToFront a l).
Proof.
  intros Hl. unfold MoveToFront. constructor; [|by apply NoDup_filter].
  rewrite list_elem_of_filter. naive_solver.
Qed.

(** Changing the payload of elements, not their keys, keeps the invariant. *)
Lemma alter_inv c f a l : (∀ e, e_key (f e) = e_key e) → cache_inv c →
  NoDup l → (∀ b, b ∈ l ↔ b ∈ c_lruList c) →
  cache_inv (c <| c_elems := alter f a (c_elems c) |> <| c_lruList := l |>).
Proof.
  intros Hf Hc Hnd Hl.
  assert (∀ b e, c_elems c !! b = Some e →
    ∃ e', alter f a (c_elems c) !! b = Some e' ∧ e_key e' = e_key e) as Halt.
  { intros b e Hb. rewrite lookup_alter. case_decide; subst; rewrite Hb; simpl; by eauto. }
  split; simpl.
  - done.
  - intros k b Hk. destruct (ci_elem _ Hc k b Hk) as (Hin & e & He & <-).
    rewrite Hl. destruct (Halt b e He) as (e' & ? & ?). by eauto.
  - intros b Hb%Hl. destruct (ci_list _ Hc b Hb) as (e & He & Hk).
    destruct (Halt b e He) as (e' & ? & Hk'). exists e'. by rewrite Hk'.
  - intros b Hb. apply (ci_fresh _ Hc). rewrite lookup_alter in Hb.
    case_decide; subst; [|done]. by apply fmap_is_Some in Hb.
  - apply Hc.
Qed.

Lemma evict_inv c : cache_inv c → c_lruList c ≠ [] →
  cache_inv (evict c) ∧ S (size (c_cache (evict c))) = size (c_cache c) ∧
  c_next (evict c) = c_next c ∧ c_elems (evict c) = c_elems c.
Proof.
  intros Hc. destruct (c_lruList c) as [|a l _] eqn:E using rev_ind; [done|]. intros _.
  unfold evict. rewrite E, last_snoc. simpl. rewrite removelast_last.
  destruct (ci_list _ Hc a) as (e & He & Hk); [rewrite E; set_solver|]. rewrite He. simpl.
  pose proof (ci_nodup _ Hc) as Hnd. rewrite E in Hnd.
  apply NoDup_app in Hnd as (Hnd & Hdis & _).
  assert (a ∉ l) as Ha. { intros Hin. apply (Hdis a Hin). set_solver. }
  assert (S (size (delete (e_key e) (c_cache c))) = size (c_cache c)) as Hsize.
  { rewrite map_size_delete_Some by eauto.
    pose proof (proj2 (map_size_ne_0_lookup (c_cache c)) ltac:(eauto)). lia. }
  split_and!; [|done|done|done].
  split; simpl.
  - done.
  - intros k b [Hne Hb]%lookup_delete_Some.
    destruct (ci_elem _ Hc k b Hb) as (Hin & e' & He' & Hk').
    split; [|by eauto]. rewrite E, elem_of_app, list_elem_of_singleton in Hin.
    destruct Hin as [?| ->]; [done|]. exfalso. simplify_eq.
  - intros b Hb. destruct (ci_list _ Hc b) as (e' & He' & Hk'); [rewrite E; set_solver|].
    exists e'. split; [done|]. rewrite lookup_delete_ne; [done|].
    intros Heq. rewrite <- Heq, Hk in Hk'. by simplify_eq.
  - apply Hc.
  - pose proof (ci_size _ Hc). lia.
Qed.

Lemma lru_nonempty c : cache_inv c → 0 < size (c_cache c) → c_lruList c ≠ [].
Proof.
  intros Hc Hs E.
  destruct (map_choose (c_cache c)) as (k & a & Hk). { intros Hn. rewrite Hn, map_size_empty in Hs. lia. }
  destruct (ci_elem _ Hc k a Hk) as [Hin _]. rewrite E in Hin. set_solver.
Qed.

Lemma NewCache_inv opts : (∀ o, o ∈ opts → (∃ n, o = WithCapacity n) ∨ (∃ b, o = WithLRU b) ∨
    (∃ d, o = WithTTL d) ∨ (∃ d, o = WithQuarantine d)) →
  cache_inv (NewCache opts).
Proof.
  unfold NewCache. set (c0 := MkCache _ _ _ _ _ _ _ _ _).
  assert (c_cache c0 = ∅ ∧ c_lruList c0 = [] ∧ c_elems c0 = ∅) as Hc0 by done.
  revert Hc0. generalize c0 as c. clear c0. induction opts as [|o opts IH]; intros c Hc Ho; simpl.
  - destruct Hc as (H1 & H2 & H3). split; rewrite ?H1, ?H2, ?H3.
    + constructor.
    + by intros k a.
    + intros a Ha. set_solver.
    + intros a. rewrite lookup_empty. by intros [].
    + rewrite map_size_empty. lia.
  - apply IH; [|intros; apply Ho; set_solver].
    destruct (Ho o ltac:(set_solver)) as [[? ->]|[[? ->]|[[? ->]|[? ->]]]]; apply Hc.
Qed.

Lemma insert_new_inv c key value expiry : cache_inv c → c_cache c !! key = None →
  (Z.of_nat (size (c_cache c)) < Z.max 1 (c_capacity c))%Z →
  let a := c_next c in
  cache_inv (c <| c_elems := <[a := MkEntry key value expiry false]> (c_elems c) |>
    <| c_next := S a |> <| c_lruList := a :: c_lruList c |> <| c_cache := <[key := a]> (c_cache c) |>).
Proof.
  intros Hc Hnone Hsz. simpl.
  assert (∀ b, b ∈ c_lruList c → b ≠ c_next c) as Hnew.
  { intros b Hb ->. destruct (ci_list _ Hc _ Hb) as (e & He & _).
    pose proof (ci_fresh _ Hc _ ltac:(eauto)). lia. }
  split; simpl.
  - constructor; [|apply Hc]. intros Hin. by apply (Hnew _ Hin).
  - intros k b [[<- <-]|[Hne Hb]]%lookup_insert_Some.
    + split; [set_solver|]. rewrite lookup_insert_eq. by eauto.
    + destruct (ci_elem _ Hc k b Hb) as (Hin & e & He & Hk). split; [set_solver|].
      exists e. rewrite lookup_insert_ne; [done|]. intros Heq. by apply (Hnew _ Hin).
  - intros b [->|Hb]%elem_of_cons.
    + eexists. rewrite lookup_insert_eq. split; [done|]. simpl. by rewrite lookup_insert_eq.
    + destruct (ci_list _ Hc b Hb) as (e & He & Hk). exists e.
      rewrite lookup_insert_ne by (intros Heq; by apply (Hnew _ Hb)).
      split; [done|]. rewrite lookup_insert_ne; [done|]. intros Heq. congruence.
  - intros b Hb. destruct (decide (b = c_next c)) as [->|Hne]; [lia|].
    rewrite lookup_insert_ne in Hb by done. pose proof (ci_fresh _ Hc b Hb). lia.
  - rewrite map_size_insert_None by done. lia.
Qed.

Lemma Put_inv c key value now : cache_inv c → cache_inv (Put c key value now).
Proof.
  intros Hc. unfold Put. destruct (c_cache c !! key) as [a|] eqn:Hkey.
  - destruct (ci_elem _ Hc key a Hkey) as [Hin _].
    apply alter_inv; [done|done|by apply MoveToFront_NoDup, Hc|].
    intros b. by apply MoveToFront_elem.
  - pose proof (ci_size _ Hc) as Hsize.
    destruct (c_capacity c <=? Z.of_nat (size (c_cache c)))%Z eqn:Hfull; zb.
    + destruct (decide (size (c_cache c) = 0)) as [Hz|Hz].
      { assert (evict c = c) as ->.
        { unfold evict. destruct (c_lruList c) as [|a l] eqn:E; [done|].
          destruct (ci_list _ Hc a) as (e & _ & Hk); [rewrite E; set_solver|].
          exfalso. apply map_size_empty_inv in Hz. by rewrite Hz in Hk. }
        apply insert_new_inv; [done|done|lia]. }
      destruct (evict_inv c Hc) as (Hc' & Hs & Hn & He).
      { apply lru_nonempty; [done|lia]. }
      apply insert_new_inv; [done| |].
      * unfold evict. destruct (last _); [|done]. simpl.
        destruct (c_elems c !! n); [|done]. simpl. rewrite lookup_delete.
        by case_decide.
      * replace (c_capacity (evict c)) with (c_capacity c); [lia|].
        unfold evict. destruct (last _); [|done]. simpl. by destruct (c_elems c !! n).
    + apply insert_new_inv; [done|done|lia].
Qed.

Lemma quarantineItem_inv c key now : cache_inv c → cache_inv (quarantineItem c key now).
Proof.
  intros Hc. unfold quarantineItem. destruct (c_cache c !! key) as [a|]; [|done].
  pose proof (alter_inv c (λ e, e <| e_quarantine := true |>) a (c_lruList c)
    ltac:(done) Hc (ci_nodup _ Hc) ltac:(done)) as Halt.
  destruct Halt. by split.
Qed.

Lemma Get_inv c key now : cache_inv c → cache_inv (Get c key now).2.
Proof.
  intros Hc. unfold Get. destruct (c_cache c !! key) as [a|] eqn:Hkey; [|done].
  destruct (c_elems c !! a) as [ent|] eqn:Hent; [|done].
  destruct (After now (e_expiry ent)).
  - simpl. destruct (negb _); [|done]. by apply quarantineItem_inv.
  - simpl. destruct (ci_elem _ Hc key a Hkey) as [Hin _].
    pose proof (alter_inv c id a (MoveToFront a (c_lruList c)) ltac:(done) Hc
      ltac:(by apply MoveToFront_NoDup, Hc) ltac:(intros; by apply MoveToFront_elem)) as Halt.
    rewrite alter_id in Halt by done. done.
Qed.

(** Lookups have no visible effect: whatever a [Get] does to the recency list and the
    quarantine, every later answer is the one the cache would have given before it. *)
Lemma Get_Get c key now key' now' : (Get (Get c key now).2 key' now').1 = (Get c key' now').1.
Proof.
  unfold Get at 2. destruct (c_cache c !! key) as [a|] eqn:Hkey; [|done].
  destruct (c_elems c !! a) as [e|] eqn:He; [|done].
  destruct (After now (e_expiry e)); [|by unfold Get; simpl; splitter].
  destruct (negb (e_quarantine e)); [|done]. simpl.
  unfold Get, quarantineItem. rewrite Hkey. simpl.
  destruct (c_cache c !! key') as [b|]; [|done].
  destruct (decide (b = a)) as [->|].
  - rewrite lookup_alter_eq, He. simpl. by splitter.
  - rewrite lookup_alter_ne by done. by splitter.
Qed.

Lemma IncreaseTTL_inv c key now c' : cache_inv c → IncreaseTTL c key now = Some c' → cache_inv c'.
Proof.
  intros Hc. unfold IncreaseTTL. destruct (c_cache c !! key) as [a|]; [|done]. intros [= <-].
  pose proof (alter_inv c (λ e, e <| e_expiry := time_Add now (c_ttl c) |>) a (c_lruList c)
    ltac:(done) Hc (ci_nodup _ Hc) ltac:(done)) as Halt.
  destruct Halt. by split.
Qed.

(** The calls the manager makes on a worker's rejection cache. *)
Inductive cache_step : Cache V → Cache V → Prop :=
| step_Put c key value now : cache_step c (Put c key value now)
| step_Get c key now : cache_step c (Get c key now).2
| step_IncreaseTTL c key now c' : IncreaseTTL c key now = Some c' → cache_step c c'.

Lemma cache_step_capacity c c' : cache_step c c' → c_capacity c' = c_capacity c.
Proof.
  destruct 1 as [c key value now|c key now|c key now c' Hinc].
  - unfold Put. destruct (c_cache c !! key); [done|]. simpl. destruct (_ <=? _)%Z; [|done].
    unfold evict. destruct (last _); [|done]. simpl. by destruct (c_elems c !! _).
  - unfold Get, quarantineItem. destruct (c_cache c !! key); [|done].
    destruct (c_elems c !! _); [|done]. destruct (After _ _); [|done]. simpl. by destruct (negb _).
  - unfold IncreaseTTL in Hinc. destruct (c_cache c !! key); [|done]. by simplify_eq/=.
Qed.

Lemma cache_steps_inv c c' : rtc cache_step c c' → cache_inv c →
  cache_inv c' ∧ c_capacity c' = c_capacity c.
Proof.
  induction 1 as [|c c1 c2 Hstep _ IH]; intros Hc; [done|].
  assert (cache_inv c1) as Hc1.
  { destruct Hstep; [by apply Put_inv|by apply Get_inv|by eapply IncreaseTTL_inv]. }
  destruct (IH Hc1) as [? ->]. split; [done|]. by apply cache_step_capacity.
Qed.

Lemma Put_new_lookup c key value now : c_cache c !! key = None →
  ∃ a, c_cache (Put c key value now) !! key = Some a ∧
    c_elems (Put c key value now) !! a = Some (MkEntry key value (time_Add now (c_ttl c)) false).
Proof.
  intros Hnone. unfold Put. rewrite Hnone. simpl. eexists. rewrite !lookup_insert_eq.
  split; [done|]. do 2 f_equal. destruct (_ <=? _)%Z; [|done].
  unfold evict. destruct (last _); [|done]. simpl. by destruct (c_elems c !! _).
Qed.
End cache.

(** ** Properties of the rejection cache *)

(** In every state reachable by [Put], [Get] and [IncreaseTTL] from a new cache, the map
    and the recency list describe the same elements, each once, and the number of entries
    never exceeds the configured capacity (one entry if the capacity is below one). *)
Theorem cache_bounded {V} (opts : list (@Option V)) (capacity : Z) (c : Cache V) :
  (∀ o, o ∈ opts → (∃ b, o = WithLRU b) ∨ (∃ d, o = WithTTL d)) →
  rtc cache_step (NewCache (opts ++ [WithCapacity capacity])) c →
  cache_inv c ∧ (Z.of_nat (cache_Size c) ≤ Z.max 1 capacity)%Z.
Proof.
  intros Ho Hsteps. apply cache_steps_inv in Hsteps as [Hc Hcap].
  - split; [done|]. pose proof (ci_size _ Hc) as Hs. unfold cache_Size.
    rewrite Hcap in Hs. unfold NewCache in Hs. by rewrite foldl_app in Hs.
  - apply NewCache_inv. intros o [Hin|Hin]%elem_of_app; [naive_solver|].
    apply list_elem_of_singleton in Hin. naive_solver.
Qed.

Definition sample_cache : Cache unit := NewCache [WithLRU true; WithTTL (60 * Second)%Z; WithCapacity 1].

Lemma cache_bounded_witness :
  cache_Size (Put (Put sample_cache "j1" tt 0) "j2" tt 1) = 1 ∧
  cache_inv (Put (Put sample_cache "j1" tt 0) "j2" tt 1).
Proof.
  split; [vm_compute; reflexivity|].
  apply (cache_bounded [WithLRU true; WithTTL (60 * Second)%Z] 1
    (Put (Put sample_cache "j1" tt 0) "j2" tt 1)).
  - intros o Ho. rewrite elem_of_cons, list_elem_of_singleton in Ho. naive_solver.
  - eapply rtc_l; [apply (step_Put _ "j1" tt 0)|]. eapply rtc_l; [apply (step_Put _ "j2" tt 1)|].
    apply rtc_refl.
Defined.

(** A rejection recorded for a new job is remembered exactly for the TTL: a lookup up to
    that instant finds it and a later one does not. Putting a new key into a full cache drops
    the least recently used key and no other. *)
Theorem cache_remembers_for_ttl {V} (c : Cache V) (key : string) (value : V) (now later : Time) :
  cache_inv c → c_cache c !! key = None →
  (Get (Put c key value now) key later).1 =
    (if (later <=? now + c_ttl c)%Z then Some value else None) ∧
  ((1 ≤ c_capacity c)%Z → Z.of_nat (cache_Size c) = c_capacity c →
    ∃ a e, last (c_lruList c) = Some a ∧ c_elems c !! a = Some e ∧
      c_cache (Put c key value now) = <[key := c_next c]> (delete (e_key e) (c_cache c))).
Proof.
  intros Hc Hnone. split.
  - destruct (Put_new_lookup c key value now Hnone) as (a & Hk & He).
    unfold Get. rewrite Hk, He. simpl. unfold After, time_Add.
    destruct (Z.leb_spec later (now + c_ttl c)), (Z.ltb_spec (now + c_ttl c) later); done || lia.
  - unfold cache_Size. intros Hcap Hfull.
    assert (c_lruList c ≠ []) as Hne by (apply lru_nonempty; [done|lia]).
    destruct (last (c_lruList c)) as [a|] eqn:Hlast.
    2:{ by apply last_None in Hlast. }
    destruct (ci_list _ Hc a) as (e & He & _).
    { apply last_Some in Hlast as [l' ->]. set_solver. }
    exists a, e. split_and!; [done|done|].
    unfold Put. rewrite Hnone, (proj2 (Z.leb_le _ _)) by lia. simpl.
    unfold evict. rewrite Hlast. simpl. by rewrite He.
Qed.

Lemma cache_remembers_for_ttl_witness :
  c_cache sample_cache !! "j1" = None ∧
  (Get (Put sample_cache "j1" tt 0) "j1" (60 * Second)%Z).1 = Some tt.
Proof.
  split; [reflexivity|].
  rewrite (proj1 (cache_remembers_for_ttl sample_cache "j1" tt 0 (60 * Second)%Z
    ltac:(apply NewCache_inv; intros o Ho; rewrite !elem_of_cons, elem_of_nil in Ho; naive_solver)
    eq_refl)).
  reflexivity.
Defined.

(** Recording a rejection again does not renew it: once an entry's TTL has passed, a
    second [Put] for the same key leaves the old expiry in place, so every later lookup still
    misses and the worker is proposed the job it has just rejected. *)
Theorem renewed_rejection_is_lost {V} (c : Cache V) (key : string) (value : V)
    (a : nat) (e : entry V) (now later : Time) :
  c_cache c !! key = Some a → c_elems c !! a = Some e →
  (e_expiry e < now)%Z → (now ≤ later)%Z →
  (Get (Put c key value now) key later).1 = None.
Proof.
  intros Hk He Hexp Hle. unfold Get, Put. rewrite Hk. simpl. rewrite Hk.
  rewrite lookup_alter_eq, He. simpl. unfold After.
  by rewrite (proj2 (Z.ltb_lt _ _)) by lia.
Qed.

Lemma renewed_rejection_is_lost_witness :
  let c := Put sample_cache "j1" tt 0 in
  (Get (Put c "j1" tt (61 * Second)%Z) "j1" (62 * Second)%Z).1 = None.
Proof.
  exact (renewed_rejection_is_lost (Put sample_cache "j1" tt 0) "j1" tt 0
    (MkEntry "j1" tt (60 * Second)%Z false) (61 * Second)%Z (62 * Second)%Z
    eq_refl eq_refl eq_refl ltac:(vm_compute; congruence)).
Defined.

(** [QuarantineEvict] does not return while a quarantined key is still inside its
    quarantine TTL: every turn of the loop leaves the cache as it is and goes on, and it holds
    this for as many clock readings as one likes. *)
Theorem quarantine_evict_spins {V} (c : Cache V) (key : string) (clock : list Time) :
  last (c_quarantineList c) = Some key →
  (∀ t, t ∈ clock → t ≤ default time_zero (c_quarantine c !! key) + c_quarantineTTL c)%Z →
  QuarantineEvict c clock = None.
Proof.
  intros Hlast. induction clock as [|t clock IH]; intros Hclock; simpl; [done|].
  assert (QuarantineEvict_turn c t = (c, false)) as ->.
  { unfold QuarantineEvict_turn. rewrite Hlast. unfold After, time_Add.
    rewrite (proj2 (Z.ltb_ge _ _)); [done|]. apply Hclock. set_solver. }
  apply IH. intros u Hu. apply Hclock. set_solver.
Qed.

Lemma quarantine_evict_spins_witness :
  let c := (Get (Put sample_cache "j1" tt 0) "j1" (61 * Second)%Z).2 in
  QuarantineEvict c [62 * Second; 63 * Second]%Z = None.
Proof.
  apply (quarantine_evict_spins (Get (Put sample_cache "j1" tt 0) "j1" (61 * Second)%Z).2 "j1").
  - reflexivity.
  - intros t Ht. rewrite !elem_of_cons, elem_of_nil in Ht.
    destruct Ht as [->|[->|[]]]; vm_compute; congruence.
Defined.
