(* ===== verification/Window.v ===== *)
(** * The sliding window and the metrics sampler
      (src/worker/window/window.go, mu_window.go, src/worker/metrics_sampler.go)

    A window is a ring buffer of fixed capacity; its reference is the list of the
    last values pushed.  An index out of range panics in the source and is [None]
    here.  The sampler keeps five readings and publishes their exponential moving
    average; [float64] arithmetic is binary64 of [SpecFloat], so it is executable.
    The sampler's lock makes each of its operations atomic; [MuWindow] has the window's. *)
From S2P Require Import Prelude GoStd External.
From Stdlib Require Import Floats.SpecFloat.

(** ** Window *)
Record Window (T : Type) := MkWindow {
  win_data : list T;
  win_cap : nat;
  win_head : nat;
  win_count : nat;
}.
Arguments MkWindow {T} _ _ _ _.
Arguments win_data {T} _.
Arguments win_cap {T} _.
Arguments win_head {T} _.
Arguments win_count {T} _.

Section window.
Context {T : Type} (zero : T).
Implicit Types (w : Window T).

(** [New] panics on a capacity that is not positive. *)
Definition New_window (capacity : Z) : option (Window T) :=
  if (capacity <=? 0)%Z then None
  else Some (MkWindow (replicate (Z.to_nat capacity) zero) (Z.to_nat capacity) 0 0).

Definition Push_window w (v : T) : option (Window T) :=
  if win_head w <? length (win_data w) then
    Some (MkWindow (<[win_head w := v]> (win_data w)) (win_cap w) ((win_head w + 1) mod win_cap w)
            (if win_count w <? win_cap w then win_count w + 1 else win_count w))
  else None.

(** The loop body of [Each], for [i] from [i] with [n] rounds left. *)
Fixpoint each_from {S} w (fn : S → T → S) (start i n : nat) (s : S) : option S :=
  match n with
  | O => Some s
  | Datatypes.S n =>
      v ← win_data w !! ((start + i) mod win_cap w);
      each_from w fn start (i + 1) n (fn s v)
  end.

(** [Each(fn)]; the callback's effect is on a state [S]. *)
Definition Each_window {S} w (fn : S → T → S) (s : S) : option S :=
  let start := if win_count w =? win_cap w then win_head w else 0 in
  each_from w fn start 0 (win_count w) s.

(** The callback of [Average]: the first value, then [add]. *)
Definition average_step (add : T → T → T) (s : T * bool) (v : T) : T * bool :=
  let '(result, isFirst) := s in if isFirst then (v, false) else (add result v, false).

Definition Average_window w (add : T → T → T) (divide : T → nat → T) : option T :=
  if win_count w =? 0 then Some zero
  else '(result, _) ← Each_window w (average_step add) (zero, true); Some (divide result (win_count w)).

Definition Count_window w : nat := win_count w.
End window.

(** ** Metrics *)
Definition f64_add : spec_float → spec_float → spec_float := SFadd 53 1024.
Definition f64_sub : spec_float → spec_float → spec_float := SFsub 53 1024.
Definition f64_mul : spec_float → spec_float → spec_float := SFmul 53 1024.
Definition f64_div : spec_float → spec_float → spec_float := SFdiv 53 1024.

(** [float64(n)]. *)
Definition f64_of_Z (n : Z) : spec_float := binary_normalize 53 1024 n 0 false.

Definition f64_zero : spec_float := S754_zero false.

(** [x > y] and [x >= y]; false on NaN. *)
Definition f64_gt (x y : spec_float) : bool := SFltb y x.
Definition f64_ge (x y : spec_float) : bool := SFleb y x.

Record systemMetrics := MkSystemMetrics {
  sm_CPUPercent : spec_float;
  sm_MemPercent : spec_float;
  sm_SampledAt : Time;
}.

(** [var m systemMetrics]. *)
Definition zero_metrics : systemMetrics := MkSystemMetrics f64_zero f64_zero time_zero.

Definition IsOverLimit (sm : systemMetrics) (cpuLimit memoryLimit : spec_float) : bool :=
  (f64_gt cpuLimit f64_zero && f64_ge (sm_CPUPercent sm) cpuLimit)
  || (f64_gt memoryLimit f64_zero && f64_ge (sm_MemPercent sm) memoryLimit).

Definition addMetrics (acc next : systemMetrics) : systemMetrics :=
  MkSystemMetrics (f64_add (sm_CPUPercent acc) (sm_CPUPercent next))
    (f64_add (sm_MemPercent acc) (sm_MemPercent next)) (sm_SampledAt next).

Definition divideMetrics (total : systemMetrics) (count : nat) : systemMetrics :=
  let c := f64_of_Z (Z.of_nat count) in
  MkSystemMetrics (f64_div (sm_CPUPercent total) c) (f64_div (sm_MemPercent total) c) (sm_SampledAt total).

Definition combineMetrics (ema next : systemMetrics) (alpha : spec_float) : systemMetrics :=
  let beta := f64_sub (f64_of_Z 1) alpha in
  MkSystemMetrics (f64_add (f64_mul (sm_CPUPercent next) alpha) (f64_mul (sm_CPUPercent ema) beta))
    (f64_add (f64_mul (sm_MemPercent next) alpha) (f64_mul (sm_MemPercent ema) beta)) (sm_SampledAt next).

Record systemMetricsDelta := MkSystemMetricsDelta {
  smd_CPUPercentDelta : spec_float;
  smd_MemPercentDelta : spec_float;
  smd_TimeElapsed : Duration;
}.

Definition CalculateMetricsDelta (prev curr : systemMetrics) : systemMetricsDelta :=
  MkSystemMetricsDelta (f64_sub (sm_CPUPercent curr) (sm_CPUPercent prev))
    (f64_sub (sm_MemPercent curr) (sm_MemPercent prev)) (time_Sub (sm_SampledAt curr) (sm_SampledAt prev)).

(** ** The sampler *)
Record metricsSampler := MkMetricsSampler {
  ms_window : Window systemMetrics;
  ms_last : systemMetrics;
  ms_interval : Duration;
  ms_sampleTimeout : Duration;
}.

Definition newMetricsSampler (interval sampleTimeout : Duration) : option metricsSampler :=
  w ← New_window zero_metrics 5; Some (MkMetricsSampler w zero_metrics interval sampleTimeout).

Definition sampler_snapshot (m : metricsSampler) : systemMetrics := ms_last m.

Definition CalculateSystemSMA (m : metricsSampler) : option systemMetrics :=
  Average_window zero_metrics (ms_window m) addMetrics divideMetrics.

Definition CalculateSystemEMA (m : metricsSampler) : option systemMetrics :=
  let count := Count_window (ms_window m) in
  if count =? 0 then Some zero_metrics
  else
    let alpha := f64_div (f64_of_Z 2) (f64_of_Z (Z.of_nat count + 1)) in
    '(ema, _) ← Each_window (ms_window m) (average_step (λ ema next, combineMetrics ema next alpha))
                  (zero_metrics, true);
    Some ema.

(** [SampleOnce]: what the machine reports of its processors, one value for all of them, and of its memory; [None] is the panic
    of an empty report. *)
Definition SampleOnce (cpu : res error (list spec_float)) (mem : res error spec_float) (now : Time) : option (res error systemMetrics) :=
  match cpu with
  | Err e => Some (Err (ErrMsg ("failed to mesure cpu usage: " +:+ Error e)))
  | Ok [] => None
  | Ok (c :: _) =>
      Some (match mem with
            | Err e => Err (ErrMsg ("failed to obtain virtual memory: " +:+ Error e))
            | Ok used => Ok (MkSystemMetrics c used now)
            end)
  end.


(** One round of [Run]'s interval service: [sample] is what [SampleOnce] returned. *)
Definition sampler_round (m : metricsSampler) (sample : option systemMetrics) : option metricsSampler :=
  match sample with
  | None => Some m
  | Some metrics =>
      w ← Push_window (ms_window m) metrics;
      let m' := MkMetricsSampler w (ms_last m) (ms_interval m) (ms_sampleTimeout m) in
      last ← CalculateSystemEMA m';
      Some (MkMetricsSampler w last (ms_interval m) (ms_sampleTimeout m))
  end.

(** ** The window is the list of its last values *)
Definition last_n {T} (n : nat) (l : list T) : list T := drop (length l - n) l.

(** Pushing a list of values, oldest first. *)
Fixpoint push_all {T} (w : Window T) (l : list T) : option (Window T) :=
  match l with [] => Some w | v :: l => w' ← Push_window w v; push_all w' l end.

Section reference.
Context {T : Type} (zero : T).
Implicit Types (w : Window T) (l : list T).

Record window_rel (n : nat) w l : Prop := {
  wr_pos : 0 < n;
  wr_cap : win_cap w = n;
  wr_length : length (win_data w) = n;
  wr_count : win_count w = Nat.min n (length l);
  wr_head : win_head w = length l mod n;
  wr_data i : length l - n ≤ i < length l → win_data w !! (i mod n) = l !! i;
}.

Lemma New_window_rel n : 0 < n →
  ∃ w, New_window zero (Z.of_nat n) = Some w ∧ window_rel n w [].
Proof.
  intros Hn. unfold New_window. rewrite (proj2 (Z.leb_gt _ _)) by lia. eexists. split; [done|].
  rewrite Nat2Z.id. split; simpl; [lia|done|apply length_replicate|by rewrite Nat.min_0_r| |lia].
  by rewrite Nat.Div0.mod_0_l.
Qed.

Lemma mod_ne n i j : i < j → j < i + n → i mod n ≠ j mod n.
Proof.
  intros Hij Hj Heq. assert (n ≠ 0) by lia.
  pose proof (Nat.div_mod_eq i n) as Hi. pose proof (Nat.div_mod_eq j n) as Hj'.
  rewrite Heq in Hi. assert (n * (j / n) - n * (i / n) = j - i)%nat as Hd by lia.
  rewrite <-Nat.mul_sub_distr_l in Hd.
  destruct (j / n - i / n)%nat as [|k]; [lia|]. rewrite Nat.mul_succ_r in Hd. nia.
Qed.

Lemma Push_window_rel n w l v : window_rel n w l →
  ∃ w', Push_window w v = Some w' ∧ window_rel n w' (l ++ [v]).
Proof.
  intros [Hn Hcap Hlen Hcount Hhead Hdata].
  assert (win_head w < n) as Hh by (rewrite Hhead; apply Nat.mod_upper_bound; lia).
  unfold Push_window. rewrite (proj2 (Nat.ltb_lt _ _)) by lia. eexists. split; [done|].
  split; simpl; rewrite ?length_app, ?length_insert; simpl; try done.
  - destruct (Nat.ltb_spec (win_count w) (win_cap w)); lia.
  - rewrite Hcap, Hhead. by rewrite Nat.Div0.add_mod_idemp_l.
  - intros i Hi. destruct (decide (i = length l)) as [->|Hne].
    + rewrite Hhead, list_lookup_insert_eq by lia. by rewrite lookup_app_r, Nat.sub_diag by lia.
    + rewrite Hhead, list_lookup_insert_ne by (apply not_eq_sym, mod_ne; lia).
      rewrite Hdata, lookup_app_l by lia. done.
Qed.

Lemma push_all_rel n w l1 l2 : window_rel n w l1 →
  ∃ w', push_all w l2 = Some w' ∧ window_rel n w' (l1 ++ l2).
Proof.
  revert w l1. induction l2 as [|v l2 IH]; intros w l1 Hw; [exists w; by rewrite app_nil_r|].
  destruct (Push_window_rel n w l1 v Hw) as (w1 & Hp & Hw1). simpl. rewrite Hp. simpl.
  destruct (IH w1 (l1 ++ [v]) Hw1) as (w2 & Hp2 & Hw2). exists w2. by rewrite <-app_assoc in Hw2.
Qed.

(** The loop of [Each] visits the tail of the history it starts in. *)
Lemma each_from_rel {S} n w l (fn : S → T → S) start i m s : window_rel n w l →
  (∀ k, k < n → (start + k) mod n = (length l - win_count w + k) mod n) →
  i + m = win_count w →
  each_from w fn start i m s = Some (foldl fn s (drop (length l - win_count w + i) l)).
Proof.
  intros Hw Hst. pose proof Hw as [Hn Hcap Hlen Hcount Hhead Hdata]. revert i s.
  induction m as [|m IH]; intros i s Hi; cbn [each_from].
  { rewrite drop_ge by lia. done. }
  rewrite Hcap, Hst by lia.
  destruct (lookup_lt_is_Some_2 l (length l - win_count w + i) ltac:(lia)) as [v Hv].
  rewrite Hdata, Hv by lia. simpl. rewrite IH by lia.
  rewrite (drop_S _ _ _ Hv), Nat.add_assoc, Nat.add_1_r. done.
Qed.

Lemma Each_window_rel {S} n w l (fn : S → T → S) s : window_rel n w l →
  Each_window w fn s = Some (foldl fn s (last_n n l)).
Proof.
  intros Hw. pose proof Hw as [Hn Hcap Hlen Hcount Hhead Hdata]. unfold Each_window, last_n.
  rewrite (each_from_rel n w l); [|done| |lia].
  - do 3 f_equal. lia.
  - intros k Hk. destruct (Nat.eqb_spec (win_count w) (win_cap w)) as [Hfull|Hpart].
    + rewrite Hhead, Nat.Div0.add_mod_idemp_l.
      replace (length l + k) with (length l - win_count w + k + 1 * n) by lia.
      by rewrite Nat.Div0.mod_add.
    + do 2 f_equal. lia.
Qed.

(** Folding [average_step] is a fold from the first value. *)
Lemma average_step_fold (add : T → T → T) x l :
  foldl (average_step add) (zero, true) (x :: l) = (foldl add x l, false).
Proof.
  simpl. revert x. induction l as [|y l IH]; intros x; [done|]. simpl. by rewrite IH.
Qed.
End reference.

(** The fold of [Average] as a function of the values. *)
Definition fold1 {T} (zero : T) (f : T → T → T) (l : list T) : T :=
  match l with [] => zero | x :: l => foldl f x l end.

(** The exponential moving average of some readings, oldest first. *)
Definition ema_of (l : list systemMetrics) : systemMetrics :=
  let alpha := f64_div (f64_of_Z 2) (f64_of_Z (Z.of_nat (length l) + 1)) in
  fold1 zero_metrics (λ ema next, combineMetrics ema next alpha) l.

Lemma last_n_length {T} n (l : list T) : length (last_n n l) = Nat.min n (length l).
Proof. unfold last_n. rewrite length_drop. lia. Qed.

Lemma Average_window_rel {T} (zero : T) n w l add divide : window_rel n w l →
  Average_window zero w add divide =
    Some (match last_n n l with [] => zero | _ => divide (fold1 zero add (last_n n l)) (length (last_n n l)) end).
Proof.
  intros Hw. unfold Average_window. rewrite (Each_window_rel n w l) by done.
  rewrite (wr_count _ _ _ Hw), <-last_n_length. destruct (last_n n l) as [|x k]; [done|].
  rewrite average_step_fold. done.
Qed.

Lemma CalculateSystemEMA_rel n m l : window_rel n (ms_window m) l →
  CalculateSystemEMA m = Some (ema_of (last_n n l)).
Proof.
  intros Hw. unfold CalculateSystemEMA, Count_window, ema_of. rewrite (Each_window_rel n _ l) by done.
  rewrite (wr_count _ _ _ Hw), <-last_n_length. destruct (last_n n l) as [|x k]; [done|].
  rewrite average_step_fold. done.
Qed.

(** Rounds of the sampler; a failed round has no reading. *)
Fixpoint sampler_rounds (m : metricsSampler) (samples : list (option systemMetrics)) : option metricsSampler :=
  match samples with [] => Some m | x :: l => m' ← sampler_round m x; sampler_rounds m' l end.

(** The window holds the readings and the last published value is their average. *)
Definition sampler_rel (m : metricsSampler) (l : list systemMetrics) : Prop :=
  window_rel 5 (ms_window m) l ∧ sampler_snapshot m = ema_of (last_n 5 l).

Lemma sampler_round_rel m l x : sampler_rel m l →
  ∃ m', sampler_round m x = Some m' ∧ sampler_rel m' (l ++ option_list x).
Proof.
  intros [Hw Hlast]. destruct x as [x|]; [|exists m; by rewrite app_nil_r].
  destruct (Push_window_rel 5 _ l x Hw) as (w & Hp & Hw'). cbn [sampler_round]. rewrite Hp. cbn [mbind option_bind].
  rewrite (CalculateSystemEMA_rel 5 _ (l ++ [x])) by done. eexists. split; [done|]. by split.
Qed.

Lemma sampler_rounds_rel m l samples : sampler_rel m l →
  ∃ m', sampler_rounds m samples = Some m' ∧ sampler_rel m' (l ++ omap id samples).
Proof.
  revert m l. induction samples as [|x samples IH]; intros m l Hm; [exists m; by rewrite app_nil_r|].
  destruct (sampler_round_rel m l x Hm) as (m1 & Hr & Hm1). cbn [sampler_rounds]. rewrite Hr.
  destruct (IH m1 _ Hm1) as (m2 & Hr2 & Hm2). exists m2. split; [done|].
  rewrite <-app_assoc in Hm2. destruct x; exact Hm2.
Qed.

(** A window of positive capacity never panics and behaves as the list of the last values
    pushed: iteration visits exactly those, oldest first, the count is their number, and the average
    is the fold of [add] over them, divided by their number. *)
Theorem window_is_last_values {T S} (zero : T) (n : nat) (l : list T) (fn : S → T → S) (s : S) add divide :
  0 < n →
  ∃ w0 w, New_window zero (Z.of_nat n) = Some w0 ∧ push_all w0 l = Some w ∧
    Each_window w fn s = Some (foldl fn s (last_n n l)) ∧
    Count_window w = length (last_n n l) ∧
    Average_window zero w add divide =
      Some (match last_n n l with [] => zero | _ => divide (fold1 zero add (last_n n l)) (length (last_n n l)) end).
Proof.
  intros Hn. destruct (New_window_rel zero n Hn) as (w0 & H0 & Hw0).
  destruct (push_all_rel n w0 [] l Hw0) as (w & Hp & Hw).
  exists w0, w. split_and!; [done|done|by apply Each_window_rel| |by apply Average_window_rel].
  unfold Count_window. by rewrite (wr_count _ _ _ Hw), last_n_length.
Qed.

Lemma window_is_last_values_witness :
  0 < 3 ∧ ∃ w0 w, New_window 0%Z 3 = Some w0 ∧ push_all w0 [1; 2; 3; 4; 6]%Z = Some w ∧
    Each_window w (λ acc v, acc ++ [v]) [] = Some [3; 4; 6]%Z ∧ Count_window w = 3 ∧
    Average_window 0%Z w Z.add (λ t c, t / Z.of_nat c)%Z = Some 4%Z.
Proof.
  split; [lia|].
  exact (window_is_last_values 0%Z 3 [1; 2; 3; 4; 6]%Z (λ acc v, acc ++ [v]) [] Z.add
           (λ t c, t / Z.of_nat c)%Z ltac:(lia)).
Defined.

(** After any sequence of rounds, some of which failed to take a reading, the published snapshot
    is the exponential moving average of the last five readings taken, and is the zero value before
    the first. *)
Theorem snapshot_is_moving_average (interval timeout : Duration) (samples : list (option systemMetrics)) :
  ∃ m0 m, newMetricsSampler interval timeout = Some m0 ∧ sampler_rounds m0 samples = Some m ∧
    sampler_snapshot m = ema_of (last_n 5 (omap id samples)).
Proof.
  destruct (New_window_rel zero_metrics 5 ltac:(lia)) as (w0 & H0 & Hw0).
  edestruct (sampler_rounds_rel (MkMetricsSampler w0 zero_metrics interval timeout) [] samples) as (m & Hr & _ & Hs).
  { by split. }
  eexists _, m. split_and!; [|exact Hr|exact Hs].
  unfold newMetricsSampler. change 5%Z with (Z.of_nat 5). by rewrite H0.
Qed.
