(* ===== verification/WorkerConn.v ===== *)
(** * One connected worker as the manager sees it (src/manager/worker_conn.go)

    The record has the source's fields; its mutexes make each method one atomic
    step.  [now] is the [time.Now()] reading of the call. *)
From S2P Require Import Prelude GoStd Contract External Cache.

Record WorkerConn (SS : Type) := MkWorkerConn {
  wc_workerID : string;
  wc_os : string;
  wc_arch : string;
  wc_capacity : Z;
  wc_connectedAt : Time;
  wc_conn : Conn;
  wc_state : WorkerState;
  wc_cpuPercent : option float64;
  wc_memPercent : option float64;
  wc_inFlight : SS;
  wc_occupiedCost : Z;
  wc_lastIdleAt : Time;
  wc_lastHeartbeat : Time;
  wc_lastIdleNotified : Time;
  wc_rejectedJobsCache : Cache unit;
}.
Arguments MkWorkerConn {SS} _ _ _ _ _ _ _ _ _ _ _ _ _ _ _.
Arguments wc_workerID {SS} _.
Arguments wc_os {SS} _.
Arguments wc_arch {SS} _.
Arguments wc_capacity {SS} _.
Arguments wc_connectedAt {SS} _.
Arguments wc_conn {SS} _.
Arguments wc_state {SS} _.
Arguments wc_cpuPercent {SS} _.
Arguments wc_memPercent {SS} _.
Arguments wc_inFlight {SS} _.
Arguments wc_occupiedCost {SS} _.
Arguments wc_lastIdleAt {SS} _.
Arguments wc_lastHeartbeat {SS} _.
Arguments wc_lastIdleNotified {SS} _.
Arguments wc_rejectedJobsCache {SS} _.

#[export] Instance WorkerConn_rebuild {SS} : Rebuild (WorkerConn SS) := λ w,
  MkWorkerConn (wc_workerID w) (wc_os w) (wc_arch w) (wc_capacity w) (wc_connectedAt w)
    (wc_conn w) (wc_state w) (wc_cpuPercent w) (wc_memPercent w) (wc_inFlight w)
    (wc_occupiedCost w) (wc_lastIdleAt w) (wc_lastHeartbeat w) (wc_lastIdleNotified w)
    (wc_rejectedJobsCache w).

Section worker_conn.
Context `{SimpleSet SS}.
Local Open Scope go_scope.
Implicit Types w : WorkerConn SS.

Definition NewWorkerConn (id os arch : string) (capacity : Z) (conn : Conn) (now : Time)
  : WorkerConn SS :=
  MkWorkerConn id os arch capacity now conn WorkerStateOnline None None ss_New 0 now now time_zero
    (NewCache [WithLRU true; WithTTL (60 * Second)%Z; WithCapacity 100]).

Definition State w : WorkerState := wc_state w.
Definition IsInState w (s : WorkerState) : bool := (wc_state w =? s)%Z.
Definition SetState w (s : WorkerState) : WorkerConn SS := w <| wc_state := s |>.
Definition Capacity w : Z := wc_capacity w.
Definition OverrideCapacity w (capacity : Z) : WorkerConn SS := w <| wc_capacity := capacity |>.
Definition AvailableCapacity w : Z := wc_capacity w -! wc_occupiedCost w.

Definition AssignTask w (taskID : string) (cost : Z) : res error (WorkerConn SS) :=
  let avail := wc_capacity w -! wc_occupiedCost w in
  if (avail <=? 0)%Z then Err ErrWorkerAtCapacity
  else if (avail -! cost <? 0)%Z then Err ErrWorkerInsufficientCapacity
  else Ok (w <| wc_inFlight := ss_Add taskID (wc_inFlight w) |>
             <| wc_occupiedCost := wc_occupiedCost w +! cost |>
             <| wc_lastIdleNotified := time_zero |>).

Definition CompleteTask w (taskID : string) (cost : Z) (now : Time) : WorkerConn SS :=
  let occupied := wc_occupiedCost w -! cost in
  w <| wc_inFlight := ss_Remove taskID (wc_inFlight w) |>
    <| wc_occupiedCost := (if (occupied <? 0)%Z then 0%Z else occupied) |>
    <| wc_lastIdleAt := now |>.

Definition UpdateHeartbeat w (now : Time) : WorkerConn SS := w <| wc_lastHeartbeat := now |>.
Definition LastHeartbeat w : Time := wc_lastHeartbeat w.
Definition HeartbeatTimedOut w (timeout : Duration) (now : Time) : bool :=
  (timeout <? time_Sub now (wc_lastHeartbeat w))%Z.
Definition UpdateLastIdleTime w (now : Time) : WorkerConn SS := w <| wc_lastIdleAt := now |>.
Definition LastIdleTime w : Time := wc_lastIdleAt w.
Definition IsIdle w : bool := bool_decide (ss_Size (wc_inFlight w) = 0).
Definition MarkIdleNotified w (now : Time) : WorkerConn SS := w <| wc_lastIdleNotified := now |>.
Definition LastIdleNotified w : Time := wc_lastIdleNotified w.
Definition IdleNotificationPending w : bool := IsZero (wc_lastIdleNotified w).
Definition ResetIdleNotified w : WorkerConn SS := w <| wc_lastIdleNotified := time_zero |>.

(** [Send] writes the line and a newline ([fmt.Fprintln]). *)
Definition newline : string := String (ascii_of_N 10) "".

Definition Send w (line : string) : WorkerConn SS * option error :=
  let '(c, err) := conn_Write (wc_conn w) (line +:+ newline) in (w <| wc_conn := c |>, err).

Definition SendWithPayload w (header payload : string) : WorkerConn SS * option error :=
  let '(c, err) := conn_Write (wc_conn w)
    (header +:+ " -- " +:+ Itoa (Z.of_nat (String.length payload)) +:+ newline) in
  match err with
  | Some e => (w <| wc_conn := c |>, Some e)
  | None => let '(c, err) := conn_Write c payload in (w <| wc_conn := c |>, err)
  end.

(** [strings.ReplaceAll(message, "'", "")]. *)
Fixpoint strip_quotes (s : string) : string :=
  match s with
  | EmptyString => EmptyString
  | String c s => if Ascii.eqb c (ascii_of_N 39) then strip_quotes s else String c (strip_quotes s)
  end.

Definition SendError w (code message : string) : WorkerConn SS :=
  (Send w ("error --code=" +:+ code +:+ " --message='" +:+ strip_quotes message +:+ "'")).1.

Definition inFlightIDs w : list string := ss_Snapshot (wc_inFlight w).
Definition IsInFlight w (taskID : string) : bool := ss_Has taskID (wc_inFlight w).

(** ** Capacity accounting: the connection implements a ledger of job costs *)

(** The ledger a connection stands for: one cost per in-flight job. *)
Record ledger_rel (l : gmap string Z) w : Prop := {
  lr_jobs : ss_view (wc_inFlight w) = dom l;
  lr_cost : wc_occupiedCost w = ledger_cost l;
  lr_nonneg : ∀ j c, l !! j = Some c → (0 ≤ c)%Z;
  lr_fits : (ledger_cost l ≤ wc_capacity w)%Z;
  lr_width : (0 ≤ wc_capacity w ≤ MaxInt64)%Z;
}.

Lemma ledger_available l w : ledger_rel l w →
  AvailableCapacity w = (wc_capacity w - ledger_cost l)%Z ∧ (0 ≤ AvailableCapacity w)%Z.
Proof.
  intros Hl. pose proof (ledger_cost_nonneg l (lr_nonneg _ _ Hl)).
  unfold AvailableCapacity. rewrite (lr_cost _ _ Hl).
  destruct Hl as [_ _ _ Hfit Hw]. rewrite wrap64_id; [lia|]. i64. lia.
Qed.

Lemma AssignTask_rel l w j cost : ledger_rel l w → l !! j = None → (0 ≤ cost ≤ MaxInt64)%Z →
  match AssignTask w j cost with
  | Ok w' => ledger_rel (<[j:=cost]> l) w' ∧ (cost ≤ AvailableCapacity w)%Z
  | Err ErrWorkerAtCapacity => AvailableCapacity w = 0%Z
  | Err ErrWorkerInsufficientCapacity => (AvailableCapacity w < cost)%Z
  | Err _ => False
  end.
Proof.
  intros Hl Hj Hc. destruct (ledger_available l w Hl) as [Hav Hav0].
  pose proof (ledger_cost_nonneg l (lr_nonneg _ _ Hl)).
  destruct (lr_width _ _ Hl).
  unfold AssignTask. fold (AvailableCapacity w).
  destruct (AvailableCapacity w <=? 0)%Z eqn:E1; zb; [lia|].
  rewrite (wrap64_id (AvailableCapacity w - cost)) by (i64; lia).
  destruct (AvailableCapacity w - cost <? 0)%Z eqn:E2; zb; [lia|].
  split; [|lia]. rewrite (lr_cost _ _ Hl). split; simpl.
  - rewrite ss_view_Add, (lr_jobs _ _ Hl), dom_insert_L. done.
  - rewrite ledger_cost_insert by done. rewrite wrap64_id; [lia|]. i64. lia.
  - intros k c' [[<- <-]|[_ Hk]]%lookup_insert_Some; [lia|]. by apply (lr_nonneg _ _ Hl k).
  - rewrite ledger_cost_insert by done. lia.
  - done.
Qed.

Lemma CompleteTask_rel l w j cost now : ledger_rel l w → l !! j = Some cost →
  ledger_rel (delete j l) (CompleteTask w j cost now) ∧
  AvailableCapacity (CompleteTask w j cost now) = (AvailableCapacity w + cost)%Z.
Proof.
  intros Hl Hj.
  pose proof (ledger_cost_delete l j cost Hj) as Hcost.
  assert (ledger_rel (delete j l) (CompleteTask w j cost now)) as Hl'.
  { assert (∀ k c, delete j l !! k = Some c → 0 ≤ c)%Z as Hnn.
    { intros k c [_ Hk]%lookup_delete_Some. by apply (lr_nonneg _ _ Hl k). }
    pose proof (ledger_cost_nonneg _ Hnn). pose proof (lr_nonneg _ _ Hl j cost Hj).
    destruct (lr_width _ _ Hl). pose proof (lr_fits _ _ Hl).
    unfold CompleteTask. rewrite (lr_cost _ _ Hl).
    rewrite wrap64_id by (i64; lia).
    rewrite (proj2 (Z.ltb_ge _ _)) by lia. split; simpl.
    - rewrite ss_view_Remove, (lr_jobs _ _ Hl), dom_delete_L. done.
    - lia.
    - done.
    - lia.
    - lia. }
  split; [done|].
  rewrite (proj1 (ledger_available _ _ Hl')), (proj1 (ledger_available _ _ Hl)). simpl. lia.
Qed.
End worker_conn.

(** ** Properties *)

(** C22: Capacity accounting is a ledger of job costs. While every in-flight job carries a
    non-negative cost, [AssignTask] either adds the job with its cost to the ledger, which
    happens only when the cost fits what is available, or leaves everything unchanged and
    reports exactly why; the occupied cost is always the sum of the in-flight costs, fits the
    declared capacity, and completing a job returns precisely its cost. *)
Theorem capacity_ledger `{SimpleSet SS} (l : gmap string Z) (w : WorkerConn SS)
    (j : string) (cost : Z) (now : Time) :
  ledger_rel l w → (0 ≤ cost ≤ MaxInt64)%Z →
  AvailableCapacity w = (wc_capacity w - ledger_cost l)%Z ∧ (0 ≤ AvailableCapacity w)%Z ∧
  (l !! j = None →
    match AssignTask w j cost with
    | Ok w' => ledger_rel (<[j:=cost]> l) w' ∧ (cost ≤ AvailableCapacity w)%Z
    | Err ErrWorkerAtCapacity => AvailableCapacity w = 0%Z
    | Err ErrWorkerInsufficientCapacity => (AvailableCapacity w < cost)%Z
    | Err _ => False
    end) ∧
  (l !! j = Some cost →
    ledger_rel (delete j l) (CompleteTask w j cost now) ∧
    AvailableCapacity (CompleteTask w j cost now) = (AvailableCapacity w + cost)%Z).
Proof.
  intros Hl Hc. destruct (ledger_available l w Hl). split_and!; [done|done|..].
  - intros Hj. by apply AssignTask_rel.
  - intros Hj. by apply CompleteTask_rel.
Qed.

Definition sample_conn : Conn := MkConn "10.0.0.1:5000" false false [].

Definition sample_worker : WorkerConn (gset string) :=
  NewWorkerConn (H := gset_simple_set) "w1" "linux" "amd64" 4 sample_conn 0.

Lemma sample_worker_ledger : ledger_rel (H := gset_simple_set) ∅ sample_worker.
Proof. split; done. Qed.

Lemma capacity_ledger_witness :
  AvailableCapacity sample_worker = 4%Z ∧
  match AssignTask (H := gset_simple_set) sample_worker "j1" 3 with
  | Ok w' => AvailableCapacity w' = 1%Z
  | Err _ => False
  end.
Proof.
  destruct (capacity_ledger (H := gset_simple_set) ∅ sample_worker "j1" 3 0
    sample_worker_ledger ltac:(vm_compute; split; congruence)) as (Hav & _ & _ & _).
  split; [rewrite Hav; reflexivity|vm_compute; reflexivity].
Defined.
