(* ===== verification/WorkerPool.v ===== *)
(** * The worker pool (src/manager/worker_pool.go, worker_selector.go)

    [WorkerConn]s are heap objects shared by the [workers] map, the [platform]
    index and the handler goroutine of each connection: the pool keeps them in
    a store of addresses, and pointer equality is equality of addresses.
    The pool's mutex and the per-worker lanes make each operation one step.  A
    call of the [onJobsRequeued] callback is the list of job ids it is given. *)
From S2P Require Import Prelude GoStd Contract External Cache WorkerConn.

Record WorkerPool (SS : Type) := MkWorkerPool {
  wp_workers : gmap string nat;
  wp_platform : gmap string (list nat);
  wp_conns : gmap nat (WorkerConn SS);
  wp_next : nat;
  wp_dispatchSignal : SigChan;
  wp_scaleDownCooldowns : gmap string Time;
}.
Arguments MkWorkerPool {SS} _ _ _ _ _ _.
Arguments wp_workers {SS} _.
Arguments wp_platform {SS} _.
Arguments wp_conns {SS} _.
Arguments wp_next {SS} _.
Arguments wp_dispatchSignal {SS} _.
Arguments wp_scaleDownCooldowns {SS} _.

#[export] Instance WorkerPool_rebuild {SS} : Rebuild (WorkerPool SS) := λ p,
  MkWorkerPool (wp_workers p) (wp_platform p) (wp_conns p) (wp_next p)
    (wp_dispatchSignal p) (wp_scaleDownCooldowns p).

Definition platformKey (os arch : string) : string := os +:+ "/" +:+ arch.

(** [append(list[:i], list[i+1:]...)] at the first [i] holding [a]. *)
Fixpoint remove_conn (a : nat) (l : list nat) : list nat :=
  match l with
  | [] => []
  | b :: l => if decide (b = a) then l else b :: remove_conn a l
  end.

(** The event handed to [Config.OnIdleWorker] (resource_management.go); its three callbacks
    are the manager operations [DrainWorker], [DrainWorkerAndWait] and [DisconnectWorker]
    applied to [iwe_WorkerID]. *)
Record IdleWorkerEvent := MkIdleWorkerEvent {
  iwe_WorkerID : string;
  iwe_IdleDuration : Duration;
  iwe_OS : string;
  iwe_Arch : string;
  iwe_RemoteAddr : string;
  iwe_Capacity : Z;
  iwe_ConnectedWorkers : Z;
  iwe_PendingWorkExists : bool;
}.

Section pool.
Context `{SimpleSet SS} `{GoRuntime} `{Ulid} `{SerialLanes}.
Local Open Scope go_scope.
Implicit Types (p : WorkerPool SS) (w : WorkerConn SS).

Definition NewWorkerPool (signal : SigChan) : WorkerPool SS := MkWorkerPool ∅ ∅ ∅ 0 signal ∅.

Definition on_conn p (a : nat) (f : WorkerConn SS → WorkerConn SS) : WorkerPool SS :=
  p <| wp_conns := alter f a (wp_conns p) |>.

Definition conn_key w : string := platformKey (wc_os w) (wc_arch w).

(** ** Registration *)
Definition removeConnLocked p (a : nat) w : WorkerPool SS :=
  p <| wp_workers := delete (wc_workerID w) (wp_workers p) |>
    <| wp_platform :=
        let l := default [] (wp_platform p !! conn_key w) in
        if decide (a ∈ l) then <[conn_key w := remove_conn a l]> (wp_platform p)
        else wp_platform p |>.

(** [register] of the connection at [a]; the ids are those of the replaced worker, which a
    new goroutine re-queues. *)
Definition register p (a : nat) w : WorkerPool SS * list string :=
  let '(p, requeued) :=
    match wp_workers p !! wc_workerID w with
    | Some o =>
        match wp_conns p !! o with
        | Some old =>
            (on_conn (removeConnLocked p o old) o
               (λ old, old <| wc_conn := (conn_Close (wc_conn old)).1 |>), inFlightIDs old)
        | None => (p, [])
        end
    | None => (p, [])
    end in
  (p <| wp_workers := <[wc_workerID w := a]> (wp_workers p) |>
     <| wp_platform := <[conn_key w := default [] (wp_platform p !! conn_key w) ++ [a]]>
                         (wp_platform p) |>, requeued).

Definition unregister p (a : nat) : WorkerPool SS * list string :=
  match wp_conns p !! a with
  | Some w => (removeConnLocked p a w, inFlightIDs w)
  | None => (p, [])
  end.

(** [NewWorkerConnection]; [n] indexes the identifier [ulid.Make] returns if it is called. *)
Definition NewWorkerConnection p (id os arch : string) (capacity : Z) (conn : Conn)
    (n : nat) (now : Time) : res error (nat * WorkerPool SS * list string) :=
  if bool_decide (os = "") then Err ErrMissingWorkerOS
  else if bool_decide (arch = "") then Err ErrMissingWorkerArch
  else if (capacity <? 1)%Z then Err ErrCapacityZero
  else
    let id := if bool_decide (id = "")
              then "worker-" +:+ os +:+ "_" +:+ arch +:+ "-" +:+ ulid n else id in
    let wc := NewWorkerConn id os arch capacity conn now in
    let a := wp_next p in
    let p := p <| wp_conns := <[a := wc]> (wp_conns p) |> <| wp_next := S a |> in
    let '(p, requeued) := register p a wc in
    Ok (a, p, requeued).

(** ** Queries *)
Definition GetWorker p (id : string) : option nat := wp_workers p !! id.

Definition allWorkers p : list nat := range_values (wp_workers p).

Definition pool_Size p : nat := size (wp_workers p).

Definition has_job p (jobID : string) (a : nat) : bool :=
  match wp_conns p !! a with Some w => IsInFlight w jobID | None => false end.

Definition FindWorkerByInFlightJobID p (jobID : string) : option nat :=
  list_find (λ a, has_job p jobID a = true) (allWorkers p) ≫= λ '(_, a), Some a.

Definition totalCapacity p : Z :=
  foldl (λ total a, match wp_conns p !! a with
                    | Some w => total +! Capacity w
                    | None => total
                    end) 0%Z (allWorkers p).

Definition is_online p (a : nat) : bool :=
  match wp_conns p !! a with Some w => IsInState w WorkerStateOnline | None => false end.

Definition onlinePlatformKeys p : gset string :=
  foldl (λ out '(key, workers), if existsb (is_online p) workers then {[key]} ∪ out else out)
    ∅ (range_map (wp_platform p)).

(** ** Eligibility: the body of both loops of [eligibleWorkers] *)
Definition consider (cost : Z) (jobID : string) (now : Time)
    (st : WorkerPool SS * list nat) (a : nat) : WorkerPool SS * list nat :=
  let '(p, out) := st in
  match wp_conns p !! a with
  | None => (p, out)
  | Some w =>
      if negb (IsInState w WorkerStateOnline) then (p, out)
      else
        let '(alreadyRejected, w) :=
          if bool_decide (jobID = "") then (false, w)
          else let '(v, c) := Get (wc_rejectedJobsCache w) jobID now in
               (bool_decide (is_Some v), w <| wc_rejectedJobsCache := c |>) in
        let p := p <| wp_conns := <[a := w]> (wp_conns p) |> in
        if alreadyRejected then (p, out)
        else if (cost =? 0)%Z || (cost <=? AvailableCapacity w)%Z then (p, out ++ [a])
        else (p, out)
  end.

Definition eligibleWorkers p (platforms : list string) (cost : Z) (jobID : string) (now : Time)
  : WorkerPool SS * list nat :=
  if (cost <? 0)%Z then (p, [])
  else match platforms with
  | [] => foldl (consider cost jobID now) (p, []) (allWorkers p)
  | _ =>
      foldl (λ st key, foldl (consider cost jobID now) st (default [] (wp_platform st.1 !! key)))
        (p, []) platforms
  end.

(** ** Capacity *)
Definition pool_notifyDispatcher p : WorkerPool SS :=
  p <| wp_dispatchSignal := try_send (wp_dispatchSignal p) |>.

Definition lane_of w : string := "worker" +:+ ":" +:+ wc_workerID w.

Definition subtractCapacity p (a : nat) (taskID : string) (cost : Z) (now : Time)
  : WorkerPool SS * option error :=
  match wp_conns p !! a with
  | None => (p, None)
  | Some w =>
      lane_Do (lane_of w) (λ p,
        match AssignTask w taskID cost with
        | Err e => (p, Some e)
        | Ok w => (p <| wp_conns := <[a := UpdateHeartbeat w now]> (wp_conns p) |>, None)
        end) p
  end.

Definition restoreCapacity p (a : nat) (taskID : string) (cost : Z) (now : Time)
  : WorkerPool SS * option error :=
  match wp_conns p !! a with
  | None => (p, None)
  | Some w =>
      lane_Do (lane_of w) (λ p,
        let w := UpdateLastIdleTime (CompleteTask w taskID cost now) now in
        (pool_notifyDispatcher (p <| wp_conns := <[a := w]> (wp_conns p) |>), None)) p
  end.

Definition overrideCapacity p (workerID : string) (capacity : Z) (now : Time)
  : WorkerPool SS * option error :=
  match wp_workers p !! workerID ≫= λ a, (a,.) <$> wp_conns p !! a with
  | None => (p, Some (ErrMsg ("unknown workerID: " +:+ workerID)))
  | Some (a, w) =>
      lane_Do (lane_of w) (λ p,
        let w := OverrideCapacity (UpdateLastIdleTime w now) capacity in
        (pool_notifyDispatcher (p <| wp_conns := <[a := w]> (wp_conns p) |>), None)) p
  end.

(** ** Monitoring *)

(** [checkHeartbeats]: the stale workers are collected under the lock, then closed and
    unregistered one by one; the first connection that cannot be closed ends the sweep. *)
Fixpoint close_stale p (stale : list nat) : WorkerPool SS * list (list string) * option error :=
  match stale with
  | [] => (p, [], None)
  | a :: stale =>
      match wp_conns p !! a with
      | None => close_stale p stale
      | Some w =>
          let '(c, err) := conn_Close (wc_conn w) in
          let p := on_conn p a (λ w, w <| wc_conn := c |>) in
          match err with
          | Some e => (p, [], Some e)
          | None =>
              let '(p, ids) := unregister p a in
              let '(p, calls, err) := close_stale p stale in
              (p, ids :: calls, err)
          end
      end
  end.

Definition timed_out p (timeout : Duration) (now : Time) (a : nat) : bool :=
  match wp_conns p !! a with Some w => HeartbeatTimedOut w timeout now | None => false end.

Definition checkHeartbeats p (timeout : Duration) (now : Time)
  : WorkerPool SS * list (list string) * option error :=
  close_stale p (filter (λ a, timed_out p timeout now a = true) (allWorkers p)).

(** One worker of the stale-worker sweep: the event it emits, if any. *)
Definition stale_worker_step (idleThreshold scaleDownCooldown : Duration)
    (hasPendingForPlatform : option (string → string → bool)) (connected : nat) (now : Time)
    p (a : nat) : WorkerPool SS * option IdleWorkerEvent :=
  match wp_conns p !! a with
  | None => (p, None)
  | Some w =>
      if (AvailableCapacity w <? wc_capacity w)%Z || negb (IsInState w WorkerStateOnline)
      then (p, None)
      else if (time_Sub now (LastIdleTime w) <? idleThreshold)%Z then (p, None)
      else if After (wc_lastIdleNotified w) (LastIdleTime w) then (p, None)
      else if match wp_scaleDownCooldowns p !! wc_workerID w with
              | Some last => (time_Sub now last <? scaleDownCooldown)%Z
              | None => false
              end then (p, None)
      else
        let p := p <| wp_scaleDownCooldowns := <[wc_workerID w := now]> (wp_scaleDownCooldowns p) |>
                   <| wp_conns := <[a := MarkIdleNotified w now]> (wp_conns p) |> in
        let pending := match hasPendingForPlatform with
                       | Some f => f (wc_os w) (wc_arch w)
                       | None => false
                       end in
        (p, Some (MkIdleWorkerEvent (wc_workerID w) (time_Sub now (LastIdleTime w)) (wc_os w)
               (wc_arch w) (conn_remote (wc_conn w)) (wc_capacity w) (Z.of_nat connected) pending))
  end.

(** One turn of [StaleWorkerMonitoringService]: the events given to [onIdle], in order, or
    the error that stops the service when it is not configured. *)
Definition StaleWorkerMonitoring (onIdle : bool) (idleThreshold scaleDownCooldown : Duration)
    (hasPendingForPlatform : option (string → string → bool)) p (now : Time)
  : WorkerPool SS * res error (list IdleWorkerEvent) :=
  if negb onIdle || (idleThreshold <=? 0)%Z
  then (p, Err (ErrMsg "No onIdle callback or idleThreshold set"))
  else
    let workers := allWorkers p in
    let '(p, events) :=
      foldl (λ '(p, events) a,
        let '(p, e) := stale_worker_step idleThreshold scaleDownCooldown hasPendingForPlatform
                         (length workers) now p a in
        (p, events ++ option_list e)) (p, []) workers in
    (p, Ok events).

(** [waitForWorkerDisconnect]: one poll of the retry loop, [true] when it stops waiting. *)
Definition waitForWorkerDisconnect_poll p (workerID : string) : bool :=
  negb (bool_decide (is_Some (wp_workers p !! workerID))).

(** ** Worker selection (worker_selector.go); [None] is the index-out-of-range panic *)
Definition better p (w best : nat) : bool :=
  match wp_conns p !! w, wp_conns p !! best with
  | Some cw, Some cb =>
      let wCap := AvailableCapacity cw in
      let bestCap := AvailableCapacity cb in
      if (bestCap <? wCap)%Z then true
      else if (wCap =? bestCap)%Z then Before (LastIdleTime cw) (LastIdleTime cb)
      else false
  | _, _ => false
  end.

Definition LeastLoaded_Select p (workers : list nat) : option nat :=
  match workers with
  | [] => None
  | best :: rest => Some (foldl (λ best (a : nat), if better p a best then a else best) best rest)
  end.

(** ** Eligibility against its specification *)
Definition candidates p (platforms : list string) : list nat :=
  match platforms with
  | [] => allWorkers p
  | _ => platforms ≫= λ key, default [] (wp_platform p !! key)
  end.

(** What makes the connection at [a] eligible, read off one state of the pool. *)
Definition eligible p (cost : Z) (jobID : string) (now : Time) (a : nat) : bool :=
  match wp_conns p !! a with
  | None => false
  | Some w =>
      IsInState w WorkerStateOnline
      && (bool_decide (jobID = "")
          || bool_decide ((Get (wc_rejectedJobsCache w) jobID now).1 = None))
      && ((cost =? 0)%Z || (cost <=? AvailableCapacity w)%Z)
  end.

(** Two connections that differ at most in how their rejection cache is laid out. *)
Definition conn_like w w' : Prop :=
  w' = w <| wc_rejectedJobsCache := wc_rejectedJobsCache w' |> ∧
  ∀ k t, (Get (wc_rejectedJobsCache w') k t).1 = (Get (wc_rejectedJobsCache w) k t).1.

Record pool_like p p' : Prop := {
  pl_workers : wp_workers p' = wp_workers p;
  pl_platform : wp_platform p' = wp_platform p;
  pl_next : wp_next p' = wp_next p;
  pl_signal : wp_dispatchSignal p' = wp_dispatchSignal p;
  pl_cooldowns : wp_scaleDownCooldowns p' = wp_scaleDownCooldowns p;
  pl_conns : ∀ a, option_Forall2 conn_like (wp_conns p !! a) (wp_conns p' !! a);
}.

#[global] Instance conn_like_preorder : PreOrder conn_like.
Proof.
  split.
  - intros w. split; [by destruct w|done].
  - intros w1 w2 w3 [E1 G1] [E2 G2]. split; [|by intros; rewrite G2].
    rewrite E2 at 1. rewrite E1 at 1. by destruct w1, w3.
Qed.

#[global] Instance pool_like_preorder : PreOrder pool_like.
Proof.
  split; [split; try done; intros a; reflexivity|].
  intros p1 p2 p3 H12 H23. destruct H12, H23. split; try congruence.
  intros a. by transitivity (wp_conns p2 !! a).
Qed.

Lemma eligible_like p p' cost jobID now a :
  pool_like p p' → eligible p' cost jobID now a = eligible p cost jobID now a.
Proof.
  intros Hl. unfold eligible. pose proof (pl_conns _ _ Hl a) as Ha.
  inversion Ha as [w w' [E Hget] E1 E2|]; [|done].
  rewrite <- E1, <- E2 in *. rewrite Hget. rewrite E. by destruct w.
Qed.

(** One iteration keeps the pool up to rejection caches and appends exactly the eligible. *)
Lemma consider_spec cost jobID now p out a :
  pool_like p (consider cost jobID now (p, out) a).1 ∧
  (consider cost jobID now (p, out) a).2 =
    out ++ (if eligible p cost jobID now a then [a] else []).
Proof.
  unfold consider, eligible. destruct (wp_conns p !! a) as [w|] eqn:Ha; [|by rewrite app_nil_r].
  destruct (IsInState w WorkerStateOnline); simpl; [|by rewrite app_nil_r].
  assert (∀ w', conn_like w w' → pool_like p (p <| wp_conns := <[a:=w']> (wp_conns p) |>)) as Hlike.
  { intros w' Hw. split; try done. intros b. simpl. destruct (decide (b = a)) as [->|].
    - rewrite lookup_insert_eq, Ha. by constructor.
    - by rewrite lookup_insert_ne by done. }
  case_bool_decide; simpl.
  { pose proof (Hlike w (reflexivity _)). destruct (_ || _); by rewrite ?app_nil_r. }
  destruct (Get (wc_rejectedJobsCache w) jobID now) as [v c] eqn:HG.
  assert (conn_like w (w <| wc_rejectedJobsCache := c |>)) as Hw.
  { split; [by destruct w|]. intros k t. simpl. replace c with (Get (wc_rejectedJobsCache w) jobID now).2
      by by rewrite HG. apply Get_Get. }
  pose proof (Hlike _ Hw). destruct v; simpl.
  - by rewrite app_nil_r.
  - replace (AvailableCapacity (w <| wc_rejectedJobsCache := c |>)) with (AvailableCapacity w) by done.
    destruct (_ || _); by rewrite ?app_nil_r.
Qed.

Lemma consider_fold cost jobID now p out l :
  pool_like p (foldl (consider cost jobID now) (p, out) l).1 ∧
  (foldl (consider cost jobID now) (p, out) l).2 =
    out ++ filter (λ a, eligible p cost jobID now a = true) l.
Proof.
  revert p out. induction l as [|a l IH]; intros p out; [by rewrite app_nil_r|].
  cbn [foldl]. destruct (consider_spec cost jobID now p out a) as [Hlike Hout].
  destruct (consider cost jobID now (p, out) a) as [p1 out1]. simpl in *.
  destruct (IH p1 out1) as [Hlike1 Hout1]. split; [by etrans|].
  rewrite Hout1, Hout, <- app_assoc. f_equal. rewrite filter_cons.
  replace (filter (λ a0, eligible p1 cost jobID now a0 = true) l)
    with (filter (λ a0, eligible p cost jobID now a0 = true) l).
  - destruct (eligible p cost jobID now a); by case_decide.
  - apply list_filter_iff. intros b. by rewrite (eligible_like _ _ _ _ _ _ Hlike).
Qed.

Lemma eligibleWorkers_spec p platforms cost jobID now : (0 ≤ cost)%Z →
  pool_like p (eligibleWorkers p platforms cost jobID now).1 ∧
  (eligibleWorkers p platforms cost jobID now).2 =
    filter (λ a, eligible p cost jobID now a = true) (candidates p platforms).
Proof.
  intros Hc. unfold eligibleWorkers. rewrite (proj2 (Z.ltb_ge _ _)) by done.
  destruct platforms as [|k ks]; [by apply consider_fold|].
  unfold candidates. generalize (k :: ks) as keys. clear k ks. intros keys.
  enough (∀ p0 out, pool_like p p0 →
    let r := foldl (λ st key, foldl (consider cost jobID now) st (default [] (wp_platform st.1 !! key)))
               (p0, out) keys in
    pool_like p r.1 ∧ r.2 = out ++ filter (λ a, eligible p cost jobID now a = true)
      (keys ≫= λ key, default [] (wp_platform p !! key))) as Hgen.
  { exact (Hgen p [] (reflexivity _)). }
  induction keys as [|key keys IH]; intros p0 out Hp; simpl; [by rewrite app_nil_r|].
  destruct (consider_fold cost jobID now p0 out (default [] (wp_platform p0 !! key))) as [Hl Ho].
  destruct (foldl _ _ _) as [p1 out1]. simpl in *.
  destruct (IH p1 out1 ltac:(by etrans)) as [Hl1 Ho1]. split; [done|].
  rewrite Ho1, Ho, filter_app, app_assoc, (pl_platform _ _ Hp). do 2 f_equal.
  apply list_filter_iff. intros b. by rewrite (eligible_like _ _ _ _ _ _ Hp).
Qed.

(** ** Registration keeps the id map and the platform index in step

    A registered connection is listed under its platform, once, and what is listed is a connection of that platform.
    That every listed connection is the one its id resolves to holds as long as only registered connections leave
    ([exact]); the end of a replaced connection breaks it. *)
Record pool_inv (exact : Prop) p : Prop := {
  ps_conn : ∀ id a, wp_workers p !! id = Some a →
    ∃ w, wp_conns p !! a = Some w ∧ wc_workerID w = id;
  ps_nodup : ∀ key l, wp_platform p !! key = Some l → NoDup l;
  ps_listed : ∀ id a w, wp_workers p !! id = Some a → wp_conns p !! a = Some w →
    a ∈ default [] (wp_platform p !! conn_key w);
  ps_known : ∀ key a, a ∈ default [] (wp_platform p !! key) → ∃ w, wp_conns p !! a = Some w ∧ conn_key w = key;
  ps_exact : exact → ∀ key a w, a ∈ default [] (wp_platform p !! key) → wp_conns p !! a = Some w →
    wp_workers p !! wc_workerID w = Some a;
  ps_fresh : ∀ a, is_Some (wp_conns p !! a) → a < wp_next p;
}.
#[local] Arguments ps_conn {_} _ _.
#[local] Arguments ps_nodup {_} _ _.
#[local] Arguments ps_listed {_} _ _.
#[local] Arguments ps_known {_} _ _.
#[local] Arguments ps_exact {_} _ _.
#[local] Arguments ps_fresh {_} _ _.

Context {exact : Prop}.

Lemma ps_index p key a : pool_inv True p → a ∈ default [] (wp_platform p !! key) ↔
  ∃ w, wp_conns p !! a = Some w ∧ conn_key w = key ∧ wp_workers p !! wc_workerID w = Some a.
Proof.
  intros Hs. split.
  - intros Ha. destruct (ps_known _ Hs key a Ha) as (w & Hw & Hk). exists w. split_and!; [done|done|]. by eapply (ps_exact _ Hs).
  - intros (w & Hw & <- & Hid). by eapply (ps_listed _ Hs).
Qed.

Lemma pool_of_index p : (∀ id a, wp_workers p !! id = Some a → ∃ w, wp_conns p !! a = Some w ∧ wc_workerID w = id) →
  (∀ key l, wp_platform p !! key = Some l → NoDup l) →
  (∀ key a, a ∈ default [] (wp_platform p !! key) ↔
    ∃ w, wp_conns p !! a = Some w ∧ conn_key w = key ∧ wp_workers p !! wc_workerID w = Some a) →
  (∀ a, is_Some (wp_conns p !! a) → a < wp_next p) → pool_inv exact p.
Proof.
  intros Hc Hn Hi Hf. split; try done.
  - intros id a w Ha Hw. apply Hi. exists w. destruct (Hc id a Ha) as (w' & Hw' & <-). by simplify_eq.
  - intros key a (w & Hw & Hk & _)%Hi. by exists w.
  - intros _ key a w (w' & Hw' & _ & Hid)%Hi Hw. by simplify_eq.
Qed.

(** Updates of connections that keep who they are keep the pool in step. *)
Definition same_identity w w' : Prop :=
  wc_workerID w' = wc_workerID w ∧ wc_os w' = wc_os w ∧ wc_arch w' = wc_arch w.

Lemma pool_synced_conns p p' : pool_inv exact p →
  wp_workers p' = wp_workers p → wp_platform p' = wp_platform p → wp_next p' = wp_next p →
  (∀ a, option_Forall2 same_identity (wp_conns p !! a) (wp_conns p' !! a)) →
  pool_inv exact p'.
Proof.
  intros Hs Hw Hp Hn Hc.
  assert (∀ a w', wp_conns p' !! a = Some w' → ∃ w, wp_conns p !! a = Some w ∧ same_identity w w').
  { intros a w' E. specialize (Hc a). rewrite E in Hc. inversion Hc; subst; eauto. }
  assert (∀ a w, wp_conns p !! a = Some w → ∃ w', wp_conns p' !! a = Some w' ∧ same_identity w w').
  { intros a w E. specialize (Hc a). rewrite E in Hc. inversion Hc; subst; eauto. }
  split; rewrite ?Hw, ?Hp, ?Hn.
  - intros id a E. destruct (ps_conn _ Hs id a E) as (w & Ew & <-).
    edestruct H4 as (w' & ? & Hid & _); eauto.
  - apply (ps_nodup _ Hs).
  - intros id a w' E Ew. destruct (H3 a w' Ew) as (w & Ew0 & E1 & E2 & E3). pose proof (ps_listed _ Hs id a w E Ew0) as Hl.
    unfold conn_key in *. by rewrite E2, E3.
  - intros key a Hin. destruct (ps_known _ Hs key a Hin) as (w & Ew & <-). destruct (H4 a w Ew) as (w' & ? & E1 & E2 & E3).
    exists w'. unfold conn_key. by rewrite E2, E3.
  - intros He key a w' Hin Ew. destruct (H3 a w' Ew) as (w & Ew0 & E1 & _). rewrite E1. by eapply (ps_exact _ Hs).
  - intros a [w' Ew]. destruct (H3 a w' Ew) as (w & ? & _). by apply (ps_fresh _ Hs).
Qed.

Lemma insert_same_identity p a w w' : wp_conns p !! a = Some w → same_identity w w' →
  ∀ b, option_Forall2 same_identity (wp_conns p !! b) (<[a := w']> (wp_conns p) !! b).
Proof.
  intros Ha Hw b. destruct (decide (b = a)) as [->|].
  - rewrite lookup_insert_eq, Ha. by constructor.
  - rewrite lookup_insert_ne by done. destruct (wp_conns p !! b); by repeat constructor.
Qed.

Lemma remove_conn_elem a b l : NoDup l → b ∈ remove_conn a l ↔ b ∈ l ∧ b ≠ a.
Proof.
  induction l as [|c l IH]; simpl; intros Hl; [set_solver|].
  apply NoDup_cons in Hl as [Hc Hl]. case_decide; subst; [set_solver|].
  rewrite !elem_of_cons, IH by done. naive_solver.
Qed.

Lemma remove_conn_NoDup a l : NoDup l → NoDup (remove_conn a l).
Proof.
  induction l as [|c l IH]; simpl; intros Hl; [done|].
  apply NoDup_cons in Hl as [Hc Hl]. case_decide; [done|].
  apply NoDup_cons. rewrite remove_conn_elem by done. naive_solver.
Qed.

Lemma removeConnLocked_platform p a w key b :
  (∀ key l, wp_platform p !! key = Some l → NoDup l) →
  b ∈ default [] (wp_platform (removeConnLocked p a w) !! key) ↔
  b ∈ default [] (wp_platform p !! key) ∧ (key = conn_key w → b ≠ a).
Proof.
  intros Hnd. simpl. case_decide as Hin.
  - destruct (decide (key = conn_key w)) as [->|Hk].
    + rewrite lookup_insert_eq. simpl. rewrite remove_conn_elem; [naive_solver|].
      destruct (wp_platform p !! conn_key w) eqn:E; [by eapply Hnd|constructor].
    + rewrite lookup_insert_ne by done. naive_solver.
  - split; [|naive_solver]. intros Hb. split; [done|]. intros -> ->. done.
Qed.

Lemma removeConnLocked_keeps p a w key b : a ≠ b →
  b ∈ default [] (wp_platform p !! key) →
  b ∈ default [] (wp_platform (removeConnLocked p a w) !! key).
Proof.
  intros Hne Hb. simpl. case_decide; [|done].
  destruct (decide (key = conn_key w)) as [->|]; [|by rewrite lookup_insert_ne].
  rewrite lookup_insert_eq. simpl. revert Hb. generalize (default [] (wp_platform p !! conn_key w)).
  intros l. induction l as [|c l IH]; simpl; [done|]. case_decide; set_solver.
Qed.

Lemma removeConnLocked_nodup p a w :
  (∀ key l, wp_platform p !! key = Some l → NoDup l) →
  ∀ key l, wp_platform (removeConnLocked p a w) !! key = Some l → NoDup l.
Proof.
  intros Hnd key l. simpl. case_decide; [|apply Hnd].
  intros [[<- <-]|[_ Hl]]%lookup_insert_Some; [|by eapply Hnd]. apply remove_conn_NoDup.
  destruct (wp_platform p !! conn_key w) eqn:E; [by eapply Hnd|constructor].
Qed.

Lemma removeConnLocked_synced p a w : pool_inv exact p → wp_conns p !! a = Some w →
  (exact → wp_workers p !! wc_workerID w = Some a) → pool_inv exact (removeConnLocked p a w).
Proof.
  intros Hs Ha Hid. pose proof (λ key b, removeConnLocked_platform p a w key b (ps_nodup _ Hs)) as Hpl. split.
  - simpl. intros id b [_ Hb]%lookup_delete_Some. by apply (ps_conn _ Hs).
  - apply removeConnLocked_nodup, (ps_nodup _ Hs).
  - intros id b w' Hb Hw'. apply Hpl. simpl in Hb. apply lookup_delete_Some in Hb as [Hne Hb].
    split; [by eapply (ps_listed _ Hs)|]. intros _ ->. destruct (ps_conn _ Hs id a Hb) as (w2 & ? & <-). by simplify_eq/=.
  - intros key b [Hb _]%Hpl. by apply (ps_known _ Hs).
  - intros He key b w' [Hb Hne]%Hpl Hw'. simpl. pose proof (ps_exact _ Hs He key b w' Hb Hw') as Hreg.
    apply lookup_delete_Some. split; [|done]. intros E. rewrite <- E, (Hid He) in Hreg. simplify_eq/=.
    destruct (ps_known _ Hs key b Hb) as (w2 & ? & <-). simplify_eq/=. by apply Hne.
  - apply (ps_fresh _ Hs).
Qed.

(** Adding a connection whose id is free. *)
Lemma add_conn_synced p a w : pool_inv exact p → wp_conns p !! a = Some w →
  wp_workers p !! wc_workerID w = None → (∀ key, a ∉ default [] (wp_platform p !! key)) →
  pool_inv exact (p <| wp_workers := <[wc_workerID w := a]> (wp_workers p) |>
     <| wp_platform := <[conn_key w := default [] (wp_platform p !! conn_key w) ++ [a]]>
                         (wp_platform p) |>).
Proof.
  intros Hs Ha Hid Hnot.
  assert (∀ key b, b ∈ default [] (<[conn_key w := default [] (wp_platform p !! conn_key w) ++ [a]]> (wp_platform p) !! key) ↔
    b ∈ default [] (wp_platform p !! key) ∨ (b = a ∧ key = conn_key w)) as Hpl.
  { intros key b. destruct (decide (key = conn_key w)) as [->|].
    - rewrite lookup_insert_eq. set_solver.
    - rewrite lookup_insert_ne by done. naive_solver. }
  split; simpl.
  - intros id b [[<- <-]|[_ Hb]]%lookup_insert_Some; [by eauto|by apply (ps_conn _ Hs)].
  - intros key l [[<- <-]|[_ Hl]]%lookup_insert_Some; [|by eapply (ps_nodup _ Hs)].
    apply NoDup_app. split_and!; [|set_solver|apply NoDup_singleton].
    destruct (wp_platform p !! conn_key w) eqn:E; [by eapply (ps_nodup _ Hs)|constructor].
  - intros id b w' Hb Hw'. apply Hpl. apply lookup_insert_Some in Hb as [[<- <-]|[_ Hb]]; [right; by simplify_eq|].
    left. by eapply (ps_listed _ Hs).
  - intros key b [Hb|[-> ->]]%Hpl; [by apply (ps_known _ Hs)|by exists w].
  - intros He key b w' [Hb|[-> ->]]%Hpl Hw'; [|simplify_eq; apply lookup_insert_eq].
    pose proof (ps_exact _ Hs He key b w' Hb Hw') as Hreg. rewrite lookup_insert_ne; [done|congruence].
  - apply (ps_fresh _ Hs).
Qed.

Lemma register_synced p a w : pool_inv exact p → wp_conns p !! a = Some w →
  wp_workers p !! wc_workerID w ≠ Some a → (∀ key, a ∉ default [] (wp_platform p !! key)) → pool_inv exact (register p a w).1.
Proof.
  intros Hs Ha Hne Hnot. unfold register.
  destruct (wp_workers p !! wc_workerID w) as [o|] eqn:Ho; [|by apply add_conn_synced].
  destruct (ps_conn _ Hs _ _ Ho) as (old & Eold & Hid). rewrite Eold. simpl.
  set (p1 := on_conn (removeConnLocked p o old) o _).
  assert (o ≠ a) by congruence.
  assert (pool_inv exact p1) as Hs1.
  { apply (pool_synced_conns (removeConnLocked p o old)); try done.
    - apply removeConnLocked_synced; [done|done|congruence].
    - intros b. simpl. destruct (decide (b = o)) as [->|].
      + rewrite lookup_alter_eq, Eold. constructor. done.
      + rewrite lookup_alter_ne by done. destruct (wp_conns p !! b); by repeat constructor. }
  apply (add_conn_synced p1 a w Hs1).
  - simpl. by rewrite lookup_alter_ne by done.
  - simpl. rewrite Hid. by rewrite lookup_delete_eq.
  - intros key Hin. by apply (removeConnLocked_platform p o old key a (ps_nodup _ Hs)) in Hin as [Hin%Hnot _].
Qed.

Lemma NewWorkerConnection_synced p id os arch capacity conn n now a p' ids : pool_inv exact p →
  NewWorkerConnection p id os arch capacity conn n now = Ok (a, p', ids) → pool_inv exact p'.
Proof.
  intros Hs. unfold NewWorkerConnection. do 3 (case_match; [done|]).
  set (w := NewWorkerConn _ _ _ _ _ _).
  set (p1 := p <| wp_conns := _ |> <| wp_next := _ |>).
  assert (wp_conns p !! wp_next p = None) as Hfresh.
  { apply eq_None_not_Some. intros Hx%(ps_fresh _ Hs). lia. }
  assert (∀ b w', wp_conns p !! b = Some w' → wp_conns p1 !! b = Some w') as Hmono.
  { intros b w' Hb. simpl. rewrite lookup_insert_ne; [done|congruence]. }
  assert (∀ b w', b ≠ wp_next p → wp_conns p1 !! b = Some w' → wp_conns p !! b = Some w') as Hback.
  { intros b w' Hb. simpl. by rewrite lookup_insert_ne. }
  assert (∀ key, wp_next p ∉ default [] (wp_platform p !! key)) as Hnot.
  { intros key Hin. destruct (ps_known _ Hs _ _ Hin) as (? & ? & _). congruence. }
  destruct (register p1 _ w) as [p2 ids2] eqn:Hr. intros [= <- <- <-].
  replace p2 with (register p1 (wp_next p) w).1 by by rewrite Hr.
  apply register_synced; [split|simpl; by rewrite lookup_insert_eq| |exact Hnot].
  - intros id' b Hb. destruct (ps_conn _ Hs id' b Hb) as (w' & ? & ?). eauto.
  - apply (ps_nodup _ Hs).
  - intros id' b w' Hb Hw'. apply (ps_listed _ Hs id' b w' Hb), Hback; [|done]. intros ->.
    destruct (ps_conn _ Hs _ _ Hb) as (? & ? & _). congruence.
  - intros key b Hb. destruct (ps_known _ Hs key b Hb) as (w' & ? & ?). eauto.
  - intros He key b w' Hb Hw'. apply (ps_exact _ Hs He key b w' Hb), Hback; [|done]. intros ->. by apply (Hnot key).
  - intros b [w' Hb]. simpl in Hb |- *. apply lookup_insert_Some in Hb as [[<- _]|[_ Hb]]; [lia|].
    pose proof (ps_fresh _ Hs b (mk_is_Some _ _ Hb)). lia.
  - simpl. intros Hw. destruct (ps_conn _ Hs _ _ Hw) as (? & ? & _). congruence.
Qed.

Lemma close_stale_synced p l : pool_inv exact p → NoDup l → (∀ a, a ∈ l → ∃ id, wp_workers p !! id = Some a) →
  pool_inv exact (close_stale p l).1.1.
Proof.
  revert p. induction l as [|a l IH]; intros p Hs Hnd Hreg; [done|]. apply NoDup_cons in Hnd as [Hnot Hnd]. cbn [close_stale].
  destruct (Hreg a ltac:(by left)) as [id Hid]. destruct (ps_conn _ Hs id a Hid) as (w & Hw & Hwid). rewrite Hw.
  destruct (conn_Close (wc_conn w)) as [c err]. set (p1 := on_conn p a _).
  assert (wp_conns p1 !! a = Some (w <| wc_conn := c |>)) as Hw1 by (simpl; by rewrite lookup_alter_eq, Hw).
  assert (pool_inv exact p1) as Hs1.
  { apply (pool_synced_conns p); try done. intros b. simpl. destruct (decide (b = a)) as [->|].
    - rewrite lookup_alter_eq, Hw. by constructor.
    - rewrite lookup_alter_ne by done. destruct (wp_conns p !! b); by repeat constructor. }
  destruct err; [done|]. unfold unregister. rewrite Hw1.
  match goal with |- context [close_stale ?q l] => set (p2 := q) end.
  assert (pool_inv exact (close_stale p2 l).1.1) as Hrest; [|by destruct (close_stale p2 l) as [[??]?]].
  apply IH; [apply removeConnLocked_synced; [done|done|intros _; simpl; by rewrite Hwid]|done|].
  intros b Hb. destruct (Hreg b ltac:(by right)) as [id' Hid']. exists id'. simpl. rewrite lookup_delete_ne; [done|]. congruence.
Qed.

Lemma allWorkers_NoDup p : pool_inv exact p → NoDup (allWorkers p).
Proof.
  intros Hs. unfold allWorkers, range_values. apply NoDup_fmap_2_strong.
  - intros [i a] [j b] Hi Hj. cbn. intros <-. rewrite elem_of_range_map in Hi, Hj.
    destruct (ps_conn _ Hs _ _ Hi) as (w & ? & <-), (ps_conn _ Hs _ _ Hj) as (w' & ? & <-). by simplify_eq.
  - rewrite range_map_perm. apply NoDup_map_to_list.
Qed.

Lemma checkHeartbeats_synced p timeout now : pool_inv exact p → pool_inv exact (checkHeartbeats p timeout now).1.1.
Proof.
  intros Hs. apply close_stale_synced; [done|by apply NoDup_filter, allWorkers_NoDup|].
  intros a [_ Ha]%list_elem_of_filter. by apply elem_of_range_values.
Qed.

Lemma lane_Do_synced ns (fn : WorkerPool SS → WorkerPool SS * option error) p :
  pool_inv exact p → pool_inv exact (fn p).1 → pool_inv exact (lane_Do ns fn p).1.
Proof. unfold lane_Do. by destruct (lane_error ns). Qed.

Lemma set_conn_synced p a w w' : pool_inv exact p → wp_conns p !! a = Some w → same_identity w w' →
  pool_inv exact (p <| wp_conns := <[a := w']> (wp_conns p) |>).
Proof. intros Hs Ha Hw. apply (pool_synced_conns p); try done. by apply (insert_same_identity p a w). Qed.

Lemma notify_synced p : pool_inv exact p → pool_inv exact (pool_notifyDispatcher p).
Proof.
  intros Hs. apply (pool_synced_conns p); try done.
  intros a. simpl. destruct (wp_conns p !! a); by repeat constructor.
Qed.

Lemma subtractCapacity_synced p a j cost now :
  pool_inv exact p → pool_inv exact (subtractCapacity p a j cost now).1.
Proof.
  intros Hs. unfold subtractCapacity. destruct (wp_conns p !! a) as [w|] eqn:Ha; [|done].
  apply lane_Do_synced; [done|]. unfold AssignTask. repeat case_match; simplify_eq/=; [|done..].
  by apply (set_conn_synced p a w).
Qed.

Lemma restoreCapacity_synced p a j cost now :
  pool_inv exact p → pool_inv exact (restoreCapacity p a j cost now).1.
Proof.
  intros Hs. unfold restoreCapacity. destruct (wp_conns p !! a) as [w|] eqn:Ha; [|done].
  apply lane_Do_synced; [done|]. by apply notify_synced, (set_conn_synced p a w).
Qed.

Lemma overrideCapacity_synced p id capacity now :
  pool_inv exact p → pool_inv exact (overrideCapacity p id capacity now).1.
Proof.
  intros Hs. unfold overrideCapacity. destruct (_ ≫= _) as [[a w]|] eqn:Ha; [|done].
  apply bind_Some in Ha as (b & Hb & (w' & Hw' & [= -> ->])%fmap_Some).
  apply lane_Do_synced; [done|]. by apply notify_synced, (set_conn_synced p b w').
Qed.

Lemma pool_like_synced p p' : pool_like p p' → pool_inv exact p → pool_inv exact p'.
Proof.
  intros [Hw Hp Hn _ _ Hc] Hs. apply (pool_synced_conns p); [done..|].
  intros a. destruct (Hc a) as [w w' [-> _]|]; constructor. by destruct w.
Qed.

(** ** Idle sweep *)

(** The connection was notified after it last became idle. *)
Definition muted p (a : nat) : Prop :=
  ∃ w, wp_conns p !! a = Some w ∧ (wc_lastIdleAt w < wc_lastIdleNotified w)%Z.

Lemma stale_step_spec th cd hp n now p a p' e : (0 < th)%Z →
  stale_worker_step th cd hp n now p a = (p', e) →
  wp_workers p' = wp_workers p ∧ wp_platform p' = wp_platform p ∧ wp_next p' = wp_next p ∧
  (∀ b, option_Forall2 same_identity (wp_conns p !! b) (wp_conns p' !! b)) ∧
  (∀ b, muted p b → muted p' b) ∧
  (∀ ev, e = Some ev → ¬ muted p a ∧ muted p' a ∧
     ∃ w, wp_conns p !! a = Some w ∧ wc_workerID w = iwe_WorkerID ev ∧
       IsInState w WorkerStateOnline = true ∧ (wc_capacity w ≤ AvailableCapacity w)%Z ∧
       (th ≤ iwe_IdleDuration ev)%Z).
Proof.
  intros Hth. unfold stale_worker_step.
  assert (∀ b, option_Forall2 same_identity (wp_conns p !! b) (wp_conns p !! b)) as Hrefl.
  { intros b. destruct (wp_conns p !! b); by repeat constructor. }
  destruct (wp_conns p !! a) as [w|] eqn:Ha; [|by intros [= <- <-]].
  destruct (_ || _) eqn:E1; [by intros [= <- <-]|].
  destruct (_ <? th)%Z eqn:E2; [by intros [= <- <-]|].
  destruct (After _ _) eqn:E3; [by intros [= <- <-]|].
  destruct (match wp_scaleDownCooldowns p !! wc_workerID w with Some last => _ | None => _ end);
    [by intros [= <- <-]|].
  intros [= <- <-].
  unfold After, LastIdleTime in *; zb; split_and!; try done;
    [by apply (insert_same_identity p a w)| |].
  all: assert (muted (p <| wp_scaleDownCooldowns :=
      <[wc_workerID w := now]> (wp_scaleDownCooldowns p) |>
      <| wp_conns := <[a := MarkIdleNotified w now]> (wp_conns p) |>) a) as Hmute
    by (eexists; simpl; rewrite lookup_insert_eq; split; [done|]; simpl;
        unfold time_Sub, MaxInt64, MinInt64 in *; lia).
  all: try (intros b Hb; destruct (decide (b = a)) as [->|]; [done|];
    destruct Hb as (w' & ? & ?); exists w'; simpl; by rewrite lookup_insert_ne by done).
  all: intros ev [= <-]; simpl; split_and!; [|done|exists w; split_and!; try done; lia].
  all: intros (w' & ? & ?); simplify_eq; lia.
Qed.

Lemma stale_sweep_spec th cd hp n now p l : (0 < th)%Z →
  let r := foldl (λ '(p, events) a,
        let '(p, e) := stale_worker_step th cd hp n now p a in
        (p, events ++ option_list e)) (p, []) l in
  wp_workers r.1 = wp_workers p ∧ wp_platform r.1 = wp_platform p ∧ wp_next r.1 = wp_next p ∧
  (∀ b, option_Forall2 same_identity (wp_conns p !! b) (wp_conns r.1 !! b)) ∧
  (∀ b, muted p b → muted r.1 b) ∧
  (∀ ev, ev ∈ r.2 → ∃ a w, a ∈ l ∧ ¬ muted p a ∧ muted r.1 a ∧
     wp_conns p !! a = Some w ∧ wc_workerID w = iwe_WorkerID ev).
Proof.
  intros Hth. induction l as [|a l IH] using rev_ind; simpl.
  { split_and!; try done; [|set_solver]. intros b. destruct (wp_conns p !! b); by repeat constructor. }
  rewrite foldl_snoc. destruct (foldl _ _ l) as [p1 ev1]. simpl in IH.
  destruct IH as (IH1 & IH2 & IH3 & IHc & IHm & IHe).
  destruct (stale_worker_step th cd hp n now p1 a) as [p2 e] eqn:Hstep.
  apply stale_step_spec in Hstep as (S1 & S2 & S3 & Sc & Sm & Se); [|done]. simpl.
  assert (∀ b, option_Forall2 same_identity (wp_conns p !! b) (wp_conns p2 !! b)) as Hc.
  { intros b. specialize (IHc b). specialize (Sc b). inversion IHc as [x y Hxy Ex Ey|Ex Ey];
      rewrite <- Ey in Sc; inversion Sc as [x' y' Hxy' Ex' Ey'|]; constructor.
    unfold same_identity in *. naive_solver congruence. }
  split_and!; try congruence; [done|by eauto|].
  intros ev [Hev|Hev]%elem_of_app.
  - destruct (IHe ev Hev) as (b & w & ? & ? & ? & ? & ?). exists b, w. split_and!; set_solver.
  - destruct e as [ev'|]; [|set_solver]. apply list_elem_of_singleton in Hev as ->.
    destruct (Se ev' eq_refl) as (Hnm & Hm & w1 & Hw1 & Hid & _).
    specialize (IHc a). rewrite Hw1 in IHc. inversion IHc as [w w1' Hw Ew Ew1|].
    exists a, w. split_and!; [set_solver|by eauto|done|done|]. destruct Hw; congruence.
Qed.

(** ** Steps of the pool, as the connection handlers and the dispatcher take them *)
Inductive pool_step : WorkerPool SS → WorkerPool SS → Prop :=
| step_connect p id os arch capacity conn n now a p' ids :
    NewWorkerConnection p id os arch capacity conn n now = Ok (a, p', ids) → pool_step p p'
| step_disconnect p a w :
    wp_conns p !! a = Some w → (exact → wp_workers p !! wc_workerID w = Some a) →
    pool_step p (unregister p a).1
| step_eligible p platforms cost jobID now :
    pool_step p (eligibleWorkers p platforms cost jobID now).1
| step_assign p a j cost now : pool_step p (subtractCapacity p a j cost now).1
| step_complete p a j cost now : pool_step p (restoreCapacity p a j cost now).1
| step_capacity p id capacity now : pool_step p (overrideCapacity p id capacity now).1
| step_state p a w st : wp_conns p !! a = Some w →
    pool_step p (p <| wp_conns := <[a := SetState w st]> (wp_conns p) |>)
| step_sweep p th cd hp now :
    pool_step p (StaleWorkerMonitoring true th cd hp p now).1.

Lemma StaleWorkerMonitoring_synced th cd hp p now :
  pool_inv exact p → pool_inv exact (StaleWorkerMonitoring true th cd hp p now).1.
Proof.
  intros Hs. unfold StaleWorkerMonitoring. simpl. destruct (th <=? 0)%Z eqn:E; [done|]. zb.
  pose proof (stale_sweep_spec th cd hp (length (allWorkers p)) now p (allWorkers p) E) as Hsw.
  simpl in Hsw. destruct (foldl _ _ _) as [p1 ev]. destruct Hsw as (? & ? & ? & ? & _).
  by apply (pool_synced_conns p).
Qed.

Lemma pool_step_synced p p' : pool_step p p' → pool_inv exact p → pool_inv exact p'.
Proof.
  destruct 1 as [p id os arch capacity conn n now a p' ids Hn|p a w Ha Hid|p pl cost j now|
    p a j cost now|p a j cost now|p id capacity now|p a w st Ha|p th cd hp now]; intros Hs.
  - by eapply NewWorkerConnection_synced.
  - unfold unregister. rewrite Ha. by apply removeConnLocked_synced.
  - destruct (decide (0 ≤ cost)%Z) as [Hc|Hc].
    + by apply (pool_like_synced p); [apply eligibleWorkers_spec|].
    + unfold eligibleWorkers. rewrite (proj2 (Z.ltb_lt _ _)) by lia. done.
  - by apply subtractCapacity_synced.
  - by apply restoreCapacity_synced.
  - by apply overrideCapacity_synced.
  - by apply (set_conn_synced p a w).
  - by apply StaleWorkerMonitoring_synced.
Qed.

Lemma NewWorkerPool_synced signal : pool_inv exact (NewWorkerPool signal).
Proof.
  apply pool_of_index; simpl.
  - intros id a. by rewrite lookup_empty.
  - intros key l. by rewrite lookup_empty.
  - intros key a. rewrite lookup_empty. simpl. split; [set_solver|].
    intros (w & Hw & _). by rewrite lookup_empty in Hw.
  - intros a [w Hw]. by rewrite lookup_empty in Hw.
Qed.

Lemma pool_steps_synced p p' : rtc pool_step p p' → pool_inv exact p → pool_inv exact p'.
Proof. induction 1; eauto using pool_step_synced. Qed.

(** ** Selection *)
Definition load_key p (a : nat) : Z * Time :=
  match wp_conns p !! a with
  | Some w => (AvailableCapacity w, LastIdleTime w)
  | None => (0, 0)%Z
  end.

(** [b] is no better than [a]: less capacity, or as much and idle no longer. *)
Definition no_better p (b a : nat) : Prop :=
  ((load_key p b).1 < (load_key p a).1 ∨
   (load_key p b).1 = (load_key p a).1 ∧ (load_key p a).2 ≤ (load_key p b).2)%Z.

Lemma better_spec p b a : is_Some (wp_conns p !! a) → is_Some (wp_conns p !! b) →
  better p b a = false ↔ no_better p b a.
Proof.
  intros [w Hw] [w' Hw']. unfold better, no_better, load_key, Before. rewrite Hw, Hw'. simpl.
  destruct (_ <? _)%Z eqn:E1; zb; [split; [done|lia]|].
  destruct (_ =? _)%Z eqn:E2; zb; [rewrite Z.ltb_ge; lia|split; [lia|done]].
Qed.

Lemma better_true p b a : is_Some (wp_conns p !! a) → is_Some (wp_conns p !! b) →
  better p b a = true ↔ ¬ no_better p b a.
Proof. intros. rewrite <- better_spec by done. by destruct (better p b a). Qed.

Lemma LeastLoaded_fold p best rest : (∀ a, a ∈ best :: rest → is_Some (wp_conns p !! a)) →
  let r := foldl (λ best (a : nat), if better p a best then a else best) best rest in
  r ∈ best :: rest ∧ (∀ b, b ∈ best :: rest → no_better p b r).
Proof.
  intros Hall. induction rest as [|c rest IH] using rev_ind.
  { split; [set_solver|]. intros b ->%list_elem_of_singleton. simpl. unfold no_better. lia. }
  rewrite foldl_snoc. destruct IH as [Hin Hbest]; [set_solver|].
  set (r := foldl _ _ rest) in *. simpl.
  destruct (better p c r) eqn:E.
  - apply better_true in E; [|apply Hall; set_solver..]. split; [set_solver|].
    intros b Hb. assert (b ∈ best :: rest ∨ b = c) as [Hb'| ->] by set_solver.
    + specialize (Hbest b Hb'). unfold no_better in *. lia.
    + right. lia.
  - apply better_spec in E; [|apply Hall; set_solver..]. split; [set_solver|].
    intros b Hb. assert (b ∈ best :: rest ∨ b = c) as [Hb'| ->] by set_solver; by auto.
Qed.
End pool.
Arguments ps_conn {_ _} _ _.
Arguments ps_nodup {_ _} _ _.
Arguments ps_fresh {_ _} _ _.

(** Both indexes agree exactly. *)
Notation pool_synced := (pool_inv True).

(** [RoundRobinSelector]: the counter is an [atomic.Uint64]. *)
Definition RoundRobin_Select {A} (counter : Z) (workers : list A) : Z * option A :=
  let counter' := ((counter + 1) mod 18446744073709551616)%Z in
  let idx := ((counter' - 1) mod 18446744073709551616)%Z in
  (counter', workers !! Z.to_nat (idx mod Z.of_nat (length workers))).

(** [k] selections in a row from the same list. *)
Fixpoint RoundRobin_run {A} (k : nat) (counter : Z) (workers : list A) : list (option A) :=
  match k with
  | O => []
  | S k => let '(counter, x) := RoundRobin_Select counter workers in
           x :: RoundRobin_run k counter workers
  end.

Lemma RoundRobin_run_lookup {A} k counter (workers : list A) i :
  (0 ≤ counter)%Z → (counter + Z.of_nat k < 18446744073709551616)%Z → i < k →
  RoundRobin_run k counter workers !! i =
    Some (workers !! Z.to_nat ((counter + Z.of_nat i) mod Z.of_nat (length workers))).
Proof.
  revert counter i. induction k as [|k IH]; intros counter i H0 Hk Hi; [lia|].
  cbn [RoundRobin_run]. unfold RoundRobin_Select.
  rewrite (Z.mod_small (counter + 1)) by lia.
  destruct i as [|i]; simpl.
  - replace (counter + 1 - 1)%Z with counter by lia.
    rewrite (Z.mod_small counter), Z.add_0_r by lia. done.
  - rewrite IH by lia. f_equal. f_equal. f_equal. f_equal. lia.
Qed.

Lemma RoundRobin_run_length {A} k counter (workers : list A) :
  length (RoundRobin_run k counter workers) = k.
Proof. revert counter. induction k as [|k IH]; intros c; simpl; [done|]. by rewrite IH. Qed.

(** ** Properties *)

(** C23: Dispatch candidates are exactly right. For a non-negative cost, [eligibleWorkers] returns,
    in index order and with nothing added or lost, the connections of the requested platforms (of
    every platform when none is requested) that are online, have not rejected this job within the
    rejection window, and have enough available capacity (any capacity when the cost is zero). Looking
    them up changes nothing in the pool except the layout of rejection caches, which answer every later
    question as before. A negative cost yields no candidate. *)
Theorem eligible_workers_exact `{SimpleSet SS} `{GoRuntime} (p : WorkerPool SS)
    (platforms : list string) (cost : Z) (jobID : string) (now : Time) :
  let '(p', out) := eligibleWorkers p platforms cost jobID now in
  pool_like p p' ∧
  ((0 ≤ cost)%Z → out = filter (λ a, eligible p cost jobID now a = true) (candidates p platforms)) ∧
  ((cost < 0)%Z → out = []).
Proof.
  destruct (decide (0 ≤ cost)%Z) as [Hc|Hc].
  - destruct (eligibleWorkers_spec p platforms cost jobID now Hc) as [Hl Ho].
    destruct (eligibleWorkers _ _ _ _ _) as [p' out]. split_and!; [done|done|lia].
  - unfold eligibleWorkers. rewrite (proj2 (Z.ltb_lt _ _)) by lia. split_and!; [done|lia|done].
Qed.

(** The pool's two indexes agree in every reachable state. Whatever connections arrive (with
    or without an id collision), current connections leave, and however capacity, states and idle
    notifications change, the platform index lists, without duplicates, precisely the connections their
    worker id resolves to. *)
Theorem pool_indexes_agree `{SimpleSet SS} `{GoRuntime} `{Ulid} `{SerialLanes}
    (signal : SigChan) (p : WorkerPool SS) :
  rtc (pool_step (exact := True)) (NewWorkerPool signal) p →
  (∀ id a, GetWorker p id = Some a →
    ∃ w, wp_conns p !! a = Some w ∧ wc_workerID w = id ∧
      a ∈ default [] (wp_platform p !! platformKey (wc_os w) (wc_arch w))) ∧
  (∀ key l a, wp_platform p !! key = Some l → a ∈ l →
    NoDup l ∧ ∃ w, wp_conns p !! a = Some w ∧ platformKey (wc_os w) (wc_arch w) = key ∧
      GetWorker p (wc_workerID w) = Some a).
Proof.
  intros Hsteps. pose proof (pool_steps_synced _ _ Hsteps (NewWorkerPool_synced signal)) as Hs.
  split.
  - intros id a Ha. destruct (ps_conn _ Hs id a Ha) as (w & Hw & <-).
    exists w. split_and!; [done|done|]. apply (ps_index _ _ _ Hs). by exists w.
  - intros key l a Hl Ha. split; [by eapply (ps_nodup _ Hs)|].
    apply (ps_index _ _ _ Hs). by rewrite Hl.
Qed.

(** A replaced connection takes its successor down. When a worker reconnects under an id that is
    still registered, [register] replaces the old connection; when the old connection's handler then ends
    and calls [unregister], the id no longer resolves to anything although the new connection is still
    offered for dispatch, and the old connection's in-flight jobs are re-queued a second time. *)
Theorem stale_unregister_detaches_successor `{SimpleSet SS} (p : WorkerPool SS)
    (a a' : nat) (old new : WorkerConn SS) :
  pool_synced p → wp_conns p !! a = Some old → wp_workers p !! wc_workerID old = Some a →
  wp_conns p !! a' = Some new → a ≠ a' → wc_workerID new = wc_workerID old →
  let '(p1, requeued) := register p a' new in
  let '(p2, requeued_again) := unregister p1 a in
  GetWorker p1 (wc_workerID new) = Some a' ∧ GetWorker p2 (wc_workerID new) = None ∧
  a' ∈ default [] (wp_platform p2 !! platformKey (wc_os new) (wc_arch new)) ∧
  requeued = inFlightIDs old ∧ requeued_again = inFlightIDs old.
Proof.
  intros Hs Ha Hreg Ha' Hne Hid. unfold register. rewrite Hid, Hreg, Ha.
  lazy beta iota zeta.
  match goal with |- context [unregister ?q _] => set (p1 := q) end.
  assert (wp_conns p1 !! a = Some (old <| wc_conn := (conn_Close (wc_conn old)).1 |>)) as Ha1
    by (simpl; by rewrite lookup_alter_eq, Ha).
  unfold unregister. rewrite Ha1. unfold GetWorker. split_and!; [..|done|done].
  - simpl. by rewrite lookup_insert_eq.
  - simpl. by rewrite lookup_delete_eq.
  - apply removeConnLocked_keeps; [done|]. simpl. unfold conn_key.
    rewrite lookup_insert_eq. set_solver.
Qed.

(** The default selector picks a best worker: from a non-empty list it returns one of its members,
    such that every other member has less available capacity, or equally much but became idle no
    earlier; from an empty list it fails. *)
Theorem least_loaded_is_best `{SimpleSet SS} (p : WorkerPool SS) (workers : list nat) :
  (∀ a, a ∈ workers → is_Some (wp_conns p !! a)) →
  match LeastLoaded_Select p workers with
  | Some best => best ∈ workers ∧ ∀ b, b ∈ workers → no_better p b best
  | None => workers = []
  end.
Proof.
  intros Hall. destruct workers as [|b rest]; [done|]. by apply LeastLoaded_fold.
Qed.

(** Round-robin selection is fair: as many consecutive selections as there are workers return each
    worker exactly once, in list order starting after the previous selection. *)
Theorem round_robin_fair {A} (counter : Z) (workers : list A) :
  (0 ≤ counter)%Z → (counter + Z.of_nat (length workers) < 18446744073709551616)%Z →
  RoundRobin_run (length workers) counter workers = Some <$> rotate (Z.to_nat counter) workers ∧
  RoundRobin_run (length workers) counter workers ≡ₚ Some <$> workers.
Proof.
  intros H0 Hn.
  assert (RoundRobin_run (length workers) counter workers =
    Some <$> rotate (Z.to_nat counter) workers) as E; [|split; [done|]].
  - apply list_eq_same_length with (n := length workers);
      [by rewrite length_fmap, length_rotate|by rewrite RoundRobin_run_length|].
    intros i x y Hi. rewrite RoundRobin_run_lookup by done. rewrite list_lookup_fmap.
    rewrite lookup_rotate_r by done. unfold rotate_nat_add. rewrite Z2Nat.id by done.
    rewrite Nat2Z.id || idtac. destruct (workers !! _); naive_solver.
  - rewrite E. unfold rotate. rewrite Permutation_app_comm. by rewrite take_drop.
Qed.

(** A worker is reported idle once per idle period. A sweep reports only online workers with their
    whole capacity free that have been idle for the threshold, and a later sweep reports none of them
    again while they stay idle. *)
Theorem idle_reported_once `{SimpleSet SS} `{GoRuntime} (p p1 p2 : WorkerPool SS) th cd hp now now' ev1 ev2 :
  pool_synced p →
  StaleWorkerMonitoring true th cd hp p now = (p1, Ok ev1) →
  StaleWorkerMonitoring true th cd hp p1 now' = (p2, Ok ev2) →
  ∀ e1 e2, e1 ∈ ev1 → e2 ∈ ev2 → iwe_WorkerID e1 ≠ iwe_WorkerID e2.
Proof.
  intros Hs. unfold StaleWorkerMonitoring. simpl.
  destruct (th <=? 0)%Z eqn:Hth; [done|]. zb.
  pose proof (stale_sweep_spec th cd hp (length (allWorkers p)) now p (allWorkers p) Hth) as S1.
  destruct (foldl _ _ _) as [p1' ev1']. intros [= -> ->].
  pose proof (stale_sweep_spec th cd hp (length (allWorkers p1)) now' p1 (allWorkers p1) Hth) as S2.
  destruct (foldl _ _ _) as [p2' ev2']. intros [= -> ->]. simpl in *.
  destruct S1 as (Ew & _ & _ & Hc & _ & He1). destruct S2 as (_ & _ & _ & _ & _ & He2).
  intros e1 e2 (a & w & Ha & _ & Hm & Hw & Hid)%He1 (b & w' & Hb & Hnm & _ & Hw' & Hid')%He2 Heq.
  unfold allWorkers in *. rewrite Ew in Hb.
  apply elem_of_range_values in Ha as [ida Ha]. apply elem_of_range_values in Hb as [idb Hb].
  destruct (ps_conn _ Hs _ _ Ha) as (wa & Ewa & Ida). destruct (ps_conn _ Hs _ _ Hb) as (wb & Ewb & Idb).
  specialize (Hc b). rewrite Ewb, Hw' in Hc. inversion Hc as [? ? [Hwb _]|].
  assert (ida = idb) as E by congruence. rewrite E in Ha. congruence.
Qed.

(** ** Witnesses: two linux workers *)
Section samples.
Local Existing Instances gset_simple_set canonical_runtime unary_ulid open_lanes.

Definition connected (r : res error (nat * WorkerPool (gset string) * list string))
  : WorkerPool (gset string) :=
  match r with Ok (_, p, _) => p | Err _ => NewWorkerPool (MkSigChan 0 0 false) end.

Definition sample_pool1 : WorkerPool (gset string) :=
  connected (NewWorkerConnection (NewWorkerPool (MkSigChan 0 0 false)) "w1" "linux" "amd64" 4 sample_conn 0 0).

Definition sample_pool : WorkerPool (gset string) :=
  connected (NewWorkerConnection sample_pool1 "w2" "linux" "amd64" 6 sample_conn 0 0).

Lemma sample_pool_reachable : rtc (pool_step (exact := True)) (NewWorkerPool (MkSigChan 0 0 false)) sample_pool.
Proof.
  apply (rtc_l _ _ sample_pool1); [by eapply (step_connect _ "w1" "linux" "amd64" 4 sample_conn 0 0 0)|].
  apply rtc_once. by eapply (step_connect _ "w2" "linux" "amd64" 6 sample_conn 0 0 1).
Qed.

Lemma sample_pool_synced : pool_synced sample_pool.
Proof. exact (pool_steps_synced _ _ sample_pool_reachable (NewWorkerPool_synced _)). Qed.

Lemma pool_indexes_agree_witness :
  GetWorker sample_pool "w2" = Some 1 ∧
  ∃ w, wp_conns sample_pool !! 1 = Some w ∧ wc_workerID w = "w2" ∧
    1 ∈ default [] (wp_platform sample_pool !! platformKey (wc_os w) (wc_arch w)).
Proof.
  split; [vm_compute; reflexivity|].
  destruct (pool_indexes_agree _ _ sample_pool_reachable) as [Hid _].
  apply Hid. vm_compute. reflexivity.
Defined.

Definition reconnecting : WorkerConn (gset string) := NewWorkerConn "w1" "linux" "amd64" 4 sample_conn 9.

Definition with_reconnecting : WorkerPool (gset string) :=
  sample_pool <| wp_conns := <[2 := reconnecting]> (wp_conns sample_pool) |> <| wp_next := 3 |>.

Lemma with_reconnecting_synced : pool_synced with_reconnecting.
Proof.
  assert (wp_conns sample_pool !! 2 = None) as Hfresh by (vm_compute; reflexivity).
  pose proof sample_pool_synced as Hs.
  assert (∀ b, b ≠ 2 → wp_conns with_reconnecting !! b = wp_conns sample_pool !! b) as Hc.
  { intros b Hb. unfold with_reconnecting. cbn [wp_conns field_set]. simpl wp_conns at 1.
    by rewrite lookup_insert_ne. }
  assert (∀ id a, wp_workers sample_pool !! id = Some a → a ≠ 2) as Hw.
  { intros id a Ha. destruct (ps_conn _ Hs _ _ Ha) as (w & Hw & _). congruence. }
  change (wp_workers sample_pool) with (wp_workers with_reconnecting) in Hw.
  apply pool_of_index.
  - intros id a Ha. rewrite Hc by eauto. by apply (ps_conn _ Hs).
  - exact (ps_nodup _ Hs).
  - intros key a. etransitivity; [exact (ps_index _ key a Hs)|].
    split; intros (w & Hwa & Hk & Hid); exists w; split_and!; try done.
    + rewrite Hc; [done|]. eauto.
    + rewrite <- Hc; [done|]. eauto.
  - intros a Ha. change (wp_next with_reconnecting) with 3. destruct (decide (a = 2)); [lia|].
    rewrite Hc in Ha by done. pose proof (ps_fresh _ Hs a Ha) as Hx.
    change (wp_next sample_pool) with 2 in Hx. lia.
Qed.

Lemma stale_unregister_detaches_successor_witness :
  let p1 := (register with_reconnecting 2 reconnecting).1 in
  GetWorker p1 "w1" = Some 2 ∧ GetWorker (unregister p1 0).1 "w1" = None.
Proof.
  pose proof (stale_unregister_detaches_successor with_reconnecting 0 2
    sample_worker reconnecting
    with_reconnecting_synced ltac:(vm_compute; reflexivity) ltac:(vm_compute; reflexivity)
    ltac:(vm_compute; reflexivity) ltac:(lia) eq_refl) as Hx.
  destruct (register with_reconnecting 2 reconnecting) as [p1 r1]. simpl.
  destruct (unregister p1 0) as [p2 r2]. destruct Hx as (H1 & H2 & _). exact (conj H1 H2).
Defined.

Lemma least_loaded_is_best_witness :
  LeastLoaded_Select sample_pool [0; 1] = Some 1 ∧ no_better sample_pool 0 1.
Proof.
  assert (LeastLoaded_Select sample_pool [0; 1] = Some 1) as E by (vm_compute; reflexivity).
  split; [exact E|].
  pose proof (least_loaded_is_best sample_pool [0; 1]) as Hx. rewrite E in Hx.
  destruct Hx as [_ Hx]; [|exact (Hx 0 ltac:(left))].
  intros a Ha. destruct (decide (a = 0)) as [->|]; [vm_compute; by eexists|].
  destruct (decide (a = 1)) as [->|]; [vm_compute; by eexists|]. set_solver.
Defined.

Lemma round_robin_fair_witness :
  RoundRobin_run 3 5 [10; 11; 12] = [Some 12; Some 10; Some 11] ∧
  RoundRobin_run 3 5 [10; 11; 12] ≡ₚ [Some 10; Some 11; Some 12].
Proof.
  destruct (round_robin_fair 5 [10; 11; 12]) as [_ Hp]; [lia|simpl; lia|].
  split; [vm_compute; reflexivity|exact Hp].
Defined.

Definition event_ids (r : WorkerPool (gset string) * res error (list IdleWorkerEvent)) : list string :=
  match r.2 with Ok evs => iwe_WorkerID <$> evs | Err _ => [] end.

Definition swept : WorkerPool (gset string) := (StaleWorkerMonitoring true 10 0 None sample_pool 10).1.

Lemma idle_reported_once_witness :
  event_ids (StaleWorkerMonitoring true 10 0 None sample_pool 10) = ["w1"; "w2"] ∧
  ∀ ev2, (StaleWorkerMonitoring true 10 0 None swept 100).2 = Ok ev2 →
    ∀ e2, e2 ∈ ev2 → iwe_WorkerID e2 ≠ "w2".
Proof.
  assert (∃ e1 e2, (StaleWorkerMonitoring true 10 0 None sample_pool 10).2 = Ok [e1; e2] ∧
    iwe_WorkerID e1 = "w1" ∧ iwe_WorkerID e2 = "w2") as (e1 & e2 & E & E1 & E2).
  { eexists _, _. split_and!; vm_compute; reflexivity. }
  split; [unfold event_ids; rewrite E; simpl; by rewrite E1, E2|].
  intros ev2 Eev e Hin. rewrite <- E2.
  assert (StaleWorkerMonitoring true 10 0 None sample_pool 10 = (swept, Ok [e1; e2])) as A1.
  { rewrite <- E. apply surjective_pairing. }
  assert (StaleWorkerMonitoring true 10 0 None swept 100 =
    ((StaleWorkerMonitoring true 10 0 None swept 100).1, Ok ev2)) as A2.
  { rewrite <- Eev. apply surjective_pairing. }
  assert (e2 ∈ [e1; e2]) as Hin1 by (rewrite !elem_of_cons; auto).
  pose proof (idle_reported_once _ _ _ _ _ _ _ _ _ _ sample_pool_synced A1 A2 e2 e Hin1 Hin) as Hx.
  exact (not_eq_sym Hx).
Defined.
End samples.
