(* ===== verification/Proto.v ===== *)
(** * The wire messages (src/contract/proto_message.go)

    Frames are read by the netargv package, whose flag set is an interface here:
    what is assumed of it is how it reads lines of plain [--name=value] and
    [--name] words, which is all this program writes.  Float and duration
    parsing and the JSON list of child jobs are parameters. *)
From S2P Require Import Prelude GoStd External Contract.

(** ** netargv *)

(** A flag as it is written: [--name=value], or [--name] alone. *)
Definition arg : Type := string * option string.

Definition render_arg (a : arg) : string :=
  match a with
  | (n, Some v) => " --" +:+ n +:+ "=" +:+ v
  | (n, None) => " --" +:+ n
  end.

Definition render_line (verb : string) (args : list arg) : string :=
  verb +:+ str_concat (render_arg <$> args).

(** Words without blanks, quotes or backslashes need no quoting. *)
Definition word_char (c : ascii) : bool :=
  let n := N_of_ascii c in
  (33 <=? n)%N && (n <=? 126)%N && negb (bool_decide (n ∈ [34; 39; 92; 96]%N)).

Fixpoint word (s : string) : bool :=
  match s with EmptyString => true | String c s => word_char c && word s end.

(** Verbs and flag names: a letter, then letters and hyphens. *)
Definition letter (c : ascii) : bool := let n := N_of_ascii c in (97 <=? n)%N && (n <=? 122)%N.

Fixpoint name_tail (s : string) : bool :=
  match s with EmptyString => true | String c s => (letter c || Ascii.eqb c "-") && name_tail s end.

Definition flag_name (s : string) : bool :=
  match s with EmptyString => false | String c s => letter c && name_tail s end.

Definition word_arg (a : arg) : bool :=
  flag_name a.1 && match a.2 with Some v => word v | None => true end.

(** The values a flag was given, in order. *)
Definition values_of (args : list arg) (name : string) : list string :=
  omap (λ a, if bool_decide (a.1 = name) then a.2 else None) args.

Class NetArgv (FL : Type) := {
  fl_Lookup : FL → string → option string;
  fl_Get : FL → string → string;
  fl_Has : FL → string → bool;
  fl_GetRepeated : FL → string → list string;
  (** the first line of a frame: its verb and flags *)
  argv_parse : string → res error (string * FL);
  fl_Get_spec fl name : fl_Get fl name = default "" (fl_Lookup fl name);
  argv_parse_spec verb args :
    flag_name verb = true → Forall (λ a, word_arg a = true) args →
    ∃ fl, argv_parse (render_line verb args) = Ok (verb, fl) ∧
      ∀ name, fl_GetRepeated fl name = values_of args name ∧
        fl_Has fl name = bool_decide (name ∈ args.*1) ∧
        (name ∉ args.*1 → fl_Lookup fl name = None) ∧
        (∀ v, values_of args name = [v] → fl_Lookup fl name = Some v);
}.

(** A frame: verb, flags, and the payload that follows the line. *)
Record Frame (FL : Type) := MkFrame { fr_Verb : string; fr_Flags : FL; fr_Payload : string }.
Arguments MkFrame {FL} _ _ _.
Arguments fr_Verb {FL} _.
Arguments fr_Flags {FL} _.
Arguments fr_Payload {FL} _.

(** ** Messages *)
Record ChildJobRequest := MkChildJobRequest {
  cjreq_Task : string;
  cjreq_Payload : string;
  cjreq_Priority : Z;
  cjreq_Version : string;
}.

Record ProposeMessage := MkProposeMessage {
  pm_JobID : string;
  pm_ParentJobID : string;
  pm_Task : string;
  pm_Cost : Z;
  pm_NoResult : bool;
  pm_ArtifactHash : string;
  pm_ArtifactURL : string;
  pm_ArtifactDeps : list string;
}.

Record DispatchMessage := MkDispatchMessage {
  dm_JobID : string;
  dm_RunID : string;
  dm_Phase : string;
  dm_Attempt : Z;
  dm_MaxExecTime : Duration;
  dm_MaxMemoryBytes : Z;
  dm_MaxCPUCores : float64;
  dm_Payload : string;
}.

Record ResultMessage := MkResultMessage {
  rm_ParentJobID : string;
  rm_JobID : string;
  rm_RunID : string;
  rm_Type : ResultType;
  rm_Duration : Duration;
  rm_Warnings : string;
  rm_Reason : string;
  rm_ExitCode : Z;
  rm_Jobs : list ChildJobRequest;
  rm_Payload : string;
}.

Inductive SystemCommand := SystemCommandDrain | SystemCommandShutdown.

Inductive Message :=
| MPropose (m : ProposeMessage)
| MAccept (jobID : string)
| MReject (jobID reason : string)
| MDispatch (m : DispatchMessage)
| MStaged (jobID runID : string)
| MStarting (jobID runID : string)
| MLog (jobID runID line : string)
| MResult (m : ResultMessage)
| MHeartbeat (cpu mem : float64) (state : WorkerState)
| MSystem (c : SystemCommand)
| MCapacity (available : Z)
| MCancel (jobID : string).

(** The verb [%T] of a message. *)
Definition message_type_name (msg : Message) : string :=
  "*contract." +:+
  match msg with
  | MPropose _ => "ProposeMessage"
  | MAccept _ => "AcceptMessage"
  | MReject _ _ => "RejectMessage"
  | MDispatch _ => "DispatchMessage"
  | MStaged _ _ => "StagedMessage"
  | MStarting _ _ => "StartingMessage"
  | MLog _ _ _ => "LogMessage"
  | MResult _ => "ResultMessage"
  | MHeartbeat _ _ _ => "HeartbeatMessage"
  | MSystem _ => "SystemMessage"
  | MCapacity _ => "CapacityMessage"
  | MCancel _ => "CancelMessage"
  end.

(** [strconv.ParseFloat], [time.ParseDuration] and the JSON list of child jobs. *)
Class Parsers := {
  ParseFloat : string → option float64;
  ParseDuration : string → option Duration;
  parse_child_jobs : string → res error (list ChildJobRequest);
}.

Section proto.
Context `{NetArgv FL} `{Parsers}.
Implicit Types (flags : FL) (m : Frame FL).

(** ** Flag helpers *)
Definition flag_error (name : string) : error := ErrMsg ("flag --" +:+ name).

Definition requireFlag flags (name : string) : res error string :=
  match fl_Lookup flags name with
  | Some v => if bool_decide (v = "") then Err (ErrMsg ("missing required flag --" +:+ name)) else Ok v
  | None => Err (ErrMsg ("missing required flag --" +:+ name))
  end.

Definition or_error {A} (o : option A) (e : error) : res error A :=
  match o with Some a => Ok a | None => Err e end.

Definition requireInt flags (name : string) : res error Z :=
  s ← requireFlag flags name; or_error (Atoi s) (flag_error name).

Definition requireFloat flags (name : string) : res error float64 :=
  s ← requireFlag flags name; or_error (ParseFloat s) (flag_error name).

(** The value, whether the flag was found, and the error. *)
Definition optionalInt flags (name : string) : Z * bool * option error :=
  match requireFlag flags name with
  | Err _ => (0%Z, false, None)
  | Ok s => match Atoi s with
            | Some n => (n, true, None)
            | None => (0%Z, true, Some (flag_error name))
            end
  end.

Definition optionalFloat flags (name : string) : float64 * bool * option error :=
  match requireFlag flags name with
  | Err _ => (0%Z, false, None)
  | Ok s => match ParseFloat s with
            | Some n => (n, true, None)
            | None => (0%Z, true, Some (flag_error name))
            end
  end.

(** ** Factories *)
Definition proposeV0Factory m : res error Message :=
  let flags := fr_Flags m in
  jobID ← requireFlag flags "job-id";
  task ← requireFlag flags "task";
  cost ← requireInt flags "cost";
  artifactHash ← requireFlag flags "artifact-hash";
  artifactURL ← requireFlag flags "artifact-url";
  Ok (MPropose (MkProposeMessage jobID (fl_Get flags "parent-job-id") task cost
        (fl_Has flags "no-result") artifactHash artifactURL (fl_GetRepeated flags "dep"))).

(** An optional flag parsed by [p]; absent means [zero]. *)
Definition optional_flag {A} flags (name : string) (p : string → option A) (zero : A) : res error A :=
  let s := fl_Get flags name in
  if bool_decide (s = "") then Ok zero else or_error (p s) (flag_error name).

Definition dispatchV0Factory m : res error Message :=
  let flags := fr_Flags m in
  jobID ← requireFlag flags "job-id";
  phase ← requireFlag flags "phase";
  if bool_decide (phase ≠ "run") && bool_decide (phase ≠ "consolidate") then Err (flag_error "phase")
  else
    attempt ← requireInt flags "attempt";
    runID ← requireFlag flags "run-id";
    maxExec ← optional_flag flags "max-exec-time" ParseDuration 0%Z;
    maxMem ← optional_flag flags "max-memory" Atoi 0%Z;
    maxCPU ← optional_flag flags "max-cpu-cores" ParseFloat 0%Z;
    Ok (MDispatch (MkDispatchMessage jobID runID phase attempt maxExec maxMem maxCPU (fr_Payload m))).

Definition stagedV0Factory m : res error Message :=
  jobID ← requireFlag (fr_Flags m) "job-id"; runID ← requireFlag (fr_Flags m) "run-id";
  Ok (MStaged jobID runID).

Definition acceptV0Factory m : res error Message :=
  jobID ← requireFlag (fr_Flags m) "job-id"; Ok (MAccept jobID).

Definition rejectV0Factory m : res error Message :=
  jobID ← requireFlag (fr_Flags m) "job-id"; reason ← requireFlag (fr_Flags m) "reason";
  Ok (MReject jobID reason).

Definition startingV0Factory m : res error Message :=
  jobID ← requireFlag (fr_Flags m) "job-id"; runID ← requireFlag (fr_Flags m) "run-id";
  Ok (MStarting jobID runID).

Definition logV0Factory m : res error Message :=
  jobID ← requireFlag (fr_Flags m) "job-id"; runID ← requireFlag (fr_Flags m) "run-id";
  Ok (MLog jobID runID (fr_Payload m)).

Definition resultV0Factory m : res error Message :=
  let flags := fr_Flags m in
  jobID ← requireFlag flags "job-id";
  outcomeType ← requireFlag flags "type";
  runID ← requireFlag flags "run-id";
  let parentJobID := default "" (fl_Lookup flags "parent-job-id") in
  duration ← optional_flag flags "duration" ParseDuration (-1)%Z;
  if bool_decide (outcomeType = "result") then
    Ok (MResult (MkResultMessage parentJobID jobID runID ResultSuccess duration
          (fl_Get flags "warnings") "" 0 [] (fr_Payload m)))
  else if bool_decide (outcomeType = "error") then
    code ← optional_flag flags "exit-code" Atoi 0%Z;
    Ok (MResult (MkResultMessage parentJobID jobID runID ResultError duration "" (fr_Payload m) code [] ""))
  else if bool_decide (outcomeType = "subjobs") then
    if bool_decide (fr_Payload m = "") then Err (ErrMsg "outcome subjobs: payload is required")
    else
      jobs ← parse_child_jobs (fr_Payload m);
      if bool_decide (jobs = []) then Err (ErrMsg "outcome subjobs: payload must contain at least one job")
      else Ok (MResult (MkResultMessage parentJobID jobID runID ResultSubjobs duration "" "" 0 jobs
                 (fr_Payload m)))
  else Err (flag_error "type").

Definition heartbeatV0Factory m : res error Message :=
  let flags := fr_Flags m in
  let '(cpu, found, err) := optionalFloat flags "cpu" in
  match (if found then err else None) with
  | Some e => Err e
  | None =>
      let '(mem, err) := match requireFloat flags "mem" with
                         | Ok v => (v, None)
                         | Err e => (0%Z, Some e)
                         end in
      match (if found then err else None) with
      | Some e => Err e
      | None =>
          let '(state, found, err) := optionalInt flags "state" in
          match (if found then err else None) with
          | Some e => Err e
          | None =>
              if found && negb (IsValidWorkerState state)
              then Err (ErrMsg "flag --state is not a valid state")
              else Ok (MHeartbeat cpu mem (wrap32 state))
          end
      end
  end.

Definition systemV0Factory m : res error Message :=
  cmd ← requireFlag (fr_Flags m) "command";
  if bool_decide (cmd = "drain") then Ok (MSystem SystemCommandDrain)
  else if bool_decide (cmd = "shutdown") then Ok (MSystem SystemCommandShutdown)
  else Err (flag_error "command").

Definition capacityV0Factory m : res error Message :=
  n ← requireInt (fr_Flags m) "available";
  if (n <? 0)%Z then Err (flag_error "available") else Ok (MCapacity n).

Definition cancelV0Factory m : res error Message :=
  jobID ← requireFlag (fr_Flags m) "job-id"; Ok (MCancel jobID).

(** [RegisterMessages]: the factory of each verb of protocol version 0. *)
Definition message_factory (verb : string) : option (Frame FL → res error Message) :=
  if bool_decide (verb = "propose") then Some proposeV0Factory
  else if bool_decide (verb = "accept") then Some acceptV0Factory
  else if bool_decide (verb = "reject") then Some rejectV0Factory
  else if bool_decide (verb = "dispatch") then Some dispatchV0Factory
  else if bool_decide (verb = "staged") then Some stagedV0Factory
  else if bool_decide (verb = "starting") then Some startingV0Factory
  else if bool_decide (verb = "log") then Some logV0Factory
  else if bool_decide (verb = "result") then Some resultV0Factory
  else if bool_decide (verb = "heartbeat") then Some heartbeatV0Factory
  else if bool_decide (verb = "system") then Some systemV0Factory
  else if bool_decide (verb = "capacity") then Some capacityV0Factory
  else if bool_decide (verb = "cancel") then Some cancelV0Factory
  else None.
End proto.

(** ** Lines the manager writes *)
Definition FormulateProposeV0Message (job : Job) (task : Task) (art : ArtifactInfo) : string :=
  let msg := "propose --job-id=" +:+ job_ID job +:+ " --task=" +:+ job_TaskName job +:+
    " --cost=" +:+ Itoa (job_Cost job) +:+ " --artifact-hash=" +:+ ai_Hash art +:+
    " --artifact-url=" +:+ ai_URL art in
  let msg := foldl (λ msg dep, msg +:+ " --dep=" +:+ dep) msg (ai_Dependencies art) in
  if task_NoResult task then msg +:+ " --no-result" else msg.

Definition FormulateDispatchV0Message (job : Job) (runID : string) : string :=
  "dispatch --job-id=" +:+ job_ID job +:+ " --run-id=" +:+ runID +:+
  " --phase=" +:+ JobPhase_string (job_Phase job) +:+ " --attempt=" +:+ Itoa (job_Attempts job).

Definition FormulateSystemV0Message (c : SystemCommand) : string :=
  "system --command=" +:+ match c with SystemCommandDrain => "drain" | SystemCommandShutdown => "shutdown" end.

(** ** Lines are rendered flags *)
Definition propose_args (job : Job) (task : Task) (art : ArtifactInfo) : list arg :=
  [("job-id", Some (job_ID job)); ("task", Some (job_TaskName job)); ("cost", Some (Itoa (job_Cost job)));
   ("artifact-hash", Some (ai_Hash art)); ("artifact-url", Some (ai_URL art))] ++
  ((λ d, ("dep", Some d)) <$> ai_Dependencies art) ++
  (if task_NoResult task then [("no-result", None)] else []).

Definition dispatch_args (job : Job) (runID : string) : list arg :=
  [("job-id", Some (job_ID job)); ("run-id", Some runID);
   ("phase", Some (JobPhase_string (job_Phase job))); ("attempt", Some (Itoa (job_Attempts job)))].

Lemma str_concat_app l1 l2 : str_concat (l1 ++ l2) = str_concat l1 +:+ str_concat l2.
Proof.
  unfold str_concat. induction l1 as [|x l1 IH]; [done|]. simpl. by rewrite IH, str_app_assoc.
Qed.

Lemma foldl_deps msg deps :
  foldl (λ msg dep, msg +:+ " --dep=" +:+ dep) msg deps =
    msg +:+ str_concat (render_arg <$> ((λ d, ("dep", Some d)) <$> deps)).
Proof.
  revert msg. induction deps as [|d deps IH]; intros msg; simpl; [by rewrite str_app_nil_r|].
  rewrite IH. unfold str_concat. simpl. by rewrite !str_app_assoc.
Qed.

Lemma FormulatePropose_render job task art :
  FormulateProposeV0Message job task art = render_line "propose" (propose_args job task art).
Proof.
  unfold FormulateProposeV0Message, render_line, propose_args.
  rewrite foldl_deps, !fmap_app, !str_concat_app.
  set (deps := str_concat (render_arg <$> ((λ d, ("dep", Some d)) <$> ai_Dependencies art))).
  unfold str_concat. destruct (task_NoResult task); simpl; by rewrite ?str_app_nil_r, ?str_app_assoc.
Qed.

Lemma FormulateDispatch_render job runID :
  FormulateDispatchV0Message job runID = render_line "dispatch" (dispatch_args job runID).
Proof.
  unfold FormulateDispatchV0Message, render_line, dispatch_args, str_concat. simpl.
  by rewrite ?str_app_nil_r, ?str_app_assoc.
Qed.

Lemma word_app a b : word (a +:+ b) = word a && word b.
Proof.
  induction a as [|c a IH]; [done|].
  change (word (String c a +:+ b)) with (word_char c && word (a +:+ b)). rewrite IH. simpl.
  by rewrite andb_assoc.
Qed.

Lemma word_digits fuel n acc : word acc = true → word (digits_fuel fuel n acc) = true.
Proof.
  revert n acc. induction fuel as [|fuel IH]; intros n acc Hacc; [done|]. cbn [digits_fuel].
  assert (word (String (digit_char (n mod 10)) acc) = true) as Hw.
  { simpl. rewrite Hacc, andb_true_r. pose proof (Z.mod_pos_bound n 10 ltac:(lia)) as Hd.
    generalize dependent (n mod 10)%Z. intros d Hd.
    assert (d = 0 ∨ d = 1 ∨ d = 2 ∨ d = 3 ∨ d = 4 ∨ d = 5 ∨ d = 6 ∨ d = 7 ∨ d = 8 ∨ d = 9)%Z
      as Hc by lia. destruct_or! Hc; subst; reflexivity. }
  case_match; [done|by apply IH].
Qed.

Lemma word_Itoa n : word (Itoa n) = true.
Proof.
  unfold Itoa. case_match; [|by apply word_digits].
  change (word_char "-" && word (digits_fuel 20 (- n) "") = true). by rewrite word_digits.
Qed.

Lemma Itoa_nonempty n : Itoa n ≠ "".
Proof.
  unfold Itoa. case_match; [done|]. by destruct (digits_fuel_head 20 n "" ltac:(lia)) as (d & s & _ & ->).
Qed.

Lemma values_of_deps deps name : name ≠ "dep" →
  values_of ((λ d, ("dep", Some d)) <$> deps) name = [].
Proof.
  intros Hn. induction deps as [|d deps IH]; [done|]. simpl. unfold values_of in *. simpl.
  rewrite bool_decide_eq_false_2 by done. done.
Qed.

Lemma values_of_app l1 l2 name : values_of (l1 ++ l2) name = values_of l1 name ++ values_of l2 name.
Proof. apply omap_app. Qed.

Section roundtrips.
Context `{NetArgv FL} `{Parsers}.

Lemma requireFlag_value (fl : FL) name v : fl_Lookup fl name = Some v → v ≠ "" → requireFlag fl name = Ok v.
Proof. intros Hl Hv. unfold requireFlag. by rewrite Hl, bool_decide_eq_false_2. Qed.

Lemma requireInt_value (fl : FL) name n : fl_Lookup fl name = Some (Itoa n) → in_int64 n →
  requireInt fl name = Ok n.
Proof.
  intros Hl Hn. unfold requireInt. rewrite (requireFlag_value fl name (Itoa n) Hl (Itoa_nonempty n)). simpl.
  by rewrite Atoi_Itoa.
Qed.

Definition propose_words (job : Job) (art : ArtifactInfo) : Prop :=
  word (job_ID job) = true ∧ word (job_TaskName job) = true ∧ word (ai_Hash art) = true ∧
  word (ai_URL art) = true ∧ Forall (λ d, word d = true) (ai_Dependencies art).

(** What the worker's flag set holds for a proposal. *)
Lemma propose_parsed job task art : propose_words job art →
  ∃ fl, argv_parse (FormulateProposeV0Message job task art) = Ok ("propose", fl) ∧
    fl_Lookup fl "job-id" = Some (job_ID job) ∧ fl_Lookup fl "task" = Some (job_TaskName job) ∧
    fl_Lookup fl "cost" = Some (Itoa (job_Cost job)) ∧ fl_Lookup fl "artifact-hash" = Some (ai_Hash art) ∧
    fl_Lookup fl "artifact-url" = Some (ai_URL art) ∧ fl_Lookup fl "parent-job-id" = None ∧
    fl_Has fl "no-result" = task_NoResult task ∧ fl_GetRepeated fl "dep" = ai_Dependencies art.
Proof.
  intros (Hid & Htask & Hhash & Hurl & Hdeps). rewrite FormulatePropose_render.
  assert (∀ name, values_of (if task_NoResult task then [("no-result", None)] else []) name = []) as Hnr.
  { intros name. destruct (task_NoResult task); [|done]. unfold values_of. simpl.
    by destruct (bool_decide _). }
  assert (∀ name, name ∈ (propose_args job task art).*1 ↔
    name ∈ ["job-id"; "task"; "cost"; "artifact-hash"; "artifact-url"] ∨
    (name = "dep" ∧ ai_Dependencies art ≠ []) ∨ (name = "no-result" ∧ task_NoResult task = true)) as Hnames.
  { intros name.
    assert (name ∈ ((λ d : string, ("dep", Some d)) <$> ai_Dependencies art).*1 ↔
      name = "dep" ∧ ai_Dependencies art ≠ []) as Hd.
    { rewrite <- list_fmap_compose. destruct (ai_Dependencies art) as [|d ds]; simpl; [set_solver|].
      rewrite elem_of_cons, list_elem_of_fmap. naive_solver. }
    assert (name ∈ (if task_NoResult task then [("no-result", @None string)] else []).*1 ↔
      name = "no-result" ∧ task_NoResult task = true) as Hn by (destruct (task_NoResult task); set_solver).
    unfold propose_args. rewrite !fmap_app, !elem_of_app, Hd, Hn. done. }
  destruct (argv_parse_spec "propose" (propose_args job task art)) as (fl & Hparse & Hfl); [done|..].
  { unfold propose_args. rewrite !Forall_app. split_and!.
    - repeat constructor; unfold word_arg; simpl; rewrite ?Hid, ?Htask, ?Hhash, ?Hurl, ?word_Itoa; done.
    - apply Forall_fmap. eapply Forall_impl; [exact Hdeps|]. intros d Hd. unfold word_arg. simpl. by rewrite Hd.
    - destruct (task_NoResult task); by repeat constructor. }
  exists fl. split; [done|].
  assert (∀ name v, name ≠ "dep" → values_of [("job-id", Some (job_ID job));
      ("task", Some (job_TaskName job)); ("cost", Some (Itoa (job_Cost job)));
      ("artifact-hash", Some (ai_Hash art)); ("artifact-url", Some (ai_URL art))] name = [v] →
    fl_Lookup fl name = Some v) as Hlook.
  { intros name v Hd Hv. apply (Hfl name). unfold propose_args.
    by rewrite !values_of_app, values_of_deps, Hnr, Hv by done. }
  split_and!; try (by apply Hlook).
  - apply (Hfl "parent-job-id"). rewrite Hnames. intros [Hin|[[[=] _]|[[=] _]]]. revert Hin.
    apply (bool_decide_unpack _). vm_compute. exact I.
  - destruct (Hfl "no-result") as (_ & -> & _). destruct (task_NoResult task) eqn:E.
    + apply bool_decide_eq_true_2. apply Hnames. auto.
    + apply bool_decide_eq_false_2. rewrite Hnames. intros [Hin|[[[=] _]|[_ [=]]]]. revert Hin.
      apply (bool_decide_unpack _). vm_compute. exact I.
  - destruct (Hfl "dep") as (-> & _). unfold propose_args. rewrite !values_of_app, Hnr, app_nil_r.
    change (values_of [_; _; _; _; _] "dep") with (@nil string). simpl.
    generalize (ai_Dependencies art) as ds. intros ds. induction ds as [|d ds IH]; [done|].
    exact (f_equal (cons d) IH).
Qed.

Lemma dispatch_parsed job runID : word (job_ID job) = true → word runID = true →
  ∃ fl, argv_parse (FormulateDispatchV0Message job runID) = Ok ("dispatch", fl) ∧
    fl_Lookup fl "job-id" = Some (job_ID job) ∧ fl_Lookup fl "run-id" = Some runID ∧
    fl_Lookup fl "phase" = Some (JobPhase_string (job_Phase job)) ∧
    fl_Lookup fl "attempt" = Some (Itoa (job_Attempts job)) ∧
    ∀ name, name ∉ ["job-id"; "run-id"; "phase"; "attempt"] → fl_Lookup fl name = None.
Proof.
  intros Hid Hrun. rewrite FormulateDispatch_render.
  destruct (argv_parse_spec "dispatch" (dispatch_args job runID)) as (fl & Hparse & Hfl); [done|..].
  { repeat constructor; unfold word_arg; simpl; rewrite ?Hid, ?Hrun, ?word_Itoa;
      solve [done | by destruct (job_Phase job)]. }
  exists fl. split; [done|]. split_and!; by apply Hfl.
Qed.

(** Flags that read as a proposal or a dispatch. *)
Lemma propose_read (fl : FL) job art noResult payload :
  fl_Lookup fl "job-id" = Some (job_ID job) → fl_Lookup fl "task" = Some (job_TaskName job) →
  fl_Lookup fl "cost" = Some (Itoa (job_Cost job)) → fl_Lookup fl "artifact-hash" = Some (ai_Hash art) →
  fl_Lookup fl "artifact-url" = Some (ai_URL art) → fl_Lookup fl "parent-job-id" = None →
  fl_Has fl "no-result" = noResult → fl_GetRepeated fl "dep" = ai_Dependencies art →
  in_int64 (job_Cost job) → job_ID job ≠ "" → job_TaskName job ≠ "" → ai_Hash art ≠ "" → ai_URL art ≠ "" →
  proposeV0Factory (MkFrame "propose" fl payload) =
    Ok (MPropose (MkProposeMessage (job_ID job) "" (job_TaskName job) (job_Cost job) noResult (ai_Hash art)
          (ai_URL art) (ai_Dependencies art))).
Proof.
  intros Hjob Ht Hc Hh Hu Hpar Hno Hdep Hcost Hid Htask Hhash Hurl. unfold proposeV0Factory. simpl.
  rewrite (requireFlag_value fl _ _ Hjob Hid). simpl. rewrite (requireFlag_value fl _ _ Ht Htask). simpl.
  rewrite (requireInt_value fl _ _ Hc Hcost). simpl. rewrite (requireFlag_value fl _ _ Hh Hhash). simpl.
  rewrite (requireFlag_value fl _ _ Hu Hurl). simpl. by rewrite fl_Get_spec, Hpar, Hno, Hdep.
Qed.

Lemma dispatch_read (fl : FL) job runID payload :
  fl_Lookup fl "job-id" = Some (job_ID job) → fl_Lookup fl "run-id" = Some runID →
  fl_Lookup fl "phase" = Some (JobPhase_string (job_Phase job)) →
  fl_Lookup fl "attempt" = Some (Itoa (job_Attempts job)) →
  (∀ name, name ∉ ["job-id"; "run-id"; "phase"; "attempt"] → fl_Lookup fl name = None) →
  job_ID job ≠ "" → runID ≠ "" → in_int64 (job_Attempts job) →
  dispatchV0Factory (MkFrame "dispatch" fl payload) =
    Ok (MDispatch (MkDispatchMessage (job_ID job) runID (JobPhase_string (job_Phase job)) (job_Attempts job) 0 0 0 payload)).
Proof.
  intros Hjob Hr Hph Ha Hnone Hne Hrne Hatt. unfold dispatchV0Factory, optional_flag. simpl.
  rewrite (requireFlag_value fl _ _ Hjob Hne). simpl.
  rewrite (requireFlag_value fl _ _ Hph) by (by destruct (job_Phase job)). simpl.
  rewrite (requireInt_value fl _ _ Ha Hatt), (requireFlag_value fl _ _ Hr Hrne).
  rewrite !fl_Get_spec, !Hnone by set_solver. by destruct (job_Phase job).
Qed.
End roundtrips.

(** ** Properties *)

(** C31: A proposal made of plain words reaches the worker as it was meant. If the identifiers, the task name, the
    artifact coordinates and the dependencies hold printable ASCII without blanks, quotes or backslashes, parsing the proposal line yields the job, task, cost, artifact and
    dependency list and the no-result flag of the job being proposed; the parent job is never transmitted.
    An artifact without a hash or a URL makes the worker refuse the line as malformed. *)
Theorem propose_roundtrip `{NetArgv FL} `{Parsers} (job : Job) (task : Task) (art : ArtifactInfo)
    (payload : string) :
  propose_words job art → in_int64 (job_Cost job) → job_ID job ≠ "" → job_TaskName job ≠ "" →
  ∃ fl, argv_parse (FormulateProposeV0Message job task art) = Ok ("propose", fl) ∧
    let parsed := proposeV0Factory (MkFrame "propose" fl payload) in
    (ai_Hash art ≠ "" → ai_URL art ≠ "" →
      parsed = Ok (MPropose (MkProposeMessage (job_ID job) "" (job_TaskName job) (job_Cost job)
                     (task_NoResult task) (ai_Hash art) (ai_URL art) (ai_Dependencies art)))) ∧
    (ai_Hash art = "" ∨ ai_URL art = "" → ∃ e, parsed = Err e).
Proof.
  intros Hw Hcost Hid Htask.
  destruct (propose_parsed job task art Hw) as (fl & Hp & Hjob & Ht & Hc & Hh & Hu & Hpar & Hno & Hdep).
  exists fl. split; [done|]. split; [by intros Hhash Hurl; apply propose_read|].
  unfold proposeV0Factory. simpl.
  rewrite (requireFlag_value fl _ _ Hjob Hid). simpl. rewrite (requireFlag_value fl _ _ Ht Htask). simpl.
  rewrite (requireInt_value fl _ _ Hc Hcost). simpl.
  - intros Hempty. destruct (decide (ai_Hash art = "")) as [E|E].
    + unfold requireFlag. rewrite Hh, bool_decide_eq_true_2 by done. by eexists.
    + destruct Hempty as [|Hempty]; [done|]. rewrite (requireFlag_value fl _ _ Hh E). simpl.
      unfold requireFlag. rewrite Hu, bool_decide_eq_true_2 by done. by eexists.
Qed.

(** A dispatch reaches the worker as it was meant, and never carries limits: parsing the dispatch line
    yields the job, run, phase and attempt with the payload, while execution time, memory and CPU limits
    are always zero, whatever limitations the task declares. *)
Theorem dispatch_roundtrip `{NetArgv FL} `{Parsers} (job : Job) (runID payload : string) :
  word (job_ID job) = true → word runID = true → job_ID job ≠ "" → runID ≠ "" →
  in_int64 (job_Attempts job) →
  ∃ fl, argv_parse (FormulateDispatchV0Message job runID) = Ok ("dispatch", fl) ∧
    dispatchV0Factory (MkFrame "dispatch" fl payload) =
      Ok (MDispatch (MkDispatchMessage (job_ID job) runID (JobPhase_string (job_Phase job))
            (job_Attempts job) 0 0 0 payload)).
Proof.
  intros Hid Hrun Hne Hrne Hatt.
  destruct (dispatch_parsed job runID Hid Hrun) as (fl & Hp & Hjob & Hr & Hph & Ha & Hnone).
  exists fl. split; [done|]. by apply dispatch_read.
Qed.

(** ** A reader of plain lines, to evaluate examples *)
Fixpoint split_words (s : string) : list string :=
  match s with
  | EmptyString => [""]
  | String c s =>
      if Ascii.eqb c " " then "" :: split_words s
      else match split_words s with w :: ws => String c w :: ws | [] => [String c ""] end
  end.

Fixpoint cut_value (s : string) : arg :=
  match s with
  | EmptyString => ("", None)
  | String c s => if Ascii.eqb c "=" then ("", Some s)
                  else let '(n, v) := cut_value s in (String c n, v)
  end.

Definition read_flag (w : string) : option arg :=
  match w with
  | String a (String b w) => if Ascii.eqb a "-" && Ascii.eqb b "-" then Some (cut_value w) else None
  | _ => None
  end.

Definition plain_parse (line : string) : res error (string * list arg) :=
  match split_words line with
  | verb :: ws => match mapM read_flag ws with Some args => Ok (verb, args) | None => Err (ErrMsg "bad flag") end
  | [] => Err (ErrMsg "empty line")
  end.

Lemma word_not_blank c : word_char c = true → Ascii.eqb c " " = false.
Proof. by destruct (Ascii.eqb_spec c " ") as [->|]. Qed.

Lemma letter_word c : letter c = true → word_char c = true ∧ Ascii.eqb c "=" = false.
Proof. destruct c as [[] [] [] [] [] [] [] []]; vm_compute; auto. Qed.

Lemma name_tail_word s : name_tail s = true → word s = true.
Proof.
  induction s as [|c s IH]; simpl; [done|]. rewrite andb_true_iff, orb_true_iff. intros [[Hc|Hc] Hs].
  - by rewrite (proj1 (letter_word c Hc)), IH.
  - apply Ascii.eqb_eq in Hc as ->. by rewrite IH.
Qed.

Lemma flag_name_tail s : flag_name s = true → name_tail s = true.
Proof. destruct s as [|c s]; simpl; [done|]. rewrite !andb_true_iff. intros [-> ->]. done. Qed.

Lemma split_words_app w s x xs : word w = true → split_words s = x :: xs →
  split_words (w +:+ s) = (w +:+ x) :: xs.
Proof.
  intros Hw Hs. induction w as [|c w IH]; [done|].
  simpl in Hw. apply andb_true_iff in Hw as [Hc Hw].
  change (split_words (String c (w +:+ s)) = String c (w +:+ x) :: xs). simpl.
  by rewrite (word_not_blank c Hc), (IH Hw).
Qed.

Lemma cut_value_app n v : name_tail n = true → cut_value (n +:+ String "=" v) = (n, Some v).
Proof.
  induction n as [|c n IH]; [done|]. simpl. rewrite andb_true_iff, orb_true_iff. intros [Hc Hn].
  change (cut_value (String c (n +:+ String "=" v)) = (String c n, Some v)). simpl.
  rewrite (IH Hn). destruct Hc as [Hc|Hc]; [by rewrite (proj2 (letter_word c Hc))|].
  by apply Ascii.eqb_eq in Hc as ->.
Qed.

Lemma cut_value_name n : name_tail n = true → cut_value n = (n, None).
Proof.
  induction n as [|c n IH]; [done|]. simpl. rewrite andb_true_iff, orb_true_iff. intros [Hc Hn].
  rewrite (IH Hn). destruct Hc as [Hc|Hc]; [by rewrite (proj2 (letter_word c Hc))|].
  by apply Ascii.eqb_eq in Hc as ->.
Qed.

(** The text of one flag after its blank. *)
Definition flag_text (a : arg) : string :=
  match a with (n, Some v) => "--" +:+ n +:+ "=" +:+ v | (n, None) => "--" +:+ n end.

Lemma render_arg_text a : render_arg a = " " +:+ flag_text a.
Proof. destruct a as [n [v|]]; done. Qed.

Lemma flag_text_word a : word_arg a = true → word (flag_text a) = true.
Proof.
  destruct a as [n [v|]]; unfold word_arg; simpl; rewrite ?andb_true_iff; intros [Hn Hv];
    pose proof (name_tail_word n (flag_name_tail n Hn)) as Hw; rewrite ?word_app, Hw; [|done].
  simpl. by rewrite Hv.
Qed.

Lemma read_flag_text a : word_arg a = true → read_flag (flag_text a) = Some a.
Proof.
  destruct a as [n [v|]]; unfold word_arg; simpl; rewrite ?andb_true_iff; intros [Hn Hv];
    pose proof (flag_name_tail n Hn) as Ht.
  - change (Some (cut_value (n +:+ String "=" v)) = Some (n, Some v)). by rewrite cut_value_app.
  - change (Some (cut_value n) = Some (n, None)). by rewrite cut_value_name.
Qed.

Lemma split_words_args args : Forall (λ a, word_arg a = true) args →
  split_words (str_concat (render_arg <$> args)) = "" :: (flag_text <$> args).
Proof.
  induction args as [|a args IH]; intros Hall; [done|]. apply Forall_cons in Hall as [Ha Hall].
  change (str_concat (render_arg <$> a :: args)) with (render_arg a +:+ str_concat (render_arg <$> args)).
  rewrite render_arg_text, str_app_assoc.
  change (split_words (" " +:+ (flag_text a +:+ str_concat (render_arg <$> args)))) with
    ("" :: split_words (flag_text a +:+ str_concat (render_arg <$> args))).
  rewrite (split_words_app _ _ _ _ (flag_text_word a Ha) (IH Hall)).
  by rewrite str_app_nil_r.
Qed.

Lemma plain_parse_render verb args : flag_name verb = true → Forall (λ a, word_arg a = true) args →
  plain_parse (render_line verb args) = Ok (verb, args).
Proof.
  intros Hv Hall. unfold plain_parse, render_line.
  rewrite (split_words_app _ _ _ _ (name_tail_word _ (flag_name_tail _ Hv)) (split_words_args args Hall)).
  rewrite str_app_nil_r.
  assert (mapM read_flag (flag_text <$> args) = Some args) as ->; [|done].
  induction Hall as [|a args Ha Hall IH]; [done|]. cbn. by rewrite (read_flag_text a Ha), IH.
Qed.

#[refine] Definition plain_argv : NetArgv (list arg) := {|
  fl_Lookup fl name := head (values_of fl name);
  fl_Get fl name := default "" (head (values_of fl name));
  fl_Has fl name := bool_decide (name ∈ fl.*1);
  fl_GetRepeated fl name := values_of fl name;
  argv_parse := plain_parse;
|}.
Proof.
  - done.
  - intros verb args Hv Hall. exists args. split; [by apply plain_parse_render|].
    intros name. split_and!; [done|done|..].
    + intros Hn. assert (values_of args name = []) as ->; [|done].
      unfold values_of. induction args as [|a args IH]; [done|]. simpl.
      rewrite bool_decide_eq_false_2 by set_solver. apply IH; [by inversion Hall|set_solver].
    + by intros v ->.
Defined.

(** Parsers that know no floats, durations or child lists. *)
Definition no_parsers : Parsers := {|
  ParseFloat _ := None; ParseDuration _ := None; parse_child_jobs _ := Err (ErrMsg "json");
|}.

Definition wire_job : Job :=
  zero_job <| job_ID := "01J" |> <| job_TaskName := "resize" |> <| job_Cost := 2%Z |> <| job_Attempts := 1%Z |>.

Definition wire_task : Task := MkTask "resize" (MkLimitations 5 0 0) (MkRetryPolicy 0 0 0) true 2.

(** The line is not quoted: a task whose name goes on with a flag is proposed as another task, with that flag. *)
Lemma unquoted_task_name `{NetArgv FL} `{Parsers} (payload : string) :
  let job := wire_job <| job_TaskName := "resize --no-result" |> in
  let task := MkTask "resize --no-result" (MkLimitations 5 0 0) (MkRetryPolicy 0 0 0) false 2 in
  ∃ fl, argv_parse (FormulateProposeV0Message job task (MkArtifactInfo "h" "u" [])) = Ok ("propose", fl) ∧
    proposeV0Factory (MkFrame "propose" fl payload) =
      Ok (MPropose (MkProposeMessage "01J" "" "resize" 2 true "h" "u" [])).
Proof.
  cbn zeta. set (args := [("job-id", Some "01J"); ("task", Some "resize"); ("no-result", None); ("cost", Some "2");
    ("artifact-hash", Some "h"); ("artifact-url", Some "u")] : list arg).
  destruct (argv_parse_spec "propose" args) as (fl & Hp & Hfl); [reflexivity|by repeat constructor|].
  exists fl. split; [etrans; [|exact Hp]; f_equal; vm_compute; reflexivity|].
  pose (art := MkArtifactInfo "h" "u" []).
  rewrite (propose_read fl wire_job art true payload); try done; apply Hfl; apply (bool_decide_unpack _); vm_compute; exact I.
Qed.

Lemma propose_roundtrip_witness :
  ∃ fl, @argv_parse _ plain_argv (FormulateProposeV0Message wire_job wire_task (MkArtifactInfo "h" "u" ["d1"; "d2"]))
          = Ok ("propose", fl) ∧
    @proposeV0Factory _ plain_argv (MkFrame "propose" fl "") =
      Ok (MPropose (MkProposeMessage "01J" "" "resize" 2 true "h" "u" ["d1"; "d2"])).
Proof.
  destruct (@propose_roundtrip _ plain_argv no_parsers wire_job wire_task (MkArtifactInfo "h" "u" ["d1"; "d2"]) "")
    as (fl & Hp & Hok & _).
  - split_and!; try reflexivity. repeat constructor.
  - vm_compute. split; congruence.
  - discriminate.
  - discriminate.
  - exists fl. split; [exact Hp|]. apply Hok; discriminate.
Defined.

Lemma dispatch_roundtrip_witness :
  ∃ fl, @argv_parse _ plain_argv (FormulateDispatchV0Message wire_job "r9") = Ok ("dispatch", fl) ∧
    @dispatchV0Factory _ plain_argv no_parsers (MkFrame "dispatch" fl "{}") =
      Ok (MDispatch (MkDispatchMessage "01J" "r9" "run" 1 0 0 0 "{}")).
Proof.
  destruct (@dispatch_roundtrip _ plain_argv no_parsers wire_job "r9" "{}") as (fl & Hp & Hok);
    [reflexivity|reflexivity|discriminate|discriminate|vm_compute; split; congruence|].
  exists fl. split; [exact Hp|exact Hok].
Defined.
