(* ===== verification/Config.v ===== *)
(** * Configuration of the manager (src/manager/config.go, src/manager/artifact/registry.go)

    The settings the modelled code reads, the defaults [applyDefaults] writes
    and the checks of [validate].  Callbacks and interfaces that the code only
    tests for presence are booleans. *)
From S2P Require Import Prelude GoStd External Contract Webhooks.

(** ** What the manager asks of an artifact registry *)
Record ArtifactPlatform := MkArtifactPlatform {
  ap_Artifact : string;
  ap_Version : string;
  ap_OS : string;
  ap_Arch : string;
  ap_Hash : string;
  ap_Size : Z;
  ap_Dependencies : list string;
  ap_URL : string;
}.

Record ArtifactRegistry := MkArtifactRegistry {
  Resolve : string → string → string → res error ArtifactPlatform;
  ResolveVersion : string → string → string → string → res error ArtifactPlatform;
  ListPlatforms : string → string → res error (list ArtifactPlatform);
}.

(** A [uint8] range of exit codes. *)
Record ExitCodeRange := MkExitCodeRange { From : Z; To : Z }.

Record Config := MkConfig {
  (** stores, by presence *)
  has_JobStore : bool;
  has_TaskStore : bool;
  has_LogStore : bool;
  has_RunStore : bool;
  has_WebhookStore : bool;
  cfg_ArtifactsRegistry : option ArtifactRegistry;
  has_WorkerAuthFunc : bool;
  has_ClientAuthFunc : bool;
  NoWorkerAuth : bool;
  NoClientAuth : bool;
  cfg_Webhook : WebhookDispatcherConfig;
  HeartbeatTimeout : Duration;
  WorkerConnectPath : string;
  MaxArtifactUploadSize : Z;
  (** [urlsign], present when a signing key is configured *)
  cfg_urlSigner : option (string → res error string);
  ArtifactSignedURLTTL : Duration;
  DefaultRetryPolicy : RetryPolicy;
  StarvationTimeout : Duration;
  has_OnResourceShortage : bool;
  ScaleUpCooldown : Duration;
  IdleWorkerThreshold : Duration;
  has_OnIdleWorker : bool;
  ScaleDownCooldown : Duration;
  IdleWorkerEvaluationInterval : Duration;
  DefaultPanicExitCode : Z;
  DefaultDoNotRetryExitCodeRange : ExitCodeRange;
}.

#[export] Instance Config_rebuild : Rebuild Config := λ c,
  MkConfig (has_JobStore c) (has_TaskStore c) (has_LogStore c) (has_RunStore c) (has_WebhookStore c)
    (cfg_ArtifactsRegistry c) (has_WorkerAuthFunc c) (has_ClientAuthFunc c) (NoWorkerAuth c)
    (NoClientAuth c) (cfg_Webhook c) (HeartbeatTimeout c) (WorkerConnectPath c) (MaxArtifactUploadSize c)
    (cfg_urlSigner c) (ArtifactSignedURLTTL c) (DefaultRetryPolicy c) (StarvationTimeout c)
    (has_OnResourceShortage c) (ScaleUpCooldown c) (IdleWorkerThreshold c) (has_OnIdleWorker c)
    (ScaleDownCooldown c) (IdleWorkerEvaluationInterval c) (DefaultPanicExitCode c)
    (DefaultDoNotRetryExitCodeRange c).

Definition or_default (v d : Z) : Z := if (v =? 0)%Z then d else v.

Definition path_or (v d : string) : string := if bool_decide (v = "") then d else v.

Definition applyDefaults (c : Config) : Config :=
  let c := c <| IdleWorkerThreshold := or_default (IdleWorkerThreshold c) (5 * Minute) |>
             <| HeartbeatTimeout := or_default (HeartbeatTimeout c) (30 * Second) |>
             <| cfg_Webhook := MkWebhookDispatcherConfig
                  (or_default (WebhookTimeout (cfg_Webhook c)) Second)
                  (or_default (WebhookMaxBackoff (cfg_Webhook c)) (5 * Minute))
                  (MaxWebhookAttempts (cfg_Webhook c)) |>
             <| MaxArtifactUploadSize := or_default (MaxArtifactUploadSize c) (500 * 1024 * 1024) |>
             <| ArtifactSignedURLTTL := or_default (ArtifactSignedURLTTL c) Hour |>
             <| DefaultRetryPolicy := MkRetryPolicy
                  (or_default (MaxAttempts (DefaultRetryPolicy c)) 3)
                  (or_default (RetryDelay (DefaultRetryPolicy c)) Second)
                  (or_default (MaxRetryDelay (DefaultRetryPolicy c)) Minute) |>
             <| StarvationTimeout := or_default (StarvationTimeout c) (5 * Minute) |>
             <| ScaleUpCooldown := or_default (ScaleUpCooldown c) (30 * Second) |>
             <| ScaleDownCooldown := or_default (ScaleDownCooldown c) (60 * Second) |>
             <| IdleWorkerEvaluationInterval := or_default (IdleWorkerEvaluationInterval c) (15 * Minute) |>
             <| WorkerConnectPath := path_or (WorkerConnectPath c) "/workers/connect" |>
             <| DefaultPanicExitCode := or_default (DefaultPanicExitCode c) 2 |> in
  let r := DefaultDoNotRetryExitCodeRange c in
  let r := MkExitCodeRange (or_default (From r) 200) (To r) in
  let r := if (To r =? 0)%Z then MkExitCodeRange 254 (To r) else r in
  c <| DefaultDoNotRetryExitCodeRange := r |>.

Definition validate (c : Config) : option error :=
  if negb (has_JobStore c) then Some (ErrMsg "Jobs store is required")
  else if negb (has_TaskStore c) then Some (ErrMsg "Tasks store is required")
  else if negb (has_LogStore c) then Some (ErrMsg "Logs store is required")
  else if negb (has_RunStore c) then Some (ErrMsg "Run store is required")
  else if negb (has_WebhookStore c) then Some (ErrMsg "Webhooks store is required")
  else if bool_decide (cfg_ArtifactsRegistry c = None) then Some (ErrMsg "Artifact Registry is required")
  else if negb (has_WorkerAuthFunc c) && negb (NoWorkerAuth c) then Some (ErrMsg "WorkerAuthFunc is required")
  else if negb (has_ClientAuthFunc c) && negb (NoClientAuth c) then Some (ErrMsg "ClientAuthFunc is required")
  else None.

(** The exit codes that end a job without retry: the panic code and the configured range. *)
Definition do_not_retry (c : Config) (exitCode : Z) : bool :=
  (exitCode =? DefaultPanicExitCode c)%Z ||
  ((From (DefaultDoNotRetryExitCodeRange c) <=? exitCode)%Z &&
   (exitCode <=? To (DefaultDoNotRetryExitCodeRange c))%Z).

(** ** Properties *)

(** The default do-not-retry range is empty. A configuration that does not set the end of the range
    gets 254 as its start and keeps 0 as its end, so no exit code is in it and only the panic code (2 unless
    configured) ends a job without retry; the intended 200 to 254 is never in force. With the end set, the
    range runs from the configured start, or 200, to it. *)
Theorem default_no_retry_range (c : Config) (exitCode : Z) :
  let panic := (exitCode =? or_default (DefaultPanicExitCode c) 2)%Z in
  let range := DefaultDoNotRetryExitCodeRange c in
  do_not_retry (applyDefaults c) exitCode =
    if (To range =? 0)%Z then panic
    else panic || ((or_default (From range) 200 <=? exitCode)%Z && (exitCode <=? To range)%Z).
Proof.
  cbn -[or_default]. unfold do_not_retry, applyDefaults. cbn -[or_default].
  destruct (To (DefaultDoNotRetryExitCodeRange c) =? 0)%Z eqn:E; cbn -[or_default]; [|done]. zb. rewrite E.
  destruct (254 <=? exitCode)%Z eqn:E'; [|by rewrite orb_false_r].
  rewrite (proj2 (Z.leb_gt exitCode 0)); [by rewrite orb_false_r|zb; lia].
Qed.

Definition sample_config : Config :=
  MkConfig true true true true true (Some (MkArtifactRegistry (λ _ _ _, Err ErrArtifactNotFound)
      (λ _ _ _ _, Err ErrArtifactNotFound) (λ _ _, Ok []))) false false true true
    (MkWebhookDispatcherConfig 0 0 0) 0 "" 0 None 0 (MkRetryPolicy 0 0 0) 0 true 0 0 false 0 0 0
    (MkExitCodeRange 0 0).

