(* ===== verification/Registry.v ===== *)
(** * The filesystem artifact registry (src/manager/artifact/fsregistry.go, registry.go, seed.go)

    The registry keeps an index of versions in memory and one binary per
    platform plus one metadata file per version on disk.  The disk is a map from
    cleaned absolute paths to file contents; a directory is a path below which a
    file lies.  Of the errors of the file system the model has those that its
    contents cause: a file where a directory is wanted, a directory where a file
    is wanted, a file that must not exist yet.  Their texts omit what the operating
    system adds. *)
From S2P Require Import Prelude GoStd External Json Contract Config.

(** ** Versions *)
Record ArtifactVersion := MkArtifactVersion {
  av_Artifact : string;
  av_Version : string;
  av_PreRelease : bool;
  av_PublishedAt : Time;
  av_Platforms : list ArtifactPlatform;
  av_PlatformDeps : gmap string (list string);
}.

#[export] Instance ArtifactPlatform_rebuild : Rebuild ArtifactPlatform := λ p,
  MkArtifactPlatform (ap_Artifact p) (ap_Version p) (ap_OS p) (ap_Arch p) (ap_Hash p) (ap_Size p)
    (ap_Dependencies p) (ap_URL p).
#[export] Instance ArtifactVersion_rebuild : Rebuild ArtifactVersion := λ v,
  MkArtifactVersion (av_Artifact v) (av_Version v) (av_PreRelease v) (av_PublishedAt v) (av_Platforms v)
    (av_PlatformDeps v).

#[export] Instance ArtifactPlatform_eq_dec : EqDecision ArtifactPlatform.
Proof. solve_decision. Defined.
#[export] Instance ArtifactVersion_eq_dec : EqDecision ArtifactVersion.
Proof. solve_decision. Defined.

(** A nil or absent list is the empty one. *)
Definition platformDeps (v : ArtifactVersion) (key : string) : list string := default [] (av_PlatformDeps v !! key).

(** What [meta.json] keeps of a version: [PlatformDeps] is tagged ["-"]. *)
Definition stored_version (v : ArtifactVersion) : ArtifactVersion := v <| av_PlatformDeps := ∅ |>.

(** [encoding/json] on versions, and the hex SHA-256 of a binary.  A version is representable when its strings are
    valid UTF-8 (other bytes are replaced) and its publication time lies in the years 0 to 9999 (others do not
    marshal); such a version is written and reads back. *)
Class RegistryCodec := {
  rep_version : ArtifactVersion → Prop;
  meta_marshal : ArtifactVersion → res error string;
  meta_unmarshal : string → res error ArtifactVersion;
  meta_roundtrip v : rep_version v → ∃ s, meta_marshal v = Ok s ∧ meta_unmarshal s = Ok (stored_version v);
  sha256_hex : string → string;
}.

(** ** Paths ([path/filepath] on absolute paths) *)
Notation path := (list string) (only parsing).

Definition clean_step (acc : path) (e : string) : path :=
  if bool_decide (e = "") || bool_decide (e = ".") then acc
  else if bool_decide (e = "..") then removelast acc
  else acc ++ [e].

Definition filepath_Join (elems : list string) : path := foldl clean_step [] (elems ≫= strings_Split "/").

(** ** The disk *)
Notation disk := (gmap (list string) string).

(** Something exists below the path. *)
Definition is_dir (d : disk) (p : path) : bool :=
  existsb (λ q, bool_decide (p `prefix_of` q) && (length p <? length q)) (map_to_list d).*1.

(** [os.MkdirAll]: no prefix of the path is a file. *)
Definition mkdir_ok (d : disk) (p : path) : bool :=
  forallb (λ n, bool_decide (d !! take n p = None)) (seq 0 (S (length p))).

(** Names of the directories directly inside a directory, as [os.ReadDir] sorts them. *)
Definition subdirs (d : disk) (p : path) : list string :=
  isort String.ltb
    (elements (list_to_set (omap (λ q, if bool_decide (p `prefix_of` q) && (S (length p) <? length q)
                                       then q !! length p else None) (map_to_list d).*1) : gset string)).

(** ** The registry *)
Record FsRegistry := MkFsRegistry {
  fr_dir : string;
  fr_baseURL : string;
  fr_versions : gmap string (list ArtifactVersion);
  fr_disk : disk;
}.

#[export] Instance FsRegistry_rebuild : Rebuild FsRegistry := λ r,
  MkFsRegistry (fr_dir r) (fr_baseURL r) (fr_versions r) (fr_disk r).

Definition binaryPath (r : FsRegistry) (artifact version os arch : string) : path :=
  filepath_Join [fr_dir r; artifact; version; os; arch; "binary"].

Definition metaPath (r : FsRegistry) (artifact version : string) : path :=
  filepath_Join [fr_dir r; artifact; version; "meta.json"].

Definition withURL (r : FsRegistry) (p : ArtifactPlatform) : ArtifactPlatform :=
  p <| ap_URL := fr_baseURL r +:+ "/tasks/" +:+ ap_Artifact p +:+ "/artifacts/" +:+ ap_Version p +:+ "/"
                 +:+ ap_OS p +:+ "/" +:+ ap_Arch p |>.

Definition splitPlatformKey (key : string) : res error (string * string) :=
  match cut_at "_" key with
  | Some (os, arch) =>
      if bool_decide (os = "") || bool_decide (arch = "")
      then Err (ErrMsg ("invalid platform key " +:+ Quote key +:+ ": expected os_arch format"))
      else Ok (os, arch)
  | None => Err (ErrMsg ("invalid platform key " +:+ Quote key +:+ ": expected os_arch format"))
  end.

Definition for_platform (os arch : string) (p : ArtifactPlatform) : bool :=
  bool_decide (ap_OS p = os) && bool_decide (ap_Arch p = arch).

(** The first element a predicate holds of. *)
Definition first {A} (f : A → bool) (l : list A) : option A := snd <$> list_find (λ x, f x = true) l.

(** [versions[artifact]], empty when absent. *)
Definition versions_of (r : FsRegistry) (artifact : string) : list ArtifactVersion :=
  default [] (fr_versions r !! artifact).

Definition findPlatformLocked (r : FsRegistry) (artifact version os arch : string) : option ArtifactPlatform :=
  first (for_platform os arch)
    (filter (λ v, av_Version v = version) (versions_of r artifact) ≫= av_Platforms).

Section registry.
Context `{GoRuntime} `{RegistryCodec}.
Implicit Types (r : FsRegistry) (v : ArtifactVersion).

Definition later_first (a b : ArtifactVersion) : bool := After (av_PublishedAt a) (av_PublishedAt b).

Definition writeMeta r v : FsRegistry * option error :=
  let p := metaPath r (av_Artifact v) (av_Version v) in
  if negb (mkdir_ok (fr_disk r) (removelast p)) then (r, Some (ErrMsg "fs registry: writeMeta mkdir"))
  else match meta_marshal v with
       | Err e => (r, Some (ErrMsg ("fs registry: marshal meta: " +:+ Error e)))
       | Ok data =>
           if is_dir (fr_disk r) p then (r, Some (ErrMsg "is a directory"))
           else (r <| fr_disk := <[p := data]> (fr_disk r) |>, None)
       end.

(** The first loop of [Publish]: the error it returns, if any. *)
Fixpoint find_conflict r v (keys : list string) : option error :=
  match keys with
  | [] => None
  | key :: keys =>
      match splitPlatformKey key with
      | Err e => Some (ErrMsg ("publish: " +:+ Error e))
      | Ok (os, arch) =>
          match findPlatformLocked r (av_Artifact v) (av_Version v) os arch with
          | Some _ => Some ErrArtifactAlreadyExists
          | None => find_conflict r v keys
          end
      end
  end.

(** The second loop: a reader that fails after some bytes is an [Err]. *)
Fixpoint write_binaries r v (binaries : list (string * res error string))
  : FsRegistry * res error (list ArtifactPlatform) :=
  match binaries with
  | [] => (r, Ok [])
  | (key, reader) :: binaries =>
      match splitPlatformKey key with
      | Err e => (r, Err (ErrMsg ("publish: " +:+ Error e)))
      | Ok (os, arch) =>
          let dest := binaryPath r (av_Artifact v) (av_Version v) os arch in
          if negb (mkdir_ok (fr_disk r) (removelast dest)) then (r, Err (ErrMsg "publish: mkdir"))
          else if bool_decide (fr_disk r !! dest ≠ None) || is_dir (fr_disk r) dest
          then (r, Err ErrArtifactAlreadyExists)
          else match reader with
               | Err e => (r, Err (ErrMsg ("publish: write binary: " +:+ Error e)))
               | Ok content =>
                   let r := r <| fr_disk := <[dest := content]> (fr_disk r) |> in
                   let p := MkArtifactPlatform (av_Artifact v) (av_Version v) os arch (sha256_hex content)
                              (Z.of_nat (String.length content)) (platformDeps v key) "" in
                   let '(r, rest) := write_binaries r v binaries in
                   (r, match rest with Ok ps => Ok (p :: ps) | Err e => Err e end)
               end
      end
  end.

Definition Publish r v (binaries : gmap string (res error string)) (now : Time) : FsRegistry * option error :=
  match find_conflict r v (range_map binaries).*1 with
  | Some e => (r, Some e)
  | None =>
      match write_binaries r v (range_map binaries) with
      | (r, Err e) => (r, Some e)
      | (r, Ok platforms) =>
          let v := v <| av_Platforms := platforms |> in
          let v := if IsZero (av_PublishedAt v) then v <| av_PublishedAt := now |> else v in
          match writeMeta r v with
          | (r, Some e) => (r, Some e)
          | (r, None) =>
              (r <| fr_versions := <[av_Artifact v := sort_slice later_first (versions_of r (av_Artifact v) ++ [v])]>
                                     (fr_versions r) |>, None)
          end
      end
  end.

Definition fs_Resolve r (artifact os arch : string) : res error ArtifactPlatform :=
  match first (for_platform os arch)
          (filter (λ v, av_PreRelease v = false) (versions_of r artifact) ≫= av_Platforms) with
  | Some p => Ok (withURL r p)
  | None => Err ErrArtifactNotFound
  end.

Definition fs_ResolveVersion r (artifact version os arch : string) : res error ArtifactPlatform :=
  match findPlatformLocked r artifact version os arch with
  | Some p => Ok (withURL r p)
  | None => Err ErrArtifactNotFound
  end.

(** The copies share the index's platform slices, so the addresses written into them stay there. *)
Definition ListVersions r (artifact : string) : FsRegistry * list ArtifactVersion :=
  let out := (λ v, v <| av_Platforms := withURL r <$> av_Platforms v |>) <$> versions_of r artifact in
  (r <| fr_versions := alter (λ _, out) artifact (fr_versions r) |>, out).

Definition fs_ListPlatforms r (artifact version : string) : res error (list ArtifactPlatform) :=
  match first (λ v, if bool_decide (version ≠ "") then bool_decide (av_Version v = version)
                    else negb (av_PreRelease v)) (versions_of r artifact) with
  | Some v => Ok (withURL r <$> av_Platforms v)
  | None => Ok []
  end.

(** [os.RemoveAll] of the artifact's directory. *)
Definition DeleteArtifact r (artifact : string) : FsRegistry :=
  let dir := filepath_Join [fr_dir r; artifact] in
  r <| fr_disk := filter (λ '(q, _), ¬ dir `prefix_of` q) (fr_disk r) |>
    <| fr_versions := delete artifact (fr_versions r) |>.

Definition ServeFile r (artifact version os arch : string) : res error path :=
  let p := binaryPath r artifact version os arch in
  if bool_decide (fr_disk r !! p ≠ None) || is_dir (fr_disk r) p then Ok p else Err ErrArtifactNotFound.

(** ** Loading *)
Definition readMeta r (artifact version : string) : res error ArtifactVersion :=
  match fr_disk r !! metaPath r artifact version with
  | None => Err (ErrMsg "no such file or directory")
  | Some data => meta_unmarshal data
  end.

Definition load_artifact r (artifact : string) : list ArtifactVersion :=
  sort_slice later_first (omap (λ version, match readMeta r artifact version with Ok m => Some m | Err _ => None end)
                     (subdirs (fr_disk r) (filepath_Join [fr_dir r; artifact]))).

Definition loadAll r : FsRegistry :=
  foldl (λ r artifact, match load_artifact r artifact with
                       | [] => r
                       | l => r <| fr_versions := <[artifact := l]> (fr_versions r) |>
                       end) r (subdirs (fr_disk r) (filepath_Join [fr_dir r])).

Definition NewFsRegistry (dir baseURL : string) (d : disk) : res error FsRegistry :=
  if negb (mkdir_ok d (filepath_Join [dir])) then Err (ErrMsg "fs registry: create dir")
  else Ok (loadAll (MkFsRegistry dir (TrimRight "/" baseURL) ∅ d)).

(** ** Seeding *)
Record SeedEntry := MkSeedEntry {
  se_Name : string;
  se_Version : string;
  se_PreRelease : bool;
  se_Binaries : gmap string string;
  se_Dependencies : gmap string (list string);
}.

(** [open_file] is [os.Open] followed by reading: the outer error is that of opening. *)
Definition seedOne (open_file : string → res error (res error string)) r (entry : SeedEntry) (now : Time)
  : FsRegistry * option error :=
  match first (λ p, match open_file p with Err _ => true | Ok _ => false end) (range_map (se_Binaries entry)).*2 with
  | Some p => (r, Some (ErrMsg ("seed " +:+ Quote (se_Name entry) +:+ " " +:+ se_Version entry +:+ ": open " +:+ Quote p)))
  | None =>
      let binaries := (λ p, match open_file p with Ok reader => reader | Err e => Err e end) <$> se_Binaries entry in
      let version := MkArtifactVersion (se_Name entry) (se_Version entry) (se_PreRelease entry) now []
                       (se_Dependencies entry) in
      match Publish r version binaries now with
      | (r, None) | (r, Some ErrArtifactAlreadyExists) => (r, None)
      | (r, Some e) => (r, Some (ErrMsg ("seed " +:+ Quote (se_Name entry) +:+ " " +:+ se_Version entry +:+ ": " +:+ Error e)))
      end
  end.

Fixpoint Seed (open_file : string → res error (res error string)) r (seeds : list SeedEntry) (now : Time)
  : FsRegistry * option error :=
  match seeds with
  | [] => (r, None)
  | entry :: seeds =>
      match seedOne open_file r entry now with
      | (r, None) => Seed open_file r seeds now
      | (r, Some e) => (r, Some e)
      end
  end.

(** The registry as the manager sees it. *)
Definition fs_registry r : ArtifactRegistry :=
  MkArtifactRegistry (fs_Resolve r) (fs_ResolveVersion r) (fs_ListPlatforms r).
End registry.
