(* ===== verification/RegistryProps.v ===== *)
(** * Properties of the filesystem registry

    Which files a registry of plainly named artifacts holds, what publishing
    adds to the index and the disk, and what a restart reads back. *)
From S2P Require Import Prelude GoStd External Json Contract Config Registry.

(** ** Paths of plain names *)
Definition plain_name (s : string) : Prop := s ≠ "" ∧ s ≠ "." ∧ s ≠ ".." ∧ no_char "/" s = true.

#[export] Instance plain_name_dec s : Decision (plain_name s).
Proof. apply _. Defined.

Definition base (r : FsRegistry) : path := filepath_Join [fr_dir r].

Lemma clean_plain acc s : plain_name s → clean_step acc s = acc ++ [s].
Proof. intros (? & ? & ? & _). unfold clean_step. by rewrite !bool_decide_eq_false_2. Qed.

Lemma join_plain dir names : Forall plain_name names → filepath_Join (dir :: names) = filepath_Join [dir] ++ names.
Proof.
  intros Hn. unfold filepath_Join. cbn [mbind list_bind]. rewrite app_nil_r, foldl_app.
  generalize (foldl clean_step [] (strings_Split "/" dir)). induction Hn as [|s names Hs _ IH]; intros acc; cbn.
  { by rewrite app_nil_r. }
  rewrite (Split_no_char "/" s) by apply Hs. cbn. rewrite clean_plain, IH, <- app_assoc by done. done.
Qed.

Lemma cut_at_Some c s x y : cut_at c s = Some (x, y) → s = x +:+ String c y.
Proof.
  revert x. induction s as [|d s IH]; intros x; simpl; [done|]. case_decide; [by intros [= <- <-]; subst|].
  intros ([x' y'] & Hc & [= <- <-])%bind_Some. by rewrite (IH _ Hc).
Qed.

Lemma splitPlatformKey_inj k1 k2 p : splitPlatformKey k1 = Ok p → splitPlatformKey k2 = Ok p → k1 = k2.
Proof.
  unfold splitPlatformKey. intros H1 H2.
  destruct (cut_at "_" k1) as [[x1 y1]|] eqn:E1; [|done]. destruct (cut_at "_" k2) as [[x2 y2]|] eqn:E2; [|done].
  apply cut_at_Some in E1, E2. repeat case_match; simplify_eq. done.
Qed.

(** Platforms whose directory is not mistaken for the metadata file. *)
Definition good_platform (os arch : string) : Prop := plain_name os ∧ plain_name arch ∧ os ≠ "meta.json".

Lemma plain_binary : plain_name "binary" ∧ plain_name "meta.json".
Proof. split; apply (bool_decide_unpack _); by vm_compute. Qed.

Lemma binaryPath_plain r a v os arch : plain_name a → plain_name v → good_platform os arch →
  binaryPath r a v os arch = base r ++ [a; v; os; arch; "binary"].
Proof.
  intros Ha Hv (Ho & Hr & _). destruct plain_binary. apply join_plain. auto 10 using Forall_cons_2, Forall_nil_2.
Qed.

Lemma metaPath_plain r a v : plain_name a → plain_name v → metaPath r a v = base r ++ [a; v; "meta.json"].
Proof. intros Ha Hv. destruct plain_binary. apply join_plain. auto 10 using Forall_cons_2, Forall_nil_2. Qed.

(** ** Files of a registry *)
Definition registry_file (r : FsRegistry) (p : path) : Prop :=
  ∃ a v, plain_name a ∧ plain_name v ∧
    (p = base r ++ [a; v; "meta.json"] ∨
     ∃ os arch, good_platform os arch ∧ p = base r ++ [a; v; os; arch; "binary"]).

Definition disk_ok (r : FsRegistry) : Prop := ∀ p c, fr_disk r !! p = Some c → registry_file r p.

Lemma mkdir_ok_true (d : disk) p : (∀ q c, d !! q = Some c → ¬ q `prefix_of` p) → mkdir_ok d p = true.
Proof.
  intros Hd. unfold mkdir_ok. apply forallb_forall. intros n _. apply bool_decide_eq_true.
  destruct (d !! take n p) as [c|] eqn:E; [|done]. destruct (Hd _ _ E). apply prefix_take.
Qed.

Lemma is_dir_false (d : disk) p : (∀ q c, d !! q = Some c → p `prefix_of` q → length q ≤ length p) → is_dir d p = false.
Proof.
  intros Hd. destruct (is_dir d p) eqn:E; [|done]. unfold is_dir in E.
  apply existsb_exists in E as (q & Hq & [Hp Hl]%andb_prop). apply bool_decide_eq_true in Hp. apply Nat.ltb_lt in Hl.
  apply list_elem_of_In, list_elem_of_fmap in Hq as ([q' c] & -> & Hqc%elem_of_map_to_list). specialize (Hd _ _ Hqc Hp).
  simpl in *. lia.
Qed.

Lemma is_dir_true (d : disk) p q c : d !! q = Some c → p `prefix_of` q → length p < length q → is_dir d p = true.
Proof.
  intros Hd Hp Hl. apply existsb_exists. exists q. split.
  - apply list_elem_of_In, list_elem_of_fmap. exists (q, c). by rewrite elem_of_map_to_list.
  - rewrite bool_decide_eq_true_2 by done. by apply Nat.ltb_lt.
Qed.

Lemma removelast_path (b : path) l x : removelast (b ++ l ++ [x]) = b ++ l.
Proof. by rewrite app_assoc, removelast_last. Qed.

Section files.
Implicit Types (r : FsRegistry).

Lemma mkdir_binary r a v os arch : disk_ok r → good_platform os arch →
  mkdir_ok (fr_disk r) (base r ++ [a; v; os; arch]) = true.
Proof.
  intros Hd (_ & _ & Hos). apply mkdir_ok_true. intros q c Hq Hp.
  destruct (Hd _ _ Hq) as (a' & v' & _ & _ & [->|(os' & arch' & _ & ->)]); apply prefix_app_inv in Hp.
  - destruct Hp as [k Hk]. by simplify_list_eq.
  - apply prefix_length in Hp. simpl in Hp. lia.
Qed.

Lemma mkdir_meta r a v : disk_ok r → mkdir_ok (fr_disk r) (base r ++ [a; v]) = true.
Proof.
  intros Hd. apply mkdir_ok_true. intros q c Hq Hp.
  destruct (Hd _ _ Hq) as (a' & v' & _ & _ & [->|(os' & arch' & _ & ->)]);
    apply prefix_app_inv, prefix_length in Hp; simpl in Hp; lia.
Qed.

Lemma binary_no_dir r a v os arch : disk_ok r → is_dir (fr_disk r) (base r ++ [a; v; os; arch; "binary"]) = false.
Proof.
  intros Hd. apply is_dir_false. intros q c Hq _. rewrite length_app.
  destruct (Hd _ _ Hq) as (a' & v' & _ & _ & [->|(os' & arch' & _ & ->)]); rewrite length_app; simpl; lia.
Qed.

Lemma meta_no_dir r a v : disk_ok r → is_dir (fr_disk r) (base r ++ [a; v; "meta.json"]) = false.
Proof.
  intros Hd. apply is_dir_false. intros q c Hq Hp.
  destruct (Hd _ _ Hq) as (a' & v' & _ & _ & [->|(os' & arch' & (_ & _ & Hos) & ->)]).
  { by rewrite !length_app. }
  apply prefix_app_inv in Hp as [k Hk]. by simplify_list_eq.
Qed.
End files.

(** ** The index *)
Definition platform_id (p : ArtifactPlatform) : string * string * string := (ap_Version p, ap_OS p, ap_Arch p).

Definition all_platforms (r : FsRegistry) (a : string) : list ArtifactPlatform := versions_of r a ≫= av_Platforms.

Lemma first_Some {A} (f : A → bool) l x : first f l = Some x → x ∈ l ∧ f x = true.
Proof.
  unfold first. intros ([i y] & Hf & ->)%fmap_Some. apply list_find_Some in Hf as (Hi & Hy & _).
  split; [by eapply list_elem_of_lookup_2|done].
Qed.

Lemma first_None {A} (f : A → bool) l : first f l = None ↔ ∀ x, x ∈ l → f x = false.
Proof.
  unfold first. rewrite fmap_None, list_find_None, Forall_forall. split.
  - intros Hall x Hx. apply not_true_iff_false. by apply Hall.
  - intros Hall x Hx. rewrite (Hall x Hx). done.
Qed.

Lemma first_app_l {A} (f : A → bool) l k x : first f l = Some x → first f (l ++ k) = Some x.
Proof.
  unfold first. intros ([i y] & Hf & ->)%fmap_Some. by rewrite (list_find_app_l _ _ _ _ _ Hf).
Qed.

Lemma first_app_r {A} (f : A → bool) l k : first f l = None → first f (l ++ k) = first f k.
Proof.
  unfold first. intros Hn%fmap_None. rewrite list_find_app_r by done. by destruct (list_find _ k) as [[]|].
Qed.

Lemma NoDup_fmap_unique {A B} (f : A → B) l x y : NoDup (f <$> l) → x ∈ l → y ∈ l → f x = f y → x = y.
Proof.
  intros Hnd [i Hi]%list_elem_of_lookup [j Hj]%list_elem_of_lookup Heq.
  assert (i = j) as ->; [|congruence]. eapply NoDup_lookup; [exact Hnd|..]; rewrite list_lookup_fmap.
  - by rewrite Hi.
  - rewrite Hj. simpl. by rewrite Heq.
Qed.

(** The index is sorted, names what it lists, lists no platform twice and only platforms with a binary. *)
Record index_ok (r : FsRegistry) : Prop := {
  io_sorted a : StronglySorted (not_after later_first) (versions_of r a);
  io_names a v : v ∈ versions_of r a → av_Artifact v = a ∧ plain_name a ∧ plain_name (av_Version v);
  io_platforms a v p : v ∈ versions_of r a → p ∈ av_Platforms v →
    ap_Artifact p = a ∧ ap_Version p = av_Version v ∧ good_platform (ap_OS p) (ap_Arch p) ∧
    is_Some (fr_disk r !! (base r ++ [a; ap_Version p; ap_OS p; ap_Arch p; "binary"]));
  io_unique a : NoDup (platform_id <$> all_platforms r a);
}.

Lemma elem_of_all_platforms r a p : p ∈ all_platforms r a ↔ ∃ v, v ∈ versions_of r a ∧ p ∈ av_Platforms v.
Proof. unfold all_platforms. rewrite list_elem_of_bind. naive_solver. Qed.

Lemma findPlatform_Some r a v os arch p : index_ok r →
  findPlatformLocked r a v os arch = Some p ↔ p ∈ all_platforms r a ∧ platform_id p = (v, os, arch).
Proof.
  intros Hi. unfold findPlatformLocked. split.
  - intros [Hin Hf]%first_Some. apply list_elem_of_bind in Hin as (x & Hp & [Hv Hx]%list_elem_of_filter).
    unfold for_platform in Hf. apply andb_prop in Hf as [<-%bool_decide_eq_true <-%bool_decide_eq_true].
    split; [rewrite elem_of_all_platforms; by eauto|]. unfold platform_id.
    destruct (io_platforms _ Hi a x p Hx Hp) as (_ & -> & _). by rewrite Hv.
  - intros [Hin Hid]. destruct (first _ _) as [q|] eqn:Hq.
    + apply first_Some in Hq as [Hq Hf]. apply list_elem_of_bind in Hq as (x & Hp & [Hv Hx]%list_elem_of_filter).
      unfold for_platform in Hf. apply andb_prop in Hf as [Ho%bool_decide_eq_true Ha%bool_decide_eq_true].
      f_equal. eapply (NoDup_fmap_unique platform_id); [exact (io_unique _ Hi a)|rewrite elem_of_all_platforms; by eauto|done|].
      rewrite Hid. unfold platform_id. destruct (io_platforms _ Hi a x q Hx Hp) as (_ & -> & _). by rewrite Hv, Ho, Ha.
    + apply elem_of_all_platforms in Hin as (x & Hx & Hp). rewrite first_None in Hq. specialize (Hq p).
      destruct (io_platforms _ Hi a x p Hx Hp) as (_ & Hver & _). unfold platform_id in Hid. simplify_eq.
      unfold for_platform in Hq. rewrite !bool_decide_eq_true_2 in Hq by done. discriminate Hq.
      apply list_elem_of_bind. exists x. split; [done|]. apply list_elem_of_filter. by rewrite Hver.
Qed.

Lemma resolve_version_iff r a v os arch p : index_ok r →
  fs_ResolveVersion r a v os arch = Ok p ↔
    ∃ p0, p0 ∈ all_platforms r a ∧ platform_id p0 = (v, os, arch) ∧ p = withURL r p0.
Proof.
  intros Hi. unfold fs_ResolveVersion. split.
  - destruct (findPlatformLocked r a v os arch) as [p0|] eqn:Hp; [|done]. intros [= <-].
    apply findPlatform_Some in Hp as [? ?]; [|done]. by eauto.
  - intros (p0 & Hin & Hid & ->). rewrite (proj2 (findPlatform_Some r a v os arch p0 Hi)) by done. done.
Qed.

(** ** What publishing adds *)
Section publishing.
Context `{GoRuntime} `{RegistryCodec}.
Implicit Types (r : FsRegistry) (v : ArtifactVersion).

(** The platform a binary becomes. *)
Definition platform_of v (key os arch content : string) : ArtifactPlatform :=
  MkArtifactPlatform (av_Artifact v) (av_Version v) os arch (sha256_hex content)
    (Z.of_nat (String.length content)) (platformDeps v key) "".

(** A binary that can be stored: a well-formed key, readable contents, nothing in its place. *)
Definition storable r v (b : string * res error string) : Prop :=
  ∃ os arch content, splitPlatformKey b.1 = Ok (os, arch) ∧ b.2 = Ok content ∧ good_platform os arch ∧
    fr_disk r !! (base r ++ [av_Artifact v; av_Version v; os; arch; "binary"]) = None.

(** [p] describes [b], which is on the disk of [r]. *)
Definition described r v (b : string * res error string) (p : ArtifactPlatform) : Prop :=
  ∃ os arch content, splitPlatformKey b.1 = Ok (os, arch) ∧ b.2 = Ok content ∧ good_platform os arch ∧
    p = platform_of v b.1 os arch content ∧
    fr_disk r !! (base r ++ [av_Artifact v; av_Version v; os; arch; "binary"]) = Some content.

Lemma write_binaries_spec v bs r : plain_name (av_Artifact v) → plain_name (av_Version v) → disk_ok r →
  NoDup bs.*1 → Forall (storable r v) bs →
  ∃ d ps, write_binaries r v bs = (r <| fr_disk := d |>, Ok ps) ∧ disk_ok (r <| fr_disk := d |>) ∧
    Forall2 (described (r <| fr_disk := d |>) v) bs ps ∧
    (∀ q c, fr_disk r !! q = Some c → d !! q = Some c) ∧
    ∀ q c, d !! q = Some c → fr_disk r !! q = Some c ∨
      ∃ os arch, good_platform os arch ∧ q = base r ++ [av_Artifact v; av_Version v; os; arch; "binary"].
Proof.
  intros Ha Hv. revert r. induction bs as [|[key reader] bs IH]; intros r Hd Hnd Hst.
  { exists (fr_disk r), []. split_and!; try done; [by destruct r|by left]. }
  apply Forall_cons in Hst as [(os & arch & content & Hk & Hr & Hg & Hfree) Hst]. cbn [fst snd] in Hk, Hr. subst reader.
  rewrite fmap_cons in Hnd. apply NoDup_cons in Hnd as [Hnk Hnd]. cbn [fst] in Hnk.
  cbn [write_binaries]. rewrite Hk, binaryPath_plain by done. set (dest := base r ++ _).
  change dest with (base r ++ [av_Artifact v; av_Version v; os; arch] ++ ["binary"]) at 1.
  rewrite removelast_path, mkdir_binary by done. cbn [negb].
  rewrite bool_decide_eq_false_2 by (intros Hne; by apply Hne).
  assert (is_dir (fr_disk r) dest = false) as -> by by apply binary_no_dir. cbn [orb]. cbn zeta.
  set (r1 := r <| fr_disk := <[dest := content]> (fr_disk r) |>).
  destruct (IH r1) as (d & ps & Hw & Hd' & Hall & Hold & Hnew); [|done| |].
  { intros q c. change (fr_disk r1) with (<[dest := content]> (fr_disk r)).
    intros [[<- _]|[_ Hq]]%lookup_insert_Some; [|by eapply Hd].
    exists (av_Artifact v), (av_Version v). split_and!; try done. right. by exists os, arch. }
  { apply Forall_forall. intros [k2 b2] Hin. destruct (proj1 (Forall_forall _ _) Hst _ Hin) as (os2 & arch2 & c2 & Hk2 & Hr2 & Hg2 & Hf2).
    exists os2, arch2, c2. split_and!; try done. simpl. rewrite lookup_insert_ne; [done|]. unfold dest. intros E.
    simplify_list_eq. apply Hnk. rewrite (splitPlatformKey_inj key k2 (os2, arch2)) by done.
    exact (list_elem_of_fmap_2 fst _ _ Hin). }
  match goal with |- context [write_binaries ?x v bs] => change x with r1 end.
  rewrite Hw. exists d, (platform_of v key os arch content :: ps). split_and!; [done|done|..].
  - constructor; [|done]. exists os, arch, content. split_and!; try done. apply Hold. simpl. apply lookup_insert_eq.
  - intros q c Hq. apply Hold. simpl. rewrite lookup_insert_ne; [done|]. intros <-. unfold dest in Hq. congruence.
  - intros q c Hq. specialize (Hnew q c Hq). change (fr_disk r1) with (<[dest := content]> (fr_disk r)) in Hnew.
    destruct Hnew as [[[<- _]|[_ ?]]%lookup_insert_Some|?]; [|by left|by right].
    right. by exists os, arch.
Qed.

Lemma find_conflict_None r v bs : index_ok r → Forall (storable r v) bs → find_conflict r v bs.*1 = None.
Proof.
  intros Hi Hst. induction Hst as [|[key reader] bs (os & arch & c & Hk & _ & Hg & Hfree) _ IH]; [done|].
  cbn [fst] in Hk. cbn [fmap list_fmap find_conflict fst]. rewrite Hk.
  destruct (findPlatformLocked _ _ _ os arch) as [p|] eqn:Hp; [exfalso|exact IH].
  apply findPlatform_Some in Hp as [(x & Hx & Hin)%elem_of_all_platforms Hid]; [|done].
  destruct (io_platforms _ Hi _ x p Hx Hin) as (_ & _ & _ & [c' Hc']). unfold platform_id in Hid. simplify_eq. congruence.
Qed.

Lemma described_ids r v bs ps : NoDup bs.*1 → Forall2 (described r v) bs ps → NoDup (platform_id <$> ps).
Proof.
  intros Hnd Hall. revert Hnd.
  induction Hall as [|[k b] p bs ps (os & arch & c & Hk & _ & _ & -> & _) Hall IH]; intros Hnd; [apply NoDup_nil_2|].
  rewrite fmap_cons in Hnd. rewrite fmap_cons. apply NoDup_cons in Hnd as [Hnk Hnd]. apply NoDup_cons. split; [|by apply IH].
  rewrite list_elem_of_fmap. intros (q & Hq & Hin). apply Hnk.
  apply list_elem_of_lookup in Hin as [i Hi]. destruct (Forall2_lookup_r _ _ _ _ _ Hall Hi) as ([k2 b2] & Hb & Hd).
  destruct Hd as (os2 & arch2 & c2 & Hk2 & _ & _ & -> & _). unfold platform_id in Hq. simpl in Hq, Hk, Hk2. simplify_eq.
  rewrite (splitPlatformKey_inj k k2 (os2, arch2)) by done. eapply list_elem_of_lookup_2. by rewrite list_lookup_fmap, Hb.
Qed.

(** The version that enters the index. *)
Definition published v ps (now : Time) : ArtifactVersion :=
  let v := v <| av_Platforms := ps |> in if IsZero (av_PublishedAt v) then v <| av_PublishedAt := now |> else v.

Lemma published_same v ps now : av_Artifact (published v ps now) = av_Artifact v ∧
  av_Version (published v ps now) = av_Version v ∧ av_Platforms (published v ps now) = ps ∧
  av_PreRelease (published v ps now) = av_PreRelease v.
Proof. unfold published. cbn zeta. by destruct (IsZero _). Qed.

(** Whatever builds are read from the upload, the version can be written as JSON. *)
Definition rep_upload v (bs : gmap string (res error string)) (now : Time) : Prop :=
  ∀ ps, (∀ p, p ∈ ps → ∃ key os arch content, bs !! key = Some (Ok content) ∧ splitPlatformKey key = Ok (os, arch) ∧
           p = platform_of v key os arch content) →
    rep_version (published v ps now).

Lemma described_read r v bs ps p : Forall2 (described r v) (range_map bs) ps → p ∈ ps →
  ∃ key os arch content, bs !! key = Some (Ok content) ∧ splitPlatformKey key = Ok (os, arch) ∧
    p = platform_of v key os arch content.
Proof.
  intros Hall [i Hi]%list_elem_of_lookup. destruct (Forall2_lookup_r _ _ _ _ _ Hall Hi) as ([key b] & Hb & Hd).
  destruct Hd as (os & arch & content & Hk & Hc & _ & -> & _). cbn [fst snd] in *. subst b.
  apply list_elem_of_lookup_2, elem_of_range_map in Hb. by exists key, os, arch, content.
Qed.

(** What a successful publication has done. *)
Record did_publish r v bs (now : Time) r' ps (data : string) : Prop := {
  dp_dir : fr_dir r' = fr_dir r;
  dp_url : fr_baseURL r' = fr_baseURL r;
  dp_platforms : Forall2 (described r' v) (range_map bs) ps;
  dp_storable : Forall (storable r v) (range_map bs);
  dp_data : meta_unmarshal data = Ok (stored_version (published v ps now));
  dp_versions : fr_versions r' = <[av_Artifact v :=
    sort_slice later_first (versions_of r (av_Artifact v) ++ [published v ps now])]> (fr_versions r);
  dp_meta : fr_disk r' !! (base r ++ [av_Artifact v; av_Version v; "meta.json"]) = Some data;
  dp_kept q c : fr_disk r !! q = Some c → q ≠ base r ++ [av_Artifact v; av_Version v; "meta.json"] → fr_disk r' !! q = Some c;
  dp_new q c : fr_disk r' !! q = Some c → fr_disk r !! q = Some c ∨
    q = base r ++ [av_Artifact v; av_Version v; "meta.json"] ∨
    ∃ os arch, good_platform os arch ∧ q = base r ++ [av_Artifact v; av_Version v; os; arch; "binary"];
}.

Lemma Publish_spec r v bs now : disk_ok r → index_ok r → rep_upload v bs now →
  plain_name (av_Artifact v) → plain_name (av_Version v) → Forall (storable r v) (range_map bs) →
  ∃ r' ps data, Publish r v bs now = (r', None) ∧ did_publish r v bs now r' ps data.
Proof.
  intros Hd Hi Hmarshal Ha Hv Hst. unfold Publish. rewrite find_conflict_None by done.
  destruct (write_binaries_spec v (range_map bs) r Ha Hv Hd (range_map_NoDup bs) Hst) as (d & ps & -> & Hd' & Hall & Hold & Hnew).
  set (r1 := r <| fr_disk := d |>) in *. cbn zeta. fold (published v ps now).
  destruct (published_same v ps now) as (Ea & Ev & Ep & _). unfold writeMeta. rewrite Ea, Ev, metaPath_plain by done.
  set (mp := base r1 ++ _). change mp with (base r1 ++ [av_Artifact v; av_Version v] ++ ["meta.json"]) at 1.
  rewrite removelast_path, mkdir_meta by done. cbn [negb].
  destruct (meta_roundtrip (published v ps now)) as (data & Hdata & Hread).
  { apply Hmarshal. intros p Hp. by eapply described_read. }
  rewrite Hdata. assert (is_dir (fr_disk r1) mp = false) as -> by by apply meta_no_dir.
  eexists _, ps, data. split; [reflexivity|]. change (base r1) with (base r) in *.
  assert (∀ os arch, mp ≠ base r ++ [av_Artifact v; av_Version v; os; arch; "binary"]) as Hmp.
  { intros os arch E. unfold mp in E. by simplify_list_eq. }
  split.
  - done.
  - done.
  - eapply Forall2_impl; [exact Hall|]. intros b p (os & arch & c & Hk & Hb & Hg & -> & Hf).
    exists os, arch, c. split_and!; try done. simpl. by rewrite lookup_insert_ne.
  - done.
  - done.
  - reflexivity.
  - simpl. apply lookup_insert_eq.
  - intros q c Hq Hne. simpl. rewrite lookup_insert_ne by done. by apply Hold.
  - intros q c. simpl. intros [[<- _]|[_ Hq]]%lookup_insert_Some; [by right; left|].
    destruct (Hnew q c Hq) as [?|?]; [by left|by right; right].
Qed.

(** ** Every outcome of [Publish] *)
Definition good_keys (keys : list string) : Prop :=
  Forall (λ key, ∀ os arch, splitPlatformKey key = Ok (os, arch) → good_platform os arch) keys.

(** Only binaries of the version were added. *)
Record only_binaries r v r' : Prop := {
  ob_dir : fr_dir r' = fr_dir r;
  ob_url : fr_baseURL r' = fr_baseURL r;
  ob_versions : fr_versions r' = fr_versions r;
  ob_kept q c : fr_disk r !! q = Some c → fr_disk r' !! q = Some c;
  ob_new q c : fr_disk r' !! q = Some c → fr_disk r !! q = Some c ∨
    ∃ os arch, good_platform os arch ∧ q = base r ++ [av_Artifact v; av_Version v; os; arch; "binary"];
}.

Lemma only_binaries_disk r v r' : plain_name (av_Artifact v) → plain_name (av_Version v) → disk_ok r →
  only_binaries r v r' → disk_ok r'.
Proof.
  intros Ha Hv Hd Ho q c Hq. assert (base r' = base r) as Eb by (unfold base; by rewrite (ob_dir _ _ _ Ho)).
  destruct (ob_new _ _ _ Ho q c Hq) as [Hq'|(os & arch & Hg & ->)].
  - destruct (Hd _ _ Hq') as (a & w & ?). exists a, w. by rewrite Eb.
  - exists (av_Artifact v), (av_Version v). rewrite Eb. split_and!; try done. right. by exists os, arch.
Qed.

Lemma write_binaries_outcome v bs r : plain_name (av_Artifact v) → plain_name (av_Version v) → disk_ok r →
  good_keys bs.*1 → NoDup bs.*1 →
  only_binaries r v (write_binaries r v bs).1 ∧
  ∀ ps, (write_binaries r v bs).2 = Ok ps → Forall (storable r v) bs.
Proof.
  intros Ha Hv. revert r. induction bs as [|[key reader] bs IH]; intros r Hd Hg Hnd.
  { split; [split; try done; by left|by constructor]. }
  apply Forall_cons in Hg as [Hkey Hg]. rewrite fmap_cons in Hnd. apply NoDup_cons in Hnd as [Hnk Hnd]. cbn [fst] in Hkey, Hnk.
  assert (only_binaries r v r) as Hrefl by (split; try done; by left).
  cbn [write_binaries]. destruct (splitPlatformKey key) as [[os arch]|e] eqn:Hk; [|by split].
  specialize (Hkey os arch eq_refl). rewrite binaryPath_plain by done. set (dest := base r ++ _).
  destruct (negb _); [by split|]. destruct (_ || _) eqn:Hex; [by split|]. destruct reader as [content|e]; [|by split]. cbn zeta.
  apply orb_false_elim in Hex as [Hfree%bool_decide_eq_false _]. apply dec_stable in Hfree.
  match goal with |- context [write_binaries ?x v bs] => set (r1 := x) end.
  assert (fr_disk r1 = <[dest := content]> (fr_disk r)) as E1 by done.
  assert (only_binaries r v r1) as Ho1.
  { split; try done.
    - intros q c Hq. rewrite E1, lookup_insert_ne; [done|]. intros <-. discriminate (eq_trans (eq_sym Hfree) Hq).
    - intros q c. rewrite E1. intros [[<- _]|[_ Hq]]%lookup_insert_Some; [right|by left]. by exists os, arch. }
  destruct (IH r1 (only_binaries_disk _ _ _ Ha Hv Hd Ho1) Hg Hnd) as [Ho2 Hst].
  destruct (write_binaries r1 v bs) as [r2 rest]. cbn [fst snd] in *. split.
  - destruct Ho2 as [D U V K N]. split; [by rewrite D|by rewrite U|by rewrite V| |].
    + intros q c Hq. by apply K, Ho1.
    + intros q c Hq. destruct (N q c Hq) as [Hq1|?]; [by apply Ho1 in Hq1|by right].
  - intros ps Hps. destruct rest as [ps'|]; [|done]. specialize (Hst ps' eq_refl). constructor.
    + exists os, arch, content. by split_and!.
    + eapply Forall_impl; [exact Hst|]. intros b (os2 & arch2 & c2 & Hk2 & Hr2 & Hg2 & Hf2).
      exists os2, arch2, c2. split_and!; try done. apply eq_None_not_Some. intros [c Hc].
      apply (ob_kept _ _ _ Ho1) in Hc. discriminate (eq_trans (eq_sym Hf2) Hc).
Qed.

Lemma Publish_outcome r v bs now : disk_ok r → index_ok r → rep_upload v bs now →
  plain_name (av_Artifact v) → plain_name (av_Version v) → good_keys (range_map bs).*1 →
  let '(r', err) := Publish r v bs now in
  match err with
  | Some _ => only_binaries r v r'
  | None => ∃ ps data, did_publish r v bs now r' ps data
  end.
Proof.
  intros Hd Hi Hmarshal Ha Hv Hg.
  destruct (write_binaries_outcome v (range_map bs) r Ha Hv Hd Hg (range_map_NoDup bs)) as [Ho Hst].
  destruct (write_binaries r v (range_map bs)) as [r1 [ps|e]] eqn:Hw; cbn [fst snd] in *.
  - destruct (Publish_spec r v bs now Hd Hi Hmarshal Ha Hv (Hst ps eq_refl)) as (r' & ps' & data & -> & Hdp). by eauto.
  - unfold Publish. rewrite Hw. destruct (find_conflict _ _ _); [|done]. split; try done. by left.
Qed.

(** ** What a publication preserves *)
Lemma did_publish_disk r v bs now r' ps data : disk_ok r → plain_name (av_Artifact v) → plain_name (av_Version v) →
  did_publish r v bs now r' ps data → disk_ok r'.
Proof.
  intros Hd Ha Hv Hp q c Hq. assert (base r' = base r) as Eb by (unfold base; by rewrite (dp_dir _ _ _ _ _ _ _ Hp)).
  destruct (dp_new _ _ _ _ _ _ _ Hp q c Hq) as [Hq'|[->|(os & arch & Hg & ->)]].
  - destruct (Hd _ _ Hq') as (a & w & ?). exists a, w. by rewrite Eb.
  - exists (av_Artifact v), (av_Version v). rewrite Eb. split_and!; try done. by left.
  - exists (av_Artifact v), (av_Version v). rewrite Eb. split_and!; try done. right. by exists os, arch.
Qed.

Lemma did_publish_versions r v bs now r' ps data a : did_publish r v bs now r' ps data →
  versions_of r' a = if decide (a = av_Artifact v)
    then sort_slice later_first (versions_of r (av_Artifact v) ++ [published v ps now]) else versions_of r a.
Proof.
  intros Hp. unfold versions_of. rewrite (dp_versions _ _ _ _ _ _ _ Hp). case_decide as Ha.
  - subst a. by rewrite lookup_insert_eq.
  - by rewrite lookup_insert_ne.
Qed.

#[export] Instance swo_later : StrictWeakOrder later_first.
Proof. split; unfold later_first, After; intros; zb; rewrite ?Z.ltb_lt, ?Z.ltb_ge; lia. Qed.

Lemma did_publish_platforms r v bs now r' ps data a : did_publish r v bs now r' ps data →
  all_platforms r' a ≡ₚ if decide (a = av_Artifact v) then all_platforms r a ++ ps else all_platforms r a.
Proof.
  intros Hp. unfold all_platforms. rewrite (did_publish_versions _ _ _ _ _ _ _ a Hp). case_decide as Ha; [|done].
  rewrite sort_slice_perm, bind_app. subst a. cbn. destruct (published_same v ps now) as (_ & _ & -> & _).
  by rewrite app_nil_r.
Qed.

Lemma did_publish_index r v bs now r' ps data : index_ok r → plain_name (av_Artifact v) → plain_name (av_Version v) →
  did_publish r v bs now r' ps data → index_ok r'.
Proof.
  intros Hi Ha Hv Hp. assert (base r' = base r) as Eb by (unfold base; by rewrite (dp_dir _ _ _ _ _ _ _ Hp)).
  destruct (published_same v ps now) as (Ea & Ev & Ep & _).
  assert (∀ a x, x ∈ versions_of r' a → x ∈ versions_of r a ∨ a = av_Artifact v ∧ x = published v ps now) as Hin.
  { intros a x. rewrite (did_publish_versions _ _ _ _ _ _ _ a Hp). case_decide as Hd; [|by left].
    rewrite elem_of_sort_slice, elem_of_app, list_elem_of_singleton. subst a. naive_solver. }
  split.
  - intros a. rewrite (did_publish_versions _ _ _ _ _ _ _ a Hp). case_decide; [|apply Hi].
    apply sort_slice_sorted. apply swo_later.
  - intros a x [Hx|[-> ->]]%Hin; [by apply (io_names _ Hi)|]. by rewrite Ea, Ev.
  - intros a x p [Hx|[-> ->]]%Hin Hxp.
    + destruct (io_platforms _ Hi a x p Hx Hxp) as (? & ? & ? & [c Hc]). split_and!; try done. rewrite Eb.
      exists c. apply (dp_kept _ _ _ _ _ _ _ Hp); [done|]. intros E. by simplify_list_eq.
    + rewrite Ep in Hxp. apply list_elem_of_lookup in Hxp as [i Hxi].
      destruct (Forall2_lookup_r _ _ _ _ _ (dp_platforms _ _ _ _ _ _ _ Hp) Hxi) as (b & _ & os & arch & c & _ & _ & Hg & -> & Hf).
      rewrite Ev. split_and!; done || by eexists.
  - intros a. rewrite (did_publish_platforms _ _ _ _ _ _ _ a Hp). case_decide as Hd; [|apply Hi].
    subst a. rewrite fmap_app. apply NoDup_app. split_and!; [apply Hi| |].
    + intros id (p & -> & (x & Hx & Hxp)%elem_of_all_platforms)%list_elem_of_fmap (q & Hid & Hq)%list_elem_of_fmap.
      destruct (io_platforms _ Hi _ x p Hx Hxp) as (_ & _ & _ & [c Hc]).
      apply list_elem_of_lookup in Hq as [i Hqi].
      destruct (Forall2_lookup_r _ _ _ _ _ (dp_platforms _ _ _ _ _ _ _ Hp) Hqi) as (b & Hb & Hd). apply list_elem_of_lookup_2 in Hb.
      destruct Hd as (os & arch & c' & Hk & _ & _ & -> & _).
      destruct (proj1 (Forall_forall _ _) (dp_storable _ _ _ _ _ _ _ Hp) b Hb) as (os2 & arch2 & c2 & Hk2 & _ & _ & Hfree).
      rewrite Hk in Hk2. injection Hk2 as <- <-. unfold platform_id in Hid. cbn in Hid. injection Hid as E1 E2 E3.
      rewrite E1, E2, E3 in Hc. discriminate (eq_trans (eq_sym Hfree) Hc).
    + eapply described_ids; [apply range_map_NoDup|apply Hp].
Qed.

Lemma only_binaries_index r v r' : index_ok r → only_binaries r v r' → index_ok r'.
Proof.
  intros [S N P U] [D _ V K _]. assert (∀ a, versions_of r' a = versions_of r a) as E by (intros; unfold versions_of; by rewrite V).
  split; intros a; unfold all_platforms; rewrite ?E; [apply S|apply N| |apply U].
  intros x p Hx Hp. destruct (P a x p Hx Hp) as (? & ? & ? & [c Hc]). split_and!; try done.
  unfold base. rewrite D. exists c. by apply K.
Qed.
End publishing.

(** ** Metadata *)

(** A version as its metadata file has it: without addresses. *)
Definition forget (v : ArtifactVersion) : ArtifactVersion :=
  v <| av_Platforms := (λ p, p <| ap_URL := "" |>) <$> av_Platforms v |> <| av_PlatformDeps := ∅ |>.

Section metadata.
Context `{GoRuntime} `{RegistryCodec}.
Implicit Types (r : FsRegistry) (v : ArtifactVersion).

(** One metadata file per version in the index, and no other. *)
Record meta_ok r : Prop := {
  mk_entry a v : v ∈ versions_of r a →
    ∃ s, fr_disk r !! (base r ++ [a; av_Version v; "meta.json"]) = Some s ∧ meta_unmarshal s = Ok (forget v);
  mk_file a ver s : fr_disk r !! (base r ++ [a; ver; "meta.json"]) = Some s →
    ∃ v, v ∈ versions_of r a ∧ av_Version v = ver;
  mk_unique a : NoDup (av_Version <$> versions_of r a);
}.

Lemma forget_published v ps now : Forall (λ p, ap_URL p = "") ps →
  forget (published v ps now) = stored_version (published v ps now).
Proof.
  intros Hps. unfold forget, stored_version. destruct (published_same v ps now) as (_ & _ & E & _). rewrite E.
  replace ((λ p, p <| ap_URL := "" |>) <$> ps) with ps.
  - by destruct (published v ps now); simpl in E; subst.
  - clear E. induction Hps as [|p ps Hp _ IH]; [done|]. rewrite fmap_cons, <- IH. f_equal. destruct p. simpl in *. by subst.
Qed.

Lemma described_urls r v bs ps : Forall2 (described r v) bs ps → Forall (λ p, ap_URL p = "") ps.
Proof. intros Hall. induction Hall as [|b p bs ps (os & arch & c & _ & _ & _ & -> & _) _ IH]; by constructor. Qed.

(** Publishing repairs a metadata file of the version that nothing in the index belongs to. *)
Lemma did_publish_meta_over r v bs now r' ps data :
  (∀ a x, x ∈ versions_of r a →
    ∃ s, fr_disk r !! (base r ++ [a; av_Version x; "meta.json"]) = Some s ∧ meta_unmarshal s = Ok (forget x)) →
  (∀ a ver s, fr_disk r !! (base r ++ [a; ver; "meta.json"]) = Some s →
    (∃ x, x ∈ versions_of r a ∧ av_Version x = ver) ∨ a = av_Artifact v ∧ ver = av_Version v) →
  (∀ a, NoDup (av_Version <$> versions_of r a)) →
  (∀ x, x ∈ versions_of r (av_Artifact v) → av_Version x ≠ av_Version v) →
  did_publish r v bs now r' ps data → meta_ok r'.
Proof.
  intros E F U Hfresh Hp. assert (base r' = base r) as Eb by (unfold base; by rewrite (dp_dir _ _ _ _ _ _ _ Hp)).
  destruct (published_same v ps now) as (Ea & Ev & Ep & _). split; rewrite ?Eb.
  - intros a x. rewrite (did_publish_versions _ _ _ _ _ _ _ a Hp). case_decide as Ha; rewrite ?elem_of_sort_slice, ?elem_of_app.
    + subst a. intros [Hx|Hx%list_elem_of_singleton].
      * destruct (E _ x Hx) as (s & Hs & Hu). exists s. split; [|done]. apply (dp_kept _ _ _ _ _ _ _ Hp); [done|].
        intros Heq. simplify_list_eq. by apply (Hfresh x).
      * subst x. exists data. rewrite Ev. split; [apply Hp|]. rewrite forget_published by (eapply described_urls, Hp).
        apply Hp.
    + intros Hx. destruct (E _ x Hx) as (s & Hs & Hu). exists s. split; [|done]. apply (dp_kept _ _ _ _ _ _ _ Hp); [done|].
      intros Heq. by simplify_list_eq.
  - intros a ver s Hs. rewrite (did_publish_versions _ _ _ _ _ _ _ a Hp).
    destruct (dp_new _ _ _ _ _ _ _ Hp _ _ Hs) as [Hold|[Heq|(os & arch & _ & Heq)]].
    + destruct (F a ver s Hold) as [(x & Hx & Hxv)|[-> ->]].
      * exists x. split; [|done]. case_decide as Ha; [|done]. subst a.
        rewrite elem_of_sort_slice, elem_of_app. by left.
      * exists (published v ps now). rewrite decide_True by done. split; [|done].
        rewrite elem_of_sort_slice, elem_of_app. right. by apply list_elem_of_singleton.
    + simplify_list_eq. exists (published v ps now). split; [|done]. rewrite decide_True by done.
      rewrite elem_of_sort_slice, elem_of_app. right. by apply list_elem_of_singleton.
    + by simplify_list_eq.
  - intros a. rewrite (did_publish_versions _ _ _ _ _ _ _ a Hp). case_decide as Ha; [|apply U].
    rewrite sort_slice_perm, fmap_app. apply NoDup_app. split_and!; [apply U| |apply NoDup_singleton].
    intros ver (x & -> & Hx)%list_elem_of_fmap Hin. apply list_elem_of_singleton in Hin. rewrite Ev in Hin. by apply (Hfresh x).
Qed.

Lemma did_publish_meta r v bs now r' ps data : meta_ok r →
  (∀ x, x ∈ versions_of r (av_Artifact v) → av_Version x ≠ av_Version v) →
  did_publish r v bs now r' ps data → meta_ok r'.
Proof. intros [E F U]. apply did_publish_meta_over; [done| |done]. intros a ver s Hs. left. by eapply F. Qed.

Lemma only_binaries_meta r v r' : meta_ok r → only_binaries r v r' → meta_ok r'.
Proof.
  intros [E F U] [D _ V K N]. assert (∀ a, versions_of r' a = versions_of r a) as Ev by (intros; unfold versions_of; by rewrite V).
  assert (base r' = base r) as Eb by (unfold base; by rewrite D). split; rewrite ?Eb.
  - intros a x. rewrite Ev. intros Hx. destruct (E a x Hx) as (s & Hs & Hu). exists s. split; [by apply K|done].
  - intros a ver s Hs. rewrite Ev. destruct (N _ _ Hs) as [Hold|(os & arch & _ & Heq)]; [by eapply F|]. by simplify_list_eq.
  - intros a. rewrite Ev. apply U.
Qed.

(** ** Deleting and listing *)
Lemma delete_lookup r a q c : plain_name a →
  fr_disk (DeleteArtifact r a) !! q = Some c ↔ fr_disk r !! q = Some c ∧ ¬ base r ++ [a] `prefix_of` q.
Proof.
  intros Ha. assert (fr_disk (DeleteArtifact r a) = filter (λ '(q, _), ¬ base r ++ [a] `prefix_of` q) (fr_disk r)) as ->.
  { unfold DeleteArtifact. rewrite join_plain by (by constructor). reflexivity. }
  by rewrite map_lookup_filter_Some.
Qed.

Lemma delete_versions r a b : versions_of (DeleteArtifact r a) b = if decide (b = a) then [] else versions_of r b.
Proof.
  unfold versions_of. change (fr_versions (DeleteArtifact r a)) with (delete a (fr_versions r)). case_decide as Hb.
  - subst b. by rewrite lookup_delete_eq.
  - by rewrite lookup_delete_ne.
Qed.

Record registry_ok r : Prop := {
  ro_disk : disk_ok r;
  ro_index : index_ok r;
  ro_meta : meta_ok r;
}.

Lemma delete_ok r a : plain_name a → registry_ok r → registry_ok (DeleteArtifact r a).
Proof.
  intros Ha [Hd [S N P U] [E F Uq]]. split.
  - intros q c [Hq _]%delete_lookup; [|done]. exact (Hd q c Hq).
  - split; intros b; unfold all_platforms; rewrite ?delete_versions; case_decide as Hb.
    + constructor.
    + apply S.
    + intros v []%elem_of_nil.
    + apply N.
    + intros v p []%elem_of_nil.
    + intros v p Hv Hp. destruct (P b v p Hv Hp) as (? & ? & ? & [c Hc]). split_and!; try done. exists c.
      apply delete_lookup; [done|]. split; [done|]. intros Hpre%prefix_app_inv. destruct Hpre as [k Hk]. by simplify_list_eq.
    + apply NoDup_nil_2.
    + apply U.
  - split.
    + intros b v. rewrite delete_versions. case_decide as Hb; [intros []%elem_of_nil|]. intros Hv.
      destruct (E b v Hv) as (s & Hs & Hu). exists s. split; [|done]. apply delete_lookup; [done|]. split; [done|].
      intros Hpre%prefix_app_inv. destruct Hpre as [k Hk]. by simplify_list_eq.
    + intros b ver s [Hs Hpre]%delete_lookup; [|done]. rewrite delete_versions. destruct (F b ver s Hs) as (v & Hv & Hver).
      exists v. rewrite decide_False; [done|]. intros ->. apply Hpre. apply prefix_app. by exists [ver; "meta.json"].
    + intros b. rewrite delete_versions. case_decide; [apply NoDup_nil_2|apply Uq].
Qed.

Definition with_urls r v : ArtifactVersion := v <| av_Platforms := withURL r <$> av_Platforms v |>.

Lemma list_versions r a b : versions_of (ListVersions r a).1 b =
  if decide (b = a) then with_urls r <$> versions_of r b else versions_of r b.
Proof.
  unfold versions_of. change (fr_versions (ListVersions r a).1)
    with (alter (λ _, with_urls r <$> versions_of r a) a (fr_versions r)).
  case_decide as Hb.
  - subst b. rewrite lookup_alter_eq. unfold versions_of. by destruct (fr_versions r !! a).
  - by rewrite lookup_alter_ne.
Qed.

Lemma with_urls_platforms r l : (with_urls r <$> l) ≫= av_Platforms = withURL r <$> (l ≫= av_Platforms).
Proof. induction l as [|v l IH]; [done|]. cbn. rewrite fmap_app. by f_equal. Qed.

Lemma forget_with_urls r v : forget (with_urls r v) = forget v.
Proof.
  destruct v as [a ver pre t ps deps]. unfold forget.
  change (av_Platforms (with_urls r (MkArtifactVersion a ver pre t ps deps))) with (withURL r <$> ps).
  rewrite <- list_fmap_compose. by rewrite (list_fmap_ext _ (λ p, p <| ap_URL := "" |>) ps).
Qed.

Lemma list_ok r a : registry_ok r → registry_ok (ListVersions r a).1.
Proof.
  intros [Hd [S N P U] [E F Uq]]. split; [exact Hd| |].
  - split; intros b; unfold all_platforms; rewrite ?list_versions; case_decide as Hb; try apply S || apply N || apply P || apply U.
    + generalize (S b). generalize (versions_of r b). intros l Hl. induction Hl as [|v l Hl IH Hv]; [constructor|].
      rewrite fmap_cons. constructor; [exact IH|]. apply Forall_fmap. eapply Forall_impl; [exact Hv|]. intros x Hx. exact Hx.
    + intros v (v0 & -> & Hv0)%list_elem_of_fmap. exact (N b v0 Hv0).
    + intros v p (v0 & -> & Hv0)%list_elem_of_fmap (p0 & -> & Hp0)%list_elem_of_fmap. exact (P b v0 p0 Hv0 Hp0).
    + rewrite with_urls_platforms, <- list_fmap_compose. apply U.
  - split.
    + intros b v. rewrite list_versions. case_decide as Hb; [|apply E]. intros (v0 & -> & Hv0)%list_elem_of_fmap.
      rewrite forget_with_urls. exact (E b v0 Hv0).
    + intros b ver s Hs. rewrite list_versions. destruct (F b ver s Hs) as (v & Hv & Hver). case_decide; [|by eauto].
      exists (with_urls r v). split; [by apply list_elem_of_fmap_2|done].
    + intros b. rewrite list_versions. case_decide; [|apply Uq]. rewrite <- list_fmap_compose. apply Uq.
Qed.

(** ** Histories: versions with plain names that JSON represents, each published once *)
Inductive reg_step r : FsRegistry → Prop :=
| reg_publish v bs now : plain_name (av_Artifact v) → plain_name (av_Version v) → good_keys (range_map bs).*1 →
    rep_upload v bs now →
    (∀ x, x ∈ versions_of r (av_Artifact v) → av_Version x ≠ av_Version v) → reg_step r (Publish r v bs now).1
| reg_delete a : plain_name a → reg_step r (DeleteArtifact r a)
| reg_list a : reg_step r (ListVersions r a).1.

Lemma reg_step_ok r r' : reg_step r r' → registry_ok r →
  registry_ok r' ∧ fr_dir r' = fr_dir r ∧ fr_baseURL r' = fr_baseURL r.
Proof.
  intros [v bs now Ha Hv Hg Hm Hfresh|a Ha|a] Hr; [|by split; [apply delete_ok|]|by split; [apply list_ok|]].
  destruct Hr as [Hd Hi Hme]. pose proof (Publish_outcome r v bs now Hd Hi Hm Ha Hv Hg) as Ho.
  destruct (Publish r v bs now) as [r1 [e|]]; cbn [fst].
  - split_and!; [|apply Ho..]. split; [by eapply only_binaries_disk|by eapply only_binaries_index|by eapply only_binaries_meta].
  - destruct Ho as (ps & data & Hp). split_and!; [|apply Hp..].
    split; [by eapply did_publish_disk|by eapply did_publish_index|by eapply did_publish_meta].
Qed.

Lemma empty_registry_ok dir url r : NewFsRegistry dir url ∅ = Ok r →
  registry_ok r ∧ fr_dir r = dir ∧ fr_baseURL r = TrimRight "/" url.
Proof.
  unfold NewFsRegistry. destruct (negb _); [done|]. intros [= <-].
  change (loadAll _) with (MkFsRegistry dir (TrimRight "/" url) ∅ ∅). split; [|done].
  assert (∀ a, versions_of (MkFsRegistry dir (TrimRight "/" url) ∅ ∅) a = []) as E by (intros a; unfold versions_of; simpl; by rewrite lookup_empty).
  split.
  - intros q c. simpl. by rewrite lookup_empty.
  - split; intros a; unfold all_platforms; rewrite E; [constructor|intros v []%elem_of_nil|intros v p []%elem_of_nil|apply NoDup_nil_2].
  - split; [intros a v; rewrite E; intros []%elem_of_nil| |intros a; rewrite E; apply NoDup_nil_2].
    intros a ver s. simpl. by rewrite lookup_empty.
Qed.
End metadata.

(** ** Loading *)
Section loading.
Context `{GoRuntime} `{RegistryCodec}.
Implicit Types (r : FsRegistry) (v : ArtifactVersion).

Lemma elem_of_subdirs (d : disk) p x : x ∈ subdirs d p ↔
  ∃ q c, d !! q = Some c ∧ p `prefix_of` q ∧ S (length p) < length q ∧ q !! length p = Some x.
Proof.
  unfold subdirs. rewrite isort_perm, elem_of_elements, elem_of_list_to_set, elem_of_omap_Some. split.
  - intros (q & ([q' c] & -> & Hq%elem_of_map_to_list)%list_elem_of_fmap & Hx). simpl in Hx.
    destruct (_ && _) eqn:E; [|done]. apply andb_prop in E as [Hp%bool_decide_eq_true Hl%Nat.ltb_lt]. by exists q', c.
  - intros (q & c & Hq & Hp & Hl & Hx). exists q. split.
    + apply list_elem_of_fmap. exists (q, c). by rewrite elem_of_map_to_list.
    + rewrite bool_decide_eq_true_2 by done. by rewrite (proj2 (Nat.ltb_lt _ _)).
Qed.

Lemma NoDup_subdirs (d : disk) p : NoDup (subdirs d p).
Proof. unfold subdirs. rewrite isort_perm. apply NoDup_elements. Qed.

Definition load_step r (a : string) : FsRegistry :=
  match load_artifact r a with
  | [] => r
  | l => r <| fr_versions := <[a := l]> (fr_versions r) |>
  end.

Lemma load_step_same r a : fr_dir (load_step r a) = fr_dir r ∧ fr_baseURL (load_step r a) = fr_baseURL r ∧
  fr_disk (load_step r a) = fr_disk r ∧ ∀ b, load_artifact (load_step r a) b = load_artifact r b.
Proof. unfold load_step. by destruct (load_artifact r a). Qed.

Lemma load_step_versions r a b : versions_of r a = [] ∨ versions_of r a = load_artifact r a →
  versions_of (load_step r a) b = if decide (b = a) then load_artifact r b else versions_of r b.
Proof.
  intros Ha. unfold load_step. destruct (load_artifact r a) as [|v l] eqn:El; case_decide as Hb; subst.
  - destruct Ha as [E|E]; rewrite E; congruence.
  - done.
  - unfold versions_of. simpl. by rewrite lookup_insert_eq.
  - unfold versions_of. simpl. by rewrite lookup_insert_ne.
Qed.

Lemma loadAll_fold l r : (∀ a, versions_of r a = [] ∨ versions_of r a = load_artifact r a) →
  let r' := foldl load_step r l in
  fr_dir r' = fr_dir r ∧ fr_baseURL r' = fr_baseURL r ∧ fr_disk r' = fr_disk r ∧
  ∀ a, versions_of r' a = if decide (a ∈ l) then load_artifact r a else versions_of r a.
Proof.
  revert r. induction l as [|b l IH]; intros r Hr; cbn [foldl].
  { by split_and!. }
  destruct (load_step_same r b) as (Ed & Eu & Ek & El).
  destruct (IH (load_step r b)) as (D & U & K & V).
  { intros a. rewrite El, load_step_versions by done. case_decide; [by right|apply Hr]. }
  split_and!; [congruence..|]. intros a. rewrite V, El, load_step_versions by done.
  destruct (decide (a ∈ l)) as [Hin|Hin].
  - by rewrite decide_True by (by right).
  - destruct (decide (a = b)) as [->|Hne]; [by rewrite decide_True by (by left)|].
    by rewrite decide_False by (by rewrite not_elem_of_cons).
Qed.

Lemma nth_below (b : path) a x y l : (b ++ x :: y :: l) !! length (b ++ [a]) = Some y.
Proof. rewrite length_app, lookup_app_r by (simpl; lia). simpl. by replace (length b + 1 - length b) with 1 by lia. Qed.

Lemma NoDup_omap_key {A B} (f : A → option B) (key : B → A) l : (∀ x y, x ∈ l → f x = Some y → key y = x) →
  NoDup l → NoDup (omap f l).
Proof.
  intros Hk Hnd. induction Hnd as [|x l Hx Hnd IH]; [apply NoDup_nil_2|]. cbn.
  assert (NoDup (omap f l)) as Hl by (apply IH; intros; apply Hk; [by right|done]).
  destruct (f x) as [y|] eqn:Hf; [|exact Hl]. apply NoDup_cons. split; [|exact Hl].
  rewrite elem_of_omap_Some. intros (x' & Hx' & Hf'). apply Hx.
  assert (x' = x) as <-; [|done]. rewrite <- (Hk x' y), <- (Hk x y); [done|by left|done|by right|done].
Qed.

(** What is read back for an artifact. *)
Lemma load_artifact_spec r r0 a : registry_ok r → fr_dir r0 = fr_dir r → fr_disk r0 = fr_disk r →
  plain_name a → load_artifact r0 a ≡ₚ forget <$> versions_of r a.
Proof.
  intros [Hd Hi [E F U]] Edir Edisk Ha. unfold load_artifact. rewrite sort_slice_perm.
  assert (base r0 = base r) as Eb by (unfold base; by rewrite Edir).
  assert (filepath_Join [fr_dir r0; a] = base r ++ [a]) as -> by (rewrite join_plain, Edir by (by constructor); done).
  rewrite Edisk. set (names := subdirs (fr_disk r) (base r ++ [a])).
  assert (∀ ver, ver ∈ names → plain_name ver) as Hplain.
  { intros ver (q & c & Hq & Hp & _ & Hx)%elem_of_subdirs.
    destruct (Hd _ _ Hq) as (a' & v' & _ & Hv & [->|(os & arch & _ & ->)]); rewrite nth_below in Hx; by injection Hx as <-. }
  assert (∀ ver m, ver ∈ names → readMeta r0 a ver = Ok m →
    ∃ v, v ∈ versions_of r a ∧ av_Version v = ver ∧ m = forget v) as Hread.
  { intros ver m Hin. unfold readMeta. rewrite metaPath_plain by auto. rewrite Eb, Edisk.
    destruct (fr_disk r !! _) as [s|] eqn:Hs; [|done]. intros Hu. destruct (F a ver s Hs) as (v & Hv & <-).
    destruct (E a v Hv) as (s' & Hs' & Hu'). exists v. split_and!; try done.
    pose proof (eq_trans (eq_sym Hs) Hs') as [= <-]. congruence. }
  apply NoDup_Permutation.
  - apply (NoDup_omap_key _ av_Version); [|apply NoDup_subdirs]. intros ver m Hin.
    destruct (readMeta r0 a ver) as [m'|] eqn:Hr; [|done]. intros [= ->].
    by destruct (Hread ver m Hin Hr) as (v & _ & <- & ->).
  - apply (NoDup_fmap_1 av_Version). rewrite <- list_fmap_compose. apply U.
  - intros m. rewrite elem_of_omap_Some, list_elem_of_fmap. split.
    + intros (ver & Hin & Hm). destruct (readMeta r0 a ver) as [m'|] eqn:Hr; [|done]. injection Hm as ->.
      destruct (Hread ver m Hin Hr) as (v & Hv & _ & ->). by exists v.
    + intros (v & -> & Hv). destruct (E a v Hv) as (s & Hs & Hu). exists (av_Version v).
      destruct (io_names _ Hi a v Hv) as (_ & _ & Hpv). split.
      * apply elem_of_subdirs. exists (base r ++ [a; av_Version v; "meta.json"]), s. split; [exact Hs|].
        split_and!; [|rewrite !length_app; simpl; lia|].
        -- apply prefix_app. by exists [av_Version v; "meta.json"].
        -- apply nth_below.
      * unfold readMeta. rewrite metaPath_plain by done. by rewrite Eb, Edisk, Hs, Hu.
Qed.

Lemma restart_versions r url : registry_ok r → mkdir_ok (fr_disk r) (base r) = true →
  ∃ r', NewFsRegistry (fr_dir r) url (fr_disk r) = Ok r' ∧ fr_dir r' = fr_dir r ∧ fr_disk r' = fr_disk r ∧
    fr_baseURL r' = TrimRight "/" url ∧
    ∀ a, versions_of r' a ≡ₚ forget <$> versions_of r a ∧ StronglySorted (not_after later_first) (versions_of r' a).
Proof.
  intros Hr Hmk. unfold NewFsRegistry. change (filepath_Join [fr_dir r]) with (base r). rewrite Hmk. cbn [negb].
  set (r0 := MkFsRegistry (fr_dir r) (TrimRight "/" url) ∅ (fr_disk r)).
  assert (∀ a, versions_of r0 a = []) as E0 by (intros a; unfold versions_of; simpl; by rewrite lookup_empty).
  destruct (loadAll_fold (subdirs (fr_disk r0) (filepath_Join [fr_dir r0])) r0) as (D & U & K & V); [by left|].
  eexists. split; [reflexivity|]. split_and!; [exact D|exact K|exact U|]. intros a.
  change (loadAll r0) with (foldl load_step r0 (subdirs (fr_disk r0) (filepath_Join [fr_dir r0]))). rewrite V, E0.
  destruct Hr as [Hd Hi Hme]. case_decide as Hin.
  - split; [|apply sort_slice_sorted, swo_later]. apply load_artifact_spec; try done. apply elem_of_subdirs in Hin as (q & c & Hq & _ & _ & Hx).
    change (filepath_Join [fr_dir r0]) with (base r) in Hx.
    destruct (Hd _ _ Hq) as (a' & v' & Ha & _ & [->|(os & arch & _ & ->)]);
      rewrite (lookup_app_r (base r)) in Hx by lia; rewrite Nat.sub_diag in Hx; by injection Hx as <-.
  - destruct (versions_of r a) as [|v l] eqn:Ev; [by split; [|constructor]|]. exfalso. apply Hin.
    destruct (mk_entry _ Hme a v) as (s & Hs & _); [rewrite Ev; by left|].
    apply elem_of_subdirs. exists (base r ++ [a; av_Version v; "meta.json"]), s. change (filepath_Join [fr_dir r0]) with (base r). split; [exact Hs|].
    split_and!; [by apply prefix_app_r|rewrite length_app; simpl; lia|]. by rewrite lookup_app_r, Nat.sub_diag by lia.
Qed.

Lemma mkdir_base r : disk_ok r → mkdir_ok (fr_disk r) (base r) = true.
Proof.
  intros Hd. apply mkdir_ok_true. intros q c Hq Hp%prefix_length.
  destruct (Hd _ _ Hq) as (a & v & _ & _ & [->|(os & arch & _ & ->)]); rewrite length_app in Hp; simpl in Hp; lia.
Qed.

Definition strip (p : ArtifactPlatform) : ArtifactPlatform := p <| ap_URL := "" |>.

Lemma forget_platforms l : (forget <$> l) ≫= av_Platforms = strip <$> (l ≫= av_Platforms).
Proof. induction l as [|v l IH]; [done|]. cbn. rewrite fmap_app. by f_equal. Qed.

Lemma restart_index r r' : index_ok r → fr_dir r' = fr_dir r → fr_disk r' = fr_disk r →
  (∀ a, versions_of r' a ≡ₚ forget <$> versions_of r a ∧ StronglySorted (not_after later_first) (versions_of r' a)) →
  index_ok r' ∧ ∀ a, all_platforms r' a ≡ₚ strip <$> all_platforms r a.
Proof.
  intros [S N P U] Ed Ek Hv. assert (∀ a, all_platforms r' a ≡ₚ strip <$> all_platforms r a) as Hall.
  { intros a. unfold all_platforms. rewrite (proj1 (Hv a)). by rewrite forget_platforms. }
  split; [|exact Hall]. split.
  - intros a. apply Hv.
  - intros a v. rewrite (proj1 (Hv a)). intros (v0 & -> & Hv0)%list_elem_of_fmap. exact (N a v0 Hv0).
  - intros a v p. rewrite (proj1 (Hv a)). intros (v0 & -> & Hv0)%list_elem_of_fmap (p0 & -> & Hp0)%list_elem_of_fmap.
    unfold base. rewrite Ed, Ek. exact (P a v0 p0 Hv0 Hp0).
  - intros a. rewrite Hall, <- list_fmap_compose. apply U.
Qed.

Lemma resolve_version_same r r' a ver os arch : index_ok r → index_ok r' → fr_baseURL r' = fr_baseURL r →
  all_platforms r' a ≡ₚ strip <$> all_platforms r a →
  fs_ResolveVersion r' a ver os arch = fs_ResolveVersion r a ver os arch.
Proof.
  intros Hi Hi' Eu Hall.
  assert (∀ p, fs_ResolveVersion r' a ver os arch = Ok p ↔ fs_ResolveVersion r a ver os arch = Ok p) as Hiff.
  { intros p. rewrite !resolve_version_iff by done. setoid_rewrite Hall. setoid_rewrite list_elem_of_fmap. split.
    - intros (p0 & (p1 & -> & Hp1) & Hid & ->). exists p1. split_and!; try done. unfold withURL. by rewrite Eu.
    - intros (p0 & Hp0 & Hid & ->). exists (strip p0). split_and!; [by eauto|done|]. unfold withURL. by rewrite Eu. }
  destruct (fs_ResolveVersion r a ver os arch) as [p|e] eqn:E1; [by apply Hiff|].
  unfold fs_ResolveVersion in *. destruct (findPlatformLocked r' a ver os arch) as [p|].
  - discriminate (proj1 (Hiff _) eq_refl).
  - destruct (findPlatformLocked r a ver os arch); [done|]. by injection E1 as <-.
Qed.
End loading.

(** ** Binaries the index does not know *)
Section orphans.
Context `{GoRuntime} `{RegistryCodec}.
Implicit Types (r : FsRegistry) (v : ArtifactVersion).

(** Such a platform does not resolve, yet can never be uploaded. *)
Lemma orphan_blocks r v key os arch reader now : disk_ok r → index_ok r →
  plain_name (av_Artifact v) → plain_name (av_Version v) → splitPlatformKey key = Ok (os, arch) → good_platform os arch →
  is_Some (fr_disk r !! (base r ++ [av_Artifact v; av_Version v; os; arch; "binary"])) →
  (∀ p, p ∈ all_platforms r (av_Artifact v) → platform_id p ≠ (av_Version v, os, arch)) →
  fs_ResolveVersion r (av_Artifact v) (av_Version v) os arch = Err ErrArtifactNotFound ∧
  Publish r v {[key := reader]} now = (r, Some ErrArtifactAlreadyExists).
Proof.
  intros Hd Hi Ha Hv Hk Hg [c Hc] Hno.
  assert (findPlatformLocked r (av_Artifact v) (av_Version v) os arch = None) as Hnone.
  { destruct (findPlatformLocked _ _ _ _ _) as [p|] eqn:Hp; [|done].
    apply findPlatform_Some in Hp as [Hp Hid]; [|done]. by destruct (Hno p Hp). }
  split; [unfold fs_ResolveVersion; by rewrite Hnone|].
  assert (range_map {[key := reader]} = [(key, reader)]) as Er.
  { apply Permutation_singleton_r. rewrite range_map_perm. by rewrite map_to_list_singleton. }
  unfold Publish. rewrite Er. cbn [fmap list_fmap fst find_conflict write_binaries]. rewrite Hk, Hnone.
  rewrite binaryPath_plain by done. set (dest := base r ++ _).
  change dest with (base r ++ [av_Artifact v; av_Version v; os; arch] ++ ["binary"]) at 1.
  rewrite removelast_path, mkdir_binary by done. cbn [negb]. rewrite bool_decide_eq_true_2; [done|].
  unfold dest. by rewrite Hc.
Qed.

(** The state as if the version's first upload were not in the index. *)
Lemma second_upload_ok r v bs1 bs2 now1 now2 r1 r2 ps1 ps2 data1 data2 : registry_ok r →
  plain_name (av_Artifact v) → plain_name (av_Version v) →
  (∀ x, x ∈ versions_of r (av_Artifact v) → av_Version x ≠ av_Version v) →
  did_publish r v bs1 now1 r1 ps1 data1 → did_publish r1 v bs2 now2 r2 ps2 data2 →
  let r3 := r2 <| fr_versions := <[av_Artifact v :=
    sort_slice later_first (versions_of r (av_Artifact v) ++ [published v ps2 now2])]> (fr_versions r) |> in
  registry_ok r3 ∧ all_platforms r3 (av_Artifact v) ≡ₚ all_platforms r (av_Artifact v) ++ ps2.
Proof.
  intros [Hd [S N P U] [E F Uq]] Ha Hv Hfresh Hp1 Hp2. cbn zeta. set (r3 := r2 <| fr_versions := _ |>).
  set (r1' := r1 <| fr_versions := fr_versions r |>).
  assert (base r1' = base r) as Eb by (unfold base; exact (f_equal (λ d, filepath_Join [d]) (dp_dir _ _ _ _ _ _ _ Hp1))).
  assert (∀ a, versions_of r1' a = versions_of r a) as Ev by done.
  assert (did_publish r1' v bs2 now2 r3 ps2 data2) as Hp3.
  { destruct Hp2 as [D2 U2 P2 S2 M2 V2 T2 K2 N2]. by split. }
  assert (disk_ok r1') as Hd1.
  { intros q c Hq. exact (did_publish_disk _ _ _ _ _ _ _ Hd Ha Hv Hp1 q c Hq). }
  assert (index_ok r1') as Hi1.
  { split; intros a; unfold all_platforms; rewrite Ev; [apply S|apply N| |apply U]. intros x p Hx Hxp.
    destruct (P a x p Hx Hxp) as (? & ? & ? & [c Hc]). split_and!; try done. exists c. rewrite Eb.
    apply (dp_kept _ _ _ _ _ _ _ Hp1); [done|]. intros Heq. by simplify_list_eq. }
  split; [split|].
  - by eapply did_publish_disk.
  - by eapply did_publish_index.
  - eapply did_publish_meta_over; [| | | |exact Hp3]; rewrite ?Eb.
    + intros a x Hx. destruct (E a x Hx) as (s & Hs & Hu). exists s. split; [|done].
      apply (dp_kept _ _ _ _ _ _ _ Hp1); [done|]. intros Heq. simplify_list_eq. by apply (Hfresh x).
    + intros a ver s Hs. destruct (dp_new _ _ _ _ _ _ _ Hp1 _ _ Hs) as [Hold|[Heq|(os & arch & _ & Heq)]].
      * left. exact (F a ver s Hold).
      * simplify_list_eq. by right.
      * by simplify_list_eq.
    + exact Uq.
    + exact Hfresh.
  - rewrite (did_publish_platforms _ _ _ _ _ _ _ _ Hp3), decide_True by done. done.
Qed.
End orphans.

(** ** Properties *)

(** Builds of other versions after a publication. *)
Lemma publish_others `{GoRuntime} `{RegistryCodec} r v bs now r' ps data a ver os arch :
  index_ok r → index_ok r' → did_publish r v bs now r' ps data → (a ≠ av_Artifact v ∨ ver ≠ av_Version v) →
  fs_ResolveVersion r' a ver os arch = fs_ResolveVersion r a ver os arch.
Proof.
  intros Hi Hi' Hp Hne. pose proof (λ a, did_publish_platforms _ _ _ _ _ _ _ a Hp) as Hall.
  assert (∀ p, withURL r' p = withURL r p) as Eurl by (intros p; unfold withURL; by rewrite (dp_url _ _ _ _ _ _ _ Hp)).
  assert (∀ p, fs_ResolveVersion r' a ver os arch = Ok p ↔ fs_ResolveVersion r a ver os arch = Ok p) as Hiff.
  { intros p. rewrite !resolve_version_iff by done. setoid_rewrite Eurl. setoid_rewrite Hall.
    case_decide as Hd'; [|done]. setoid_rewrite elem_of_app. split; [|naive_solver].
    intros (p0 & [Hin|Hin] & Hid & ->); [by eauto|].
    destruct (described_read _ _ _ _ _ (dp_platforms _ _ _ _ _ _ _ Hp) Hin) as (k & o & ar & c & _ & _ & ->).
    injection Hid as <- <- <-. by destruct Hne. }
  destruct (fs_ResolveVersion r a ver os arch) as [p|e] eqn:E1; [by apply Hiff|].
  unfold fs_ResolveVersion in *. destruct (findPlatformLocked r' a ver os arch); [discriminate (proj1 (Hiff _) eq_refl)|].
  destruct (findPlatformLocked r a ver os arch); [done|]. by injection E1 as <-.
Qed.

(** Files after a publication: what lies outside the version's directory is as it was, and of what lies inside only
    the metadata file may have been replaced. *)
Lemma publish_files `{GoRuntime} `{RegistryCodec} r v bs now r' ps data q : did_publish r v bs now r' ps data →
  (¬ (base r ++ [av_Artifact v; av_Version v]) `prefix_of` q → fr_disk r' !! q = fr_disk r !! q) ∧
  ∀ c, fr_disk r !! q = Some c → q ≠ base r ++ [av_Artifact v; av_Version v; "meta.json"] → fr_disk r' !! q = Some c.
Proof.
  intros Hp. split; [|apply (dp_kept _ _ _ _ _ _ _ Hp)]. intros Hout.
  assert (∀ l, q ≠ base r ++ av_Artifact v :: av_Version v :: l) as Hne.
  { intros l ->. apply Hout. apply prefix_app. by exists l. }
  destruct (fr_disk r !! q) as [c|] eqn:Hq; [by apply (dp_kept _ _ _ _ _ _ _ Hp); [|apply Hne]|].
  destruct (fr_disk r' !! q) as [c|] eqn:Hq'; [|done].
  destruct (dp_new _ _ _ _ _ _ _ Hp _ _ Hq') as [Hold|[Heq|(os & arch & _ & Heq)]]; [congruence|exfalso; by eapply Hne..].
Qed.

(** C37: What is published can be resolved and served, and nothing else changes. Publishing readable binaries under
    plain names that JSON represents, for well-formed platform keys not on disk yet, succeeds; afterwards each of them
    resolves, with its hash, size, dependencies and address, its file holds the uploaded bytes, and the version's
    metadata file reads back as the version with exactly these builds. Every other platform of every artifact
    resolves as before, every file outside the version's directory is as it was, and every file inside it but the
    metadata is too. *)
Theorem publish_then_resolve `{GoRuntime} `{RegistryCodec} (r : FsRegistry) (v : ArtifactVersion)
    (bs : gmap string (res error string)) (now : Time) :
  disk_ok r → index_ok r → rep_upload v bs now →
  plain_name (av_Artifact v) → plain_name (av_Version v) → Forall (storable r v) (range_map bs) →
  ∃ r' ps, Publish r v bs now = (r', None) ∧
    (∀ key os arch content, bs !! key = Some (Ok content) → splitPlatformKey key = Ok (os, arch) →
      platform_of v key os arch content ∈ ps ∧
      fs_ResolveVersion r' (av_Artifact v) (av_Version v) os arch = Ok (withURL r (platform_of v key os arch content)) ∧
      fr_disk r' !! binaryPath r (av_Artifact v) (av_Version v) os arch = Some content) ∧
    (readMeta r' (av_Artifact v) (av_Version v) = Ok (stored_version (published v ps now)) ∧ length ps = size bs) ∧
    (∀ a ver os arch, (a ≠ av_Artifact v ∨ ver ≠ av_Version v) →
      fs_ResolveVersion r' a ver os arch = fs_ResolveVersion r a ver os arch) ∧
    ∀ q, (¬ (base r ++ [av_Artifact v; av_Version v]) `prefix_of` q → fr_disk r' !! q = fr_disk r !! q) ∧
      ∀ c, fr_disk r !! q = Some c → q ≠ base r ++ [av_Artifact v; av_Version v; "meta.json"] → fr_disk r' !! q = Some c.
Proof.
  intros Hd Hi Hm Ha Hv Hst. destruct (Publish_spec r v bs now Hd Hi Hm Ha Hv Hst) as (r' & ps & data & Hpub & Hp).
  exists r', ps. split; [done|]. pose proof (did_publish_index _ _ _ _ _ _ _ Hi Ha Hv Hp) as Hi'.
  assert (∀ p, withURL r' p = withURL r p) as Eurl by (intros p; unfold withURL; by rewrite (dp_url _ _ _ _ _ _ _ Hp)).
  assert (base r' = base r) as Eb by (unfold base; by rewrite (dp_dir _ _ _ _ _ _ _ Hp)).
  split; [|split; [split|split]].
  - intros key os arch content Hkey Hk. apply elem_of_range_map, list_elem_of_lookup in Hkey as [i Hin].
    destruct (Forall2_lookup_l _ _ _ _ _ (dp_platforms _ _ _ _ _ _ _ Hp) Hin) as (p & Hpi & Hde).
    destruct Hde as (os' & arch' & c' & Hk' & Hc' & Hg & -> & Hf). cbn [fst snd] in Hk', Hc'. rewrite Hk in Hk'. simplify_eq.
    apply list_elem_of_lookup_2 in Hpi. split; [done|].
    split; [|rewrite binaryPath_plain, <- Eb by done; exact Hf]. apply resolve_version_iff; [done|].
    exists (platform_of v key os' arch' c'). rewrite Eurl. split_and!; try done.
    rewrite (did_publish_platforms _ _ _ _ _ _ _ _ Hp), decide_True by done. apply elem_of_app. by right.
  - unfold readMeta. rewrite metaPath_plain, Eb, (dp_meta _ _ _ _ _ _ _ Hp) by done. apply Hp.
  - rewrite <- (Forall2_length _ _ _ (dp_platforms _ _ _ _ _ _ _ Hp)). apply range_map_length.
  - intros a ver os arch Hne. by eapply publish_others.
  - intros q. by eapply publish_files.
Qed.

(** [Resolve] reads the listing in its order, which the index shares up to what [forget] drops. *)
Lemma resolve_forgotten r r' a os arch : fr_baseURL r' = fr_baseURL r → versions_of r' a = forget <$> versions_of r a →
  fs_Resolve r' a os arch = fs_Resolve r a os arch.
Proof.
  intros Eu Ev. unfold fs_Resolve. rewrite Ev. generalize (versions_of r a) as l. intros l.
  assert (filter (λ v, av_PreRelease v = false) (forget <$> l) = forget <$> filter (λ v, av_PreRelease v = false) l) as ->.
  { induction l as [|v l IH]; [done|]. rewrite fmap_cons, !filter_cons.
    change (av_PreRelease (forget v)) with (av_PreRelease v). case_decide; [rewrite fmap_cons; by f_equal|done]. }
  rewrite forget_platforms. generalize (filter (λ v, av_PreRelease v = false) l ≫= av_Platforms) as ps. intros ps.
  assert (first (for_platform os arch) (strip <$> ps) = strip <$> first (for_platform os arch) ps) as ->.
  { induction ps as [|p ps IH]; [done|]. unfold first in *. rewrite fmap_cons. cbn [list_find].
    change (for_platform os arch (strip p)) with (for_platform os arch p). case_decide; [done|].
    destruct (list_find _ (strip <$> ps)) as [[i x]|], (list_find _ ps) as [[k y]|]; cbn in *; congruence. }
  destruct (first _ ps) as [p|]; cbn; [|done]. f_equal. unfold withURL. by rewrite Eu.
Qed.

(** C38: A restart keeps the registry. Take any history of uploads that succeed or fail, deletions and listings, with
    artifact and version names that are single path elements, versions that JSON represents, and no version published
    twice. A registry opened on the same directory then holds the same versions and resolves every build of every
    version as before; it also resolves the latest release as before for every artifact whose versions were
    published at different times. *)
Theorem registry_restart `{GoRuntime} `{RegistryCodec} (dir url : string) (r0 r : FsRegistry) :
  NewFsRegistry dir url ∅ = Ok r0 → rtc reg_step r0 r →
  ∃ r', NewFsRegistry dir url (fr_disk r) = Ok r' ∧
    (∀ a, versions_of r' a ≡ₚ forget <$> versions_of r a) ∧
    (∀ a ver os arch, fs_ResolveVersion r' a ver os arch = fs_ResolveVersion r a ver os arch) ∧
    ∀ a os arch, (∀ x y, x ∈ versions_of r a → y ∈ versions_of r a → av_PublishedAt x = av_PublishedAt y → x = y) →
      fs_Resolve r' a os arch = fs_Resolve r a os arch.
Proof.
  intros Hnew Hsteps.
  assert (registry_ok r ∧ fr_dir r = dir ∧ fr_baseURL r = TrimRight "/" url) as (Hr & <- & Eu).
  { destruct (empty_registry_ok dir url r0 Hnew) as (Hr0 & Ed & Eu). revert Hr0 Ed Eu.
    clear Hnew. induction Hsteps as [|r1 r2 r3 Hs _ IH]; intros Hr0 Ed Eu; [done|].
    destruct (reg_step_ok r1 r2 Hs Hr0) as (Hr2 & Ed2 & Eu2). apply IH; congruence || done. }
  destruct (restart_versions r url Hr) as (r' & Hr' & Ed & Ek & Eu' & Hv); [apply mkdir_base, Hr|].
  destruct (restart_index r r' (ro_index _ Hr) Ed Ek Hv) as [Hi' Hall].
  exists r'. split_and!; [done|intros a; apply Hv| |].
  - intros a ver os arch. apply resolve_version_same; [apply Hr|done|congruence|apply Hall].
  - intros a os arch Hdist. apply resolve_forgotten; [congruence|].
    apply (StronglySorted_unique_strong (not_after later_first)); [|apply Hv| |apply Hv].
    + intros x y. rewrite (proj1 (Hv a)), !list_elem_of_fmap. intros (x0 & -> & Hx) (y0 & -> & Hy).
      unfold not_after, later_first, After. intros H1 H2. f_equal. apply Hdist; try done.
      change (av_PublishedAt (forget x0)) with (av_PublishedAt x0) in *. change (av_PublishedAt (forget y0)) with (av_PublishedAt y0) in *.
      apply Z.ltb_ge in H1, H2. lia.
    + clear Hdist. pose proof (io_sorted _ (ro_index _ Hr) a) as Hs. induction Hs as [|x l Hs IH Hx]; [constructor|].
      rewrite fmap_cons. constructor; [exact IH|]. apply Forall_fmap. eapply Forall_impl; [exact Hx|]. by intros y Hy.
Qed.

(** The latest release is resolved. [Resolve] returns a build for the asked platform from a version that is not
    a pre-release and whose publication time is at least that of every other such version with a build for the
    platform, and reports absence exactly when there is none. *)
Theorem resolve_latest (r : FsRegistry) (a os arch : string) :
  index_ok r →
  let candidate v p := v ∈ versions_of r a ∧ av_PreRelease v = false ∧ p ∈ av_Platforms v ∧
                       ap_OS p = os ∧ ap_Arch p = arch in
  match fs_Resolve r a os arch with
  | Ok p' => ∃ v p, candidate v p ∧ p' = withURL r p ∧
      ∀ v2 p2, candidate v2 p2 → (av_PublishedAt v2 ≤ av_PublishedAt v)%Z
  | Err e => e = ErrArtifactNotFound ∧ ∀ v p, ¬ candidate v p
  end.
Proof.
  intros Hi. cbn zeta. unfold fs_Resolve. pose proof (io_sorted _ Hi a) as Hs. revert Hs.
  generalize (versions_of r a) as l. intros l Hs. induction Hs as [|v l Hs IH Hv].
  { split; [done|]. intros v p ([]%elem_of_nil & _). }
  rewrite filter_cons. case_decide as Hpre.
  2:{ destruct (first _ _) as [p|].
      - destruct IH as (v0 & p0 & (Hv0 & Hc) & Hp & Hmax). exists v0, p0. split; [split; [by right|done]|]. split; [done|].
        intros v2 p2 ([->|Hv2]%elem_of_cons & Hc2); [by destruct Hc2|by apply (Hmax v2 p2)].
      - destruct IH as [He Hno]. split; [done|]. intros v2 p2 ([->|Hv2]%elem_of_cons & Hc2); [by destruct Hc2|by apply (Hno v2 p2)]. }
  cbn [mbind list_bind]. destruct (first (for_platform os arch) (av_Platforms v)) as [p|] eqn:Hf.
  - rewrite (first_app_l _ _ _ p Hf). apply first_Some in Hf as [Hp Hpl]. unfold for_platform in Hpl.
    apply andb_prop in Hpl as [Ho%bool_decide_eq_true Ha%bool_decide_eq_true]. exists v, p.
    split; [split; [by left|done]|]. split; [done|]. intros v2 p2 ([->|Hv2]%elem_of_cons & _); [done|].
    specialize (proj1 (Forall_forall _ _) Hv v2 Hv2). unfold not_after, later_first, After. intros Hna. by apply Z.ltb_ge.
  - rewrite (first_app_r _ _ _ Hf). rewrite first_None in Hf.
    assert (∀ p, p ∈ av_Platforms v → ap_OS p = os → ap_Arch p = arch → False) as Hnone.
    { intros p Hp Ho Ha. specialize (Hf p Hp). unfold for_platform in Hf. by rewrite !bool_decide_eq_true_2 in Hf. }
    destruct (first _ (_ ≫= _)) as [p|].
    + destruct IH as (v0 & p0 & (Hv0 & Hc) & Hp & Hmax). exists v0, p0. split; [split; [by right|done]|]. split; [done|].
      intros v2 p2 ([->|Hv2]%elem_of_cons & Hc2); [exfalso; destruct Hc2 as (_ & ? & ? & ?); by eapply Hnone|by apply (Hmax v2 p2)].
    + destruct IH as [He Hno]. split; [done|]. intros v2 p2 ([->|Hv2]%elem_of_cons & Hc2); [|by apply (Hno v2 p2)].
      destruct Hc2 as (_ & ? & ? & ?). by eapply Hnone.
Qed.

(** Publishing a version one platform at a time loses all but the last upload at the next restart. The first
    platform resolves until then; after reopening the same directory it is gone although its binary is still
    there, and it cannot be uploaded again because that file is in the way. *)
Theorem second_upload_hides_first `{GoRuntime} `{RegistryCodec} (r r1 r2 : FsRegistry) (v : ArtifactVersion)
    (bs1 bs2 : gmap string (res error string)) (now1 now2 now3 : Time) (key os arch content url : string)
    (reader : res error string) :
  registry_ok r → rep_upload v bs1 now1 → rep_upload v bs2 now2 → plain_name (av_Artifact v) → plain_name (av_Version v) →
  (∀ x, x ∈ versions_of r (av_Artifact v) → av_Version x ≠ av_Version v) →
  Forall (storable r v) (range_map bs1) → Publish r v bs1 now1 = (r1, None) →
  Forall (storable r1 v) (range_map bs2) → Publish r1 v bs2 now2 = (r2, None) →
  bs1 !! key = Some (Ok content) → splitPlatformKey key = Ok (os, arch) →
  (∃ p, fs_ResolveVersion r2 (av_Artifact v) (av_Version v) os arch = Ok p) ∧
  ∃ r', NewFsRegistry (fr_dir r) url (fr_disk r2) = Ok r' ∧
    fr_disk r' !! binaryPath r' (av_Artifact v) (av_Version v) os arch = Some content ∧
    fs_ResolveVersion r' (av_Artifact v) (av_Version v) os arch = Err ErrArtifactNotFound ∧
    Publish r' v {[key := reader]} now3 = (r', Some ErrArtifactAlreadyExists).
Proof.
  intros Hr Hm1 Hm2 Ha Hv Hfresh Hst1 Hpub1 Hst2 Hpub2 Hkey Hk. pose proof Hr as [Hd Hi _].
  destruct (Publish_spec r v bs1 now1 Hd Hi Hm1 Ha Hv Hst1) as (? & ps1 & data1 & Hpub1' & Hp1).
  rewrite Hpub1 in Hpub1'. injection Hpub1' as <-.
  pose proof (did_publish_disk _ _ _ _ _ _ _ Hd Ha Hv Hp1) as Hd1. pose proof (did_publish_index _ _ _ _ _ _ _ Hi Ha Hv Hp1) as Hi1.
  destruct (Publish_spec r1 v bs2 now2 Hd1 Hi1 Hm2 Ha Hv Hst2) as (? & ps2 & data2 & Hpub2' & Hp2).
  rewrite Hpub2 in Hpub2'. injection Hpub2' as <-. pose proof (did_publish_index _ _ _ _ _ _ _ Hi1 Ha Hv Hp2) as Hi2.
  assert (base r1 = base r ∧ base r2 = base r) as [Eb1 Eb2].
  { unfold base. by rewrite (dp_dir _ _ _ _ _ _ _ Hp2), (dp_dir _ _ _ _ _ _ _ Hp1). }
  apply elem_of_range_map, list_elem_of_lookup in Hkey as [i Hin].
  destruct (Forall2_lookup_l _ _ _ _ _ (dp_platforms _ _ _ _ _ _ _ Hp1) Hin) as (p & Hpi & os' & arch' & c' & Hk' & Hc' & Hg & -> & Hf).
  cbn [fst snd] in Hk', Hc'. rewrite Hk in Hk'. simplify_eq. rewrite Eb1 in Hf.
  assert (fr_disk r2 !! (base r ++ [av_Artifact v; av_Version v; os'; arch'; "binary"]) = Some c') as Hf2.
  { apply (dp_kept _ _ _ _ _ _ _ Hp2); [done|]. rewrite Eb1. intros Heq. by simplify_list_eq. }
  split.
  { eexists. apply resolve_version_iff; [done|]. exists (platform_of v key os' arch' c'). split_and!; try done.
    rewrite (did_publish_platforms _ _ _ _ _ _ _ _ Hp2), decide_True, (did_publish_platforms _ _ _ _ _ _ _ _ Hp1), decide_True by done.
    rewrite !elem_of_app. left. right. by eapply list_elem_of_lookup_2. }
  destruct (second_upload_ok r v bs1 bs2 now1 now2 r1 r2 ps1 ps2 data1 data2 Hr Ha Hv Hfresh Hp1 Hp2) as [Hr3 Hall3].
  set (r3 := r2 <| fr_versions := _ |>) in *.
  destruct (restart_versions r3 url Hr3) as (r' & Hr' & Ed & Ek & _ & Hvs); [apply mkdir_base, Hr3|].
  destruct (restart_index r3 r' (ro_index _ Hr3) Ed Ek Hvs) as [Hi' Hall'].
  change (fr_disk r3) with (fr_disk r2) in *. change (fr_dir r3) with (fr_dir r2) in *.
  assert (base r' = base r) as Eb' by (unfold base; rewrite Ed; exact Eb2).
  exists r'. rewrite <- (dp_dir _ _ _ _ _ _ _ Hp1), <- (dp_dir _ _ _ _ _ _ _ Hp2). split; [done|].
  split; [by rewrite binaryPath_plain, Ek, Eb'|]. apply (orphan_blocks r' v key os' arch'); try done.
  - intros q c Hq. rewrite Ek in Hq. destruct (ro_disk _ Hr3 q c Hq) as (a0 & v0 & Hreg). exists a0, v0.
    rewrite Eb', <- Eb2. exact Hreg.
  - rewrite Ek, Eb'. by eexists.
  - intros p. rewrite Hall'. intros (p0 & -> & Hp0)%list_elem_of_fmap. rewrite Hall3, elem_of_app in Hp0.
    intros Hid. destruct Hp0 as [(x & Hx & Hxp)%elem_of_all_platforms|Hp0].
    + destruct (io_platforms _ Hi _ x p0 Hx Hxp) as (_ & Hver & _). injection Hid as Hid _ _. by apply (Hfresh x); [|congruence].
    + apply list_elem_of_lookup in Hp0 as [j Hj].
      destruct (Forall2_lookup_r _ _ _ _ _ (dp_platforms _ _ _ _ _ _ _ Hp2) Hj) as (b & Hb & o & ar & c & Hkb & _ & _ & -> & _).
      injection Hid as -> ->. apply list_elem_of_lookup_2 in Hb.
      destruct (proj1 (Forall_forall _ _) Hst2 b Hb) as (o2 & ar2 & c2 & Hk2 & _ & _ & Hfree).
      rewrite Hkb in Hk2. injection Hk2 as <- <-. rewrite Eb1, Hf in Hfree. discriminate Hfree.
Qed.

(** ** A codec and a registry, to evaluate the properties *)
Fixpoint bits (p : positive) : string :=
  match p with xH => "" | xO p => String "0" (bits p) | xI p => String "1" (bits p) end.

Fixpoint of_bits (s : string) : positive :=
  match s with "" => xH | String c s => if decide (c = "0"%char) then xO (of_bits s) else xI (of_bits s) end.

Lemma of_bits_bits p : of_bits (bits p) = p.
Proof. induction p as [p IH|p IH|]; simpl; rewrite ?IH; done. Qed.

(** Any countable value as text. *)
Definition text `{Countable A} (x : A) : string := bits (encode x).
Definition of_text `{Countable A} (s : string) : option A := decode (of_bits s).

Lemma of_text_text `{Countable A} (x : A) : of_text (text x) = Some x.
Proof. unfold of_text, text. by rewrite of_bits_bits, decode_encode. Qed.

Definition platform_fields (p : ArtifactPlatform) : list string :=
  ap_Artifact p :: ap_Version p :: ap_OS p :: ap_Arch p :: ap_Hash p :: text (ap_Size p) :: ap_URL p :: ap_Dependencies p.

Definition of_platform_fields (l : list string) : option ArtifactPlatform :=
  match l with
  | a :: v :: o :: ar :: h :: sz :: u :: d => (λ sz, MkArtifactPlatform a v o ar h sz d u) <$> of_text sz
  | _ => None
  end.

Definition version_fields (v : ArtifactVersion) : list (list string) :=
  [av_Artifact v; av_Version v; text (av_PreRelease v); text (av_PublishedAt v)] :: (platform_fields <$> av_Platforms v).

Definition decode_version (s : string) : res error ArtifactVersion :=
  match of_text s ≫= (λ l : list (list string),
    match l with
    | [a; v; pre; t] :: ps =>
        pre ← of_text pre; t ← of_text t; ps ← mapM of_platform_fields ps; Some (MkArtifactVersion a v pre t ps ∅)
    | _ => None
    end) with
  | Some v => Ok v
  | None => Err (ErrMsg "unexpected end of JSON input")
  end.

Lemma decode_version_fields v : decode_version (text (version_fields v)) = Ok (stored_version v).
Proof.
  unfold decode_version. rewrite of_text_text. destruct v as [a v pre t ps deps].
  cbn [mbind option_bind version_fields av_Artifact av_Version av_PreRelease av_PublishedAt av_Platforms].
  rewrite !of_text_text. cbn [mbind option_bind].
  assert (mapM of_platform_fields (platform_fields <$> ps) = Some ps) as ->; [|done].
  apply mapM_Some. induction ps as [|p ps IH]; constructor; [|done].
  unfold of_platform_fields, platform_fields. rewrite of_text_text. by destruct p.
Qed.

(** A codec with the laws, and a digest that keeps everything. *)
Definition bit_codec : RegistryCodec.
Proof.
  refine {| rep_version _ := True; meta_marshal v := Ok (text (version_fields v)); meta_unmarshal := decode_version;
            sha256_hex s := s |}.
  intros v _. eexists. split; [reflexivity|]. apply decode_version_fields.
Defined.

Section samples.
#[local] Existing Instances canonical_runtime bit_codec.

Definition fresh_registry : FsRegistry := MkFsRegistry "/var/artifacts" "http://m" ∅ ∅.

Definition resize_version : ArtifactVersion := MkArtifactVersion "resize" "1.0" false 5 [] ∅.

Lemma fresh_registry_ok : registry_ok fresh_registry.
Proof. exact (proj1 (empty_registry_ok "/var/artifacts" "http://m" fresh_registry eq_refl)). Qed.

Lemma codec_total v bs now : rep_upload v bs now.
Proof. intros ps _. exact I. Qed.

Definition linux_upload : gmap string (res error string) := {["linux_amd64" := Ok "ELF"]}.
Definition darwin_upload : gmap string (res error string) := {["darwin_arm64" := Ok "MACHO"]}.

Definition with_linux : FsRegistry := (Publish fresh_registry resize_version linux_upload 5).1.
Definition with_both : FsRegistry := (Publish with_linux resize_version darwin_upload 6).1.

Lemma plain_resize : plain_name "resize" ∧ plain_name "1.0".
Proof. split; apply (bool_decide_unpack _); vm_compute; exact I. Qed.

Lemma linux_storable : Forall (storable fresh_registry resize_version) (range_map linux_upload).
Proof.
  assert (range_map linux_upload = [("linux_amd64", Ok "ELF")]) as -> by (vm_compute; reflexivity).
  apply Forall_singleton. exists "linux", "amd64", "ELF". split_and!; try (vm_compute; reflexivity).
  apply (bool_decide_unpack _). vm_compute. exact I.
Qed.

Lemma darwin_storable : Forall (storable with_linux resize_version) (range_map darwin_upload).
Proof.
  assert (range_map darwin_upload = [("darwin_arm64", Ok "MACHO")]) as -> by (vm_compute; reflexivity).
  apply Forall_singleton. exists "darwin", "arm64", "MACHO". split_and!; try (vm_compute; reflexivity).
  apply (bool_decide_unpack _). vm_compute. exact I.
Qed.

Lemma linux_keys : good_keys (range_map linux_upload).*1.
Proof.
  assert ((range_map linux_upload).*1 = ["linux_amd64"]) as -> by (vm_compute; reflexivity).
  apply Forall_singleton. intros os arch [= <- <-]. apply (bool_decide_unpack _). vm_compute. exact I.
Qed.

Lemma linux_step : reg_step fresh_registry with_linux.
Proof.
  apply (reg_publish fresh_registry resize_version linux_upload 5); [apply plain_resize|apply plain_resize|exact linux_keys|apply codec_total|].
  intros x Hx. change (versions_of fresh_registry (av_Artifact resize_version)) with (@nil ArtifactVersion) in Hx.
  apply elem_of_nil in Hx as [].
Qed.

Lemma linux_published : Publish fresh_registry resize_version linux_upload 5 = (with_linux, None).
Proof. apply injective_projections; [reflexivity|vm_compute; reflexivity]. Qed.

Lemma both_published : Publish with_linux resize_version darwin_upload 6 = (with_both, None).
Proof. apply injective_projections; [reflexivity|vm_compute; reflexivity]. Qed.

Lemma publish_then_resolve_witness : ∃ r', Publish fresh_registry resize_version linux_upload 5 = (r', None) ∧
  ∃ p, fs_ResolveVersion r' "resize" "1.0" "linux" "amd64" = Ok p ∧ ap_Size p = 3%Z.
Proof.
  destruct (publish_then_resolve fresh_registry resize_version linux_upload 5) as (r' & ps & Hr' & Hres & _);
    [apply fresh_registry_ok|apply fresh_registry_ok|apply codec_total|apply plain_resize|apply plain_resize|exact linux_storable|].
  exists r'. split; [exact Hr'|]. destruct (Hres "linux_amd64" "linux" "amd64" "ELF") as (_ & Hok & _); [reflexivity..|].
  eexists. split; [exact Hok|reflexivity].
Defined.

Lemma registry_restart_witness : ∃ r', NewFsRegistry "/var/artifacts" "http://m" (fr_disk with_linux) = Ok r' ∧
  fs_ResolveVersion r' "resize" "1.0" "linux" "amd64" = fs_ResolveVersion with_linux "resize" "1.0" "linux" "amd64" ∧
  fs_Resolve r' "resize" "linux" "amd64" = fs_Resolve with_linux "resize" "linux" "amd64".
Proof.
  destruct (registry_restart "/var/artifacts" "http://m" fresh_registry with_linux) as (r' & Hr' & _ & Hres & Hlast);
    [vm_compute; reflexivity|apply rtc_once, linux_step|].
  exists r'. split; [exact Hr'|]. split; [apply Hres|]. apply Hlast.
  assert (∃ x, versions_of with_linux "resize" = [x]) as [x ->] by (eexists; vm_compute; reflexivity).
  intros y z ->%list_elem_of_singleton ->%list_elem_of_singleton _. reflexivity.
Defined.

(** A version whose name has a slash is stored one level deeper than a restart looks: it resolves until then only. *)
Definition with_slash : FsRegistry := (Publish fresh_registry (resize_version <| av_Version := "feature/x" |>) linux_upload 5).1.

Lemma slashed_version_is_lost :
  (∃ p, fs_ResolveVersion with_slash "resize" "feature/x" "linux" "amd64" = Ok p) ∧
  ∃ r', NewFsRegistry "/var/artifacts" "http://m" (fr_disk with_slash) = Ok r' ∧
    fs_ResolveVersion r' "resize" "feature/x" "linux" "amd64" = Err ErrArtifactNotFound.
Proof.
  split; [eexists; vm_compute; reflexivity|]. eexists. split; vm_compute; reflexivity.
Qed.

Lemma resolve_latest_witness : ∃ p, fs_Resolve with_linux "resize" "linux" "amd64" = Ok p ∧ ap_Hash p = "ELF".
Proof.
  destruct (reg_step_ok fresh_registry with_linux linux_step fresh_registry_ok) as ([_ Hi _] & _).
  pose proof (resolve_latest with_linux "resize" "linux" "amd64" Hi) as Hl.
  assert (fs_Resolve with_linux "resize" "linux" "amd64" ≠ Err ErrArtifactNotFound) as Hne by (vm_compute; discriminate).
  destruct (fs_Resolve with_linux "resize" "linux" "amd64") as [p|e] eqn:E.
  - exists p. split; [reflexivity|]. revert E. vm_compute. intros [= <-]. reflexivity.
  - exfalso. destruct Hl as [He _]. exact (Hne (f_equal Err He)).
Defined.

Lemma second_upload_hides_first_witness : ∃ r', NewFsRegistry "/var/artifacts" "http://m" (fr_disk with_both) = Ok r' ∧
  fs_ResolveVersion r' "resize" "1.0" "linux" "amd64" = Err ErrArtifactNotFound.
Proof.
  destruct (second_upload_hides_first fresh_registry with_linux with_both resize_version linux_upload darwin_upload 5 6 7
    "linux_amd64" "linux" "amd64" "ELF" "http://m" (Ok "ELF")) as (_ & r' & Hr' & _ & Hres & _);
    [exact fresh_registry_ok|apply codec_total|apply codec_total|apply plain_resize|apply plain_resize| |exact linux_storable|
     exact linux_published|exact darwin_storable|exact both_published|reflexivity|reflexivity|].
  - intros x Hx. change (versions_of fresh_registry (av_Artifact resize_version)) with (@nil ArtifactVersion) in Hx.
    apply elem_of_nil in Hx as [].
  - exists r'. split; [exact Hr'|exact Hres].
Defined.
End samples.
