(* ===== verification/Manager.v ===== *)
(** * The manager's state, its queue operations and the dispatcher (src/manager/manager.go, dispatcher.go)

    One record holds what [Manager] and [WorkerConnServer] keep: the worker
    pool (with the dispatch signal both share), the dispatch queue, the
    cancelled ids, the webhook dispatcher with the store behind it, and the run
    ids and retry timers of the connection server.  The five store interfaces
    are one store, as in the shipped configurations.  A call of [time.Now] is
    the argument [now]; each definition is one uninterrupted call. *)
From S2P Require Import Prelude GoStd External Contract Store Webhooks Heap PriorityQueue Cache.
From S2P Require Import WorkerConn WorkerPool Proto Config.

(** The [WorkerSelector] interface: call [n] picks one of a non-empty slice of workers. *)
Class WorkerSelector (SS : Type) := {
  sel_Select : nat → WorkerPool SS → list nat → nat;
  sel_Select_in n p ws : ws ≠ [] → sel_Select n p ws ∈ ws;
}.

(** A pending [time.AfterFunc] of [handleJobError]: when it is due and for which job. *)
Record RetryTimer := MkRetryTimer { rt_due : Time; rt_jobID : string }.

Record Manager (SS ST : Type) := MkManager {
  mg_workers : WorkerPool SS;
  mg_queue : PriorityQueue Job;
  mg_cancelledJobIDs : SS;
  mg_lastScaleUpCall : Time;
  mg_webhooks : WebhookDispatcher ST;
  mg_lastDispatchRun : Z;
  (** calls of the selector so far *)
  mg_selections : nat;
  (** [WorkerConnServer] *)
  mg_activeRunIDs : gmap string string;
  mg_timers : list RetryTimer;
}.
Arguments MkManager {SS ST} _ _ _ _ _ _ _ _ _.
Arguments mg_workers {SS ST} _.
Arguments mg_queue {SS ST} _.
Arguments mg_cancelledJobIDs {SS ST} _.
Arguments mg_lastScaleUpCall {SS ST} _.
Arguments mg_webhooks {SS ST} _.
Arguments mg_lastDispatchRun {SS ST} _.
Arguments mg_selections {SS ST} _.
Arguments mg_activeRunIDs {SS ST} _.
Arguments mg_timers {SS ST} _.

#[export] Instance Manager_rebuild {SS ST} : Rebuild (Manager SS ST) := λ m,
  MkManager (mg_workers m) (mg_queue m) (mg_cancelledJobIDs m) (mg_lastScaleUpCall m) (mg_webhooks m)
    (mg_lastDispatchRun m) (mg_selections m) (mg_activeRunIDs m) (mg_timers m).

(** Why a job cannot dispatch in this pass. *)
Record jobDeferral := MkJobDeferral { jd_reason : string; jd_shortage : bool; jd_fail : bool }.

(** The caches of one pass: platform keys by task and version, and tasks known to exist. *)
Record PassCaches := MkPassCaches {
  platformCache : gmap (string * string) (list string);
  taskCache : gset string;
}.

#[export] Instance PassCaches_rebuild : Rebuild PassCaches := λ c,
  MkPassCaches (platformCache c) (taskCache c).

Record PlatformDemand := MkPlatformDemand {
  pd_OS : string;
  pd_Arch : string;
  pd_PendingCost : Z;
  pd_PendingCount : Z;
}.

Record ResourceShortageEvent := MkResourceShortageEvent {
  rse_PendingCost : Z;
  rse_ClusterCapacity : Z;
  rse_PendingCount : Z;
  rse_ConnectedWorkers : Z;
  rse_UnsatisfiedPlatforms : list PlatformDemand;
}.

Record taskDemand := MkTaskDemand { td_cost : Z; td_count : Z; td_minCost : Z }.

(** What a pass did: the jobs it dispatched, failed and pushed back, and the scaling event. *)
Record PassResult := MkPassResult {
  pr_dispatched : list Job;
  pr_failed : list Job;
  pr_deferred : list Job;
  pr_shortage : bool;
}.

#[export] Instance PassResult_rebuild : Rebuild PassResult := λ r,
  MkPassResult (pr_dispatched r) (pr_failed r) (pr_deferred r) (pr_shortage r).

Section manager.
Context `{SimpleSet SS} `{Store ST} `{GoRuntime} `{Ulid} `{SerialLanes} `{WebhookEnv} `{WorkerSelector SS}.
Context (cfg : Config).
Local Open Scope go_scope.
Implicit Types (m : Manager SS ST) (job : Job).

(** ** Access to the parts *)
Definition mg_store m : ST := wd_store (mg_webhooks m).
Definition ents m : Entities := entities (mg_store m).
Definition set_store m (s : ST) : Manager SS ST :=
  m <| mg_webhooks := (mg_webhooks m) <| wd_store := s |> |>.

Definition update_job m (id : string) (mutate : Job → Job) : Manager SS ST * option error :=
  let '(s, err) := st_UpdateJob (mg_store m) id mutate in (set_store m s, err).

Definition update_run m (id : string) (mutate : JobRun → JobRun) : Manager SS ST * option error :=
  let '(s, err) := st_UpdateRun (mg_store m) id mutate in (set_store m s, err).

(** [New]: an empty manager around a store. *)
Definition New (store : ST) (ulids : nat) : Manager SS ST :=
  MkManager (NewWorkerPool (MkSigChan 0 0 false)) NewPriorityQueue ss_New time_zero
    (NewWebhookDispatcher store ulids) 0 0 ∅ [].

(** ** The queue *)
Definition NotifyDispatcher m : Manager SS ST := m <| mg_workers := pool_notifyDispatcher (mg_workers m) |>.

(** Receive until the channel is empty; [sc_len] values are buffered at most. *)
Fixpoint drain_signals (fuel : nat) (c : SigChan) : SigChan :=
  match fuel with
  | O => c
  | S fuel => let '(c, received) := try_recv c in if received then drain_signals fuel c else c
  end.

Definition drainDispatchSignals m : Manager SS ST :=
  let c := wp_dispatchSignal (mg_workers m) in
  m <| mg_workers := (mg_workers m) <| wp_dispatchSignal := drain_signals (S (sc_len c)) c |> |>.

Definition push_job m job : Manager SS ST := m <| mg_queue := (PushItem job_higher (mg_queue m) job).2 |>.

Definition EnqueueJob m job : Manager SS ST := NotifyDispatcher (push_job m job).

Definition EnqueueJobs m (jobs : list Job) : Manager SS ST :=
  match jobs with
  | [] => m
  | _ => NotifyDispatcher (foldl push_job m jobs)
  end.

(** The recursion pops one entry per call, so it ends within [Size] calls. *)
Fixpoint pop_next (fuel : nat) m : option Job * Manager SS ST :=
  match fuel with
  | O => (None, m)
  | S fuel =>
      if Size (mg_queue m) <? 1 then (None, m)
      else
        let '(popped, q) := PopItem job_higher (mg_queue m) in
        let m := m <| mg_queue := q |> in
        match popped with
        | None => (None, m)
        | Some job =>
            if ss_Has (job_ID job) (mg_cancelledJobIDs m)
            then pop_next fuel (m <| mg_cancelledJobIDs := ss_Remove (job_ID job) (mg_cancelledJobIDs m) |>)
            else (Some job, m)
        end
  end.

Definition PopNextJobFromQueue m : option Job * Manager SS ST := pop_next (S (Size (mg_queue m))) m.

Definition max_priority (l : list Job) : Z :=
  foldl (λ maxP job, if (maxP <? job_Priority job)%Z then job_Priority job else maxP) 0%Z l.

Definition starved (maxP : Z) (now : Time) job : bool :=
  (StarvationTimeout cfg <? time_Sub now (job_CreatedAt job))%Z && (job_Priority job <=? maxP)%Z.

(** One queue entry of the boosting loop; [dirty] says whether any was boosted. *)
Definition boost (maxP : Z) (now : Time) (st : PriorityQueue Job * bool) (a : nat)
  : PriorityQueue Job * bool :=
  let '(q, dirty) := st in
  let job := item_Value (deref q a) in
  if starved maxP now job then (set_value q a (job <| job_Priority := maxP +! 1 |>), true) else (q, dirty).

Definition age_queue (q : PriorityQueue Job) (now : Time) : PriorityQueue Job :=
  if (StarvationTimeout cfg <=? 0)%Z then q
  else
    let maxP := max_priority (Values q) in
    let '(q, dirty) := foldl (boost maxP now) (q, false) (Snapshot q) in
    if dirty then Reheapify job_higher q else q.

Definition applyStarvationAging m (now : Time) : Manager SS ST :=
  m <| mg_queue := age_queue (mg_queue m) now |>.

(** ** Failing a job *)
Definition failJobDirect m job (reason : string) (now : Time) : Manager SS ST :=
  let '(m, _) := update_job m (job_ID job) (λ j,
    j <| job_Status := JobStatusFailed |> <| job_FailureReason := reason |> <| job_UpdatedAt := now |>) in
  m <| mg_webhooks := FireJobFailed (mg_webhooks m) job reason now |>.

(** ** Can the job dispatch in this pass? *)
Definition platform_keys (platforms : list ArtifactPlatform) : list string :=
  (λ p, platformKey (ap_OS p) (ap_Arch p)) <$> platforms.

Definition jobPlatformKeysForDispatch m job (online : gset string) (c : PassCaches)
  : list string * option jobDeferral * PassCaches :=
  let check :=
    if bool_decide (job_TaskName job ∈ taskCache c) then Ok c
    else match GetTask (ents m) (job_TaskName job) with
         | Err _ => Err (MkJobDeferral ("unknown task: " +:+ job_TaskName job) false true)
         | Ok _ => Ok (c <| taskCache := {[job_TaskName job]} ∪ taskCache c |>)
         end in
  match check with
  | Err d => ([], Some d, c)
  | Ok c =>
      match cfg_ArtifactsRegistry cfg with
      | None => ([], None, c)
      | Some reg =>
          let key := (job_TaskName job, job_ArtifactVersion job) in
          let keys :=
            match platformCache c !! key with
            | Some keys => Ok (keys, c)
            | None =>
                match ListPlatforms reg (job_TaskName job) (job_ArtifactVersion job) with
                | Err _ => Err (MkJobDeferral "list platforms" false false)
                | Ok platforms =>
                    let keys := platform_keys platforms in
                    Ok (keys, c <| platformCache := <[key := keys]> (platformCache c) |>)
                end
            end in
          match keys with
          | Err d => ([], Some d, c)
          | Ok (keys, c) =>
              if bool_decide (keys = [])
              then ([], Some (MkJobDeferral "no artifact platform available" false false), c)
              else if existsb (λ k, bool_decide (k ∈ online)) keys then (keys, None, c)
              else (keys, Some (MkJobDeferral "no online workers for artifact platforms" true false), c)
          end
      end
  end.

(** ** Proposing a job to a worker *)
Definition resolve_artifact (reg : ArtifactRegistry) (task : Task) job (w : WorkerConn SS)
  : res error ArtifactPlatform :=
  if bool_decide (job_ArtifactVersion job ≠ "")
  then ResolveVersion reg (task_Name task) (job_ArtifactVersion job) (wc_os w) (wc_arch w)
  else Resolve reg (task_Name task) (wc_os w) (wc_arch w).

(** The artifact coordinates sent to the worker, with the URL signed when a key is configured;
    a URL that cannot be signed is sent unsigned. *)
Definition artifact_info (task : Task) job (w : WorkerConn SS) : res error ArtifactInfo :=
  match cfg_ArtifactsRegistry cfg with
  | None => Ok (MkArtifactInfo "" "" [])
  | Some reg =>
      match resolve_artifact reg task job w with
      | Err e => Err e
      | Ok p =>
          let url :=
            match cfg_urlSigner cfg with
            | Some sign =>
                if bool_decide (ap_URL p ≠ "") then
                  match sign (ap_URL p) with Ok signed => signed | Err _ => ap_URL p end
                else ap_URL p
            | None => ap_URL p
            end in
          Ok (MkArtifactInfo (ap_Hash p) url (ap_Dependencies p))
      end
  end.

Definition set_conn m (a : nat) (w : WorkerConn SS) : Manager SS ST :=
  m <| mg_workers := (mg_workers m) <| wp_conns := <[a := w]> (wp_conns (mg_workers m)) |> |>.

(** Send the proposal, mark the job, reserve its cost and announce it. *)
Definition propose_to m job (taskDef : Task) (selected : nat) (w : WorkerConn SS) (artInfo : ArtifactInfo)
    (now : Time) : Manager SS ST * option error :=
  let '(w, err) := Send w (FormulateProposeV0Message job taskDef artInfo) in
  let m := set_conn m selected w in
  match err with
  | Some e => (m, Some e)
  | None =>
      let '(m, err) := update_job m (job_ID job) (λ j, j <| job_Status := JobStatusProposing |>) in
      match err with
      | Some e => (m, Some e)
      | None =>
          let '(pool, err) := subtractCapacity (mg_workers m) selected (job_ID job) (job_Cost job) now in
          let m := m <| mg_workers := pool |> in
          match err with
          | Some e => (m, Some e)
          | None => (m <| mg_webhooks := FireJobProposing (mg_webhooks m) job (wc_workerID w) now |>, None)
          end
      end
  end.

(** [tryProposeJob]; connections handed out by the pool are allocated, so the lookup succeeds. *)
Definition tryProposeJob m job (platformKeys : list string) (now : Time) : Manager SS ST * option error :=
  match GetTask (ents m) (job_TaskName job) with
  | Err _ => (m, Some (ErrUnknownTask (job_TaskName job)))
  | Ok taskDef =>
      if bool_decide (cfg_ArtifactsRegistry cfg ≠ None) && bool_decide (platformKeys = [])
      then (m, Some ErrNoArtifactPlatform)
      else
        let '(pool, workers) := eligibleWorkers (mg_workers m) platformKeys (job_Cost job) (job_ID job) now in
        let m := m <| mg_workers := pool |> in
        if bool_decide (workers = []) then (m, Some ErrNoEledgibleWorkers)
        else
          let selected := sel_Select (mg_selections m) (mg_workers m) workers in
          let m := m <| mg_selections := S (mg_selections m) |> in
          match wp_conns (mg_workers m) !! selected with
          | None => (m, Some ErrClosedConn)
          | Some w =>
              match artifact_info taskDef job w with
              | Err e => (m, Some e)
              | Ok artInfo => propose_to m job taskDef selected w artInfo now
              end
          end
  end.

(** ** Scaling up *)
Definition add_demand (d : gmap string taskDemand) job : gmap string taskDemand :=
  let old := default (MkTaskDemand 0 0 (job_Cost job)) (d !! job_TaskName job) in
  <[job_TaskName job := MkTaskDemand (td_cost old +! job_Cost job) (td_count old +! 1)
      (if (job_Cost job <? td_minCost old)%Z then job_Cost job else td_minCost old)]> d.

Definition task_platforms (taskName : string) : list ArtifactPlatform :=
  match cfg_ArtifactsRegistry cfg with
  | None => []
  | Some reg => match ListPlatforms reg taskName "" with Ok platforms => platforms | Err _ => [] end
  end.

Definition by_key (platforms : list ArtifactPlatform) : gmap string ArtifactPlatform :=
  foldl (λ acc p, <[platformKey (ap_OS p) (ap_Arch p) := p]> acc) ∅ platforms.

(** The body of the loop over [demandByTask]. *)
Definition unsatisfied_task (now : Time) (st : WorkerPool SS * gmap string PlatformDemand)
    (entry : string * taskDemand) : WorkerPool SS * gmap string PlatformDemand :=
  let '(pool, acc) := st in
  let '(taskName, demand) := entry in
  let platforms := task_platforms taskName in
  let '(pool, workers) := eligibleWorkers pool (platform_keys platforms) (td_minCost demand) "" now in
  if bool_decide (workers = []) then
    (pool, foldl (λ acc '(key, p),
       let old := default (MkPlatformDemand (ap_OS p) (ap_Arch p) 0 0) (acc !! key) in
       <[key := MkPlatformDemand (pd_OS old) (pd_Arch old) (pd_PendingCost old +! td_cost demand)
           (pd_PendingCount old +! td_count demand)]> acc) acc (range_map (by_key platforms)))
  else (pool, acc).

Definition checkResourceShortage m (now : Time) : Manager SS ST * option ResourceShortageEvent :=
  if negb (has_OnResourceShortage cfg) then (m, None)
  else if negb (IsZero (mg_lastScaleUpCall m)) &&
          (time_Sub now (mg_lastScaleUpCall m) <? ScaleUpCooldown cfg)%Z then (m, None)
  else
    let queued := Values (mg_queue m) in
    let demandByTask := foldl add_demand ∅ queued in
    let pendingCost := foldl (λ c job, c +! job_Cost job) 0%Z queued in
    let pendingCount := foldl (λ c _, c +! 1) 0%Z queued in
    let clusterCapacity := totalCapacity (mg_workers m) in
    if (pendingCost <=? clusterCapacity)%Z then (m, None)
    else
      let '(pool, platformDemand) := foldl (unsatisfied_task now) (mg_workers m, ∅) (range_map demandByTask) in
      let m := m <| mg_workers := pool |> <| mg_lastScaleUpCall := now |> in
      (m, Some (MkResourceShortageEvent pendingCost clusterCapacity pendingCount
             (Z.of_nat (pool_Size pool)) (range_values platformDemand))).

(** ** A dispatch pass *)

(** What happens to one popped job. *)
Definition dispatch_one (online : gset string) (now : Time)
    (st : Manager SS ST * PassCaches * PassResult) job : Manager SS ST * PassCaches * PassResult :=
  let '(m, c, r) := st in
  let '(keys, d, c) := jobPlatformKeysForDispatch m job online c in
  match d with
  | Some d =>
      if jd_fail d then
        (failJobDirect m job (jd_reason d) now, c, r <| pr_failed := pr_failed r ++ [job] |>)
      else (m, c, r <| pr_deferred := pr_deferred r ++ [job] |> <| pr_shortage := pr_shortage r || jd_shortage d |>)
  | None =>
      let '(m, err) := tryProposeJob m job keys now in
      match err with
      | None => (m, c, r <| pr_dispatched := pr_dispatched r ++ [job] |>)
      | Some (ErrUnknownTask _) =>
          (failJobDirect m job ("unknown task: " +:+ job_TaskName job) now, c,
           r <| pr_failed := pr_failed r ++ [job] |>)
      | Some e =>
          (m, c, r <| pr_deferred := pr_deferred r ++ [job] |>
                   <| pr_shortage := pr_shortage r || bool_decide (e = ErrNoEledgibleWorkers) |>)
      end
  end.

(** The loop pops until the queue is empty; nothing pushes during a pass, so [Size] turns suffice. *)
Fixpoint dispatch_loop (fuel : nat) (online : gset string) (now : Time)
    (st : Manager SS ST * PassCaches * PassResult) : Manager SS ST * PassCaches * PassResult :=
  match fuel with
  | O => st
  | S fuel =>
      let '(m, c, r) := st in
      let '(popped, m) := PopNextJobFromQueue m in
      match popped with
      | None => (m, c, r)
      | Some job => dispatch_loop fuel online now (dispatch_one online now (m, c, r) job)
      end
  end.

Definition ProcessQueue m (now : Time) : Manager SS ST * PassResult * option ResourceShortageEvent :=
  let m := m <| mg_lastDispatchRun := Unix now |> in
  if bool_decide (Size (mg_queue m) = 0) then (m, MkPassResult [] [] [] false, None)
  else
    let m := applyStarvationAging m now in
    let online := onlinePlatformKeys (mg_workers m) in
    let '(m, _, r) := dispatch_loop (S (Size (mg_queue m))) online now
                        (m, MkPassCaches ∅ ∅, MkPassResult [] [] [] false) in
    let m := foldl push_job m (pr_deferred r) in
    if pr_shortage r then
      let '(m, ev) := checkResourceShortage m now in (m, r, ev)
    else (m, r, None).
End manager.
