(* ===== verification/Dispatch.v ===== *)
(** * Dispatching is correct (src/manager/dispatcher.go)

    Starvation aging, popping past cancelled jobs, proposing, and what a whole
    dispatch pass does to every queued job. *)
From S2P Require Import Prelude GoStd External Contract Store MemStore Webhooks Heap PriorityQueue Cache.
From S2P Require Import WorkerConn WorkerPool Proto Config Manager.

Section aging.
Context (cfg : Config).
Implicit Types (q : PriorityQueue Job) (job : Job).
Local Open Scope go_scope.

(** What aging does to one job. *)
Definition aged (maxP : Z) (now : Time) job : Job :=
  if starved cfg maxP now job then job <| job_Priority := maxP +! 1 |> else job.

Lemma deref_set_value q a v b :
  item_Value (deref (set_value q a v) b) = if decide (a = b) then v else item_Value (deref q b).
Proof.
  unfold deref, set_value. simpl. case_decide as E; [subst; by rewrite lookup_insert_eq|].
  by rewrite lookup_insert_ne.
Qed.

Lemma boost_step maxP now q d b : boost cfg maxP now (q, d) b =
  if starved cfg maxP now (item_Value (deref q b))
  then (set_value q b (item_Value (deref q b) <| job_Priority := maxP +! 1 |>), true) else (q, d).
Proof. done. Qed.

Lemma boost_fold_spec maxP now l q d : NoDup l → pq_wf q → (∀ a, a ∈ l → a ∈ pq_items q) →
  let r := foldl (boost cfg maxP now) (q, d) l in
  pq_wf r.1 ∧ pq_items r.1 = pq_items q ∧ (r.2 = false → r.1 = q) ∧
  ∀ a, item_Value (deref r.1 a) =
    if decide (a ∈ l) then aged maxP now (item_Value (deref q a)) else item_Value (deref q a).
Proof.
  revert q d. induction l as [|b l IH]; intros q d Hnd Hwf Hl; [done|]. cbn [foldl].
  apply NoDup_cons in Hnd as [Hb Hnd]. rewrite boost_step.
  destruct (starved cfg maxP now (item_Value (deref q b))) eqn:Est.
  - set (q1 := set_value q b _).
    assert (is_Some (pq_cells q !! b)) as Hcell.
    { destruct (proj1 (list_elem_of_lookup _ _) (Hl b ltac:(set_solver))) as [i Hi].
      destruct (wf_index _ Hwf i b Hi) as (it & -> & _). by eauto. }
    destruct (IH q1 true Hnd) as (W & I & D & V).
    { by apply set_value_wf. }
    { intros a Ha. apply Hl. set_solver. }
    split_and!; [exact W|exact I|..].
    + intros Hd. exfalso. revert Hd. clear. generalize q1. clear q1. induction l as [|b' l IH]; intros q1; [done|].
      cbn [foldl]. rewrite boost_step. destruct (starved _ _ _ _); apply IH.
    + intros a. rewrite V. unfold q1. rewrite !deref_set_value.
      destruct (decide (b = a)) as [<-|Hne].
      * rewrite decide_False by done. rewrite decide_True by set_solver. unfold aged. by rewrite Est.
      * destruct (decide (a ∈ l)); [rewrite decide_True by set_solver; done|].
        by rewrite decide_False by set_solver.
  - destruct (IH q d Hnd Hwf ltac:(set_solver)) as (W & I & D & V). split_and!; [done..|].
    intros a. rewrite V. destruct (decide (a = b)) as [->|Hne].
    + rewrite decide_False by done. rewrite decide_True by set_solver. unfold aged. by rewrite Est.
    + destruct (decide (a ∈ l)); [rewrite decide_True by set_solver; done|].
      by rewrite decide_False by set_solver.
Qed.

(** Aging keeps the queue a valid heap and the jobs the same up to their boosted priority. *)
Lemma age_queue_spec q now : pq_inv job_higher q → (0 < StarvationTimeout cfg)%Z →
  pq_inv job_higher (age_queue cfg q now) ∧
  Values (age_queue cfg q now) ≡ₚ aged (max_priority (Values q)) now <$> Values q.
Proof.
  intros [Hwf Hh] Ht. unfold age_queue. rewrite (proj2 (Z.leb_gt _ 0)) by done.
  set (maxP := max_priority (Values q)).
  destruct (boost_fold_spec maxP now (Snapshot q) q false) as (W & I & D & V).
  { apply Hwf. } { done. } { done. }
  destruct (foldl (boost cfg maxP now) (q, false) (Snapshot q)) as [q1 d]. simpl in *.
  assert (Values q1 = aged maxP now <$> Values q) as HV.
  { unfold Values, Snapshot. rewrite I, <- list_fmap_compose. apply list_fmap_ext.
    intros i a Hi. simpl. rewrite V, decide_True; [done|]. by eapply list_elem_of_lookup_2. }
  destruct d.
  - rewrite <- HV. exact (Reheapify_spec job_higher q1 W).
  - rewrite <- HV, (D eq_refl). split; [by split|done].
Qed.

Lemma max_fold_ge l z :
  (z ≤ foldl (λ maxP job, if (maxP <? job_Priority job)%Z then job_Priority job else maxP) z l)%Z.
Proof.
  revert z. induction l as [|j l IH]; intros z; simpl; [lia|].
  destruct (z <? job_Priority j)%Z eqn:E; zb; (etrans; [|apply IH]); lia.
Qed.

Lemma max_priority_ge l job : job ∈ l → (job_Priority job ≤ max_priority l)%Z.
Proof.
  unfold max_priority. generalize 0%Z as z.
  induction l as [|j l IH]; intros z Hin; [set_solver|]. cbn [foldl].
  apply elem_of_cons in Hin as [->|Hin]; [|by apply IH].
  etrans; [|apply max_fold_ge]. destruct (z <? job_Priority j)%Z eqn:E; zb; lia.
Qed.

(** Pending for longer than the starvation timeout. *)
Definition starving (now : Time) job : Prop := (StarvationTimeout cfg < time_Sub now (job_CreatedAt job))%Z.

Lemma aged_values_rank q now x y : pq_inv job_higher q → (0 < StarvationTimeout cfg)%Z →
  (max_priority (Values q) < MaxInt64)%Z →
  x ∈ Values (age_queue cfg q now) → y ∈ Values (age_queue cfg q now) → starving now x →
  (starving now y → job_Priority x = job_Priority y) ∧ (¬ starving now y → job_higher x y = true).
Proof.
  intros Hq Ht Hmax. destruct (age_queue_spec q now Hq Ht) as [_ ->].
  set (maxP := max_priority (Values q)) in *.
  rewrite !list_elem_of_fmap. intros (x0 & -> & Hx) (y0 & -> & Hy) Hs.
  pose proof (max_fold_ge (Values q) 0 : (0 ≤ maxP)%Z) as Hpos.
  assert (wrap64 (maxP + 1) = (maxP + 1)%Z) as Hw by (apply wrap64_id; i64; lia).
  assert (∀ j, j ∈ Values q → starving now (aged maxP now j) →
    job_Priority (aged maxP now j) = (maxP + 1)%Z) as Hpr.
  { intros j Hj Hsj. pose proof (max_priority_ge _ _ Hj). unfold aged, starved in *.
    fold maxP in H. rewrite (proj2 (Z.leb_le _ maxP)) in * by done. rewrite andb_true_r in *.
    destruct (StarvationTimeout cfg <? time_Sub now (job_CreatedAt j))%Z eqn:E; simpl; [done|].
    unfold starving in Hsj. zb. lia. }
  split; [intros Hs'; by rewrite !Hpr|].
  intros Hns. assert (aged maxP now y0 = y0) as ->.
  { unfold aged, starved. destruct (_ <? _)%Z eqn:E; [|done]. exfalso. apply Hns.
    unfold starving, aged. destruct (starved cfg maxP now y0); simpl; by apply Z.ltb_lt. }
  pose proof (max_priority_ge _ _ Hy). fold maxP in H.
  unfold job_higher. rewrite (Hpr x0 Hx Hs), (proj2 (Z.eqb_neq _ _)) by lia. simpl. apply Z.ltb_lt. lia.
Qed.
End aging.

Section popping.
Context `{SimpleSet SS} `{Store ST}.
Implicit Types (m : Manager SS ST) (job : Job).

(** [m'] differs from [m] at most in its queue and its cancelled ids. *)
Definition only_queue m m' : Prop :=
  m' = m <| mg_queue := mg_queue m' |> <| mg_cancelledJobIDs := mg_cancelledJobIDs m' |>.

(** Popping discards cancelled jobs, forgets their cancellation, and returns the first other job. *)
Record popped m (dropped : list Job) (r : option Job) m' : Prop := {
  po_frame : only_queue m m';
  po_inv : pq_inv job_higher (mg_queue m');
  po_values : Values (mg_queue m) ≡ₚ dropped ++ option_list r ++ Values (mg_queue m');
  po_empty : r = None → Values (mg_queue m') = [];
  po_forgotten : ss_view (mg_cancelledJobIDs m') =
    ss_view (mg_cancelledJobIDs m) ∖ list_to_set (job_ID <$> dropped);
  po_dropped : Forall (λ job, job_ID job ∈ ss_view (mg_cancelledJobIDs m)) dropped;
  po_live : ∀ job, r = Some job → job_ID job ∉ ss_view (mg_cancelledJobIDs m');
  po_first : ∀ job, r = Some job → ∀ x, x ∈ Values (mg_queue m') → not_after job_higher job x;
}.

Lemma pop_next_spec fuel m : pq_inv job_higher (mg_queue m) → length (Values (mg_queue m)) < fuel →
  ∃ dropped, popped m dropped (pop_next fuel m).1 (pop_next fuel m).2.
Proof.
  revert m. induction fuel as [|fuel IH]; intros m Hq Hf; [lia|]. cbn [pop_next].
  destruct (Size (mg_queue m) <? 1) eqn:Esz.
  { exists []. apply Nat.ltb_lt in Esz. unfold Size in Esz. rewrite <- (Values_length (mg_queue m)) in Esz.
    assert (Values (mg_queue m) = []) as Hnil by (apply nil_length_inv; lia).
    split; simpl; try done; [by destruct m|set_solver]. }
  pose proof (PopItem_spec job_higher (mg_queue m) Hq) as Hpop.
  destruct (PopItem job_higher (mg_queue m)) as [[job|] q]; simpl in Hpop; cbn -[pop_next].
  2:{ destruct Hpop as [Hnil ->]. exists []. split; simpl; try done; set_solver. }
  destruct Hpop as (Hq' & Hperm & Hmin).
  assert (length (Values q) < fuel) as Hf' by (apply Permutation_length in Hperm; simpl in Hperm; lia).
  rewrite ss_Has_spec. case_bool_decide as Hc.
  - set (m1 := m <| mg_queue := q |> <| mg_cancelledJobIDs := ss_Remove (job_ID job) (mg_cancelledJobIDs m) |>).
    destruct (IH m1 Hq' Hf') as (dropped & [F I V E G D L M]). exists (job :: dropped).
    change (mg_cancelledJobIDs m1) with (ss_Remove (job_ID job) (mg_cancelledJobIDs m)) in *.
    change (mg_queue m1) with q in *. rewrite ss_view_Remove in *. split; try done.
    + by rewrite Hperm, V.
    + rewrite G. simpl. rewrite difference_difference_l_L. done.
    + constructor; [done|]. eapply Forall_impl; [exact D|]. set_solver.
  - exists []. split; simpl; try done.
    + set_solver.
    + by intros ? [= ->].
    + intros ? [= ->] x Hx. apply Hmin. rewrite Hperm. set_solver.
Qed.

Lemma PopNextJobFromQueue_spec m : pq_inv job_higher (mg_queue m) →
  ∃ dropped, popped m dropped (PopNextJobFromQueue m).1 (PopNextJobFromQueue m).2.
Proof.
  intros Hq. apply pop_next_spec; [done|]. rewrite Values_length. unfold Size. lia.
Qed.
End popping.

Section proposing.
Context `{SimpleSet SS} `{Store ST} `{GoRuntime} `{Ulid} `{SerialLanes} `{WebhookEnv} `{WorkerSelector SS}.
Context (cfg : Config).
Implicit Types (m : Manager SS ST) (job : Job) (p : WorkerPool SS).

(** Connections persist and only gain in-flight jobs. *)
Definition inflight_grows p p' : Prop := ∀ a w, wp_conns p !! a = Some w →
  ∃ w', wp_conns p' !! a = Some w' ∧ ss_view (wc_inFlight w) ⊆ ss_view (wc_inFlight w').

#[global] Instance inflight_grows_preorder : PreOrder inflight_grows.
Proof.
  split.
  - intros p a w Ha. by eauto.
  - intros p1 p2 p3 H12 H23 a w Ha. destruct (H12 a w Ha) as (w2 & Ha2 & S2).
    destruct (H23 a w2 Ha2) as (w3 & Ha3 & S3). exists w3. split; [done|]. by etrans.
Qed.

(** What trying to dispatch the job [id] may change. *)
Record dispatch_frame (id : string) m m' : Prop := {
  df_queue : mg_queue m' = mg_queue m;
  df_cancelled : mg_cancelledJobIDs m' = mg_cancelledJobIDs m;
  df_tasks : taskDefs (ents m') = taskDefs (ents m);
  df_jobs : ∀ id', id' ≠ id → jobs (ents m') !! id' = jobs (ents m) !! id';
  df_exists : is_Some (jobs (ents m) !! id) → is_Some (jobs (ents m') !! id);
  df_inflight : inflight_grows (mg_workers m) (mg_workers m');
}.

#[global] Instance dispatch_frame_preorder id : PreOrder (dispatch_frame id).
Proof.
  split; [by split|]. intros m1 m2 m3 [Q1 C1 T1 J1 E1 I1] [Q2 C2 T2 J2 E2 I2].
  split; [congruence..| |by auto|by etrans]. intros id' Hne. by rewrite J2, J1.
Qed.

Definition in_flight m (id : string) : Prop :=
  ∃ a w, wp_conns (mg_workers m) !! a = Some w ∧ id ∈ ss_view (wc_inFlight w).

Definition has_status m (id : string) (s : JobStatus) : Prop :=
  ∃ j, jobs (ents m) !! id = Some j ∧ job_Status j = s.

Lemma in_flight_grows m m' id : inflight_grows (mg_workers m) (mg_workers m') →
  in_flight m id → in_flight m' id.
Proof. intros Hg (a & w & Ha & Hin). destruct (Hg a w Ha) as (w' & Ha' & Hs). exists a, w'. set_solver. Qed.

Lemma update_job_spec m id f : let r := update_job m id f in
  r.2 = (UpdateJob (ents m) id f).2 ∧ ents r.1 = (UpdateJob (ents m) id f).1 ∧
  mg_queue r.1 = mg_queue m ∧ mg_cancelledJobIDs r.1 = mg_cancelledJobIDs m ∧
  mg_workers r.1 = mg_workers m ∧ mg_activeRunIDs r.1 = mg_activeRunIDs m ∧ mg_timers r.1 = mg_timers m.
Proof.
  unfold update_job, ents, mg_store.
  pose proof (err_UpdateJob (wd_store (mg_webhooks m)) id f) as He.
  pose proof (ent_UpdateJob (wd_store (mg_webhooks m)) id f) as Hs.
  destruct (st_UpdateJob (wd_store (mg_webhooks m)) id f) as [s err]. simpl in *. by rewrite Hs, He.
Qed.

Lemma UpdateJob_jobs e id f id' :
  jobs (UpdateJob e id f).1 !! id' = (if decide (id = id') then f else λ j, j) <$> jobs e !! id'.
Proof.
  unfold UpdateJob. destruct (jobs e !! id) as [j|] eqn:E; simpl; case_decide as D; subst.
  - by rewrite lookup_insert_eq, E.
  - rewrite lookup_insert_ne by done. by destruct (jobs e !! id').
  - by rewrite E.
  - by destruct (jobs e !! id').
Qed.

Lemma UpdateJob_rest e id f :
  taskDefs (UpdateJob e id f).1 = taskDefs e ∧ runs (UpdateJob e id f).1 = runs e ∧
  webhooks (UpdateJob e id f).1 = webhooks e.
Proof. unfold UpdateJob. by destruct (jobs e !! id). Qed.

Lemma update_job_frame m id f : dispatch_frame id m (update_job m id f).1.
Proof.
  destruct (update_job_spec m id f) as (_ & He & Hq & Hc & Hw & _). split; rewrite ?He; try done.
  - apply UpdateJob_rest.
  - intros id' Hne. rewrite UpdateJob_jobs, decide_False by done. by destruct (jobs (ents m) !! id').
  - intros [j Hj]. rewrite UpdateJob_jobs, Hj. by eauto.
  - by rewrite Hw.
Qed.

Lemma webhooks_frame id m wd :
  jobs (entities (wd_store wd)) = jobs (ents m) → taskDefs (entities (wd_store wd)) = taskDefs (ents m) →
  dispatch_frame id m (m <| mg_webhooks := wd |>).
Proof. intros Hj Ht. split; unfold ents, mg_store; simpl; try done; by rewrite Hj. Qed.

Lemma fire_frame id m job event data now :
  dispatch_frame id m (m <| mg_webhooks := enqueue (mg_webhooks m) job event data now |>).
Proof. destruct (enqueue_entities (mg_webhooks m) job event data now) as (Hj & Ht & _). by apply webhooks_frame. Qed.

Lemma pool_frame id m p : inflight_grows (mg_workers m) p → dispatch_frame id m (m <| mg_workers := p |>).
Proof. intros Hp. by split. Qed.

Lemma pool_like_grows p p' : pool_like p p' → inflight_grows p p'.
Proof.
  intros Hl a w Ha. pose proof (pl_conns _ _ Hl a) as Hc. rewrite Ha in Hc. inversion Hc as [? w' [E _]|].
  subst. exists w'. split; [done|]. rewrite E. by destruct w.
Qed.

Lemma set_conn_grows p a w w' : wp_conns p !! a = Some w →
  ss_view (wc_inFlight w) ⊆ ss_view (wc_inFlight w') →
  inflight_grows p (p <| wp_conns := <[a := w']> (wp_conns p) |>).
Proof.
  intros Ha Hs b w0 Hb. simpl. destruct (decide (a = b)) as [->|Hne].
  - rewrite lookup_insert_eq. exists w'. split; [done|]. by simplify_eq.
  - rewrite lookup_insert_ne by done. by eauto.
Qed.

Lemma AssignTask_view (w w' : WorkerConn SS) id cost : AssignTask w id cost = Ok w' →
  ss_view (wc_inFlight w') = {[id]} ∪ ss_view (wc_inFlight w).
Proof. unfold AssignTask. repeat case_match; intros; simplify_eq/=. by rewrite ss_view_Add. Qed.

Lemma AssignTask_fits (w : WorkerConn SS) id cost : (0 < cost)%Z → (cost ≤ AvailableCapacity w)%Z →
  ∃ w', AssignTask w id cost = Ok w'.
Proof.
  intros Hpos Hfit. unfold AssignTask. fold (AvailableCapacity w).
  pose proof (wrap64_range (wc_capacity w - wc_occupiedCost w) : in_int64 (AvailableCapacity w)) as Hr.
  rewrite (proj2 (Z.leb_gt _ 0)) by lia. rewrite wrap64_id by (i64; lia).
  rewrite (proj2 (Z.ltb_ge _ 0)) by lia. by eexists.
Qed.

Lemma subtractCapacity_spec p a w id cost now : wp_conns p !! a = Some w →
  let r := subtractCapacity p a id cost now in
  match r.2 with
  | Some _ => r.1 = p ∧ ((∀ ns, lane_error ns = None) → (0 < cost)%Z → ¬ (cost ≤ AvailableCapacity w)%Z)
  | None => inflight_grows p r.1 ∧ ∃ w', wp_conns r.1 !! a = Some w' ∧ id ∈ ss_view (wc_inFlight w')
  end.
Proof.
  intros Ha. unfold subtractCapacity. rewrite Ha. unfold lane_Do.
  destruct (lane_error (lane_of w)) as [e|] eqn:Hl; simpl.
  { split; [done|]. intros Hopen. by rewrite Hopen in Hl. }
  destruct (AssignTask w id cost) as [w'|e] eqn:Has; simpl.
  - pose proof (AssignTask_view _ _ _ _ Has) as Hv. split.
    + apply (set_conn_grows p a w); [done|]. simpl. rewrite Hv. set_solver.
    + exists (UpdateHeartbeat w' now). rewrite lookup_insert_eq. split; [done|]. simpl. rewrite Hv. set_solver.
  - split; [done|]. intros _ Hpos Hfit. destruct (AssignTask_fits w id cost Hpos Hfit). congruence.
Qed.

(** Errors of the artifact registry are not the dispatcher's own [ErrUnknownTask]. *)
Definition foreign_errors : Prop := ∀ reg task job (w : WorkerConn SS) name,
  cfg_ArtifactsRegistry cfg = Some reg → resolve_artifact reg task job w ≠ Err (ErrUnknownTask name).

Lemma artifact_info_foreign task job (w : WorkerConn SS) e : foreign_errors →
  artifact_info cfg task job w = Err e → ∀ name, e ≠ ErrUnknownTask name.
Proof.
  intros Hf. unfold artifact_info. destruct (cfg_ArtifactsRegistry cfg) as [reg|] eqn:Hr; [|done].
  destruct (resolve_artifact reg task job w) as [|e'] eqn:E; [by repeat case_match|].
  intros [= ->] name ->. by eapply Hf.
Qed.

(** A failed attempt leaves the stored jobs alone, a successful one proposed the job. *)
Definition attempt_outcome m job m' (err : option error) : Prop :=
  match err with
  | None => is_Some (taskDefs (ents m) !! job_TaskName job) ∧ in_flight m' (job_ID job) ∧
            has_status m' (job_ID job) JobStatusProposing
  | Some e =>
      (∀ ns, lane_error ns = None) → (0 < job_Cost job)%Z → jobs (ents m') = jobs (ents m) ∧
      (foreign_errors → ∀ name, e = ErrUnknownTask name → taskDefs (ents m) !! job_TaskName job = None)
  end.

Lemma selected_fits m job keys now p' ws w :
  eligibleWorkers (mg_workers m) keys (job_Cost job) (job_ID job) now = (p', ws) → ws ≠ [] →
  wp_conns p' !! sel_Select (mg_selections m) p' ws = Some w → (0 < job_Cost job)%Z →
  (job_Cost job ≤ AvailableCapacity w)%Z.
Proof.
  intros Hel Hne Hw Hpos.
  destruct (eligibleWorkers_spec (mg_workers m) keys (job_Cost job) (job_ID job) now ltac:(lia)) as [Hl Hout].
  rewrite Hel in Hl, Hout. simpl in Hl, Hout.
  pose proof (sel_Select_in (mg_selections m) p' ws Hne) as Hin. rewrite Hout in Hin at 2.
  apply list_elem_of_filter in Hin as [He _].
  rewrite <- (eligible_like _ _ _ _ _ _ Hl) in He. unfold eligible in He. rewrite Hw in He.
  apply andb_true_iff in He as [_ He]. rewrite (proj2 (Z.eqb_neq _ 0)) in He by lia. by apply Z.leb_le.
Qed.

(** A write keeps everything but the stream. *)
Lemma Send_same (w w' : WorkerConn SS) line err : Send w line = (w', err) →
  w' = w <| wc_conn := wc_conn w' |> ∧ (err = None ∨ err = Some ErrClosedConn).
Proof.
  unfold Send, conn_Write. destruct (conn_usable (wc_conn w)); intros [= <- <-]; auto.
Qed.

Lemma propose_to_spec m job t a w art now : wp_conns (mg_workers m) !! a = Some w →
  is_Some (taskDefs (ents m) !! job_TaskName job) →
  ((0 < job_Cost job)%Z → (job_Cost job ≤ AvailableCapacity w)%Z) →
  let r := propose_to m job t a w art now in
  dispatch_frame (job_ID job) m r.1 ∧ attempt_outcome m job r.1 r.2.
Proof.
  intros Ha Ht Hfit. unfold propose_to.
  destruct (Send w _) as [w1 err] eqn:Hsend. apply Send_same in Hsend as [Hw1 Herr].
  set (m1 := set_conn m a w1).
  assert (dispatch_frame (job_ID job) m m1) as F1.
  { apply pool_frame, (set_conn_grows _ a w); [done|]. by rewrite Hw1. }
  destruct err as [e|].
  { destruct Herr as [|[= ->]]; [done|]. split; [done|]. intros _ _. split; [done|]. by intros _ name [=]. }
  pose proof (update_job_frame m1 (job_ID job) (λ j, j <| job_Status := JobStatusProposing |>)) as F2.
  pose proof (update_job_spec m1 (job_ID job) (λ j, j <| job_Status := JobStatusProposing |>)) as U.
  destruct (update_job m1 _ _) as [m2 err]. simpl in F2, U. destruct U as (Uerr & Uents & _ & _ & Uw & _).
  assert (dispatch_frame (job_ID job) m m2) as F12 by by etrans.
  change (ents m1) with (ents m) in *. unfold UpdateJob in Uerr, Uents.
  destruct (jobs (ents m) !! job_ID job) as [j|] eqn:Hj; simpl in Uerr, Uents; subst err.
  2:{ split; [done|]. intros _ _. cbn [fst]. rewrite Uents. split; [done|]. by intros _ name [=]. }
  assert (wp_conns (mg_workers m2) !! a = Some w1) as Ha2 by (rewrite Uw; apply lookup_insert_eq).
  assert (AvailableCapacity w1 = AvailableCapacity w) as Hcap by (rewrite Hw1; by destruct w).
  pose proof (subtractCapacity_spec (mg_workers m2) a w1 (job_ID job) (job_Cost job) now Ha2) as S.
  destruct (subtractCapacity (mg_workers m2) a (job_ID job) (job_Cost job) now) as [p err]. simpl in S.
  destruct err as [e|].
  - destruct S as [-> S]. split; [etrans; [exact F12|by apply pool_frame]|].
    intros Hopen Hpos. exfalso. apply (S Hopen Hpos). rewrite Hcap. auto.
  - destruct S as [Sg (w2 & Hw2 & Hin)]. set (m3 := m2 <| mg_workers := p |>).
    assert (dispatch_frame (job_ID job) m m3) as F3 by (etrans; [exact F12|by apply pool_frame]).
    pose proof (fire_frame (job_ID job) m3 job eventTaskProposing
      [("task_name", EvString (job_TaskName job)); ("cost", EvInt (job_Cost job));
       ("worker_id", EvString (wc_workerID w1))] now) as F4.
    destruct (enqueue_entities (mg_webhooks m3) job eventTaskProposing
      [("task_name", EvString (job_TaskName job)); ("cost", EvInt (job_Cost job));
       ("worker_id", EvString (wc_workerID w1))] now) as (Ej & _).
    split; [by etrans|]. split_and!; [done|by exists a, w2|].
    exists (j <| job_Status := JobStatusProposing |>). split; [|done].
    etrans; [exact (f_equal (.!! job_ID job) Ej)|]. change (entities (wd_store (mg_webhooks m3))) with (ents m2).
    rewrite Uents. simpl. apply lookup_insert_eq.
Qed.

Lemma tryProposeJob_spec m job keys now :
  let r := tryProposeJob cfg m job keys now in
  dispatch_frame (job_ID job) m r.1 ∧ attempt_outcome m job r.1 r.2.
Proof.
  unfold tryProposeJob, GetTask. destruct (taskDefs (ents m) !! job_TaskName job) as [t|] eqn:Ht.
  2:{ split; [done|]. intros _ _. by split. }
  destruct (bool_decide (cfg_ArtifactsRegistry cfg ≠ None) && _).
  { split; [done|]. intros _ _. split; [done|]. by intros _ name [=]. }
  pose proof (selected_fits m job keys now) as Hfit.
  assert (pool_like (mg_workers m) (eligibleWorkers (mg_workers m) keys (job_Cost job) (job_ID job) now).1) as Hl.
  { destruct (decide (0 ≤ job_Cost job)%Z); [by apply eligibleWorkers_spec|].
    unfold eligibleWorkers. by rewrite (proj2 (Z.ltb_lt _ 0)) by lia. }
  destruct (eligibleWorkers _ _ _ _ _) as [p ws]. simpl in Hl. set (m1 := m <| mg_workers := p |>).
  assert (dispatch_frame (job_ID job) m m1) as F1 by by apply pool_frame, pool_like_grows.
  case_bool_decide as Hws.
  { split; [done|]. intros _ _. split; [done|]. by intros _ name [=]. }
  set (m2 := m1 <| mg_selections := S (mg_selections m1) |>).
  assert (dispatch_frame (job_ID job) m m2) as F2 by (destruct F1; by split).
  destruct (wp_conns (mg_workers m2) !! _) as [w|] eqn:Hw.
  2:{ split; [done|]. intros _ _. split; [done|]. by intros _ name [=]. }
  destruct (artifact_info cfg t job w) as [art|e] eqn:Hart.
  2:{ split; [done|]. intros _ _. split; [done|]. intros Hf name ->.
      by eapply artifact_info_foreign in Hart as []. }
  destruct (propose_to_spec m2 job t _ w art now Hw) as [F3 O3].
  { change (ents m2) with (ents m). by rewrite Ht. }
  { intros Hpos. by eapply Hfit. }
  split; [by etrans|]. done.
Qed.

(** *** The books of the connections *)

(** The jobs of [l] that went to the connection [b]. *)
Definition given (l : list (nat * Job)) (b : nat) : list Job := (filter (λ x, x.1 = b) l).*2.

(** A line that proposes a job, for its task. *)
Definition proposal (tasks : gmap string Task) (job : Job) (line : string) : Prop := ∃ t art,
  tasks !! job_TaskName job = Some t ∧ line = FormulateProposeV0Message job t art +:+ newline.

(** The connection after the jobs [js] were proposed to it: their cost is reserved, they are in flight, and a line was
    written for each. *)
Record charged (tasks : gmap string Task) (js : list Job) (w w' : WorkerConn SS) : Prop := {
  ch_cost : wc_occupiedCost w' = foldl (λ o job, (o +! job_Cost job)%go) (wc_occupiedCost w) js;
  ch_inflight : ss_view (wc_inFlight w') = ss_view (wc_inFlight w) ∪ list_to_set (job_ID <$> js);
  ch_lines : ∃ lines, conn_out (wc_conn w') = conn_out (wc_conn w) ++ lines ∧ Forall2 (proposal tasks) js lines;
}.

Definition ledger (tasks : gmap string Task) (l : list (nat * Job)) p p' : Prop :=
  ∀ b, option_Forall2 (charged tasks (given l b)) (wp_conns p !! b) (wp_conns p' !! b).

Lemma charged_same tasks (w w' : WorkerConn SS) : wc_occupiedCost w' = wc_occupiedCost w → wc_inFlight w' = wc_inFlight w →
  conn_out (wc_conn w') = conn_out (wc_conn w) → charged tasks [] w w'.
Proof.
  intros Ho Hi Hc. split; [done|rewrite Hi; set_solver|]. exists []. by rewrite app_nil_r.
Qed.

Lemma charged_trans tasks js1 js2 (w1 w2 w3 : WorkerConn SS) : charged tasks js1 w1 w2 → charged tasks js2 w2 w3 →
  charged tasks (js1 ++ js2) w1 w3.
Proof.
  intros [C1 I1 (l1 & O1 & F1)] [C2 I2 (l2 & O2 & F2)]. split.
  - by rewrite C2, C1, foldl_app.
  - rewrite I2, I1, fmap_app, list_to_set_app_L. set_solver.
  - exists (l1 ++ l2). split; [by rewrite O2, O1, (assoc_L (++))|by apply Forall2_app].
Qed.

Lemma ledger_trans tasks l1 l2 p1 p2 p3 : ledger tasks l1 p1 p2 → ledger tasks l2 p2 p3 → ledger tasks (l1 ++ l2) p1 p3.
Proof.
  intros L1 L2 b. specialize (L1 b). specialize (L2 b). unfold given. rewrite filter_app, fmap_app.
  inversion L1 as [w1 w2 C1 E1 E2|E1 E2]; rewrite <- E2 in L2; inversion L2; constructor. by eapply charged_trans.
Qed.

Lemma ledger_like tasks p p' : pool_like p p' → ledger tasks [] p p'.
Proof.
  intros Hl b. pose proof (pl_conns _ _ Hl b) as Hc. inversion Hc as [w w' [E _]|]; constructor.
  rewrite E. by apply charged_same.
Qed.

Lemma ledger_refl tasks p : ledger tasks [] p p.
Proof. intros b. destruct (wp_conns p !! b); constructor. by apply charged_same. Qed.

(** A connection that is replaced by a charged one. *)
Lemma ledger_set tasks js a w w' p : wp_conns p !! a = Some w → charged tasks js w w' →
  ledger tasks ((a,.) <$> js) p (p <| wp_conns := <[a := w']> (wp_conns p) |>).
Proof.
  intros Ha Hc b. cbn. destruct (decide (a = b)) as [->|Hne].
  - rewrite lookup_insert_eq, Ha. constructor. replace (given ((b,.) <$> js) b) with js; [done|].
    unfold given. clear. induction js as [|j js IH]; [done|]. rewrite fmap_cons, filter_cons_True, fmap_cons by done. by f_equal.
  - rewrite lookup_insert_ne by done. replace (given ((a,.) <$> js) b) with (@nil Job).
    + destruct (wp_conns p !! b); constructor. by apply charged_same.
    + unfold given. clear -Hne. induction js as [|j js IH]; [done|]. by rewrite fmap_cons, filter_cons_False.
Qed.

Lemma Send_charged tasks (w : WorkerConn SS) job t art : tasks !! job_TaskName job = Some t →
  let r := Send w (FormulateProposeV0Message job t art) in
  match r.2 with
  | Some _ => charged tasks [] w r.1
  | None => ∀ w', AssignTask r.1 (job_ID job) (job_Cost job) = Ok w' → charged tasks [job] w w'
  end.
Proof.
  intros Ht. unfold Send, conn_Write. destruct (conn_usable (wc_conn w)); cbn; [|by apply charged_same].
  intros w'. unfold AssignTask. repeat case_match; intros; simplify_eq/=. split; cbn.
  - done.
  - rewrite ss_view_Add. set_solver.
  - eexists [_]. split; [done|]. constructor; [|done]. by exists t, art.
Qed.

Lemma propose_to_ledger m job t a w art now : wp_conns (mg_workers m) !! a = Some w →
  taskDefs (ents m) !! job_TaskName job = Some t → is_Some (jobs (ents m) !! job_ID job) → (∀ ns, lane_error ns = None) →
  (0 < job_Cost job)%Z → (job_Cost job ≤ AvailableCapacity w)%Z →
  let r := propose_to m job t a w art now in
  ledger (taskDefs (ents m)) (match r.2 with None => [(a, job)] | Some _ => [] end) (mg_workers m) (mg_workers r.1).
Proof.
  intros Ha Ht [j Hj] Hopen Hpos Hfit. unfold propose_to.
  pose proof (Send_charged _ w job t art Ht) as Hch. destruct (Send w _) as [w1 err] eqn:Hsend. apply Send_same in Hsend as [Hw1 _].
  cbn [fst snd] in Hch. destruct err as [e|]; [exact (ledger_set _ [] a w w1 _ Ha Hch)|].
  destruct (update_job_spec (set_conn m a w1) (job_ID job) (λ j, j <| job_Status := JobStatusProposing |>)) as (Uerr & _ & _ & _ & Uw & _).
  destruct (update_job _ _ _) as [m2 err]. cbn [fst snd] in *. change (ents (set_conn m a w1)) with (ents m) in Uerr.
  unfold UpdateJob in Uerr. rewrite Hj in Uerr. cbn in Uerr. subst err.
  assert (wp_conns (mg_workers m2) !! a = Some w1) as Ha2 by (rewrite Uw; apply lookup_insert_eq).
  assert (AvailableCapacity w1 = AvailableCapacity w) as Hcap by (rewrite Hw1; by destruct w).
  destruct (AssignTask_fits w1 (job_ID job) (job_Cost job) Hpos) as [w2 Hw2]; [by rewrite Hcap|].
  unfold subtractCapacity. rewrite Ha2. unfold lane_Do. rewrite Hopen, Hw2. cbn. rewrite Uw.
  assert (charged (taskDefs (ents m)) [job] w (UpdateHeartbeat w2 now)) as Hc by (destruct (Hch w2 Hw2); by split).
  intros b. pose proof (ledger_set _ [job] a w (UpdateHeartbeat w2 now) (mg_workers m) Ha Hc b) as Hl.
  cbn in Hl |- *. by rewrite insert_insert_eq.
Qed.

Lemma tryPropose_ledger m job keys now : is_Some (jobs (ents m) !! job_ID job) → (∀ ns, lane_error ns = None) → (0 < job_Cost job)%Z →
  let r := tryProposeJob cfg m job keys now in
  ∃ l, l.*2 = match r.2 with None => [job] | Some _ => [] end ∧ ledger (taskDefs (ents m)) l (mg_workers m) (mg_workers r.1).
Proof.
  intros Hj Hopen Hpos. unfold tryProposeJob, GetTask.
  destruct (taskDefs (ents m) !! job_TaskName job) as [t|] eqn:Ht; [|exists []; split; [done|apply ledger_refl]].
  destruct (bool_decide (cfg_ArtifactsRegistry cfg ≠ None) && _); [exists []; split; [done|apply ledger_refl]|].
  pose proof (selected_fits m job keys now) as Hfit.
  destruct (eligibleWorkers_spec (mg_workers m) keys (job_Cost job) (job_ID job) now ltac:(lia)) as [Hl _].
  destruct (eligibleWorkers _ _ _ _ _) as [p ws]. cbn [fst] in Hl.
  assert (ledger (taskDefs (ents m)) [] (mg_workers m) p) as L0 by by apply ledger_like.
  case_bool_decide as Hws; [by exists []|]. cbn zeta. set (m2 := _ <| mg_selections := _ |>).
  destruct (wp_conns (mg_workers m2) !! _) as [w|] eqn:Hw; [|by exists []].
  destruct (artifact_info cfg t job w) as [art|e]; [|by exists []].
  pose proof (propose_to_ledger m2 job t _ w art now Hw Ht Hj Hopen Hpos (Hfit _ _ _ eq_refl Hws Hw Hpos)) as L1.
  destruct (propose_to _ _ _ _ _ _ _) as [m3 err]. cbn [fst snd] in *.
  eexists (match err with None => [(_, job)] | Some _ => [] end). split; [by destruct err|].
  change (taskDefs (ents m2)) with (taskDefs (ents m)) in L1. exact (ledger_trans _ [] _ _ _ _ L0 L1).
Qed.
End proposing.

Section pass.
Context `{SimpleSet SS} `{Store ST} `{GoRuntime} `{Ulid} `{SerialLanes} `{WebhookEnv} `{WorkerSelector SS}.
Context (cfg : Config) (now : Time) (m0 : Manager SS ST) (Q0 : list Job).
Hypothesis Hopen : ∀ ns, lane_error ns = None.
Hypothesis Hforeign : foreign_errors (SS := SS) cfg.
Hypothesis Hids : NoDup (job_ID <$> Q0).
Hypothesis Hstored : ∀ job, job ∈ Q0 → (0 < job_Cost job)%Z ∧ is_Some (jobs (ents m0) !! job_ID job).
Implicit Types (m : Manager SS ST) (job : Job) (r : PassResult).

(** Proposed: reserved on a worker and marked so in the store. *)
Definition proposed m job : Prop :=
  in_flight m (job_ID job) ∧ has_status m (job_ID job) JobStatusProposing.

(** Failed for good: its task does not exist, and the store says so. *)
Definition failed_unknown m job : Prop :=
  taskDefs (ents m) !! job_TaskName job = None ∧
  ∃ j, jobs (ents m) !! job_ID job = Some j ∧ job_Status j = JobStatusFailed ∧
    job_FailureReason j = "unknown task: " +:+ job_TaskName job.

Definition handled r : list Job := pr_dispatched r ++ pr_failed r ++ pr_deferred r.

(** The state in the middle of a pass, with the jobs still to be handled. *)
Record pass_inv m r (dropped rest : list Job) : Prop := {
  pi_perm : Q0 ≡ₚ handled r ++ dropped ++ rest;
  pi_cancelled : ss_view (mg_cancelledJobIDs m) =
    ss_view (mg_cancelledJobIDs m0) ∖ list_to_set (job_ID <$> dropped);
  pi_dropped : Forall (λ job, job_ID job ∈ ss_view (mg_cancelledJobIDs m0)) dropped;
  pi_live : Forall (λ job, job_ID job ∉ ss_view (mg_cancelledJobIDs m0)) (handled r);
  pi_proposed : Forall (proposed m) (pr_dispatched r);
  pi_failed : Forall (failed_unknown m) (pr_failed r);
  pi_rest : ∀ job, job ∈ pr_deferred r ++ dropped ++ rest →
    jobs (ents m) !! job_ID job = jobs (ents m0) !! job_ID job;
  pi_tasks : taskDefs (ents m) = taskDefs (ents m0);
  pi_ledger : ∃ l, l.*2 = pr_dispatched r ∧ ledger (taskDefs (ents m0)) l (mg_workers m0) (mg_workers m);
}.

Lemma ledger_more m m' r dropped rest l' js : pass_inv m r dropped rest → l'.*2 = js →
  ledger (taskDefs (ents m)) l' (mg_workers m) (mg_workers m') →
  ∃ l, l.*2 = pr_dispatched r ++ js ∧ ledger (taskDefs (ents m0)) l (mg_workers m0) (mg_workers m').
Proof.
  intros I <- Hl. destruct (pi_ledger _ _ _ _ I) as (l & <- & L). rewrite (pi_tasks _ _ _ _ I) in Hl.
  exists (l ++ l'). split; [apply fmap_app|by eapply ledger_trans].
Qed.

Lemma ledger_still m m' r dropped rest : pass_inv m r dropped rest → ledger (taskDefs (ents m)) [] (mg_workers m) (mg_workers m') →
  ∃ l, l.*2 = pr_dispatched r ∧ ledger (taskDefs (ents m0)) l (mg_workers m0) (mg_workers m').
Proof. intros I Hl. destruct (ledger_more m m' r dropped rest [] [] I eq_refl Hl) as (l & E & L). rewrite app_nil_r in E. by exists l. Qed.

Lemma proposed_frame id m m' job : dispatch_frame id m m' → job_ID job ≠ id → proposed m job → proposed m' job.
Proof.
  intros F Hne [Hf (j & Hj & Hs)]. split; [eapply in_flight_grows; [apply (df_inflight _ _ _ F)|done]|].
  exists j. by rewrite (df_jobs _ _ _ F).
Qed.

Lemma failed_frame id m m' job : dispatch_frame id m m' → job_ID job ≠ id →
  failed_unknown m job → failed_unknown m' job.
Proof.
  intros F Hne [Ht (j & Hj)]. split; [by rewrite (df_tasks _ _ _ F)|]. exists j. by rewrite (df_jobs _ _ _ F).
Qed.

(** Everything but the job at hand stays as it was. *)
Lemma pass_inv_frame m m' r dropped job rest : dispatch_frame (job_ID job) m m' →
  pass_inv m r dropped (job :: rest) →
  Forall (proposed m') (pr_dispatched r) ∧ Forall (failed_unknown m') (pr_failed r) ∧
  (∀ x, x ∈ pr_deferred r ++ dropped ++ rest → jobs (ents m') !! job_ID x = jobs (ents m0) !! job_ID x) ∧
  taskDefs (ents m') = taskDefs (ents m0) ∧
  ss_view (mg_cancelledJobIDs m') = ss_view (mg_cancelledJobIDs m0) ∖ list_to_set (job_ID <$> dropped).
Proof.
  intros F I.
  assert (∀ x, x ∈ handled r ++ dropped ++ rest → job_ID x ≠ job_ID job) as Hne.
  { intros x Hx Heq. pose proof Hids as Hnd. rewrite (pi_perm _ _ _ _ I) in Hnd.
    assert (handled r ++ dropped ++ job :: rest ≡ₚ job :: handled r ++ dropped ++ rest) as Hp by solve_Permutation.
    rewrite Hp in Hnd. apply NoDup_cons in Hnd as [Hnot _]. apply Hnot, list_elem_of_fmap. eauto. }
  unfold handled in Hne. split_and!.
  - apply Forall_forall. intros x Hx. eapply proposed_frame; [exact F|apply Hne; set_solver|].
    by eapply Forall_forall in Hx; [|apply (pi_proposed _ _ _ _ I)].
  - apply Forall_forall. intros x Hx. eapply failed_frame; [exact F|apply Hne; set_solver|].
    by eapply Forall_forall in Hx; [|apply (pi_failed _ _ _ _ I)].
  - intros x Hx. rewrite (df_jobs _ _ _ F) by (apply Hne; set_solver). apply (pi_rest _ _ _ _ I). set_solver.
  - rewrite (df_tasks _ _ _ F). apply I.
  - rewrite (df_cancelled _ _ _ F). apply I.
Qed.

Lemma failJobDirect_frame m job reason : dispatch_frame (job_ID job) m (failJobDirect m job reason now).
Proof.
  unfold failJobDirect.
  pose proof (update_job_frame m (job_ID job) (λ j, j <| job_Status := JobStatusFailed |>
    <| job_FailureReason := reason |> <| job_UpdatedAt := now |>)) as F.
  destruct (update_job m (job_ID job) _) as [m1 err]. etrans; [exact F|apply fire_frame].
Qed.

Lemma failJobDirect_workers m job reason : mg_workers (failJobDirect m job reason now) = mg_workers m.
Proof.
  unfold failJobDirect. match goal with |- context [update_job m ?i ?f] => destruct (update_job_spec m i f) as (_ & _ & _ & _ & Hw & _) end.
  by destruct (update_job m _ _).
Qed.

Lemma failJobDirect_failed m job reason : is_Some (jobs (ents m) !! job_ID job) →
  ∃ j, jobs (ents (failJobDirect m job reason now)) !! job_ID job = Some j ∧
    job_Status j = JobStatusFailed ∧ job_FailureReason j = reason.
Proof.
  intros [j Hj]. unfold failJobDirect.
  pose proof (update_job_spec m (job_ID job) (λ j, j <| job_Status := JobStatusFailed |>
    <| job_FailureReason := reason |> <| job_UpdatedAt := now |>)) as U.
  destruct (update_job m (job_ID job) _) as [m1 err]. destruct U as (_ & Ue & _). simpl in Ue.
  destruct (enqueue_entities (mg_webhooks m1) job eventJobFailed [("failure_reason", EvString reason)] now)
    as (Ej & _).
  eexists. split.
  - etrans; [exact (f_equal (.!! job_ID job) Ej)|]. change (entities (wd_store (mg_webhooks m1))) with (ents m1).
    rewrite Ue, UpdateJob_jobs, decide_True, Hj by done. done.
  - done.
Qed.

(** The only permanent deferral is an unknown task. *)
Lemma jobPlatformKeys_fail m job online c keys d c' :
  jobPlatformKeysForDispatch cfg m job online c = (keys, Some d, c') → jd_fail d = true →
  taskDefs (ents m) !! job_TaskName job = None ∧ jd_reason d = "unknown task: " +:+ job_TaskName job.
Proof.
  unfold jobPlatformKeysForDispatch, GetTask. intros Hd Hf.
  repeat case_match; simplify_eq/=; done.
Qed.

Lemma failed_step m job r dropped rest reason : pass_inv m r dropped (job :: rest) →
  job_ID job ∉ ss_view (mg_cancelledJobIDs m0) → taskDefs (ents m) !! job_TaskName job = None →
  reason = "unknown task: " +:+ job_TaskName job →
  pass_inv (failJobDirect m job reason now) (r <| pr_failed := pr_failed r ++ [job] |>) dropped rest.
Proof.
  intros I Hlive Ht ->. pose proof (failJobDirect_frame m job ("unknown task: " +:+ job_TaskName job)) as F.
  destruct (pass_inv_frame _ _ _ _ _ _ F I) as (P & Fl & R & T & C).
  assert (job ∈ Q0) as HQ by (rewrite (pi_perm _ _ _ _ I); set_solver).
  split; simpl; try done.
  - rewrite (pi_perm _ _ _ _ I). unfold handled. simpl. solve_Permutation.
  - apply I.
  - unfold handled. simpl. pose proof (pi_live _ _ _ _ I) as L. unfold handled in L.
    rewrite !Forall_app in *. naive_solver.
  - apply Forall_app. split; [done|]. constructor; [|done]. split; [by rewrite T, <- (pi_tasks _ _ _ _ I)|].
    apply failJobDirect_failed. rewrite (pi_rest _ _ _ _ I) by set_solver. by apply Hstored.
  - apply (ledger_still m _ _ _ _ I). rewrite failJobDirect_workers. apply ledger_refl.
Qed.

Lemma deferred_step m m' job r dropped rest b : pass_inv m r dropped (job :: rest) →
  job_ID job ∉ ss_view (mg_cancelledJobIDs m0) → dispatch_frame (job_ID job) m m' →
  jobs (ents m') = jobs (ents m) → ledger (taskDefs (ents m)) [] (mg_workers m) (mg_workers m') →
  pass_inv m' (r <| pr_deferred := pr_deferred r ++ [job] |> <| pr_shortage := b |>) dropped rest.
Proof.
  intros I Hlive F Hj HL. destruct (pass_inv_frame _ _ _ _ _ _ F I) as (P & Fl & R & T & C).
  split; simpl; try done.
  - rewrite (pi_perm _ _ _ _ I). unfold handled. simpl. solve_Permutation.
  - apply I.
  - unfold handled. simpl. pose proof (pi_live _ _ _ _ I) as L. unfold handled in L.
    rewrite !Forall_app in *. naive_solver.
  - intros x Hx. rewrite Hj. apply (pi_rest _ _ _ _ I). set_solver.
  - by apply (ledger_still m _ _ _ _ I).
Qed.

Lemma kept_step m m' job r dropped rest : pass_inv m r dropped (job :: rest) →
  dispatch_frame (job_ID job) m m' → jobs (ents m') = jobs (ents m) →
  ledger (taskDefs (ents m)) [] (mg_workers m) (mg_workers m') → pass_inv m' r dropped (job :: rest).
Proof.
  intros I F Hj HL. destruct (pass_inv_frame _ _ _ _ _ _ F I) as (P & Fl & R & T & C).
  split; try done; try apply I; [|by apply (ledger_still m _ _ _ _ I)]. intros x Hx. rewrite Hj. by apply (pi_rest _ _ _ _ I).
Qed.

Lemma dispatched_step m m' job r dropped rest : pass_inv m r dropped (job :: rest) →
  job_ID job ∉ ss_view (mg_cancelledJobIDs m0) → dispatch_frame (job_ID job) m m' → proposed m' job →
  (∃ l, l.*2 = [job] ∧ ledger (taskDefs (ents m)) l (mg_workers m) (mg_workers m')) →
  pass_inv m' (r <| pr_dispatched := pr_dispatched r ++ [job] |>) dropped rest.
Proof.
  intros I Hlive F Hp (l & El & HL). destruct (pass_inv_frame _ _ _ _ _ _ F I) as (P & Fl & R & T & C).
  split; simpl; try done.
  - rewrite (pi_perm _ _ _ _ I). unfold handled. simpl. solve_Permutation.
  - apply I.
  - unfold handled. simpl. pose proof (pi_live _ _ _ _ I) as L. unfold handled in L.
    rewrite !Forall_app in *. naive_solver.
  - apply Forall_app. split; [done|]. by constructor.
  - by apply (ledger_more m _ _ _ _ l [job] I).
Qed.

Lemma dispatch_one_inv online m c r job dropped rest : pass_inv m r dropped (job :: rest) →
  job_ID job ∉ ss_view (mg_cancelledJobIDs m0) →
  let st := dispatch_one cfg online now (m, c, r) job in
  pass_inv st.1.1 st.2 dropped rest ∧ mg_queue st.1.1 = mg_queue m.
Proof.
  intros I Hlive. unfold dispatch_one.
  assert (job ∈ Q0) as HQ by (rewrite (pi_perm _ _ _ _ I); set_solver).
  destruct (jobPlatformKeysForDispatch cfg m job online c) as [[keys d] c1] eqn:Hd.
  destruct d as [d|].
  { destruct (jd_fail d) eqn:Hfail.
    - destruct (jobPlatformKeys_fail _ _ _ _ _ _ _ Hd Hfail) as [Ht Hr]. split; [by apply failed_step|].
      apply (df_queue _ _ _ (failJobDirect_frame m job _)).
    - split; [apply (deferred_step m); [done..|apply ledger_refl]|done]. }
  assert (is_Some (jobs (ents m) !! job_ID job)) as Hst by (rewrite (pi_rest _ _ _ _ I) by set_solver; by apply Hstored).
  destruct (tryProposeJob_spec cfg m job keys now) as [F O].
  pose proof (tryPropose_ledger cfg m job keys now Hst Hopen (proj1 (Hstored job HQ))) as L.
  destruct (tryProposeJob cfg m job keys now) as [m1 err]. simpl in F, O, L.
  pose proof (df_queue _ _ _ F) as Hq. destruct err as [e|]; [|destruct O as (_ & O); split; [by apply (dispatched_step m)|done]].
  assert (ledger (taskDefs (ents m)) [] (mg_workers m) (mg_workers m1)) as L0
    by (destruct L as (l & El & L); apply fmap_nil_inv in El; by subst l).
  destruct (O Hopen (proj1 (Hstored job HQ))) as [Hjobs Hunk].
  assert (pass_inv m1 (r <| pr_deferred := pr_deferred r ++ [job] |> <| pr_shortage :=
    pr_shortage r || bool_decide (e = ErrNoEledgibleWorkers) |>) dropped rest) as Hdef by by apply (deferred_step m).
  destruct e; try (split; [exact Hdef|done]).
  split; [|exact (eq_trans (df_queue _ _ _ (failJobDirect_frame m1 job _)) Hq)].
  apply failed_step; [by eapply kept_step|done| |done].
  rewrite (df_tasks _ _ _ F). by eapply Hunk.
Qed.

Lemma pop_step m m1 r dropped d popped_job : pass_inv m r dropped (Values (mg_queue m)) →
  popped m d popped_job m1 →
  pass_inv m1 r (dropped ++ d) (option_list popped_job ++ Values (mg_queue m1)).
Proof.
  intros I P. pose proof (po_frame _ _ _ _ P) as F. unfold only_queue in F.
  assert (ents m1 = ents m ∧ mg_workers m1 = mg_workers m) as [He Hw] by (rewrite F; by destruct m).
  assert (∀ x, proposed m x → proposed m1 x) as HP.
  { intros x. unfold proposed, in_flight, has_status. by rewrite He, Hw. }
  split; rewrite ?He.
  - rewrite (pi_perm _ _ _ _ I), (po_values _ _ _ _ P). solve_Permutation.
  - rewrite (po_forgotten _ _ _ _ P), (pi_cancelled _ _ _ _ I), difference_difference_l_L, fmap_app, list_to_set_app_L.
    done.
  - apply Forall_app. split; [apply I|]. eapply Forall_impl; [apply P|]. simpl.
    intros x. rewrite (pi_cancelled _ _ _ _ I). set_solver.
  - apply I.
  - eapply Forall_impl; [apply I|done].
  - eapply Forall_impl; [apply I|]. intros x. unfold failed_unknown. by rewrite He.
  - intros x Hx. apply (pi_rest _ _ _ _ I). rewrite (po_values _ _ _ _ P). set_solver.
  - apply I.
  - rewrite Hw. apply I.
Qed.

Lemma pop_live m m1 r dropped d job : pass_inv m r dropped (Values (mg_queue m)) →
  popped m d (Some job) m1 → job_ID job ∉ ss_view (mg_cancelledJobIDs m0).
Proof.
  intros I P Hin. apply (po_live _ _ _ _ P job eq_refl).
  rewrite (pi_cancelled _ _ _ _ (pop_step _ _ _ _ _ _ I P)). apply elem_of_difference. split; [done|].
  rewrite elem_of_list_to_set. intros Hd. pose proof Hids as Hnd.
  rewrite (pi_perm _ _ _ _ (pop_step _ _ _ _ _ _ I P)) in Hnd. simpl in Hnd.
  rewrite fmap_app in Hnd. apply NoDup_app in Hnd as (_ & _ & Hnd). rewrite fmap_app in Hnd.
  apply NoDup_app in Hnd as (_ & Hnd & _). apply (Hnd _ Hd). set_solver.
Qed.

Lemma dispatch_loop_inv fuel online m c r dropped : pq_inv job_higher (mg_queue m) →
  pass_inv m r dropped (Values (mg_queue m)) → length (Values (mg_queue m)) < fuel →
  let st := dispatch_loop cfg fuel online now (m, c, r) in
  ∃ dropped', pass_inv st.1.1 st.2 dropped' [] ∧ pq_inv job_higher (mg_queue st.1.1) ∧
    Values (mg_queue st.1.1) = [].
Proof.
  revert m c r dropped. induction fuel as [|fuel IH]; intros m c r dropped Hq I Hf; [lia|].
  cbn [dispatch_loop]. destruct (PopNextJobFromQueue_spec m Hq) as [d P].
  destruct (PopNextJobFromQueue m) as [[job|] m1]; cbn [fst snd] in P.
  - pose proof (pop_step _ _ _ _ _ _ I P) as I1. simpl in I1.
    destruct (dispatch_one_inv online m1 c r job _ _ I1 (pop_live _ _ _ _ _ _ I P)) as [I2 Q2].
    destruct (dispatch_one cfg online now (m1, c, r) job) as [[m2 c2] r2]. cbn [fst snd] in I2, Q2.
    apply (IH _ _ _ (dropped ++ d)).
    + rewrite Q2. apply P.
    + by rewrite Q2.
    + rewrite Q2. pose proof (Permutation_length (po_values _ _ _ _ P)) as Hlen.
      rewrite !length_app in Hlen. simpl in Hlen. lia.
  - exists (dropped ++ d). pose proof (pop_step _ _ _ _ _ _ I P) as I1. simpl in I1.
    rewrite (po_empty _ _ _ _ P eq_refl) in I1. split_and!; [done|apply P|by apply (po_empty _ _ _ _ P)].
Qed.
End pass.

Section after.
Context `{SimpleSet SS} `{Store ST} `{GoRuntime} `{Ulid} `{SerialLanes} `{WebhookEnv} `{WorkerSelector SS}.
Implicit Types (m : Manager SS ST) (job : Job).

Lemma push_jobs_spec m l : pq_inv job_higher (mg_queue m) →
  let m' := foldl push_job m l in
  only_queue m m' ∧ mg_cancelledJobIDs m' = mg_cancelledJobIDs m ∧ pq_inv job_higher (mg_queue m') ∧
  Values (mg_queue m') ≡ₚ l ++ Values (mg_queue m).
Proof.
  revert m. induction l as [|job l IH]; intros m Hq; [split; [by destruct m|done]|]. cbn [foldl].
  destruct (IH (push_job m job)) as (F & C & I & V); [exact (PushItem_inv job_higher _ job Hq)|].
  split_and!; [exact F|exact C|exact I|]. rewrite V.
  pose proof (PushItem_values job_higher (mg_queue m) job Hq) as Hp.
  etrans; [exact (Permutation_app_head l Hp)|]. solve_Permutation.
Qed.

Lemma eligibleWorkers_like (p : WorkerPool SS) keys cost id now :
  pool_like p (eligibleWorkers p keys cost id now).1.
Proof.
  destruct (decide (0 ≤ cost)%Z); [by apply eligibleWorkers_spec|].
  unfold eligibleWorkers. by rewrite (proj2 (Z.ltb_lt _ 0)) by lia.
Qed.

Lemma unsatisfied_like cfg now l (p : WorkerPool SS) acc :
  pool_like p (foldl (unsatisfied_task cfg now) (p, acc) l).1.
Proof.
  revert p acc. induction l as [|[name d] l IH]; intros p acc; [done|]. cbn [foldl].
  unfold unsatisfied_task at 2.
  pose proof (eligibleWorkers_like p (platform_keys (task_platforms cfg name)) (td_minCost d) "" now) as Hl.
  destruct (eligibleWorkers _ _ _ _ _) as [p1 ws]. simpl in Hl.
  case_bool_decide; (etrans; [exact Hl|apply IH]).
Qed.

(** Checking for a shortage touches only the cooldown and the layout of rejection caches. *)
Lemma checkResourceShortage_like cfg m now : pool_like (mg_workers m) (mg_workers (checkResourceShortage cfg m now).1).
Proof.
  unfold checkResourceShortage. destruct (negb (has_OnResourceShortage cfg)); [done|].
  destruct (negb (IsZero _) && _); [done|]. destruct (_ <=? _)%Z; [done|].
  pose proof (unsatisfied_like cfg now (range_map (foldl add_demand ∅ (Values (mg_queue m)))) (mg_workers m) ∅) as Hl.
  by destruct (foldl (unsatisfied_task cfg now) _ _) as [p acc].
Qed.

Lemma checkResourceShortage_frame cfg m now id :
  dispatch_frame id m (checkResourceShortage cfg m now).1 ∧
  ents (checkResourceShortage cfg m now).1 = ents m.
Proof.
  unfold checkResourceShortage. destruct (negb (has_OnResourceShortage cfg)); [done|].
  destruct (negb (IsZero _) && _); [done|]. destruct (_ <=? _)%Z; [done|].
  pose proof (unsatisfied_like cfg now (range_map (foldl add_demand ∅ (Values (mg_queue m)))) (mg_workers m) ∅) as Hl.
  destruct (foldl (unsatisfied_task cfg now) _ _) as [p acc]. simpl in Hl. split; [|done].
  apply pool_like_grows, (pool_frame id m p) in Hl. destruct Hl. by split.
Qed.
End after.

(** Aging keeps the jobs, up to their priority, in any configuration. *)
Lemma age_queue_perm cfg q now : pq_inv job_higher q →
  pq_inv job_higher (age_queue cfg q now) ∧
  ∃ f, (∀ job, job_ID (f job) = job_ID job ∧ job_Cost (f job) = job_Cost job ∧
               job_TaskName (f job) = job_TaskName job) ∧
    Values (age_queue cfg q now) ≡ₚ f <$> Values q.
Proof.
  intros Hq. destruct (decide (StarvationTimeout cfg ≤ 0)%Z) as [Ht|Ht].
  - unfold age_queue. rewrite (proj2 (Z.leb_le _ 0)) by done. split; [done|].
    exists (λ job, job). by rewrite list_fmap_id.
  - destruct (age_queue_spec cfg q now Hq ltac:(lia)) as [Hi Hp]. split; [done|].
    exists (aged cfg (max_priority (Values q)) now). split; [|done].
    intros job. unfold aged. by destruct (starved _ _ _ _).
Qed.

(** What became of the jobs [queued] when a pass took the manager from [m] to [m']. *)
Record pass_outcome `{SimpleSet SS} `{Store ST} (queued : list Job) (m : Manager SS ST) (r : PassResult)
    (dropped : list Job) (m' : Manager SS ST) : Prop := {
  out_partition : queued ≡ₚ pr_dispatched r ++ pr_failed r ++ pr_deferred r ++ dropped;
  out_heap : pq_inv job_higher (mg_queue m');
  out_queue : Values (mg_queue m') ≡ₚ pr_deferred r;
  out_proposed : Forall (proposed m') (pr_dispatched r);
  out_failed : Forall (failed_unknown m') (pr_failed r);
  out_untouched : ∀ job, job ∈ pr_deferred r ++ dropped →
    jobs (ents m') !! job_ID job = jobs (ents m) !! job_ID job;
  out_dropped : Forall (λ job, job_ID job ∈ ss_view (mg_cancelledJobIDs m)) dropped;
  out_live : Forall (λ job, job_ID job ∉ ss_view (mg_cancelledJobIDs m))
    (pr_dispatched r ++ pr_failed r ++ pr_deferred r);
  out_marks : ss_view (mg_cancelledJobIDs m') =
    ss_view (mg_cancelledJobIDs m) ∖ list_to_set (job_ID <$> dropped);
  out_ledger : ∃ l, l.*2 = pr_dispatched r ∧ ledger (taskDefs (ents m)) l (mg_workers m) (mg_workers m');
}.

Lemma pass_finish `{SimpleSet SS} `{Store ST} (m0 m m' : Manager SS ST) Q0 r dropped :
  pass_inv m0 Q0 m r dropped [] → ents m' = ents m → pool_like (mg_workers m) (mg_workers m') →
  mg_cancelledJobIDs m' = mg_cancelledJobIDs m → pq_inv job_higher (mg_queue m') →
  Values (mg_queue m') ≡ₚ pr_deferred r → pass_outcome Q0 m0 r dropped m'.
Proof.
  intros I He Hw Hc Hq Hv. split; rewrite ?He, ?Hc; try done; try apply I.
  - rewrite (pi_perm _ _ _ _ _ _ I), app_nil_r. unfold handled. by rewrite <- !app_assoc.
  - eapply Forall_impl; [apply (pi_proposed _ _ _ _ _ _ I)|]. intros x [Hf (j & Hj)].
    split; [by eapply in_flight_grows; [apply pool_like_grows|]|]. exists j. by rewrite He.
  - eapply Forall_impl; [apply (pi_failed _ _ _ _ _ _ I)|]. intros x. unfold failed_unknown. by rewrite He.
  - intros job Hjob. apply (pi_rest _ _ _ _ _ _ I). by rewrite app_nil_r.
  - apply (ledger_still _ _ m m' r _ _ I). by apply ledger_like.
Qed.

(** ** Properties *)

(** C2: A dispatch pass conserves jobs of positive cost. With distinct stored jobs of positive cost in the queue, every
    queued job ends in exactly one of four ways: it was proposed to a worker (the store says Proposing), it was failed
    for good because its task does not exist (the store says Failed, with the reason), it is back in the queue with its
    stored record untouched, or it had been cancelled and was dropped, which clears its cancellation mark. The books
    agree: every connection's occupied cost grew by exactly the costs of the jobs proposed to it, these are in flight
    there, and exactly one line was written to it for each, its proposal. No other mark is cleared and no cancelled job
    is proposed; the queue stays a valid heap. (A job of cost zero is not conserved, see [zero_cost_reproposed].) *)
Theorem dispatch_pass_conserves `{SimpleSet SS} `{Store ST} `{GoRuntime} `{Ulid} `{SerialLanes}
    `{WebhookEnv} `{WorkerSelector SS} (cfg : Config) (m : Manager SS ST) (now : Time) :
  pq_inv job_higher (mg_queue m) → NoDup (job_ID <$> Values (mg_queue m)) →
  (∀ job, job ∈ Values (mg_queue m) → (0 < job_Cost job)%Z ∧ is_Some (jobs (ents m) !! job_ID job)) →
  (∀ ns, lane_error ns = None) → foreign_errors (SS := SS) cfg →
  let '(m', r, _) := ProcessQueue cfg m now in
  ∃ dropped, pass_outcome (Values (age_queue cfg (mg_queue m) now)) m r dropped m'.
Proof.
  intros Hq Hnd Hst Hopen Hforeign. unfold ProcessQueue.
  destruct (age_queue_perm cfg (mg_queue m) now Hq) as [Hqa (f & Hf & Hp)].
  set (m1 := m <| mg_lastDispatchRun := Unix now |>).
  destruct (bool_decide (Size (mg_queue m1) = 0)) eqn:Esz.
  { apply bool_decide_eq_true in Esz. exists [].
    assert (Values (mg_queue m) = []) as Hnil by (apply nil_length_inv; rewrite Values_length; exact Esz).
    split; simpl; try done.
    + rewrite Hp, Hnil. done.
    + by rewrite Hnil.
    + set_solver.
    + exists []. split; [done|apply ledger_refl]. }
  set (m2 := applyStarvationAging cfg m1 now).
  set (Q0 := Values (age_queue cfg (mg_queue m) now)) in *.
  assert (pass_inv m Q0 m2 (MkPassResult [] [] [] false) [] (Values (mg_queue m2))) as I.
  { split; simpl; try done; [set_solver|]. exists []. split; [done|apply ledger_refl]. }
  destruct (dispatch_loop_inv cfg now m Q0 Hopen Hforeign) with
    (fuel := S (Size (mg_queue m2))) (online := onlinePlatformKeys (mg_workers m2)) (m := m2)
    (c := MkPassCaches ∅ ∅) (r := MkPassResult [] [] [] false) (dropped := @nil Job)
    as (dropped & I' & Hq' & Hv'); [..|done|done|rewrite Values_length; unfold Size; lia|].
  { rewrite Hp, <- list_fmap_compose.
    rewrite (list_fmap_ext (job_ID ∘ f) job_ID); [done|]. intros ? x _. apply Hf. }
  { intros job. rewrite Hp, list_elem_of_fmap. intros (x & -> & Hx).
    destruct (Hf x) as (-> & -> & _). by apply Hst. }
  destruct (dispatch_loop _ _ _ _ _) as [[m3 c3] r]. cbn [fst snd] in *.
  destruct (push_jobs_spec m3 (pr_deferred r) Hq') as (F & C & Hq4 & V4). unfold only_queue in F.
  rewrite Hv', app_nil_r in V4.
  set (m4 := foldl push_job m3 (pr_deferred r)) in *.
  assert (ents m4 = ents m3 ∧ mg_workers m4 = mg_workers m3) as [He Hw] by (rewrite F; by destruct m3).
  destruct (pr_shortage r).
  - destruct (checkResourceShortage_frame cfg m4 now "") as [Fr Er]. pose proof (checkResourceShortage_like cfg m4 now) as Hlike.
    destruct (checkResourceShortage cfg m4 now) as [m5 ev]. simpl in Fr, Er, Hlike.
    exists dropped. apply (pass_finish m m3); [done|congruence|..].
    + by rewrite <- Hw.
    + by rewrite (df_cancelled _ _ _ Fr).
    + by rewrite (df_queue _ _ _ Fr).
    + by rewrite (df_queue _ _ _ Fr).
  - exists dropped. apply (pass_finish m m3); try done. by rewrite Hw.
Qed.

(** C24: Starvation aging works. After aging, every job pending longer than the starvation timeout is
    popped before every job that is not, and the starving ones among themselves oldest first; the queue
    still is a heap of the same jobs, of which only starving ones changed priority. *)
Theorem starving_jobs_go_first (cfg : Config) (q : PriorityQueue Job) (now : Time) :
  pq_inv job_higher q → (0 < StarvationTimeout cfg)%Z → (max_priority (Values q) < MaxInt64)%Z →
  let order := pop_all job_higher (length (Values q)) (age_queue cfg q now) in
  order ≡ₚ aged cfg (max_priority (Values q)) now <$> Values q ∧
  (∀ job, ¬ starving cfg now job → aged cfg (max_priority (Values q)) now job = job) ∧
  ∀ i j x y, order !! i = Some x → order !! j = Some y → starving cfg now x →
    (¬ starving cfg now y → i < j) ∧
    (starving cfg now y → i < j → (job_CreatedAt x ≤ job_CreatedAt y)%Z).
Proof.
  intros Hq Ht Hmax. destruct (age_queue_spec cfg q now Hq Ht) as [Hi Hp].
  destruct (pop_all_spec job_higher (length (Values q)) (age_queue cfg q now) Hi) as [Hperm Hsorted].
  { by rewrite (Permutation_length Hp), length_fmap. }
  cbn zeta. set (order := pop_all _ _ _) in *. split; [by rewrite Hperm|]. split.
  { intros job Hns. unfold aged, starved, starving in *.
    by rewrite (proj2 (Z.ltb_ge _ _)) by lia. }
  intros i j x y Hx Hy Hs.
  assert (x ∈ Values (age_queue cfg q now) ∧ y ∈ Values (age_queue cfg q now)) as [Hxin Hyin].
  { rewrite <- Hperm. split; by eapply list_elem_of_lookup_2. }
  destruct (aged_values_rank cfg q now x y Hq Ht Hmax Hxin Hyin Hs) as [Heq Hhigh].
  split.
  - intros Hns. specialize (Hhigh Hns). destruct (decide (i < j)) as [|Hge]; [done|exfalso].
    destruct (decide (i = j)) as [->|Hne]; [simplify_eq; by apply Hns|].
    pose proof (StronglySorted_lookup _ _ _ _ _ _ Hsorted Hy Hx ltac:(lia)) as Hna.
    unfold not_after in Hna. congruence.
  - intros Hsy Hlt. specialize (Heq Hsy).
    pose proof (StronglySorted_lookup _ _ _ _ _ _ Hsorted Hx Hy Hlt) as Hna.
    unfold not_after, job_higher in Hna. rewrite Heq, Z.eqb_refl in Hna. simpl in Hna.
    unfold Before in Hna. by apply Z.ltb_ge.
Qed.

(** A job of cost zero is proposed again and again. Worker eligibility lets a job of cost zero through
    to a full worker, but reserving its cost there fails after the proposal was written and the job marked
    as Proposing: the attempt reports an error, so the pass puts the job back in the queue although the
    worker holds a proposal it may accept. *)
Theorem zero_cost_reproposed `{SimpleSet SS} `{Store ST} `{GoRuntime} `{Ulid} `{SerialLanes}
    `{WebhookEnv} (m : Manager SS ST) (job j : Job) (t : Task) (a : nat) (w : WorkerConn SS)
    (art : ArtifactInfo) (now : Time) :
  (∀ ns, lane_error ns = None) → job_Cost job = 0%Z → wp_conns (mg_workers m) !! a = Some w →
  conn_usable (wc_conn w) = true → (AvailableCapacity w ≤ 0)%Z → jobs (ents m) !! job_ID job = Some j →
  let '(m', err) := propose_to m job t a w art now in
  err = Some ErrWorkerAtCapacity ∧ has_status m' (job_ID job) JobStatusProposing ∧
  ∃ w', wp_conns (mg_workers m') !! a = Some w' ∧
    conn_out (wc_conn w') = conn_out (wc_conn w) ++ [FormulateProposeV0Message job t art +:+ newline].
Proof.
  intros Hopen Hcost Ha Huse Hfull Hj. unfold propose_to, Send, conn_Write. rewrite Huse.
  set (w1 := w <| wc_conn := _ |>). set (m1 := set_conn m a w1).
  pose proof (update_job_spec m1 (job_ID job) (λ j, j <| job_Status := JobStatusProposing |>)) as U.
  destruct (update_job m1 _ _) as [m2 err]. destruct U as (Uerr & Uents & _ & _ & Uw & _).
  cbn [fst snd] in Uerr, Uents, Uw. change (ents m1) with (ents m) in *.
  unfold UpdateJob in Uerr, Uents. rewrite Hj in Uerr, Uents. cbn [fst snd] in Uerr, Uents. subst err.
  assert (wp_conns (mg_workers m2) !! a = Some w1) as Ha2 by (rewrite Uw; apply lookup_insert_eq).
  unfold subtractCapacity. rewrite Ha2. unfold lane_Do. rewrite Hopen.
  assert (AssignTask w1 (job_ID job) (job_Cost job) = Err ErrWorkerAtCapacity) as ->.
  { unfold AssignTask. change (wrap64 (wc_capacity w1 - wc_occupiedCost w1)) with (AvailableCapacity w).
    by rewrite (proj2 (Z.leb_le _ 0)) by done. }
  split; [done|]. split.
  - exists (j <| job_Status := JobStatusProposing |>). split; [|done].
    etrans; [exact (f_equal (λ e, jobs e !! job_ID job) Uents)|]. apply lookup_insert_eq.
  - exists w1. split; [exact Ha2|done].
Qed.

(** A shortage is reported exactly when there is one. With pending costs that do not overflow, the
    callback is invoked just if it is configured, the cooldown since the last call has passed and the
    summed cost of the queued jobs exceeds the summed capacity of the connected workers; the event carries
    these sums and the queue length, and the cooldown restarts. *)
Theorem shortage_event_exact `{SimpleSet SS} `{Store ST} `{GoRuntime} (cfg : Config) (m : Manager SS ST)
    (now : Time) :
  (∀ job, job ∈ Values (mg_queue m) → (0 ≤ job_Cost job)%Z) →
  (zsum job_Cost (Values (mg_queue m)) ≤ MaxInt64)%Z →
  (Z.of_nat (length (Values (mg_queue m))) ≤ MaxInt64)%Z →
  let pending := zsum job_Cost (Values (mg_queue m)) in
  let due := IsZero (mg_lastScaleUpCall m) || (ScaleUpCooldown cfg <=? time_Sub now (mg_lastScaleUpCall m))%Z in
  let '(m', ev) := checkResourceShortage cfg m now in
  ents m' = ents m ∧ mg_queue m' = mg_queue m ∧
  if has_OnResourceShortage cfg && due && (totalCapacity (mg_workers m) <? pending)%Z
  then mg_lastScaleUpCall m' = now ∧
       ∃ unsatisfied, ev = Some (MkResourceShortageEvent pending (totalCapacity (mg_workers m))
         (Z.of_nat (length (Values (mg_queue m)))) (Z.of_nat (pool_Size (mg_workers m))) unsatisfied)
  else m' = m ∧ ev = None.
Proof.
  intros Hnn Hsum Hlen. cbn zeta. unfold checkResourceShortage.
  destruct (has_OnResourceShortage cfg); [|done]. simpl.
  assert (IsZero (mg_lastScaleUpCall m) || (ScaleUpCooldown cfg <=? time_Sub now (mg_lastScaleUpCall m))%Z =
    negb (negb (IsZero (mg_lastScaleUpCall m)) && (time_Sub now (mg_lastScaleUpCall m) <? ScaleUpCooldown cfg)%Z)) as ->.
  { rewrite negb_andb, negb_involutive, Z.leb_antisym. done. }
  destruct (negb (IsZero _) && _); [done|]. simpl.
  rewrite (wrapped_sum job_Cost (Values (mg_queue m)) 0), Z.add_0_l by (done || lia).
  rewrite Z.leb_antisym. destruct (totalCapacity (mg_workers m) <? _)%Z; simpl; [|done].
  pose proof (unsatisfied_like cfg now (range_map (foldl add_demand ∅ (Values (mg_queue m)))) (mg_workers m) ∅) as Hl.
  destruct (foldl (unsatisfied_task cfg now) _ _) as [p acc]. simpl in Hl. simpl.
  split_and!; try done. eexists. do 2 f_equal.
  - by rewrite (wrapped_sum (λ _, 1%Z)), zsum_one by (rewrite ?zsum_one; lia).
  - unfold pool_Size. by rewrite (pl_workers _ _ Hl).
Qed.

(** ** Sample states, to evaluate the properties *)
Lemma least_loaded_in `{SimpleSet SS} (p : WorkerPool SS) ws : ws ≠ [] →
  default 0 (LeastLoaded_Select p ws) ∈ ws.
Proof.
  destruct ws as [|a ws]; [done|]. intros _. simpl. revert a. induction ws as [|b ws IH]; intros a; simpl.
  { by left. }
  destruct (better p b a); specialize (IH); [specialize (IH b)|specialize (IH a)]; set_solver.
Qed.

Definition least_loaded `{SimpleSet SS} : WorkerSelector SS := {|
  sel_Select _ p ws := default 0 (LeastLoaded_Select p ws);
  sel_Select_in _ := least_loaded_in;
|}.

Section samples.
#[local] Existing Instances gset_simple_set canonical_runtime unary_ulid open_lanes sample_env least_loaded.

(** Two platforms of one build, enough to dispatch. *)
Definition sample_platform (os : string) : ArtifactPlatform :=
  MkArtifactPlatform "resize" "1.0" os "amd64" "h" 1 [] "u".

Definition sample_registry : ArtifactRegistry :=
  MkArtifactRegistry (λ _ os _, Ok (sample_platform os)) (λ _ _ os _, Ok (sample_platform os))
    (λ _ _, Ok [sample_platform "linux"]).

Definition dispatch_config : Config :=
  applyDefaults (sample_config <| cfg_ArtifactsRegistry := Some sample_registry |>).

Definition queued_job (id task : string) (cost prio : Z) : Job :=
  zero_job <| job_ID := id |> <| job_TaskName := task |> <| job_Cost := cost |>
           <| job_Priority := prio |> <| job_CreatedAt := Hour |>.

(** Four jobs: one fits the worker, one does not, one names no task and one was cancelled. *)
Definition sample_jobs : list Job :=
  [queued_job "fits" "resize" 3 1; queued_job "large" "resize" 9 4; queued_job "lost" "nowhere" 1 2;
   queued_job "gone" "resize" 1 3].

Definition with_jobs : MemStore :=
  NewMemStore <| mem_entities := foldl SaveJob (SaveTask no_entities wire_task) sample_jobs |>.

Definition sample_manager : Manager (gset string) MemStore :=
  foldl push_job (New with_jobs 0 <| mg_workers := sample_pool |> <| mg_cancelledJobIDs := {["gone"]} |>) sample_jobs.

Lemma sample_manager_queue : pq_inv job_higher (mg_queue sample_manager) ∧
  Values (mg_queue sample_manager) ≡ₚ sample_jobs.
Proof.
  destruct (push_jobs_spec (New with_jobs 0 <| mg_workers := sample_pool |> <| mg_cancelledJobIDs := {["gone"]} |>)
    sample_jobs) as (_ & _ & Hq & Hv); [apply New_inv|].
  split; [exact Hq|]. rewrite <- (app_nil_r sample_jobs). exact Hv.
Qed.

Definition ids_of (r : PassResult) : list string * list string * list string :=
  (job_ID <$> pr_dispatched r, job_ID <$> pr_failed r, job_ID <$> pr_deferred r).

Lemma dispatch_pass_conserves_witness :
  ids_of (ProcessQueue dispatch_config sample_manager (2 * Hour)%Z).1.2 = (["fits"], ["lost"], ["large"]) ∧
  ∃ dropped, pass_outcome (Values (age_queue dispatch_config (mg_queue sample_manager) (2 * Hour)%Z)) sample_manager
    (ProcessQueue dispatch_config sample_manager (2 * Hour)%Z).1.2 dropped
    (ProcessQueue dispatch_config sample_manager (2 * Hour)%Z).1.1.
Proof.
  split; [vm_compute; reflexivity|].
  pose proof (dispatch_pass_conserves dispatch_config sample_manager (2 * Hour)%Z) as Hpass.
  destruct (ProcessQueue dispatch_config sample_manager (2 * Hour)%Z) as [[m' r] ev]. apply Hpass.
  - apply sample_manager_queue.
  - rewrite (proj2 sample_manager_queue). apply (bool_decide_unpack _). vm_compute. exact I.
  - intros job. rewrite (proj2 sample_manager_queue). unfold sample_jobs.
    rewrite !elem_of_cons, elem_of_nil. intros Hjob.
    destruct_or! Hjob; try done; subst; (split; [reflexivity|]); vm_compute; by eexists.
  - reflexivity.
  - intros reg task job w name [= <-]. unfold resolve_artifact. simpl. by case_bool_decide.
Defined.

(** Two jobs that have waited longer than the timeout of five minutes, the older one of the lower
    priority, between two that have not. *)
Definition waiting_jobs : list Job :=
  [queued_job "new-high" "resize" 1 9 <| job_CreatedAt := (2 * Hour)%Z |>;
   queued_job "old" "resize" 1 1 <| job_CreatedAt := Hour |>;
   queued_job "new-low" "resize" 1 2 <| job_CreatedAt := (2 * Hour)%Z |>;
   queued_job "older" "resize" 1 0 <| job_CreatedAt := Minute |>].

Definition waiting_queue : PriorityQueue Job := mg_queue (foldl push_job (New with_jobs 0) waiting_jobs).

Definition after_a_minute : Time := (2 * Hour + Minute)%Z.

(** What the queue hands out after the aging: the two old jobs in their age's order before both others. *)
Definition aged_order : list Job := pop_all job_higher 4 (age_queue dispatch_config waiting_queue after_a_minute).

Lemma starving_jobs_go_first_witness :
  job_ID <$> pop_all job_higher 4 waiting_queue = ["new-high"; "new-low"; "old"; "older"] ∧
  job_ID <$> aged_order = ["older"; "old"; "new-high"; "new-low"] ∧
  ∀ i x, aged_order !! i = Some x → starving dispatch_config after_a_minute x →
    (∀ j y, aged_order !! j = Some y → ¬ starving dispatch_config after_a_minute y → i < j) ∧
    (∀ j y, aged_order !! j = Some y → starving dispatch_config after_a_minute y → i < j →
      (job_CreatedAt x ≤ job_CreatedAt y)%Z).
Proof.
  destruct (starving_jobs_go_first dispatch_config waiting_queue after_a_minute) as (_ & _ & Hfirst).
  - apply push_jobs_spec, New_inv.
  - reflexivity.
  - vm_compute. reflexivity.
  - replace (length (Values waiting_queue)) with 4 in Hfirst by (vm_compute; reflexivity).
    unfold aged_order. split; [vm_compute; reflexivity|]. split; [vm_compute; reflexivity|].
    intros i x Hx Hs. split; intros j y Hy Hsy.
    + exact (proj1 (Hfirst i j x y Hx Hy Hs) Hsy).
    + exact (proj2 (Hfirst i j x y Hx Hy Hs) Hsy).
Defined.

(** A worker with no room left. *)
Definition full_worker : WorkerConn (gset string) := sample_worker <| wc_occupiedCost := 4%Z |>.

Definition free_job : Job := queued_job "free" "resize" 0 1.

Definition full_manager : Manager (gset string) MemStore :=
  set_conn (New (NewMemStore <| mem_entities := SaveJob no_entities free_job |>) 0) 0 full_worker.

Lemma zero_cost_reproposed_witness :
  (propose_to full_manager free_job wire_task 0 full_worker (MkArtifactInfo "h" "u" []) 0).2 =
    Some ErrWorkerAtCapacity.
Proof.
  pose proof (zero_cost_reproposed full_manager free_job free_job wire_task 0 full_worker
    (MkArtifactInfo "h" "u" []) 0) as Hz.
  destruct (propose_to full_manager free_job wire_task 0 full_worker (MkArtifactInfo "h" "u" []) 0) as [m' err].
  destruct Hz as [He _]; [reflexivity|reflexivity|reflexivity|reflexivity|vm_compute; congruence|reflexivity|].
  exact He.
Defined.

Lemma shortage_event_exact_witness :
  match (checkResourceShortage dispatch_config sample_manager Hour).2 with
  | Some ev => rse_PendingCost ev = 14%Z ∧ rse_PendingCount ev = 4%Z
  | None => False
  end.
Proof.
  pose proof (shortage_event_exact dispatch_config sample_manager Hour) as Hev.
  destruct (checkResourceShortage dispatch_config sample_manager Hour) as [m' ev].
  destruct Hev as (_ & _ & Hev).
  - intros job. rewrite (proj2 sample_manager_queue). unfold sample_jobs.
    rewrite !elem_of_cons, elem_of_nil. intros Hjob. destruct_or! Hjob; try done; subst; vm_compute; congruence.
  - vm_compute. congruence.
  - vm_compute. congruence.
  - revert Hev. match goal with |- (if ?b then _ else _) → _ => replace b with true by (vm_compute; reflexivity) end.
    intros [_ [u ->]]. split; vm_compute; reflexivity.
Defined.
End samples.
