(* ===== verification/Lifecycle.v ===== *)
(** * The job lifecycle: worker messages, retries, cancellation, recovery
      (src/manager/worker_conn_handler.go, src/manager/manager.go)

    Each handler is one uninterrupted call on the manager's state; [a] is the
    connection the message arrived on and [now] its clock reading.  The source
    runs every message in a goroutine of its own, so handlers may follow each
    other in any order: the step relation below allows all of them. *)
From S2P Require Import Prelude GoStd External Json Contract Store MemStore Webhooks Heap PriorityQueue Cache.
From S2P Require Import WorkerConn WorkerPool Proto Config Manager Dispatch.

(** [encoding/json] on [ConsolidatePayload]: writing one, and the non-nil payload of a text that
    reads as one.  A written payload reads back as [JsonOrBytes] fields do. *)
Class ConsolidateJson := {
  cp_marshal : ConsolidatePayload → res error string;
  cp_previous : string → option string;
  cp_previous_marshal cp s p :
    cp_marshal cp = Ok s → reload_field (cp_Payload cp) = Ok p →
    (∀ c, c ∈ cp_Children cp → ∃ r, reload_field (cjr_Result c) = Ok r) →
    cp_previous s = Some p;
}.

(** A codec with the law: the stored form of the payload behind a tag. *)
Definition tagged_payload : ConsolidateJson.
Proof.
  refine {|
    cp_marshal cp := Ok (match reload_field (cp_Payload cp) with Ok p => String "P" p | Err _ => "E" end);
    cp_previous s := match s with String "P" p => Some p | _ => None end;
  |}.
  intros cp s p [= <-] -> _. reflexivity.
Defined.

(** ** Retry policies *)
Section retry.
Local Open Scope go_scope.

Definition mergeRetryPolicy (task defaults : RetryPolicy) : RetryPolicy :=
  MkRetryPolicy
    (if (MaxAttempts task =? 0)%Z then MaxAttempts defaults else MaxAttempts task)
    (if (RetryDelay task =? 0)%Z then RetryDelay defaults else RetryDelay task)
    (if (MaxRetryDelay task =? 0)%Z then MaxRetryDelay defaults else MaxRetryDelay task).

(** [for i := 1; i < attempt; i++ { delay *= 2 }] *)
Definition doubled (n : nat) (delay : Duration) : Duration := Nat.iter n (λ d, d *! 2) delay.

Definition retryDelay (p : RetryPolicy) (attempt : Z) : Duration :=
  if (RetryDelay p =? 0)%Z then 0%Z
  else
    let delay := doubled (Z.to_nat (attempt - 1)) (RetryDelay p) in
    if (0 <? MaxRetryDelay p)%Z && (MaxRetryDelay p <? delay)%Z then MaxRetryDelay p else delay.
End retry.

Section lifecycle.
Context `{SimpleSet SS} `{Store ST} `{GoRuntime} `{Ulid} `{SerialLanes} `{WebhookEnv} `{WorkerSelector SS}.
Context `{ConsolidateJson} (cfg : Config).
Local Open Scope go_scope.
Implicit Types (m : Manager SS ST) (job : Job).

(** ** Small steps *)
Definition on_worker m (a : nat) (f : WorkerConn SS → WorkerConn SS) : Manager SS ST :=
  m <| mg_workers := on_conn (mg_workers m) a f |>.

Definition send_error m (a : nat) (code message : string) : Manager SS ST :=
  on_worker m a (λ w, SendError w code message).

Definition restore_capacity m (a : nat) job (now : Time) : Manager SS ST * option error :=
  let '(pool, err) := restoreCapacity (mg_workers m) a (job_ID job) (job_Cost job) now in
  (m <| mg_workers := pool |>, err).

Definition close_job_logs m (jobID : string) : Manager SS ST :=
  set_store m (st_CloseJobLogSubscribers (mg_store m) jobID).

(** A map lookup without the key yields the empty string. *)
Definition resolveRunID m (jobID msgRunID : string) : string :=
  if bool_decide (msgRunID ≠ "") then msgRunID else default "" (mg_activeRunIDs m !! jobID).

Definition closeRun m (runID jobID : string) (status : RunStatus) (resultType : ResultType)
    (outputPayload reason : string) (exitCode : Z) (now : Time) : Manager SS ST :=
  if bool_decide (runID = "") then m
  else
    let m := m <| mg_activeRunIDs := delete jobID (mg_activeRunIDs m) |> in
    let m := if bool_decide (status = RunStatusFailed) && bool_decide (reason ≠ "")
             then set_store m (st_AppendRunLog (mg_store m) runID ("[workforce] run failed: " +:+ reason)).1
             else m in
    let '(m, _) := update_run m runID (λ r,
      r <| run_Status := status |> <| run_ResultType := Some resultType |>
        <| run_OutputPayload := outputPayload |> <| run_FailureReason := reason |>
        <| run_ExitCode := exitCode |> <| run_FinishedAt := now |>) in
    set_store m (st_CloseRunLogSubscribers (mg_store m) runID).

(** ** Dispatch payloads *)
Definition buildConsolidatePayload (parent : Job) (children : list Job) : res error string :=
  let basePayload :=
    if bool_decide (job_Payload parent = "") then job_Payload parent
    else match cp_previous (job_Payload parent) with Some p => p | None => job_Payload parent end in
  let sorted := sort_slice older_first children in
  cp_marshal (MkConsolidatePayload basePayload
    ((λ c, MkChildJobResult (job_ID c) (job_TaskName c) (job_Result c)) <$> sorted)).

Definition resolveDispatchPayload m job : res error string :=
  if bool_decide (job_Phase job ≠ JobPhaseConsolidate) then Ok (job_Payload job)
  else buildConsolidatePayload job (ListChildJobs (ents m) (job_ID job)).

(** ** Worker messages *)
Definition handleAcceptMessage m (a : nat) (jobID : string) (now : Time) : Manager SS ST :=
  let '(m, err) := update_job m jobID (λ j, j <| job_Status := JobStatusAccepted |> <| job_UpdatedAt := now |>) in
  match err with
  | Some _ => m
  | None =>
      match GetJob (ents m) jobID with
      | Err _ => m
      | Ok job =>
          match resolveDispatchPayload m job with
          | Err _ => m
          | Ok dispatchPayload =>
              let n := wd_ulids (mg_webhooks m) in
              let runID := ulid n in
              let m := m <| mg_webhooks := (mg_webhooks m) <| wd_ulids := S n |> |> in
              let workerID := match wp_conns (mg_workers m) !! a with Some w => wc_workerID w | None => "" end in
              let run := MkJobRun runID (job_ID job) (job_Phase job) (job_Attempts job +! 1) workerID
                           RunStatusProvisioning dispatchPayload "" "" 0 (Some ResultSuccess) time_zero time_zero in
              let m := set_store m (st_CreateRun (mg_store m) run).1 in
              let m := m <| mg_activeRunIDs := <[job_ID job := runID]> (mg_activeRunIDs m) |> in
              on_worker m a (λ w, (SendWithPayload w (FormulateDispatchV0Message job runID) dispatchPayload).1)
          end
      end
  end.

Definition handleStagedMessage m (jobID : string) (now : Time) : Manager SS ST :=
  (update_job m jobID (λ j, j <| job_Status := JobStatusProvisioning |> <| job_UpdatedAt := now |>)).1.

Definition handleRejectMessage m (a : nat) (jobID : string) (now : Time) : Manager SS ST :=
  match GetJob (ents m) jobID with
  | Err _ => send_error m a "invalid_argument" ("job(" +:+ jobID +:+ ") not found")
  | Ok job =>
      let '(m, err) := update_job m jobID (λ j, j <| job_Status := JobStatusPending |> <| job_UpdatedAt := now |>) in
      match err with
      | Some _ => m
      | None =>
          let '(m, _) := restore_capacity m a job now in
          let m := on_worker m a (λ w,
            w <| wc_rejectedJobsCache := Put (wc_rejectedJobsCache w) (job_ID job) tt now |>) in
          EnqueueJob m (job <| job_Status := JobStatusPending |>)
      end
  end.

Definition handleStartingMessage m (a : nat) (jobID msgRunID : string) (now : Time) : Manager SS ST :=
  match GetJob (ents m) jobID with
  | Err _ => m
  | Ok job =>
      let '(m, _) := update_job m (job_ID job) (λ j,
        j <| job_Status := JobStatusRunning |> <| job_UpdatedAt := now |>) in
      let runID := resolveRunID m jobID msgRunID in
      let m := if bool_decide (runID ≠ "")
               then (update_run m runID (λ r, r <| run_Status := RunStatusRunning |> <| run_StartedAt := now |>)).1
               else m in
      let workerID := match wp_conns (mg_workers m) !! a with Some w => wc_workerID w | None => "" end in
      m <| mg_webhooks := FireJobRunning (mg_webhooks m) job workerID now |>
  end.

Definition handleLogMessage m (jobID msgRunID line : string) : Manager SS ST :=
  let runID := resolveRunID m jobID msgRunID in
  if bool_decide (runID = "") then m
  else set_store m (st_AppendRunLog (mg_store m) runID line).1.

(** ** Child jobs *)

(** [UpdateJob(parent, func(j) { defer FireJobFailed(j); ... })]: the event is queued while the
    store's lock is held, and queueing takes the same lock.  [None] is the goroutine that never
    returns, holding the lock, which happens when the parent subscribes to the event. *)
Definition fail_parent m (parent : Job) (reason : string) (now : Time) : option (Manager SS ST * option error) :=
  match jobs (ents m) !! job_ID parent with
  | Some j =>
      if ShouldDispatchEvent j eventJobFailed &&
         match marshal_event (MkWebhookEvent eventJobFailed (job_ID j) (job_ParentJobID j) now
                 [("failure_reason", EvString reason)]) with Ok _ => true | Err _ => false end
      then None
      else Some (update_job m (job_ID parent) (λ j,
        j <| job_Status := JobStatusFailed |> <| job_FailureReason := reason |> <| job_UpdatedAt := now |>
          <| job_CompletedAt := Some now |> <| job_Duration := Some (time_Sub now (job_CreatedAt j)) |>))
  | None => Some (update_job m (job_ID parent) (λ j, j))
  end.

(** [errors.Join]. *)
Definition errors_Join (e1 e2 : option error) : option error :=
  match e1, e2 with
  | Some e1, Some e2 => Some (ErrJoined e1 e2)
  | Some e, None | None, Some e => Some e
  | None, None => None
  end.

Definition fail_children m (parent : Job) (err : option error) (reason : string) (now : Time)
  : option (Manager SS ST * res (option error) (list Job)) :=
  '(m, updErr) ← fail_parent m parent reason now; Some (m, Err (errors_Join err updErr)).

(** The version a child is pinned to, or the reason and error with which the parent fails. *)
Definition child_version (taskDef : Task) (req : ChildJobRequest) : res (string * option error) string :=
  match cfg_ArtifactsRegistry cfg with
  | None => Ok ""
  | Some reg =>
      if bool_decide (cjreq_Version req ≠ "") then
        match ListPlatforms reg (task_Name taskDef) (cjreq_Version req) with
        | Ok (_ :: _) => Ok (cjreq_Version req)
        | Ok [] => Err ("child artifact " +:+ cjreq_Task req +:+ "@" +:+ cjreq_Version req +:+ " not found", None)
        | Err e => Err ("child artifact " +:+ cjreq_Task req +:+ "@" +:+ cjreq_Version req +:+ " not found", Some e)
        end
      else
        match ListPlatforms reg (task_Name taskDef) "" with
        | Ok (p :: _) => Ok (ap_Version p)
        | Ok [] => Err ("no released artifact for " +:+ task_Name taskDef, None)
        | Err e => Err ("no released artifact for " +:+ task_Name taskDef, Some e)
        end
  end.

(** The loop over the requests: the saved children, or the error after the parent was failed. *)
Fixpoint save_children m (parent : Job) (i : Z) (reqs : list ChildJobRequest) (now : Time)
  : option (Manager SS ST * res (option error) (list Job)) :=
  match reqs with
  | [] => Some (m, Ok [])
  | req :: reqs =>
      match GetTask (ents m) (cjreq_Task req) with
      | Err e => fail_children m parent (Some e) ("child job targets unknown task: " +:+ cjreq_Task req) now
      | Ok taskDef =>
          match child_version taskDef req with
          | Err (reason, e) => fail_children m parent e reason now
          | Ok artifactVersion =>
              let n := wd_ulids (mg_webhooks m) in
              let m := m <| mg_webhooks := (mg_webhooks m) <| wd_ulids := S n |> |> in
              let child := MkJob (ulid n) (job_ID parent) (task_Name taskDef) artifactVersion JobStatusPending
                             JobPhaseRun (cjreq_Priority req) (task_Cost taskDef) 0 (cjreq_Payload req) "" "" ""
                             [] ∅ (time_Add now i) now None None in
              let '(s, err) := st_SaveJob (mg_store m) child in
              let m := set_store m s in
              match err with
              | Some e => fail_children m parent (Some e) ("internal error saving child jobs: " +:+ Error e) now
              | None =>
                  '(m, children) ← save_children m parent (i + 1)%Z reqs now;
                  Some (m, match children with Ok children => Ok (child :: children) | Err e => Err e end)
              end
          end
      end
  end.

Definition handleSubjobsEmitted m (parent : Job) (childJobs : list ChildJobRequest) (now : Time)
  : option (Manager SS ST * option error) :=
  if IsTerminal (job_Status parent) then Some (m, None)
  else
    '(m, saved) ← save_children m parent 0 childJobs now;
    match saved with
    | Err e => Some (m, e)
    | Ok children =>
        let '(m, err) := update_job m (job_ID parent) (λ j,
          j <| job_Status := JobStatusAwaitingChildren |> <| job_UpdatedAt := now |>) in
        match err with
        | Some _ => Some (m, None)
        | None => Some (EnqueueJobs m children, None)
        end
    end.

(** ** Completion *)
Definition complete_job (payload : string) (now : Time) (j : Job) : Job :=
  j <| job_Status := JobStatusCompleted |> <| job_Result := payload |> <| job_UpdatedAt := now |>
    <| job_CompletedAt := Some now |> <| job_Duration := Some (time_Sub now (job_CreatedAt j)) |>.

(** The guard of the transition below: only a parent that still waits is scheduled. *)
Definition awaits_children (j : Job) : bool := bool_decide (job_Status j = JobStatusAwaitingChildren).

Definition schedule_consolidation (now : Time) (j : Job) : Job :=
  if negb (awaits_children j) then j
  else j <| job_Status := JobStatusPending |> <| job_Phase := JobPhaseConsolidate |> <| job_UpdatedAt := now |>.

(** The tail of [handleJobCompleted]: consolidate the parent once every sibling has completed.  The
    flag [scheduled] is set inside the mutation, so it reports the status the mutation saw. *)
Definition consolidate_parent m job (now : Time) : Manager SS ST :=
  if bool_decide (job_ParentJobID job = "") then m
  else
    let siblings := ListChildJobs (ents m) (job_ParentJobID job) in
    if negb (forallb (λ s, IsTerminal (job_Status s) && bool_decide (job_Status s = JobStatusCompleted)) siblings)
    then m
    else
      match GetJob (ents m) (job_ParentJobID job) with
      | Err _ => m
      | Ok parent =>
          let scheduled := match jobs (ents m) !! job_ID parent with
                           | Some j => awaits_children j
                           | None => false
                           end in
          let '(m, err) := update_job m (job_ID parent) (schedule_consolidation now) in
          match err with
          | Some _ => m
          | None =>
              if negb scheduled then m
              else EnqueueJob m (parent <| job_Status := JobStatusPending |> <| job_Phase := JobPhaseConsolidate |>)
          end
      end.

Definition handleJobCompleted m (a : nat) job (msg : ResultMessage) (now : Time) : Manager SS ST :=
  if IsTerminal (job_Status job) then m
  else
    let m := close_job_logs m (job_ID job) in
    let '(m, err) := update_job m (rm_JobID msg) (complete_job (rm_Payload msg) now) in
    match err with
    | Some _ => m
    | None =>
        let runID := resolveRunID m (rm_JobID msg) (rm_RunID msg) in
        let m := closeRun m runID (rm_JobID msg) RunStatusCompleted (rm_Type msg) (rm_Payload msg) "" 0 now in
        let '(m, err) := restore_capacity m a job now in
        match err with
        | Some _ => m
        | None =>
            let job := job <| job_Status := JobStatusCompleted |> in
            let m := m <| mg_webhooks := FireJobCompleted (mg_webhooks m) job now |> in
            consolidate_parent m job now
        end
    end.

(** ** Failure *)
Definition fail_job (now : Time) (j : Job) : Job :=
  j <| job_Status := JobStatusFailed |> <| job_UpdatedAt := now |> <| job_CompletedAt := Some now |>
    <| job_Duration := Some (time_Sub now (job_CreatedAt j)) |>.

Definition handleFailJob m job (reason : string) (now : Time) : Manager SS ST :=
  let '(m, _) := update_job m (job_ID job) (fail_job now) in
  let job := job <| job_Status := JobStatusFailed |> in
  let m := m <| mg_webhooks := FireJobFailed (mg_webhooks m) job reason now |> in
  let m := close_job_logs m (job_ID job) in
  if bool_decide (job_ParentJobID job = "") then m
  else
    match GetJob (ents m) (job_ParentJobID job) with
    | Err _ => m
    | Ok parent =>
        let m := close_job_logs m (job_ID parent) in
        let '(m, err) := update_job m (job_ID parent) (λ j, fail_job now j <| job_FailureReason := reason |>) in
        match err with
        | Some _ => m
        | None => m <| mg_webhooks := FireJobFailed (mg_webhooks m) job reason now |>
        end
    end.

Definition effective_policy m job : RetryPolicy :=
  match GetTask (ents m) (job_TaskName job) with
  | Ok taskDef => mergeRetryPolicy (task_RetryPolicy taskDef) (DefaultRetryPolicy cfg)
  | Err _ => DefaultRetryPolicy cfg
  end.

Definition handleJobError m (a : nat) job (msg : ResultMessage) (now : Time) : Manager SS ST :=
  if IsTerminal (job_Status job) then
    if bool_decide (job_Status job = JobStatusCancelled)
    then closeRun m (resolveRunID m (rm_JobID msg) (rm_RunID msg)) (rm_JobID msg) RunStatusFailed ResultError
           "cancelled" "cancelled" 0 now
    else m
  else
    let '(m, _) := restore_capacity m a job now in
    let runID := resolveRunID m (rm_JobID msg) (rm_RunID msg) in
    let m := closeRun m runID (rm_JobID msg) RunStatusFailed (rm_Type msg) (rm_Reason msg) (rm_Reason msg)
               (rm_ExitCode msg) now in
    let job := job <| job_Attempts := job_Attempts job +! 1 |> in
    let '(m, _) := update_job m (job_ID job) (λ j,
      j <| job_Attempts := job_Attempts job |> <| job_FailureReason := rm_Reason msg |> <| job_UpdatedAt := now |>) in
    if do_not_retry cfg (rm_ExitCode msg) then handleFailJob m job (rm_Reason msg) now
    else
      let effective := effective_policy m job in
      if (job_Attempts job <? MaxAttempts effective)%Z then
        let delay := retryDelay effective (job_Attempts job) in
        m <| mg_timers := mg_timers m ++ [MkRetryTimer (time_Add now delay) (job_ID job)] |>
      else handleFailJob m job (rm_Reason msg) now.

(** The function a retry timer runs. *)
Definition retry_timer_fired m (t : RetryTimer) (now : Time) : Manager SS ST :=
  match GetJob (ents m) (rt_jobID t) with
  | Err _ => m
  | Ok j =>
      if IsTerminal (job_Status j) then m
      else
        let '(m, _) := update_job m (rt_jobID t) (λ jk,
          jk <| job_Status := JobStatusPending |> <| job_UpdatedAt := now |>) in
        EnqueueJob m (j <| job_Status := JobStatusPending |>)
  end.

(** ** Results *)
Definition handleResultMessage m (a : nat) (msg : ResultMessage) (now : Time) : option (Manager SS ST) :=
  match GetJob (ents m) (rm_JobID msg) with
  | Err _ => Some (send_error m a "invalid_argument" ("job(" +:+ rm_JobID msg +:+ ") not found"))
  | Ok job =>
      match rm_Type msg with
      | ResultError => Some (handleJobError m a job msg now)
      | ResultSubjobs =>
          let runID := resolveRunID m (rm_JobID msg) (rm_RunID msg) in
          '(m, subjobErr) ← handleSubjobsEmitted m job (rm_Jobs msg) now;
          let '(m, _) := restore_capacity m a job now in
          match subjobErr with
          | Some e => Some (send_error m a "" (Error e))
          | None => Some (closeRun m runID (rm_JobID msg) RunStatusCompleted (rm_Type msg) (rm_Payload msg) "" 0 now)
          end
      | ResultSuccess => Some (handleJobCompleted m a job msg now)
      end
  end.

(** [handleWorkerMessage]; [None] when the handler never returns. *)
Definition handleWorkerMessage m (a : nat) (msg : Message) (now : Time) : option (Manager SS ST) :=
  match msg with
  | MHeartbeat cpu mem state =>
      Some (on_worker m a (λ w,
        let w := SetState w state in
        let w := w <| wc_cpuPercent := Some cpu |> <| wc_memPercent := Some mem |> in
        (Send (UpdateHeartbeat w now) "heartbeat").1))
  | MResult msg => handleResultMessage m a msg now
  | MAccept jobID => Some (handleAcceptMessage m a jobID now)
  | MReject jobID _ => Some (handleRejectMessage m a jobID now)
  | MLog jobID runID line => Some (handleLogMessage m jobID runID line)
  | MStaged jobID _ => Some (handleStagedMessage m jobID now)
  | MStarting jobID runID => Some (handleStartingMessage m a jobID runID now)
  | MCapacity available => Some (on_worker m a (λ w, OverrideCapacity w available))
  | _ => Some (send_error m a "unhandled_message" ("message of type " +:+ message_type_name msg +:+ " is not handled"))
  end.

(** ** Workers that leave, and restarts *)
Definition close_orphan (reason : string) (now : Time) m (r : JobRun) : Manager SS ST :=
  if bool_decide (run_Status r = RunStatusProvisioning) || bool_decide (run_Status r = RunStatusRunning)
  then (update_run m (run_ID r) (λ run,
          run <| run_Status := RunStatusFailed |> <| run_FailureReason := reason |> <| run_FinishedAt := now |>)).1
  else m.

Definition close_orphans (reason : string) (now : Time) m (jobID : string) : Manager SS ST :=
  foldl (close_orphan reason now) m (ListJobRuns (ents m) jobID).

Definition requeue_one (now : Time) m (id : string) : Manager SS ST :=
  let m := if has_RunStore cfg then close_orphans "worker disconnected" now m id else m in
  match GetJob (ents m) id with
  | Err _ => m
  | Ok job =>
      let '(m, _) := update_job m id (λ j, j <| job_Status := JobStatusPending |>) in
      EnqueueJob m (job <| job_Status := JobStatusPending |>)
  end.

Definition OnJobsRequeued m (jobIDs : list string) (now : Time) : Manager SS ST :=
  foldl (requeue_one now) m jobIDs.

Definition recover_one (now : Time) m job : Manager SS ST :=
  let m := if has_RunStore cfg then close_orphans "recovered: manager restarted" now m (job_ID job) else m in
  (update_job m (job_ID job) (λ j, j <| job_Status := JobStatusPending |>)).1.

Definition RecoverJobs m (now : Time) : Manager SS ST :=
  let pending := ListPendingJobs (ents m) in
  let recoverable := ListRecoverableJobs (ents m) in
  let m := foldl (recover_one now) m recoverable in
  EnqueueJobs m (pending ++ ((λ j, j <| job_Status := JobStatusPending |>) <$> recoverable)).

(** ** Cancellation *)
Definition SendCancelToWorker m (jobID : string) : Manager SS ST :=
  match FindWorkerByInFlightJobID (mg_workers m) jobID with
  | None => m
  | Some a => on_worker m a (λ w, (Send w ("cancel --job-id=" +:+ jobID)).1)
  end.

Definition cancel_job (now : Time) (j : Job) : Job :=
  j <| job_Status := JobStatusCancelled |> <| job_UpdatedAt := now |> <| job_CompletedAt := Some now |>
    <| job_Duration := Some (time_Sub now (job_CreatedAt j)) |>.

Definition cancel_child (now : Time) m (child : Job) : Manager SS ST :=
  if IsTerminal (job_Status child) then m
  else
    let m := match job_Status child with
             | JobStatusRunning | JobStatusProvisioning | JobStatusProposing => SendCancelToWorker m (job_ID child)
             | _ => m
             end in
    let m := if bool_decide (job_Status child = JobStatusPending)
             then m <| mg_cancelledJobIDs := ss_Add (job_ID child) (mg_cancelledJobIDs m) |> else m in
    (update_job m (job_ID child) (cancel_job now)).1.

Definition cancelJobByID m (jobID : string) (now : Time) : Manager SS ST :=
  match GetJob (ents m) jobID with
  | Err _ => m
  | Ok job =>
      let m := foldl (cancel_child now) m (ListChildJobs (ents m) jobID) in
      let m := match job_Status job with
               | JobStatusRunning | JobStatusProvisioning | JobStatusProposing | JobStatusAccepted =>
                   SendCancelToWorker m jobID
               | _ => m
               end in
      let m := if bool_decide (job_Status job = JobStatusPending)
               then m <| mg_cancelledJobIDs := ss_Add (job_ID job) (mg_cancelledJobIDs m) |> else m in
      let '(m, _) := update_job m jobID (cancel_job now) in
      m <| mg_webhooks := FireJobCancelled (mg_webhooks m) job now |>
  end.

(** [handleCancelJob] (routes.go): the answer, and the job [cancelJobByID] is started for.  That
    call is a goroutine of its own, so other steps may come between. *)
Definition handleCancelJob m (jobID : string) : Z * option string :=
  match GetJob (ents m) jobID with
  | Err _ => (404%Z, None)
  | Ok job => if IsTerminal (job_Status job) then (409%Z, None) else (202%Z, Some jobID)
  end.

(** ** Submission ([handleSubmitJob] of routes.go, after the request body was decoded) *)
Definition sanitizeWebhookHeaders (headers : gmap string string) : gmap string string :=
  foldl (λ out '(k, v), if HasPrefix "X-" k || bool_decide (k = "Authorization") then <[k := v]> out else out)
    ∅ (range_map headers).

Record webhookConfig := MkWebhookConfig {
  wcfg_URL : string;
  wcfg_Events : list string;
  wcfg_Headers : gmap string string;
}.

Record submitJobRequest := MkSubmitJobRequest {
  sjr_Task : string;
  sjr_Payload : string;
  sjr_Webhook : option webhookConfig;
}.

(** The job, or the HTTP status of the refusal. *)
Definition handleSubmitJob m (req : submitJobRequest) (now : Time) : Manager SS ST * res Z Job :=
  if bool_decide (sjr_Task req = "") then (m, Err 400%Z)
  else
    match GetTask (ents m) (sjr_Task req) with
    | Err _ => (m, Err 404%Z)
    | Ok taskDef =>
        let n := wd_ulids (mg_webhooks m) in
        let m := m <| mg_webhooks := (mg_webhooks m) <| wd_ulids := S n |> |> in
        let job := zero_job <| job_ID := ulid n |> <| job_TaskName := sjr_Task req |>
          <| job_Status := JobStatusPending |> <| job_Phase := JobPhaseRun |> <| job_Cost := task_Cost taskDef |>
          <| job_Payload := sjr_Payload req |> <| job_CreatedAt := now |> <| job_UpdatedAt := now |> in
        let job :=
          match sjr_Webhook req with
          | Some wc =>
              if bool_decide (wcfg_URL wc ≠ "") then
                job <| job_WebhookURL := wcfg_URL wc |> <| job_WebhookEvents := wcfg_Events wc |>
                    <| job_WebhookHeaders := sanitizeWebhookHeaders (wcfg_Headers wc) |>
              else job
          | None => job
          end in
        let '(s, err) := st_SaveJob (mg_store m) job in
        let m := set_store m s in
        match err with
        | Some _ => (m, Err 500%Z)
        | None => (EnqueueJob m job, Ok job)
        end
    end.

(** ** Draining *)
Definition DrainWorker m (workerID : string) : Manager SS ST * option error :=
  match GetWorker (mg_workers m) workerID ≫= λ a, (a,.) <$> wp_conns (mg_workers m) !! a with
  | None => (m, Some (ErrNotConnected workerID))
  | Some (a, w) =>
      let '(w, err) := Send w (FormulateSystemV0Message SystemCommandDrain) in (set_conn m a w, err)
  end.

Definition DisconnectWorker m (workerID : string) : Manager SS ST * option error :=
  match GetWorker (mg_workers m) workerID ≫= λ a, (a,.) <$> wp_conns (mg_workers m) !! a with
  | None => (m, Some (ErrNotConnected workerID))
  | Some (a, w) =>
      let '(c, err) := conn_Close (wc_conn w) in (set_conn m a (w <| wc_conn := c |>), err)
  end.

Definition drainWorkers m : Manager SS ST :=
  foldl (λ m a, on_worker m a (λ w, (Send w (FormulateSystemV0Message SystemCommandDrain)).1))
    m (range_values (wp_workers (mg_workers m))).

Definition closeAllWorkers m : Manager SS ST :=
  foldl (λ m a, on_worker m a (λ w, w <| wc_conn := (conn_Close (wc_conn w)).1 |>))
    m (allWorkers (mg_workers m)).

(** ** Introspection *)
Definition HasPendingForPlatform m (os arch : string) : bool :=
  let taskNames : gset string := list_to_set (job_TaskName <$> Values (mg_queue m)) in
  match cfg_ArtifactsRegistry cfg with
  | None => bool_decide (taskNames ≠ ∅)
  | Some reg =>
      existsb (λ taskName,
        match ListPlatforms reg taskName "" with
        | Err _ => false
        | Ok platforms => existsb (λ p, bool_decide (platformKey (ap_OS p) (ap_Arch p) = platformKey os arch)) platforms
        end) (elements taskNames)
  end.
End lifecycle.
