(* ===== verification/Orchestrator.v ===== *)
(** * The orchestrator as a state machine

    Every way the manager's state changes, as one step relation, and the
    invariants that hold whatever the order in which worker messages, dispatch
    passes, timers, client requests and connections interleave. *)
From S2P Require Import Prelude GoStd External Json Contract Store MemStore Webhooks Heap PriorityQueue Cache.
From S2P Require Import WorkerConn WorkerPool Proto Config Manager Dispatch Lifecycle.

(** Well-formed states: the queue is a heap whose items know their position, entities are stored
    under their own ids, and the pool's indexes are consistent, exactly so where [exact] holds. *)
Record manager_inv `{SimpleSet SS} `{Store ST} (exact : Prop) (m : Manager SS ST) : Prop := {
  mo_queue : pq_inv job_higher (mg_queue m);
  mo_ids : ids_ok (ents m);
  mo_pool : pool_inv exact (mg_workers m);
}.
Arguments mo_queue {SS _ ST _ exact} m _.
Arguments mo_ids {SS _ ST _ exact} m _.
Arguments mo_pool {SS _ ST _ exact} m _.

Section invariant.
Context `{SimpleSet SS} `{Store ST} `{GoRuntime} `{Ulid} `{SerialLanes} `{WebhookEnv} `{WorkerSelector SS}.
Context `{ConsolidateJson} (cfg : Config).
Implicit Types (m : Manager SS ST) (job : Job).
Context {exact : Prop}.
#[local] Notation manager_ok := (manager_inv exact).

(** ** What keeps a state well-formed *)
Lemma ids_jobs_only e e' : ids_ok e → taskDefs e' = taskDefs e → runs e' = runs e → webhooks e' = webhooks e →
  (∀ id j, jobs e' !! id = Some j → job_ID j = id) → ids_ok e'.
Proof. intros [J T R W] ET ER EW Hj. split; [done|by rewrite ET|by rewrite ER|by rewrite EW]. Qed.

Lemma ids_UpdateJob e id f : ids_ok e → (∀ j, job_ID (f j) = job_ID j) → ids_ok (UpdateJob e id f).1.
Proof.
  intros He Hf. destruct (UpdateJob_rest e id f) as (ET & ER & EW). apply (ids_jobs_only e); try done.
  intros id' j. rewrite UpdateJob_jobs. case_decide; intros (j0 & Hj0 & ->)%fmap_Some;
    rewrite ?Hf; by apply (ids_jobs _ He).
Qed.

Lemma ids_SaveJob e j : ids_ok e → ids_ok (SaveJob e j).
Proof.
  intros He. apply (ids_jobs_only e); try done. intros id' j'. simpl.
  intros [[<- <-]|[_ Hj]]%lookup_insert_Some; [done|]. by apply (ids_jobs _ He).
Qed.

Lemma ids_UpdateRun e id f : ids_ok e → (∀ r, run_ID (f r) = run_ID r) → ids_ok (UpdateRun e id f).1.
Proof.
  intros He Hf. unfold UpdateRun. destruct (runs e !! id) as [r|] eqn:Hr; [|done].
  destruct He as [J T R W]. split; try done. simpl. intros id' r' [[<- <-]|[_ Hr']]%lookup_insert_Some; [|by auto].
  rewrite Hf. by apply R.
Qed.

Lemma ids_CreateRun e r : ids_ok e → ids_ok (CreateRun e r).
Proof.
  intros [J T R W]. split; try done. simpl. intros id' r' [[<- <-]|[_ Hr']]%lookup_insert_Some; [done|by auto].
Qed.

Lemma ids_EnqueueWebhook e w : ids_ok e → ids_ok (EnqueueWebhook e w).
Proof.
  intros [J T R W]. split; try done. simpl. intros id' r' [[<- <-]|[_ Hr']]%lookup_insert_Some; [done|by auto].
Qed.

Lemma ok_store m s : manager_ok m → ids_ok (entities s) → manager_ok (set_store m s).
Proof. intros [Q I P] Hs. by split. Qed.

Lemma ok_same_entities m s : manager_ok m → entities s = ents m → manager_ok (set_store m s).
Proof. intros Hm Hs. apply ok_store; [done|]. rewrite Hs. apply Hm. Qed.

Lemma ok_update_job m id f : manager_ok m → (∀ j, job_ID (f j) = job_ID j) → manager_ok (update_job m id f).1.
Proof.
  intros [Q I P] Hf. destruct (update_job_spec m id f) as (_ & He & Hq & _ & Hw & _).
  split; rewrite ?Hq, ?Hw, ?He; try done. by apply ids_UpdateJob.
Qed.

Lemma ok_update_run m id f : manager_ok m → (∀ r, run_ID (f r) = run_ID r) → manager_ok (update_run m id f).1.
Proof.
  intros Hm Hf. unfold update_run. pose proof (ent_UpdateRun (mg_store m) id f) as He.
  destruct (st_UpdateRun (mg_store m) id f) as [s err]. simpl in *. apply ok_store; [done|].
  rewrite He. apply ids_UpdateRun; [apply Hm|done].
Qed.

Lemma ok_pool m p : manager_ok m → (pool_inv exact (mg_workers m) → pool_inv exact p) →
  manager_ok (m <| mg_workers := p |>).
Proof. intros [Q I P] Hp. split; try done. by apply Hp. Qed.

(** Fields no invariant mentions. *)
Lemma ok_same m m' : manager_ok m → mg_queue m' = mg_queue m → ents m' = ents m → mg_workers m' = mg_workers m →
  manager_ok m'.
Proof. intros [Q I P] Eq Ee Ew. split; congruence. Qed.

Lemma ok_push m job : manager_ok m → manager_ok (push_job m job).
Proof. intros [Q I P]. split; try done. by apply (PushItem_inv job_higher). Qed.

Lemma ok_notify m : manager_ok m → manager_ok (NotifyDispatcher m).
Proof. intros Hm. apply ok_pool; [done|]. apply notify_synced. Qed.

Lemma ok_EnqueueJob m job : manager_ok m → manager_ok (EnqueueJob m job).
Proof. intros. by apply ok_notify, ok_push. Qed.

Lemma ok_EnqueueJobs m l : manager_ok m → manager_ok (EnqueueJobs m l).
Proof.
  intros Hm. unfold EnqueueJobs. destruct l as [|j l]; [done|]. apply ok_notify.
  generalize (j :: l) as l'. clear j l. intros l. revert m Hm.
  induction l as [|j l IH]; intros m Hm; [done|]. by apply IH, ok_push.
Qed.

Lemma ok_on_worker m a f : manager_ok m → (∀ w, same_identity w (f w)) → manager_ok (on_worker m a f).
Proof.
  intros Hm Hf. apply ok_pool; [done|]. intros Hs. apply (pool_synced_conns (mg_workers m)); try done.
  intros b. simpl. destruct (decide (b = a)) as [->|Hne].
  - rewrite lookup_alter_eq. destruct (wp_conns (mg_workers m) !! a) as [w|]; simpl; constructor. apply Hf.
  - rewrite lookup_alter_ne by done. destruct (wp_conns (mg_workers m) !! b); constructor. done.
Qed.

Lemma ok_fire m job ev data now : manager_ok m →
  manager_ok (m <| mg_webhooks := enqueue (mg_webhooks m) job ev data now |>).
Proof.
  intros [Q I P]. split; try done. change (ids_ok (entities (wd_store (enqueue (mg_webhooks m) job ev data now)))).
  unfold enqueue. destruct (bool_decide (job_WebhookURL job = "")); [done|].
  destruct (bool_decide (job_WebhookEvents job ≠ []) && _); [done|].
  destruct (marshal_event _) as [payload|]; [|done]. simpl.
  match goal with |- context [st_EnqueueWebhook ?s ?x] =>
    pose proof (ent_EnqueueWebhook s x) as He; destruct (st_EnqueueWebhook s x) as [s' err] end.
  simpl in He. destruct err; unfold wake; simpl; rewrite He; by apply ids_EnqueueWebhook.
Qed.
Lemma ok_restore_capacity m a job now : manager_ok m → manager_ok (restore_capacity m a job now).1.
Proof.
  intros Hm. unfold restore_capacity.
  pose proof (restoreCapacity_synced (exact := exact) (mg_workers m) a (job_ID job) (job_Cost job) now) as Hs.
  destruct (restoreCapacity _ _ _ _ _) as [p err]. simpl in *. by apply ok_pool.
Qed.

End invariant.

Create HintDb orchestrator.
#[export] Hint Resolve ok_store ok_same_entities ok_push ok_notify ok_EnqueueJob ok_EnqueueJobs ok_fire ok_restore_capacity : orchestrator.
#[export] Hint Extern 2 (same_identity _ _) => split_and!; reflexivity : orchestrator.

(** Walk over a fallible store call, keeping the well-formedness of the state it leaves. *)
Ltac ok_call :=
  let E := match goal with H : manager_inv ?E _ |- _ => E end in
  match goal with
  | |- context [update_job ?m ?id ?f] =>
      let Hm := fresh "Hm" in
      assert (manager_inv E (update_job m id f).1) as Hm
        by (apply ok_update_job; [eauto with orchestrator|intros ?j; repeat case_match; reflexivity]);
      destruct (update_job m id f) as [? ?]; cbn [fst] in Hm
  | |- context [update_run ?m ?id ?f] =>
      let Hm := fresh "Hm" in
      assert (manager_inv E (update_run m id f).1) as Hm
        by (apply ok_update_run; [eauto with orchestrator|reflexivity]);
      destruct (update_run m id f) as [? ?]; cbn [fst] in Hm
  | |- context [restore_capacity ?m ?a ?j ?now] =>
      let Hm := fresh "Hm" in
      assert (manager_inv E (restore_capacity m a j now).1) as Hm
        by (apply ok_restore_capacity; eauto with orchestrator);
      destruct (restore_capacity m a j now) as [? ?]; cbn [fst] in Hm
  end.

Section handlers.
Context `{SimpleSet SS} `{Store ST} `{GoRuntime} `{Ulid} `{SerialLanes} `{WebhookEnv} `{WorkerSelector SS}.
Context `{ConsolidateJson} (cfg : Config).
Implicit Types (m : Manager SS ST) (job : Job).
Context {exact : Prop}.
#[local] Notation manager_ok := (manager_inv exact).

Lemma Send_identity (w : WorkerConn SS) line : same_identity w (Send w line).1.
Proof. unfold Send. destruct (conn_Write _ _). by split_and!. Qed.

Lemma SendWithPayload_identity (w : WorkerConn SS) h pl : same_identity w (SendWithPayload w h pl).1.
Proof. unfold SendWithPayload. destruct (conn_Write _ _) as [c [e|]]; [by split_and!|]. by destruct (conn_Write c pl). Qed.

Lemma ok_send_error m a code msg : manager_ok m → manager_ok (send_error m a code msg).
Proof. intros Hm. apply ok_on_worker; [done|]. intros w. apply Send_identity. Qed.

Lemma ok_close_job_logs m id : manager_ok m → manager_ok (close_job_logs m id).
Proof. intros Hm. apply ok_same_entities; [done|]. apply ent_CloseJob. Qed.

Lemma ok_closeRun m runID jobID st rt out reason code now : manager_ok m →
  manager_ok (closeRun m runID jobID st rt out reason code now).
Proof.
  intros Hm. unfold closeRun. case_bool_decide; [done|].
  set (m1 := m <| mg_activeRunIDs := _ |>). assert (manager_ok m1) as Hm1 by by apply (ok_same m).
  assert (manager_ok (if bool_decide (st = RunStatusFailed) && bool_decide (reason ≠ "")
    then set_store m1 (st_AppendRunLog (mg_store m1) runID ("[workforce] run failed: " +:+ reason)).1
    else m1)) as Hm2.
  { destruct (_ && _); [|done]. apply ok_same_entities; [done|]. apply ent_AppendRunLog. }
  ok_call. apply ok_same_entities; [done|]. apply ent_CloseRun.
Qed.
End handlers.

#[export] Hint Resolve ok_send_error ok_close_job_logs ok_closeRun : orchestrator.

Section messages.
Context `{SimpleSet SS} `{Store ST} `{GoRuntime} `{Ulid} `{SerialLanes} `{WebhookEnv} `{WorkerSelector SS}.
Context `{ConsolidateJson} (cfg : Config).
Implicit Types (m : Manager SS ST) (job : Job).
Context {exact : Prop}.
#[local] Notation manager_ok := (manager_inv exact).

Lemma ok_accept m a id now : manager_ok m → manager_ok (handleAcceptMessage m a id now).
Proof.
  intros Hm. unfold handleAcceptMessage. ok_call. destruct o; [done|].
  destruct (GetJob (ents m0) id) as [job|]; [|done]. destruct (resolveDispatchPayload m0 job) as [pl|]; [|done].
  cbn zeta. apply ok_on_worker; [|intros w; apply SendWithPayload_identity].
  match goal with |- manager_ok (?mm <| mg_activeRunIDs := _ |>) => apply (ok_same mm); [|done..] end.
  apply ok_store; [by apply (ok_same m0)|]. rewrite ent_CreateRun. apply ids_CreateRun, Hm0.
Qed.

Lemma ok_reject m a id now : manager_ok m → manager_ok (handleRejectMessage m a id now).
Proof.
  intros Hm. unfold handleRejectMessage. destruct (GetJob (ents m) id) as [job|]; [|by apply ok_send_error].
  ok_call. destruct o; [done|]. ok_call. apply ok_EnqueueJob. apply ok_on_worker; [done|]. intros w. by split_and!.
Qed.

Lemma ok_starting m a id run now : manager_ok m → manager_ok (handleStartingMessage m a id run now).
Proof.
  intros Hm. unfold handleStartingMessage. destruct (GetJob (ents m) id) as [job|]; [|done].
  ok_call. case_bool_decide; [ok_call; simpl|]; by apply ok_fire.
Qed.

Lemma ok_fail_parent m parent reason now m' err : manager_ok m →
  fail_parent m parent reason now = Some (m', err) → manager_ok m'.
Proof.
  intros Hm. unfold fail_parent. destruct (jobs (ents m) !! job_ID parent).
  - destruct (_ && _); [done|]. ok_call. by intros [= <- <-].
  - ok_call. by intros [= <- <-].
Qed.

Lemma ok_fail_children m parent e reason now m' r : manager_ok m →
  fail_children m parent e reason now = Some (m', r) → manager_ok m'.
Proof.
  intros Hm. unfold fail_children. intros ([m1 upd] & Hf & [= <- <-])%bind_Some. by eapply ok_fail_parent.
Qed.

Lemma ok_save_children m parent i reqs now m' r : manager_ok m →
  save_children cfg m parent i reqs now = Some (m', r) → manager_ok m'.
Proof.
  revert m i r. induction reqs as [|req reqs IH]; intros m i r Hm; [by intros [= <- <-]|].
  cbn [save_children]. destruct (GetTask _ _) as [t|e]; [|by apply ok_fail_children].
  destruct (child_version cfg t req) as [v|[reason e]]; [|by apply ok_fail_children].
  set (m1 := m <| mg_webhooks := _ |>). set (child := MkJob _ _ _ _ _ _ _ _ _ _ _ _ _ _ _ _ _ _ _).
  pose proof (ent_SaveJob (mg_store m1) child) as Hs. pose proof (err_SaveJob (mg_store m1) child) as He.
  destruct (st_SaveJob (mg_store m1) child) as [s err]. simpl in Hs, He. subst err.
  intros ([m2 c2] & Hrest & [= <- <-])%bind_Some. eapply IH; [|exact Hrest].
  apply ok_store; [by apply (ok_same m)|]. rewrite Hs. apply ids_SaveJob, Hm.
Qed.

Lemma ok_subjobs m parent reqs now m' err : manager_ok m →
  handleSubjobsEmitted cfg m parent reqs now = Some (m', err) → manager_ok m'.
Proof.
  intros Hm. unfold handleSubjobsEmitted. destruct (IsTerminal _); [by intros [= <- <-]|].
  intros ([m1 saved] & Hs & Hr)%bind_Some. apply ok_save_children in Hs; [|done].
  destruct saved as [children|e]; [|by simplify_eq]. revert Hr. ok_call.
  destruct o; intros [= <- <-]; [done|]. by apply ok_EnqueueJobs.
Qed.

Lemma ok_consolidate m job now : manager_ok m → manager_ok (consolidate_parent m job now).
Proof.
  intros Hm. unfold consolidate_parent. case_bool_decide; [done|]. destruct (negb _); [done|].
  destruct (GetJob _ _) as [parent|]; [|done]. cbn zeta.
  assert (manager_ok (update_job m (job_ID parent) (schedule_consolidation now)).1) as Hm1.
  { apply ok_update_job; [done|]. intros j. unfold schedule_consolidation. by destruct (awaits_children j). }
  destruct (update_job m _ _) as [m1 err]. destruct err; [done|]. destruct (negb _); [done|]. by apply ok_EnqueueJob.
Qed.

Lemma ok_completed m a job msg now : manager_ok m → manager_ok (handleJobCompleted m a job msg now).
Proof.
  intros Hm. unfold handleJobCompleted. destruct (IsTerminal _); [done|]. cbn zeta. ok_call.
  destruct o; [done|]. ok_call. destruct o; [done|]. by apply ok_consolidate, ok_fire.
Qed.

Lemma ok_failed m job reason now : manager_ok m → manager_ok (handleFailJob m job reason now).
Proof.
  intros Hm. unfold handleFailJob. ok_call. cbn zeta. case_bool_decide; [by apply ok_close_job_logs, ok_fire|].
  destruct (GetJob _ _) as [parent|]; [|by apply ok_close_job_logs, ok_fire].
  ok_call. destruct o0; [done|]. by apply ok_fire.
Qed.

Lemma ok_error m a job msg now : manager_ok m → manager_ok (handleJobError cfg m a job msg now).
Proof.
  intros Hm. unfold handleJobError. destruct (IsTerminal _).
  { case_bool_decide; [by apply ok_closeRun|done]. }
  ok_call. cbn zeta. ok_call. destruct (do_not_retry _ _); [by apply ok_failed|].
  destruct (_ <? _)%Z; [|by apply ok_failed]. by apply (ok_same m1).
Qed.

Lemma ok_timer m t now : manager_ok m → manager_ok (retry_timer_fired m t now).
Proof.
  intros Hm. unfold retry_timer_fired. destruct (GetJob _ _) as [j|]; [|done].
  destruct (IsTerminal _); [done|]. ok_call. by apply ok_EnqueueJob.
Qed.

Lemma ok_result m a msg now m' : manager_ok m → handleResultMessage cfg m a msg now = Some m' → manager_ok m'.
Proof.
  intros Hm. unfold handleResultMessage.
  destruct (GetJob _ _) as [job|]; [|intros [= <-]; by apply ok_send_error].
  destruct (rm_Type msg); [intros [= <-]; by apply ok_completed|intros [= <-]; by apply ok_error|].
  intros ([m1 e] & Hs & Hr)%bind_Some. apply ok_subjobs in Hs; [|done]. revert Hr. ok_call.
  destruct e; intros [= <-]; [by apply ok_send_error|by apply ok_closeRun].
Qed.

Lemma ok_message m a msg now m' : manager_ok m → handleWorkerMessage cfg m a msg now = Some m' → manager_ok m'.
Proof.
  intros Hm. unfold handleWorkerMessage. destruct msg; try (intros [= <-]).
  - by apply ok_send_error.
  - by apply ok_accept.
  - by apply ok_reject.
  - by apply ok_send_error.
  - unfold handleStagedMessage. ok_call. done.
  - by apply ok_starting.
  - unfold handleLogMessage. case_bool_decide; [done|]. apply ok_same_entities; [done|]. apply ent_AppendRunLog.
  - by apply ok_result.
  - apply ok_on_worker; [done|]. intros w. unfold Send. destruct (conn_Write _ _). by split_and!.
  - by apply ok_send_error.
  - apply ok_on_worker; [done|]. intros w. by split_and!.
  - by apply ok_send_error.
Qed.

Lemma ok_foldl {A} (f : Manager SS ST → A → Manager SS ST) l m :
  (∀ m x, manager_ok m → manager_ok (f m x)) → manager_ok m → manager_ok (foldl f m l).
Proof. intros Hf. revert m. induction l as [|x l IH]; intros m Hm; [done|]. by apply IH, Hf. Qed.

Lemma ok_close_orphans reason now m id : manager_ok m → manager_ok (close_orphans reason now m id).
Proof.
  intros Hm. apply ok_foldl; [|done]. intros m1 r Hm1. unfold close_orphan. destruct (_ || _); [|done].
  by ok_call.
Qed.

Lemma ok_requeued m ids now : manager_ok m → manager_ok (OnJobsRequeued cfg m ids now).
Proof.
  intros Hm. apply ok_foldl; [|done]. clear m Hm. intros m id Hm. unfold requeue_one. cbn zeta.
  set (m1 := if has_RunStore cfg then _ else _).
  assert (manager_ok m1) as Hm1 by (unfold m1; destruct (has_RunStore cfg); [by apply ok_close_orphans|done]).
  destruct (GetJob (ents m1) id) as [job|]; [|done]. ok_call. by apply ok_EnqueueJob.
Qed.

Lemma ok_recover m now : manager_ok m → manager_ok (RecoverJobs cfg m now).
Proof.
  intros Hm. unfold RecoverJobs. cbn zeta. apply ok_EnqueueJobs, ok_foldl; [|done]. clear m Hm. intros m job Hm.
  unfold recover_one. set (m1 := if has_RunStore cfg then _ else _).
  assert (manager_ok m1) as Hm1 by (unfold m1; destruct (has_RunStore cfg); [by apply ok_close_orphans|done]).
  by ok_call.
Qed.

Lemma ok_send_cancel m id : manager_ok m → manager_ok (SendCancelToWorker m id).
Proof.
  intros Hm. unfold SendCancelToWorker. destruct (FindWorkerByInFlightJobID _ _); [|done].
  apply ok_on_worker; [done|]. intros w. apply Send_identity.
Qed.

Lemma ok_cancel m id now : manager_ok m → manager_ok (cancelJobByID m id now).
Proof.
  intros Hm. unfold cancelJobByID. destruct (GetJob (ents m) id) as [job|]; [|done]. cbn zeta.
  set (m1 := foldl _ _ _). assert (manager_ok m1) as Hm1.
  { apply ok_foldl; [|done]. intros m' c Hm'. unfold cancel_child. destruct (IsTerminal _); [done|]. cbn zeta.
    set (m2 := match job_Status c with JobStatusRunning => _ | _ => _ end).
    assert (manager_ok m2) as Hm2 by (unfold m2; destruct (job_Status c); try done; by apply ok_send_cancel).
    case_bool_decide; [|by ok_call]. set (m3 := m2 <| mg_cancelledJobIDs := _ |>).
    assert (manager_ok m3) as Hm3 by by apply (ok_same m2). by ok_call. }
  set (m2 := match job_Status job with JobStatusRunning => _ | _ => _ end).
  assert (manager_ok m2) as Hm2 by (unfold m2; destruct (job_Status job); try done; by apply ok_send_cancel).
  set (m3 := if bool_decide _ then _ else _).
  assert (manager_ok m3) as Hm3 by (unfold m3; case_bool_decide; [by apply (ok_same m2)|done]).
  ok_call. by apply ok_fire.
Qed.

Lemma ok_submit m req now : manager_ok m → manager_ok (handleSubmitJob m req now).1.
Proof.
  intros Hm. unfold handleSubmitJob. case_bool_decide; [done|]. destruct (GetTask _ _) as [t|]; [|done]. cbn zeta.
  match goal with |- context [st_SaveJob ?s ?j] =>
    pose proof (ent_SaveJob s j) as Hs; destruct (st_SaveJob s j) as [s' err] end. simpl in Hs.
  set (m1 := m <| mg_webhooks := _ |>).
  assert (manager_ok (set_store m1 s')) as Hm1.
  { apply ok_store; [by apply (ok_same m)|]. rewrite Hs. apply ids_SaveJob, Hm. }
  destruct err; [done|]. by apply ok_EnqueueJob.
Qed.
End messages.

Section dispatching.
Context `{SimpleSet SS} `{Store ST} `{GoRuntime} `{Ulid} `{SerialLanes} `{WebhookEnv} `{WorkerSelector SS}.
Context (cfg : Config).
Implicit Types (m : Manager SS ST) (job : Job).
Context {exact : Prop}.
#[local] Notation manager_ok := (manager_inv exact).

Lemma ok_pool_like m p : manager_ok m → pool_like (mg_workers m) p → manager_ok (m <| mg_workers := p |>).
Proof. intros Hm Hl. apply ok_pool; [done|]. by apply pool_like_synced. Qed.

Lemma ok_set_conn m a w w' : manager_ok m → wp_conns (mg_workers m) !! a = Some w → same_identity w w' →
  manager_ok (set_conn m a w').
Proof. intros Hm Ha Hw. apply ok_pool; [done|]. intros Hs. by apply (set_conn_synced _ a w). Qed.

Lemma ok_failJobDirect m job reason now : manager_ok m → manager_ok (failJobDirect m job reason now).
Proof. intros Hm. unfold failJobDirect. ok_call. by apply ok_fire. Qed.

Lemma ok_propose_to m job t a w art now : manager_ok m → wp_conns (mg_workers m) !! a = Some w →
  manager_ok (propose_to m job t a w art now).1.
Proof.
  intros Hm Ha. unfold propose_to. pose proof (Send_identity w (FormulateProposeV0Message job t art)) as Hid.
  destruct (Send w _) as [w1 err]. simpl in Hid. cbn zeta.
  assert (manager_ok (set_conn m a w1)) as Hm1 by by apply (ok_set_conn m a w).
  destruct err; [done|]. ok_call. destruct o; [done|].
  pose proof (subtractCapacity_synced (exact := exact) (mg_workers m0) a (job_ID job) (job_Cost job) now) as Hs.
  destruct (subtractCapacity _ _ _ _ _) as [p err]. simpl in Hs. cbn zeta.
  assert (manager_ok (m0 <| mg_workers := p |>)) as Hm2 by by apply ok_pool.
  destruct err; [done|]. by apply ok_fire.
Qed.

Lemma ok_tryProposeJob m job keys now : manager_ok m → manager_ok (tryProposeJob cfg m job keys now).1.
Proof.
  intros Hm. unfold tryProposeJob. destruct (GetTask _ _) as [t|]; [|done]. destruct (_ && _); [done|].
  pose proof (eligibleWorkers_like (mg_workers m) keys (job_Cost job) (job_ID job) now) as Hl.
  destruct (eligibleWorkers _ _ _ _ _) as [p ws]. simpl in Hl. cbn zeta.
  assert (manager_ok (m <| mg_workers := p |>)) as Hm1 by by apply ok_pool_like.
  case_bool_decide; [done|]. set (m2 := _ <| mg_selections := _ |>).
  assert (manager_ok m2) as Hm2 by by apply (ok_same (m <| mg_workers := p |>)).
  destruct (wp_conns (mg_workers m2) !! _) as [w|] eqn:Hw; [|done].
  destruct (artifact_info _ _ _ _); [|done]. by apply ok_propose_to.
Qed.

Lemma ok_dispatch_one online now m c r job : manager_ok m →
  manager_ok (dispatch_one cfg online now (m, c, r) job).1.1.
Proof.
  intros Hm. unfold dispatch_one. destruct (jobPlatformKeysForDispatch _ _ _ _ _) as [[keys d] c1].
  destruct d as [d|]; [destruct (jd_fail d); [by apply ok_failJobDirect|done]|].
  pose proof (ok_tryProposeJob m job keys now Hm) as Hm1.
  destruct (tryProposeJob _ _ _ _ _) as [m1 err]. simpl in Hm1.
  destruct err as [[]|]; try done. by apply ok_failJobDirect.
Qed.

Lemma ok_pop m : manager_ok m → manager_ok (PopNextJobFromQueue m).2.
Proof.
  intros Hm. destruct (PopNextJobFromQueue_spec m (mo_queue _ Hm)) as [d P].
  pose proof (po_frame _ _ _ _ P) as F. unfold only_queue in F.
  split; [apply P|rewrite F; apply Hm|rewrite F; apply Hm].
Qed.

Lemma ok_dispatch_loop fuel online now m c r : manager_ok m →
  manager_ok (dispatch_loop cfg fuel online now (m, c, r)).1.1.
Proof.
  revert m c r. induction fuel as [|fuel IH]; intros m c r Hm; [done|]. cbn [dispatch_loop].
  pose proof (ok_pop m Hm) as Hm1. destruct (PopNextJobFromQueue m) as [[job|] m1]; [|done]. simpl in Hm1.
  pose proof (ok_dispatch_one online now m1 c r job Hm1) as Hm2.
  destruct (dispatch_one _ _ _ _ _) as [[m2 c2] r2]. by apply IH.
Qed.

Lemma ok_shortage m now : manager_ok m → manager_ok (checkResourceShortage cfg m now).1.
Proof.
  intros Hm. unfold checkResourceShortage. destruct (negb _); [done|]. destruct (_ && _); [done|].
  destruct (_ <=? _)%Z; [done|].
  pose proof (unsatisfied_like cfg now (range_map (foldl add_demand ∅ (Values (mg_queue m)))) (mg_workers m) ∅) as Hl.
  destruct (foldl (unsatisfied_task cfg now) _ _) as [p acc]. simpl in Hl.
  apply (ok_same (m <| mg_workers := p |>)); [by apply ok_pool_like|done..].
Qed.

Lemma ok_ProcessQueue m now : manager_ok m → manager_ok (ProcessQueue cfg m now).1.1.
Proof.
  intros Hm. unfold ProcessQueue. set (m1 := m <| mg_lastDispatchRun := _ |>).
  assert (manager_ok m1) as Hm1 by by apply (ok_same m). case_bool_decide; [done|]. cbn zeta.
  assert (manager_ok (applyStarvationAging cfg m1 now)) as Hm2.
  { split; try apply Hm1. apply (age_queue_perm cfg (mg_queue m1) now), Hm1. }
  match goal with |- context [dispatch_loop cfg ?f ?o now ?st] =>
    pose proof (ok_dispatch_loop f o now st.1.1 st.1.2 st.2 Hm2) as Hm3; cbn [fst snd] in Hm3;
    destruct (dispatch_loop cfg f o now st) as [[m3 c3] r] end. simpl in Hm3.
  assert (manager_ok (foldl push_job m3 (pr_deferred r))) as Hm4.
  { apply ok_foldl; [|done]. intros. by apply ok_push. }
  destruct (pr_shortage r); [|done].
  pose proof (ok_shortage _ now Hm4) as Hm5. by destruct (checkResourceShortage _ _ _).
Qed.
End dispatching.

(** ** The step relation *)
Section steps.
Context `{SimpleSet SS} `{Store ST} `{GoRuntime} `{Ulid} `{SerialLanes} `{WebhookEnv} `{WorkerSelector SS}.
Context `{ConsolidateJson} {exact : Prop} (cfg : Config).
Implicit Types (m : Manager SS ST) (job : Job).
#[local] Notation manager_ok := (manager_inv exact).

(** The handler of a new connection: it registers, wakes the dispatcher and, when it replaced a
    connection with the same id, the jobs of that one are re-queued. *)
Definition worker_connected m (p : WorkerPool SS) (ids : list string) (now : Time) : Manager SS ST :=
  let m := m <| mg_workers := p |> in
  let m := m <| mg_webhooks := (mg_webhooks m) <| wd_ulids := S (wd_ulids (mg_webhooks m)) |> |> in
  OnJobsRequeued cfg (NotifyDispatcher m) ids now.

(** The end of a connection's handler: the connection leaves the pool, its jobs are queued again, and it is closed. *)
Definition connection_ended m (a : nat) (now : Time) : Manager SS ST :=
  let '(p, ids) := unregister (mg_workers m) a in
  on_worker (OnJobsRequeued cfg (m <| mg_workers := p |>) ids now) a (λ w, w <| wc_conn := (conn_Close (wc_conn w)).1 |>).

Inductive step m : Manager SS ST → Prop :=
| st_message a msg now m' : is_Some (wp_conns (mg_workers m) !! a) →
    handleWorkerMessage cfg m a msg now = Some m' → step m m'
| st_dispatch now : step m (ProcessQueue cfg m now).1.1
| st_timer pre t post now : mg_timers m = pre ++ t :: post →
    step m (retry_timer_fired (m <| mg_timers := pre ++ post |>) t now)
| st_submit req now : step m (handleSubmitJob m req now).1
| st_cancel id now : step m (cancelJobByID m id now)
| st_connect id os arch capacity conn now a p ids :
    NewWorkerConnection (mg_workers m) id os arch capacity conn (wd_ulids (mg_webhooks m)) now = Ok (a, p, ids) →
    step m (worker_connected m p ids now)
| st_disconnect a w now :
    wp_conns (mg_workers m) !! a = Some w → (exact → wp_workers (mg_workers m) !! wc_workerID w = Some a) →
    step m (connection_ended m a now)
| st_heartbeats timeout now :
    step m (let '(p, calls, _) := checkHeartbeats (mg_workers m) timeout now in
            foldl (λ m ids, OnJobsRequeued cfg m ids now) (m <| mg_workers := p |>) calls)
| st_idle_sweep th cd hp now :
    step m (m <| mg_workers := (StaleWorkerMonitoring true th cd hp (mg_workers m) now).1 |>)
| st_webhooks wcfg now : step m (m <| mg_webhooks := (processPending wcfg (mg_webhooks m) now).1 |>)
| st_recover now : step m (RecoverJobs cfg m now)
| st_drain id : step m (DrainWorker m id).1
| st_kick id : step m (DisconnectWorker m id).1
| st_drain_all : step m (drainWorkers m)
| st_close_all : step m (closeAllWorkers m)
| st_task t : step m (set_store m (st_SaveTask (mg_store m) t).1)
| st_drop_task name : step m (set_store m (st_DeleteTask (mg_store m) name).1)
| st_edit_task name f : (∀ t, task_Name (f t) = task_Name t) → step m (set_store m (st_UpdateTask (mg_store m) name f).1)
| st_follow_job id ch s : st_SubscribeJobLogs (mg_store m) id = Some (ch, s) → step m (set_store m s)
| st_follow_run id ch s : st_SubscribeRunLogs (mg_store m) id = Some (ch, s) → step m (set_store m s)
| st_unfollow_job id ch : step m (set_store m (st_job_subscription_done (mg_store m) id ch))
| st_notify : step m (NotifyDispatcher m).

(** Delivering webhooks keeps the queue indexed by id. *)
Lemma ids_AckWebhook s id : ids_ok (entities s) → ids_ok (entities (st_AckWebhook s id).1).
Proof.
  intros [J T R W]. rewrite ent_AckWebhook. split; try done. simpl.
  intros id' x [_ Hx]%lookup_delete_Some. by apply W.
Qed.

Lemma ids_NackWebhook s id n t : ids_ok (entities s) → ids_ok (entities (st_NackWebhook s id n t).1).
Proof.
  intros Hi. rewrite ent_NackWebhook. unfold NackWebhook. destruct (webhooks (entities s) !! id) as [x|] eqn:Hx; [|done].
  destruct Hi as [J T R W]. split; try done. simpl.
  intros id' x' [[<- <-]|[_ Hx']]%lookup_insert_Some; [exact (W id x Hx)|by auto].
Qed.

Lemma ids_process_entry wcfg now st e : ids_ok (entities (wd_store st.1)) →
  ids_ok (entities (wd_store (process_entry wcfg now st e).1)).
Proof.
  destruct st as [w nw]. intros Hi. unfold process_entry.
  assert (ids_ok (entities (wd_store (deliver w e).1))) as Hd.
  { unfold deliver. destruct (http_post _ _ _) as [code|]; [|done]. destruct (negb _); [done|].
    pose proof (ids_AckWebhook (wd_store w) (wh_ID e) Hi) as Ha. by destruct (st_AckWebhook _ _). }
  destruct (deliver w e) as [w1 [err|]]; [|done]. simpl in Hd.
  assert (ids_ok (entities (wd_store (scheduleRetry wcfg w1 e now).1))) as Hs.
  { unfold scheduleRetry. cbn zeta. destruct (_ && _); simpl; [by apply ids_AckWebhook|by apply ids_NackWebhook]. }
  destruct (scheduleRetry wcfg w1 e now) as [w2 next]. by destruct (negb _ && _).
Qed.

Lemma ok_processPending m wcfg now : manager_ok m →
  manager_ok (m <| mg_webhooks := (processPending wcfg (mg_webhooks m) now).1 |>).
Proof.
  intros [Q I P]. split; try done.
  change (ids_ok (entities (wd_store (processPending wcfg (mg_webhooks m) now).1))).
  unfold processPending. generalize (DequeueWebhooks (entities (wd_store (mg_webhooks m))) now) as l. intros l.
  assert (∀ st, ids_ok (entities (wd_store st.1)) →
    ids_ok (entities (wd_store (foldl (process_entry wcfg now) st l).1))) as Hf.
  { induction l as [|e l IH]; intros st Hst; [done|]. by apply IH, ids_process_entry. }
  specialize (Hf (mg_webhooks m, time_zero) I). destruct (foldl _ _ _) as [w nw]. destruct (IsZero nw); exact Hf.
Qed.

Lemma ok_step m m' : step m m' → manager_ok m → manager_ok m'.
Proof.
  intros Hstep Hm.
  destruct Hstep as [a msg now m' _ Hmsg|now|pre t post now Ht|req now|id now|id os arch cap conn now a p ids Hn|
    a w now Ha Hid|timeout now|th cd hp now|wcfg now|now|id|id| | |t|name|name f Hf|id ch s Hs|id ch s Hs|id ch|].
  - by eapply ok_message.
  - by apply ok_ProcessQueue.
  - apply ok_timer. by apply (ok_same m).
  - by apply ok_submit.
  - by apply ok_cancel.
  - apply ok_requeued, ok_notify. apply (ok_same (m <| mg_workers := p |>)); [|done..].
    apply ok_pool; [done|]. intros Hs. by eapply NewWorkerConnection_synced.
  - unfold connection_ended, unregister. rewrite Ha. apply ok_on_worker; [|intros w0; by split_and!]. apply ok_requeued, ok_pool; [done|].
    intros Hs. by apply removeConnLocked_synced.
  - pose proof (checkHeartbeats_synced (exact := exact) (mg_workers m) timeout now) as Hs. destruct (checkHeartbeats _ _ _) as [[p calls] err].
    apply ok_foldl; [intros; by apply ok_requeued|]. by apply ok_pool.
  - apply ok_pool; [done|]. apply StaleWorkerMonitoring_synced.
  - by apply ok_processPending.
  - by apply ok_recover.
  - unfold DrainWorker. destruct (_ ≫= _) as [[a w]|] eqn:Ha; [|done].
    apply bind_Some in Ha as (b & Hb & (w' & Hw' & [= -> ->])%fmap_Some).
    pose proof (Send_identity w' (FormulateSystemV0Message SystemCommandDrain)) as Hid.
    destruct (Send w' _) as [w1 err]. by apply (ok_set_conn m b w').
  - unfold DisconnectWorker. destruct (_ ≫= _) as [[a w]|] eqn:Ha; [|done].
    apply bind_Some in Ha as (b & Hb & (w' & Hw' & [= -> ->])%fmap_Some).
    destruct (conn_Close _) as [c err]. apply (ok_set_conn m b w'); [done|done|by split_and!].
  - apply ok_foldl; [|done]. intros m1 a Hm1. apply ok_on_worker; [done|]. intros w. apply Send_identity.
  - apply ok_foldl; [|done]. intros m1 a Hm1. apply ok_on_worker; [done|]. intros w. by split_and!.
  - apply ok_store; [done|]. rewrite ent_SaveTask. destruct (mo_ids _ Hm) as [J T R W]. split; try done. simpl.
    intros id' x [[<- <-]|[_ Hx]]%lookup_insert_Some; [done|by auto].
  - apply ok_store; [done|]. rewrite ent_DeleteTask. unfold DeleteTask.
    destruct (taskDefs (entities (mg_store m)) !! name) eqn:E; [|apply Hm].
    destruct (mo_ids _ Hm) as [J T R W]. split; try done. simpl. intros id' x [_ Hx]%lookup_delete_Some. by auto.
  - apply ok_store; [done|]. rewrite ent_UpdateTask. unfold UpdateTask.
    destruct (taskDefs (entities (mg_store m)) !! name) as [t|] eqn:E; [|apply Hm].
    destruct (mo_ids _ Hm) as [J T R W]. split; try done. simpl.
    intros id' x [[<- <-]|[_ Hx]]%lookup_insert_Some; [rewrite Hf|]; by auto.
  - apply ok_same_entities; [done|]. by eapply ent_SubscribeJob.
  - apply ok_same_entities; [done|]. by eapply ent_SubscribeRun.
  - apply ok_same_entities; [done|]. apply ent_job_subscription.
  - by apply ok_notify.
Qed.

Lemma steps_ok m m' : rtc step m m' → manager_ok m → manager_ok m'.
Proof. induction 1 as [|m1 m2 m3 Hs _ IH]; intros Hm; [done|]. apply IH. by eapply ok_step. Qed.

Lemma New_ok store n : ids_ok (entities store) → manager_ok (New store n : Manager SS ST).
Proof. intros Hs. split; [apply New_inv|done|apply NewWorkerPool_synced]. Qed.
End steps.

(** All steps; and the well-formed states in which only registered connections have ended. *)
Notation any_step := (step (exact := False)).
Notation manager_ok := (manager_inv True).

(** ** Properties *)

(** C7: The orchestrator's state stays well-formed. From a new manager over a store whose entities
    carry their own ids, no sequence of worker messages of any kind and content, dispatch passes, retry
    timers, client submissions and cancellations, workers that connect and connections that end (replaced ones and
    timed-out ones too), webhook passes, idle sweeps, recoveries and task edits breaks the dispatch heap, the entity
    index or the pool: an id resolves to a connection of that id, which is listed under its platform, and a platform
    lists, without duplicates, connections of that platform. As long as only registered connections end, the platform
    lists hold nothing else: a listed connection is the one its id resolves to. (The end of a replaced connection
    breaks this last part, see [WorkerPool.stale_unregister_detaches_successor].) *)
Theorem orchestrator_invariant `{SimpleSet SS} `{Store ST} `{GoRuntime} `{Ulid} `{SerialLanes} `{WebhookEnv}
    `{WorkerSelector SS} `{ConsolidateJson} (cfg : Config) (store : ST) (n : nat) (m : Manager SS ST) :
  ids_ok (entities store) → rtc (step (exact := False) cfg) (New store n) m →
  pq_inv job_higher (mg_queue m) ∧ ids_ok (ents m) ∧
  (∀ id a, wp_workers (mg_workers m) !! id = Some a → ∃ w, wp_conns (mg_workers m) !! a = Some w ∧ wc_workerID w = id ∧
    a ∈ default [] (wp_platform (mg_workers m) !! platformKey (wc_os w) (wc_arch w))) ∧
  (∀ key l, wp_platform (mg_workers m) !! key = Some l → NoDup l ∧
    ∀ a, a ∈ l → ∃ w, wp_conns (mg_workers m) !! a = Some w ∧ platformKey (wc_os w) (wc_arch w) = key) ∧
  (rtc (step (exact := True) cfg) (New store n) m → ∀ key l a w, wp_platform (mg_workers m) !! key = Some l → a ∈ l →
    wp_conns (mg_workers m) !! a = Some w → wp_workers (mg_workers m) !! wc_workerID w = Some a).
Proof.
  intros Hids Hsteps. destruct (steps_ok (exact := False) cfg _ m Hsteps (New_ok store n Hids)) as [Hq Hi Hp]. split_and!; [done|done|..].
  - intros id a Ha. destruct (ps_conn _ Hp id a Ha) as (w & Hw & Hid). exists w. split_and!; [done|done|]. by eapply ps_listed.
  - intros key l Hl. split; [by eapply (ps_nodup _ Hp)|]. intros a Ha. eapply (ps_known _ _ Hp key a). by rewrite Hl.
  - intros Hs key l a w Hl Ha Hw. destruct (steps_ok (exact := True) cfg _ m Hs (New_ok store n Hids)) as [_ _ Hp1].
    eapply (ps_exact _ _ Hp1 I key); [by rewrite Hl|done].
Qed.

(** ** Sample run: a task is registered and a job submitted *)
Section samples.
#[local] Existing Instances gset_simple_set canonical_runtime unary_ulid open_lanes sample_env least_loaded tagged_payload.

Definition registered : Manager (gset string) MemStore :=
  let m := New NewMemStore 0 in set_store m (st_SaveTask (mg_store m) wire_task).1.

Definition submitted : Manager (gset string) MemStore :=
  (handleSubmitJob registered (MkSubmitJobRequest "resize" "{}" None) 5).1.

(** A worker that connects, twice under the same id, and the end of its first connection. *)
Definition join (m : Manager (gset string) MemStore) (now : Time) : Manager (gset string) MemStore :=
  match NewWorkerConnection (mg_workers m) "w1" "linux" "amd64" 4 sample_conn (wd_ulids (mg_webhooks m)) now with
  | Ok (_, p, ids) => worker_connected dispatch_config m p ids now
  | Err _ => m
  end.

Definition replaced : Manager (gset string) MemStore := connection_ended dispatch_config (join (join submitted 6) 7) 0 8.

Lemma join_steps m now : rtc (any_step dispatch_config) m (join m now).
Proof.
  unfold join. destruct (NewWorkerConnection _ _ _ _ _ _ _ _) as [[[a p] ids]|] eqn:E; [|done].
  apply rtc_once. by eapply st_connect.
Qed.

Lemma orchestrator_invariant_witness : Size (mg_queue replaced) = 1 ∧ GetWorker (mg_workers replaced) "w1" = None ∧
  pq_inv job_higher (mg_queue replaced) ∧ ids_ok (ents replaced) ∧ NoDup (default [] (wp_platform (mg_workers replaced) !! "linux/amd64")).
Proof.
  split; [vm_compute; reflexivity|]. split; [vm_compute; reflexivity|].
  destruct (orchestrator_invariant dispatch_config NewMemStore 0 replaced) as (Hq & Hi & _ & Hp & _); [apply no_entities_ids| |].
  - apply (rtc_l _ _ registered); [apply (st_task (exact := False) dispatch_config (New NewMemStore 0) wire_task)|].
    apply (rtc_l _ _ submitted); [apply (st_submit (exact := False) dispatch_config registered)|].
    etransitivity; [apply (join_steps submitted 6)|]. etransitivity; [apply (join_steps _ 7)|].
    destruct (wp_conns (mg_workers (join (join submitted 6) 7)) !! 0) as [w|] eqn:E; [|vm_compute in E; discriminate E].
    apply rtc_once. eapply st_disconnect; [exact E|intros []].
  - split; [exact Hq|]. split; [exact Hi|].
    destruct (wp_platform (mg_workers replaced) !! "linux/amd64") as [l|] eqn:E; [exact (proj1 (Hp _ l E))|apply NoDup_nil_2].
Defined.
End samples.
