(* ===== verification/JobFlow.v ===== *)
(** * What the lifecycle handlers do to a job

    Completion with consolidation of the parent, failure with its retry
    decision, child jobs, cancellation and recovery, each as one statement about
    the stored jobs, the queue, the timers and the worker's capacity. *)
From S2P Require Import Prelude GoStd External Json Contract Store MemStore Webhooks Heap PriorityQueue Cache.
From S2P Require Import WorkerConn WorkerPool Proto Config Manager Dispatch Lifecycle Orchestrator.

(** ** Doubling *)
Lemma wrap64_shift z : ∃ k, wrap64 z = (z + 18446744073709551616 * k)%Z.
Proof.
  unfold wrap64. exists (- ((z + 9223372036854775808) / 18446744073709551616))%Z.
  rewrite Z.mod_eq by lia. lia.
Qed.

Lemma wrap64_plus z k : wrap64 (z + 18446744073709551616 * k) = wrap64 z.
Proof.
  unfold wrap64. f_equal.
  replace (z + 18446744073709551616 * k + 9223372036854775808)%Z
    with (z + 9223372036854775808 + k * 18446744073709551616)%Z by lia.
  by rewrite Z_mod_plus_full.
Qed.

Lemma doubled_spec n d : in_int64 d → doubled n d = wrap64 (d * 2 ^ Z.of_nat n).
Proof.
  intros Hd. induction n as [|n IH]; [by rewrite Z.mul_1_r, wrap64_id|].
  change (doubled (S n) d) with (wrap64 (doubled n d * 2)). rewrite IH.
  destruct (wrap64_shift (d * 2 ^ Z.of_nat n)) as [k ->].
  replace ((d * 2 ^ Z.of_nat n + 18446744073709551616 * k) * 2)%Z
    with (d * 2 ^ Z.of_nat (S n) + 18446744073709551616 * (2 * k))%Z; [apply wrap64_plus|].
  rewrite Nat2Z.inj_succ, Z.pow_succ_r by lia. lia.
Qed.

(** ** Changes that leave jobs, queue, workers and timers alone *)
Record same_core `{SimpleSet SS} `{Store ST} (m m' : Manager SS ST) : Prop := {
  sc_jobs : jobs (ents m') = jobs (ents m);
  sc_tasks : taskDefs (ents m') = taskDefs (ents m);
  sc_queue : mg_queue m' = mg_queue m;
  sc_cancelled : mg_cancelledJobIDs m' = mg_cancelledJobIDs m;
  sc_workers : mg_workers m' = mg_workers m;
  sc_timers : mg_timers m' = mg_timers m;
}.

Section core.
Context `{SimpleSet SS} `{Store ST} `{GoRuntime} `{Ulid} `{SerialLanes} `{WebhookEnv}.
Implicit Types (m : Manager SS ST) (job : Job).

#[global] Instance same_core_preorder : PreOrder (@same_core SS _ ST _).
Proof. split; [by split|]. intros m1 m2 m3 [] []. split; congruence. Qed.

Lemma core_store m s : jobs (entities s) = jobs (ents m) → taskDefs (entities s) = taskDefs (ents m) →
  same_core m (set_store m s).
Proof. intros Hj Ht. by split. Qed.

Lemma core_fire m job ev data now :
  same_core m (m <| mg_webhooks := enqueue (mg_webhooks m) job ev data now |>).
Proof. destruct (enqueue_entities (mg_webhooks m) job ev data now) as (Hj & Ht & _). by split. Qed.

Lemma core_close_job_logs m id : same_core m (close_job_logs m id).
Proof. apply core_store; by rewrite ent_CloseJob. Qed.

Lemma core_update_run m id f : same_core m (update_run m id f).1.
Proof.
  unfold update_run. pose proof (ent_UpdateRun (mg_store m) id f) as He.
  destruct (st_UpdateRun (mg_store m) id f) as [s err]. simpl in *.
  apply core_store; rewrite He; unfold UpdateRun; by destruct (runs _ !! id).
Qed.

Lemma core_closeRun m runID jobID st rt out reason code now :
  same_core m (closeRun m runID jobID st rt out reason code now).
Proof.
  unfold closeRun. case_bool_decide; [done|]. cbn zeta.
  set (m1 := m <| mg_activeRunIDs := _ |>). assert (same_core m m1) as C1 by by split.
  set (m2 := if _ && _ then _ else _).
  assert (same_core m m2) as C2.
  { unfold m2. destruct (_ && _); [|done]. etrans; [exact C1|]. apply core_store; by rewrite ent_AppendRunLog. }
  match goal with |- context [update_run ?x ?i ?f] => pose proof (core_update_run x i f) as C3;
    destruct (update_run x i f) as [m3 err] end. simpl in C3.
  etrans; [exact C2|]. etrans; [exact C3|]. apply core_store; by rewrite ent_CloseRun.
Qed.

Lemma restore_capacity_spec m a job w now : wp_conns (mg_workers m) !! a = Some w →
  (∀ ns, lane_error ns = None) →
  let r := restore_capacity m a job now in
  r.2 = None ∧ ents r.1 = ents m ∧ mg_queue r.1 = mg_queue m ∧ mg_cancelledJobIDs r.1 = mg_cancelledJobIDs m ∧
  mg_timers r.1 = mg_timers m ∧ mg_activeRunIDs r.1 = mg_activeRunIDs m ∧
  wp_conns (mg_workers r.1) = <[a := CompleteTask w (job_ID job) (job_Cost job) now]> (wp_conns (mg_workers m)).
Proof.
  intros Ha Hopen. unfold restore_capacity, restoreCapacity, lane_Do. rewrite Ha, Hopen. simpl. by split_and!.
Qed.

Lemma restore_capacity_frame m a job now :
  ents (restore_capacity m a job now).1 = ents m ∧ mg_queue (restore_capacity m a job now).1 = mg_queue m.
Proof. unfold restore_capacity. by destruct (restoreCapacity _ _ _ _ _). Qed.

(** The run record a closed run ends with. *)
Lemma closeRun_run m runID jobID st rt out reason code now r : runID ≠ "" → runs (ents m) !! runID = Some r →
  runs (ents (closeRun m runID jobID st rt out reason code now)) !! runID =
    Some (r <| run_Status := st |> <| run_ResultType := Some rt |> <| run_OutputPayload := out |>
            <| run_FailureReason := reason |> <| run_ExitCode := code |> <| run_FinishedAt := now |>).
Proof.
  intros Hne Hr. unfold closeRun. rewrite bool_decide_eq_false_2 by done. cbn zeta.
  set (m1 := m <| mg_activeRunIDs := _ |>). set (m2 := if _ && _ then _ else _).
  assert (runs (ents m2) = runs (ents m)) as E2.
  { unfold m2. destruct (_ && _); [|done]. unfold ents, mg_store, set_store. simpl. by rewrite ent_AppendRunLog. }
  unfold update_run. pose proof (ent_UpdateRun (mg_store m2) runID (λ r0,
    r0 <| run_Status := st |> <| run_ResultType := Some rt |> <| run_OutputPayload := out |>
       <| run_FailureReason := reason |> <| run_ExitCode := code |> <| run_FinishedAt := now |>)) as He.
  destruct (st_UpdateRun (mg_store m2) runID _) as [s err]. simpl in He. unfold ents, mg_store, set_store. simpl.
  rewrite ent_CloseRun, He. unfold UpdateRun. change (entities (mg_store m2)) with (ents m2). rewrite E2, Hr. simpl.
  apply lookup_insert_eq.
Qed.
End core.

(** ** Completion *)

(** The parent [pid] waits for children, all of which have completed. *)
Definition consolidation_due (js : gmap string Job) (pid : string) (parent : Job) : Prop :=
  pid ≠ "" ∧ js !! pid = Some parent ∧ job_Status parent = JobStatusAwaitingChildren ∧
  ∀ id s, js !! id = Some s → job_ParentJobID s = pid → job_Status s = JobStatusCompleted.

Section completion.
Context `{SimpleSet SS} `{Store ST} `{GoRuntime} `{Ulid} `{SerialLanes} `{WebhookEnv} `{WorkerSelector SS}.
Context `{ConsolidateJson} (cfg : Config).
Implicit Types (m : Manager SS ST) (job : Job).

Lemma all_completed e pid : forallb (λ s, IsTerminal (job_Status s) &&
    bool_decide (job_Status s = JobStatusCompleted)) (ListChildJobs e pid) = true ↔
  ∀ id s, jobs e !! id = Some s → job_ParentJobID s = pid → job_Status s = JobStatusCompleted.
Proof.
  rewrite forallb_forall. split.
  - intros Hall id s Hs Hp. specialize (Hall s). rewrite <- list_elem_of_In in Hall.
    destruct (andb_prop _ _ (Hall (proj2 (elem_of_ListChildJobs e pid s) (conj (ex_intro _ id Hs) Hp)))) as [_ Hc].
    by apply bool_decide_eq_true in Hc.
  - intros Hall s Hs. rewrite <- list_elem_of_In, elem_of_ListChildJobs in Hs. destruct Hs as [[id Hs] Hp].
    rewrite (Hall id s Hs Hp). done.
Qed.

Lemma consolidate_parent_spec m job now : manager_ok m →
  let m' := consolidate_parent m job now in
  let pid := job_ParentJobID job in
  wp_conns (mg_workers m') = wp_conns (mg_workers m) ∧ runs (ents m') = runs (ents m) ∧
  ((∃ parent, consolidation_due (jobs (ents m)) pid parent ∧
      jobs (ents m') = <[pid := schedule_consolidation now parent]> (jobs (ents m)) ∧
      Values (mg_queue m') ≡ₚ
        (parent <| job_Status := JobStatusPending |> <| job_Phase := JobPhaseConsolidate |>) :: Values (mg_queue m)) ∨
   ((∀ parent, ¬ consolidation_due (jobs (ents m)) pid parent) ∧
      jobs (ents m') = jobs (ents m) ∧ mg_queue m' = mg_queue m)).
Proof.
  intros Hm. cbn zeta. unfold consolidate_parent. set (pid := job_ParentJobID job).
  case_bool_decide as Hpid.
  { split_and!; [done..|]. right. split_and!; [|done..]. by intros parent (Hne & _). }
  destruct (forallb _ _) eqn:Hall; cbn [negb].
  2:{ split_and!; [done..|]. right. split_and!; [|done..]. intros parent (_ & _ & _ & Hc).
      apply all_completed in Hc. congruence. }
  rewrite all_completed in Hall. unfold GetJob. destruct (jobs (ents m) !! pid) as [parent|] eqn:Hp.
  2:{ split_and!; [done..|]. right. split_and!; [|done..]. intros parent (_ & Hx & _). congruence. }
  pose proof (ids_jobs _ (mo_ids _ Hm) _ _ Hp) as Hid. rewrite Hid, Hp. cbn zeta.
  destruct (update_job_spec m pid (schedule_consolidation now)) as (Uerr & Ue & Uq & _ & Uw & _).
  destruct (update_job m pid _) as [m1 err]. cbn [fst snd] in Uerr, Ue, Uq, Uw.
  unfold UpdateJob in Uerr, Ue. rewrite Hp in Uerr, Ue. cbn [fst snd] in Uerr, Ue. subst err.
  destruct (awaits_children parent) eqn:Hst; [apply bool_decide_eq_true in Hst|apply bool_decide_eq_false in Hst]; cbn [negb].
  - split_and!; [by simpl; rewrite Uw|by change (ents (EnqueueJob _ _)) with (ents m1); rewrite Ue|].
    left. exists parent. split_and!; [done|by change (ents (EnqueueJob _ _)) with (ents m1); rewrite Ue|].
    etrans; [apply (PushItem_values job_higher); rewrite Uq; apply Hm|]. by rewrite Uq.
  - split_and!; [by rewrite Uw|by rewrite Ue|]. right. split_and!; [|rewrite Ue; simpl|done].
    + intros p' (_ & Hp' & Hs & _). congruence.
    + unfold schedule_consolidation, awaits_children. rewrite bool_decide_eq_false_2 by done. by apply insert_id.
Qed.

Lemma handleJobCompleted_spec m a w job msg now : manager_ok m → (∀ ns, lane_error ns = None) →
  wp_conns (mg_workers m) !! a = Some w → jobs (ents m) !! rm_JobID msg = Some job →
  IsTerminal (job_Status job) = false →
  ∃ m1, handleJobCompleted m a job msg now =
      consolidate_parent m1 (job <| job_Status := JobStatusCompleted |>) now ∧ manager_ok m1 ∧
    jobs (ents m1) = <[rm_JobID msg := complete_job (rm_Payload msg) now job]> (jobs (ents m)) ∧
    mg_queue m1 = mg_queue m ∧
    wp_conns (mg_workers m1) = <[a := CompleteTask w (job_ID job) (job_Cost job) now]> (wp_conns (mg_workers m)) ∧
    ∀ r, rm_RunID msg ≠ "" → runs (ents m) !! rm_RunID msg = Some r →
      runs (ents m1) !! rm_RunID msg = Some (r <| run_Status := RunStatusCompleted |>
        <| run_ResultType := Some (rm_Type msg) |> <| run_OutputPayload := rm_Payload msg |>
        <| run_FailureReason := "" |> <| run_ExitCode := 0%Z |> <| run_FinishedAt := now |>).
Proof.
  intros Hm Hopen Ha Hj Ht. unfold handleJobCompleted. rewrite Ht. cbn zeta.
  set (m1 := close_job_logs m (job_ID job)).
  assert (manager_ok m1) as Hm1 by by apply ok_close_job_logs.
  pose proof (core_close_job_logs m (job_ID job) : same_core m m1) as C1.
  assert (runs (ents m1) = runs (ents m)) as R1 by (unfold m1, close_job_logs, ents, mg_store, set_store; simpl; by rewrite ent_CloseJob).
  assert (manager_ok (update_job m1 (rm_JobID msg) (complete_job (rm_Payload msg) now)).1) as Hm2 by by apply ok_update_job.
  destruct (update_job_spec m1 (rm_JobID msg) (complete_job (rm_Payload msg) now)) as (Uerr & Ue & Uq & _ & Uw & _).
  destruct (update_job m1 _ _) as [m2 err]. cbn [fst snd] in *.
  unfold UpdateJob in Uerr, Ue. rewrite (sc_jobs _ _ C1), Hj in Uerr, Ue. cbn [fst snd] in *. subst err.
  set (m3 := closeRun m2 _ _ _ _ _ _ _ _).
  assert (manager_ok m3) as Hm3 by by apply ok_closeRun.
  pose proof (core_closeRun m2 (resolveRunID m2 (rm_JobID msg) (rm_RunID msg)) (rm_JobID msg) RunStatusCompleted
    (rm_Type msg) (rm_Payload msg) "" 0 now : same_core m2 m3) as C3.
  assert (wp_conns (mg_workers m3) !! a = Some w) as Ha3.
  { by rewrite (sc_workers _ _ C3), Uw, (sc_workers _ _ C1). }
  pose proof (ok_restore_capacity m3 a job now Hm3) as Hm4.
  destruct (restore_capacity_spec m3 a job w now Ha3 Hopen) as (Rerr & Re & Rq & _ & _ & _ & Rw).
  destruct (restore_capacity m3 a job now) as [m4 err]. cbn [fst snd] in *. subst err.
  set (job' := job <| job_Status := JobStatusCompleted |>).
  set (m5 := m4 <| mg_webhooks := _ |>). exists m5.
  pose proof (core_fire m4 job' eventJobCompleted [("result", EvRaw (job_Result job'))] now : same_core m4 m5) as C5.
  destruct (enqueue_entities (mg_webhooks m4) job' eventJobCompleted [("result", EvRaw (job_Result job'))] now) as (_ & _ & R5).
  split_and!.
  - done.
  - by apply ok_fire.
  - rewrite (sc_jobs _ _ C5), Re, (sc_jobs _ _ C3), Ue. done.
  - by rewrite (sc_queue _ _ C5), Rq, (sc_queue _ _ C3), Uq, (sc_queue _ _ C1).
  - by rewrite (sc_workers _ _ C5), Rw, (sc_workers _ _ C3), Uw, (sc_workers _ _ C1).
  - intros r Hne Hr. change (runs (ents m5)) with (runs (entities (wd_store (mg_webhooks m5)))).
    etrans; [exact (f_equal (.!! rm_RunID msg) R5)|]. change (entities (wd_store (mg_webhooks m4))) with (ents m4).
    rewrite Re. unfold m3. unfold resolveRunID. rewrite (bool_decide_eq_true_2 (rm_RunID msg ≠ "")) by done.
    apply closeRun_run; [done|]. rewrite Ue. simpl. by rewrite R1.
Qed.
End completion.

(** ** Failure *)
Section failure.
Context `{SimpleSet SS} `{Store ST} `{GoRuntime} `{Ulid} `{SerialLanes} `{WebhookEnv} `{WorkerSelector SS}.
Context `{ConsolidateJson} (cfg : Config).
Implicit Types (m : Manager SS ST) (job : Job).

Lemma UpdateJob_alter e id f : jobs (UpdateJob e id f).1 = alter f id (jobs e).
Proof.
  apply map_eq. intros id'. rewrite UpdateJob_jobs. destruct (decide (id = id')) as [->|].
  - by rewrite lookup_alter_eq.
  - rewrite lookup_alter_ne by done. by destruct (jobs e !! id').
Qed.

(** The stored jobs once [job] failed for good: itself, and its parent with the reason. *)
Definition fail_chain job (reason : string) (now : Time) (js : gmap string Job) : gmap string Job :=
  let js := alter (fail_job now) (job_ID job) js in
  if bool_decide (job_ParentJobID job = "") then js
  else alter (λ j, fail_job now j <| job_FailureReason := reason |>) (job_ParentJobID job) js.

(** Changes of stored jobs only. *)
Record only_jobs m m' (js : gmap string Job) : Prop := {
  oj_jobs : jobs (ents m') = js;
  oj_queue : mg_queue m' = mg_queue m;
  oj_cancelled : mg_cancelledJobIDs m' = mg_cancelledJobIDs m;
  oj_workers : mg_workers m' = mg_workers m;
  oj_timers : mg_timers m' = mg_timers m;
}.

Lemma only_jobs_update m id f : only_jobs m (update_job m id f).1 (alter f id (jobs (ents m))).
Proof.
  destruct (update_job_spec m id f) as (_ & Ue & Uq & Uc & Uw & _ & Ut). split; try done.
  by rewrite Ue, UpdateJob_alter.
Qed.

Lemma update_stored m id f j : jobs (ents m) !! id = Some j → let r := update_job m id f in
  r.2 = None ∧ jobs (ents r.1) !! id = Some (f j) ∧ mg_queue r.1 = mg_queue m.
Proof.
  intros Hj. cbn zeta. destruct (only_jobs_update m id f) as [Oj Oq _ _ _].
  destruct (update_job_spec m id f) as (Ue & _). unfold UpdateJob in Ue. rewrite Hj in Ue.
  split_and!; [done|by rewrite Oj, lookup_alter_eq, Hj|done].
Qed.

Lemma only_jobs_core m m1 m2 js : only_jobs m m1 js → same_core m1 m2 → only_jobs m m2 js.
Proof. intros [] []. split; congruence. Qed.

Lemma only_jobs_trans m m1 m2 js1 js2 : only_jobs m m1 js1 → only_jobs m1 m2 js2 → only_jobs m m2 js2.
Proof. intros [] []. split; congruence. Qed.

Lemma handleFailJob_spec m job reason now : manager_ok m →
  only_jobs m (handleFailJob m job reason now) (fail_chain job reason now (jobs (ents m))).
Proof.
  intros Hm. unfold handleFailJob, fail_chain. cbn zeta.
  pose proof (only_jobs_update m (job_ID job) (fail_job now)) as O1.
  assert (manager_ok (update_job m (job_ID job) (fail_job now)).1) as Hm1 by by apply ok_update_job.
  destruct (update_job m (job_ID job) _) as [m1 err]. cbn [fst] in O1, Hm1.
  set (job' := job <| job_Status := JobStatusFailed |>).
  set (m2 := close_job_logs _ _).
  assert (same_core m1 m2) as C2 by (etrans; [apply core_fire|apply core_close_job_logs]).
  assert (manager_ok m2) as Hm2 by by apply ok_close_job_logs, ok_fire.
  pose proof (only_jobs_core _ _ _ _ O1 C2) as O2. change (job_ParentJobID job') with (job_ParentJobID job).
  case_bool_decide as Hpid; [done|].
  unfold GetJob. destruct (jobs (ents m2) !! job_ParentJobID job) as [parent|] eqn:Hp.
  2:{ destruct O2 as [Oj ? ? ? ?]. split; try done. rewrite alter_id; [done|]. intros x Hx. rewrite <- Oj in Hx. congruence. }
  rewrite (ids_jobs _ (mo_ids _ Hm2) _ _ Hp).
  set (m3 := close_job_logs m2 (job_ParentJobID job)).
  pose proof (only_jobs_core _ _ _ _ O2 (core_close_job_logs m2 (job_ParentJobID job))) as O3. fold m3 in O3.
  pose proof (only_jobs_update m3 (job_ParentJobID job) (λ j, fail_job now j <| job_FailureReason := reason |>)) as O4.
  destruct (update_job m3 _ _) as [m4 err4]. cbn [fst] in O4. rewrite (oj_jobs _ _ _ O3) in O4.
  pose proof (only_jobs_trans _ _ _ _ _ O3 O4) as O5. destruct err4; [done|].
  eapply only_jobs_core; [exact O5|apply core_fire].
Qed.

(** Recording the attempt. *)
Definition record_attempt (attempts : Z) (reason : string) (now : Time) (j : Job) : Job :=
  j <| job_Attempts := attempts |> <| job_FailureReason := reason |> <| job_UpdatedAt := now |>.

(** No further attempt: the exit code forbids it or the attempts are used up. *)
Definition permanent m job (msg : ResultMessage) : bool :=
  do_not_retry cfg (rm_ExitCode msg) ||
  (MaxAttempts (effective_policy cfg m job) <=? wrap64 (job_Attempts job + 1))%Z.

Lemma handleJobError_spec m a w job msg now : manager_ok m → (∀ ns, lane_error ns = None) →
  wp_conns (mg_workers m) !! a = Some w → jobs (ents m) !! rm_JobID msg = Some job →
  IsTerminal (job_Status job) = false →
  let m' := handleJobError cfg m a job msg now in
  let attempts := wrap64 (job_Attempts job + 1) in
  let recorded := <[rm_JobID msg := record_attempt attempts (rm_Reason msg) now job]> (jobs (ents m)) in
  mg_queue m' = mg_queue m ∧ mg_cancelledJobIDs m' = mg_cancelledJobIDs m ∧
  wp_conns (mg_workers m') = <[a := CompleteTask w (job_ID job) (job_Cost job) now]> (wp_conns (mg_workers m)) ∧
  if permanent m job msg
  then jobs (ents m') = fail_chain job (rm_Reason msg) now recorded ∧ mg_timers m' = mg_timers m
  else jobs (ents m') = recorded ∧
       mg_timers m' = mg_timers m ++
         [MkRetryTimer (now + retryDelay (effective_policy cfg m job) attempts)%Z (rm_JobID msg)].
Proof.
  intros Hm Hopen Ha Hj Ht. cbn zeta. unfold handleJobError. rewrite Ht.
  pose proof (ids_jobs _ (mo_ids _ Hm) _ _ Hj) as Hid.
  pose proof (ok_restore_capacity m a job now Hm) as Hm1.
  destruct (restore_capacity_spec m a job w now Ha Hopen) as (_ & Re & Rq & Rc & Rt & _ & Rw).
  destruct (restore_capacity m a job now) as [m1 err]. cbn [fst snd] in *. cbn zeta.
  set (m2 := closeRun m1 _ _ _ _ _ _ _ _). assert (manager_ok m2) as Hm2 by by apply ok_closeRun.
  pose proof (core_closeRun m1 (resolveRunID m1 (rm_JobID msg) (rm_RunID msg)) (rm_JobID msg) RunStatusFailed
    (rm_Type msg) (rm_Reason msg) (rm_Reason msg) (rm_ExitCode msg) now : same_core m1 m2) as C2.
  set (job1 := job <| job_Attempts := _ |>). change (job_ID job1) with (job_ID job).
  change (λ j, j <| job_Attempts := job_Attempts job1 |> <| job_FailureReason := rm_Reason msg |>
    <| job_UpdatedAt := now |>) with (record_attempt (wrap64 (job_Attempts job + 1)) (rm_Reason msg) now).
  set (rec := record_attempt _ _ _).
  pose proof (only_jobs_update m2 (job_ID job) rec) as O3.
  assert (manager_ok (update_job m2 (job_ID job) rec).1) as Hm3 by by apply ok_update_job.
  destruct (update_job_spec m2 (job_ID job) rec) as (_ & Ue & _).
  destruct (update_job m2 (job_ID job) rec) as [m3 err3]. cbn [fst snd] in *.
  assert (alter rec (job_ID job) (jobs (ents m2)) = <[rm_JobID msg := rec job]> (jobs (ents m))) as Ejs.
  { rewrite (sc_jobs _ _ C2), Re, Hid. apply map_eq. intros id'. destruct (decide (id' = rm_JobID msg)) as [->|].
    - by rewrite lookup_alter_eq, lookup_insert_eq, Hj.
    - by rewrite lookup_alter_ne, lookup_insert_ne. }
  assert (effective_policy cfg m3 job1 = effective_policy cfg m job) as ->.
  { unfold effective_policy, GetTask. change (job_TaskName job1) with (job_TaskName job).
    rewrite Ue, (proj1 (UpdateJob_rest _ _ _)), (sc_tasks _ _ C2), Re. done. }
  assert (mg_queue m3 = mg_queue m ∧ mg_cancelledJobIDs m3 = mg_cancelledJobIDs m ∧ mg_timers m3 = mg_timers m ∧
    wp_conns (mg_workers m3) = <[a := CompleteTask w (job_ID job) (job_Cost job) now]> (wp_conns (mg_workers m)) ∧
    jobs (ents m3) = <[rm_JobID msg := rec job]> (jobs (ents m))) as (E1 & E2 & E3 & E4 & E5).
  { destruct O3 as [Oj Oq Oc Ow Ot]. destruct C2 as [Cj Ct Cq Cc Cw Ctm]. split_and!; try congruence. }
  assert (only_jobs m3 (handleFailJob m3 job1 (rm_Reason msg) now)
    (fail_chain job (rm_Reason msg) now (<[rm_JobID msg := rec job]> (jobs (ents m))))) as OF.
  { rewrite <- E5. by apply (handleFailJob_spec m3 job1). }
  destruct OF as [Fj Fq Fc Fw Ft]. unfold permanent.
  destruct (do_not_retry cfg (rm_ExitCode msg)); simpl; [split_and!; congruence|].
  change (job_Attempts job1) with (wrap64 (job_Attempts job + 1)). rewrite Z.leb_antisym.
  destruct (wrap64 (job_Attempts job + 1) <? MaxAttempts (effective_policy cfg m job))%Z; simpl.
  - split_and!; [exact E1|exact E2|exact E4|exact E5|]. unfold time_Add. by rewrite E3, Hid.
  - split_and!; congruence.
Qed.
End failure.

(** ** Cancellation *)
Section cancellation.
Context `{SimpleSet SS} `{Store ST} `{GoRuntime} `{Ulid} `{SerialLanes} `{WebhookEnv} `{WorkerSelector SS}.
Implicit Types (m : Manager SS ST) (job : Job).

Definition cancelled_child (now : Time) (c : Job) : Job :=
  if IsTerminal (job_Status c) then c else cancel_job now c.

Lemma send_cancel_core m id : ents (SendCancelToWorker m id) = ents m ∧ mg_queue (SendCancelToWorker m id) = mg_queue m ∧
  mg_cancelledJobIDs (SendCancelToWorker m id) = mg_cancelledJobIDs m.
Proof. unfold SendCancelToWorker. by destruct (FindWorkerByInFlightJobID _ _). Qed.

Lemma cancel_child_spec m c now : jobs (ents m) !! job_ID c = Some c →
  let m' := cancel_child now m c in
  jobs (ents m') = <[job_ID c := cancelled_child now c]> (jobs (ents m)) ∧ mg_queue m' = mg_queue m ∧
  ss_view (mg_cancelledJobIDs m') = ss_view (mg_cancelledJobIDs m) ∪
    (if bool_decide (job_Status c = JobStatusPending) then {[job_ID c]} else ∅).
Proof.
  intros Hc. cbn zeta. unfold cancel_child, cancelled_child. destruct (IsTerminal (job_Status c)) eqn:Ht.
  { rewrite insert_id by done. split_and!; [done..|]. rewrite bool_decide_eq_false_2; [set_solver|].
    intros E. by rewrite E in Ht. }
  set (m1 := match job_Status c with JobStatusRunning => _ | _ => _ end).
  assert (ents m1 = ents m ∧ mg_queue m1 = mg_queue m ∧ mg_cancelledJobIDs m1 = mg_cancelledJobIDs m) as (E1 & Q1 & C1).
  { unfold m1. destruct (job_Status c); try done; apply send_cancel_core. }
  set (m2 := if bool_decide _ then _ else _).
  assert (ents m2 = ents m ∧ mg_queue m2 = mg_queue m ∧ ss_view (mg_cancelledJobIDs m2) =
    ss_view (mg_cancelledJobIDs m) ∪ (if bool_decide (job_Status c = JobStatusPending) then {[job_ID c]} else ∅))
    as (E2 & Q2 & C2).
  { unfold m2. case_bool_decide; [|rewrite C1; set_solver].
    change (ents m1 = ents m ∧ mg_queue m1 = mg_queue m ∧
      ss_view (ss_Add (job_ID c) (mg_cancelledJobIDs m1)) = ss_view (mg_cancelledJobIDs m) ∪ {[job_ID c]}).
    rewrite ss_view_Add, C1. set_solver. }
  destruct (only_jobs_update m2 (job_ID c) (cancel_job now)) as [Oj Oq Oc _ _].
  rewrite Oj, Oq, Oc, E2. split_and!; [|done|done]. apply map_eq. intros id'.
  destruct (decide (id' = job_ID c)) as [->|].
  - by rewrite lookup_alter_eq, lookup_insert_eq, Hc.
  - by rewrite lookup_alter_ne, lookup_insert_ne.
Qed.

Lemma cancel_children_spec l m now : NoDup (job_ID <$> l) →
  (∀ c, c ∈ l → jobs (ents m) !! job_ID c = Some c) →
  let m' := foldl (cancel_child now) m l in
  (∀ c, c ∈ l → jobs (ents m') !! job_ID c = Some (cancelled_child now c)) ∧
  (∀ id', id' ∉ job_ID <$> l → jobs (ents m') !! id' = jobs (ents m) !! id') ∧
  mg_queue m' = mg_queue m ∧
  ∀ x, x ∈ ss_view (mg_cancelledJobIDs m') ↔ x ∈ ss_view (mg_cancelledJobIDs m) ∨
    ∃ c, c ∈ l ∧ x = job_ID c ∧ job_Status c = JobStatusPending.
Proof.
  revert m. induction l as [|c l IH]; intros m Hnd Hl; cbn [foldl].
  { split_and!; [set_solver|done|done|]. intros x. set_solver. }
  apply NoDup_cons in Hnd as [Hc Hnd].
  destruct (cancel_child_spec m c now (Hl c ltac:(by left))) as (Ej & Eq & Ec).
  set (m1 := cancel_child now m c) in *.
  destruct (IH m1 Hnd) as (J1 & J2 & Q & C).
  { intros c' Hc'. rewrite Ej, lookup_insert_ne; [by apply Hl; right|].
    intros Heq. apply Hc. rewrite Heq. by apply list_elem_of_fmap_2. }
  split_and!.
  - intros c' [->|Hc']%elem_of_cons; [|by apply J1]. rewrite J2 by done. by rewrite Ej, lookup_insert_eq.
  - intros id' Hid'. rewrite J2 by set_solver. rewrite Ej, lookup_insert_ne; [done|]. set_solver.
  - by rewrite Q.
  - intros x. rewrite C, Ec, elem_of_union. setoid_rewrite elem_of_cons.
    case_bool_decide as Hp; split; intros Hx.
    + destruct Hx as [[Hx|Hx%elem_of_singleton]|(c' & ? & ? & ?)]; [by left|right; exists c; by auto|right; exists c'; by auto].
    + destruct Hx as [Hx|(c' & [->|?] & -> & ?)]; [by left; left|left; right; by apply elem_of_singleton|right; eauto].
    + destruct Hx as [[Hx|Hx%elem_of_empty]|(c' & ? & ? & ?)]; [by left|done|right; exists c'; by auto].
    + destruct Hx as [Hx|(c' & [->|?] & -> & ?)]; [by left; left|done|right; eauto].
Qed.

(** *** The workers told *)
Definition cancel_line (jobID : string) : string := "cancel --job-id=" +:+ jobID +:+ newline.

(** The jobs whose worker is told: a child in one of three states, the job itself in one of four. *)
Definition told_child (c : Job) : list string :=
  match job_Status c with JobStatusRunning | JobStatusProvisioning | JobStatusProposing => [job_ID c] | _ => [] end.

Definition told_self job : list string :=
  match job_Status job with
  | JobStatusRunning | JobStatusProvisioning | JobStatusProposing | JobStatusAccepted => [job_ID job]
  | _ => []
  end.

(** A connection to which lines were written, one after the other. *)
Definition written (w : WorkerConn SS) (lines : list string) : WorkerConn SS :=
  if conn_usable (wc_conn w) then w <| wc_conn := (wc_conn w) <| conn_out := conn_out (wc_conn w) ++ lines |> |> else w.

(** What connection [a] receives when the workers of [ids] are told. *)
Definition cancel_lines (p : WorkerPool SS) (a : nat) (ids : list string) : list string :=
  cancel_line <$> filter (λ id, FindWorkerByInFlightJobID p id = Some a) ids.

Definition tell (p : WorkerPool SS) (id : string) : WorkerPool SS :=
  match FindWorkerByInFlightJobID p id with
  | None => p
  | Some a => on_conn p a (λ w, (Send w ("cancel --job-id=" +:+ id)).1)
  end.

Lemma Send_written (w : WorkerConn SS) line : (Send w line).1 = written w [line +:+ newline].
Proof. unfold Send, written, conn_Write. destruct (conn_usable (wc_conn w)); [done|]. by destruct w as [????? [] ?????????]. Qed.

Lemma written_written (w : WorkerConn SS) l1 l2 : written (written w l1) l2 = written w (l1 ++ l2).
Proof.
  unfold written. destruct (conn_usable (wc_conn w)) eqn:E; [|by rewrite E].
  change (conn_usable (wc_conn (w <| wc_conn := (wc_conn w) <| conn_out := conn_out (wc_conn w) ++ l1 |> |>)))
    with (conn_usable (wc_conn w)). rewrite E. destruct w as [????? [] ?????????]. simpl. by rewrite <- app_assoc.
Qed.

Lemma written_nil (w : WorkerConn SS) : written w [] = w.
Proof. unfold written. destruct (conn_usable _); [|done]. destruct w as [????? [] ?????????]. simpl. by rewrite app_nil_r. Qed.

Lemma find_written p p' id : wp_workers p' = wp_workers p →
  (∀ a, ∃ lines, wp_conns p' !! a = (λ w, written w lines) <$> wp_conns p !! a) →
  FindWorkerByInFlightJobID p' id = FindWorkerByInFlightJobID p id.
Proof.
  intros Hw Hc. unfold FindWorkerByInFlightJobID, allWorkers. rewrite Hw. f_equal.
  apply list_find_ext. intros a. unfold has_job. destruct (Hc a) as [lines ->].
  destruct (wp_conns p !! a) as [w|]; simpl; [|done].
  assert (IsInFlight (written w lines) id = IsInFlight w id) as -> by (unfold written; by destruct (conn_usable _)). done.
Qed.

Lemma tells_spec p ids : let p' := foldl tell p ids in
  wp_workers p' = wp_workers p ∧ ∀ a, wp_conns p' !! a = (λ w, written w (cancel_lines p a ids)) <$> wp_conns p !! a.
Proof.
  induction ids as [|id ids [IHw IHc]] using rev_ind; cbn zeta.
  { split; [done|]. intros a. unfold cancel_lines. simpl. destruct (wp_conns p !! a); simpl; [by rewrite written_nil|done]. }
  rewrite foldl_app. simpl. set (p1 := foldl tell p ids) in *.
  assert (FindWorkerByInFlightJobID p1 id = FindWorkerByInFlightJobID p id) as Hf.
  { apply find_written; [done|]. intros a. by eexists. }
  assert (∀ a, cancel_lines p a (ids ++ [id]) = cancel_lines p a ids ++
    if decide (FindWorkerByInFlightJobID p id = Some a) then [cancel_line id] else []) as Hl.
  { intros a. unfold cancel_lines. rewrite filter_app, fmap_app. f_equal. rewrite filter_cons.
    case_decide; by rewrite ?filter_nil. }
  unfold tell. rewrite Hf. destruct (FindWorkerByInFlightJobID p id) as [b|] eqn:Eb; simpl.
  - split; [done|]. intros a. rewrite Hl. destruct (decide (a = b)) as [->|Hne].
    + rewrite decide_True by done. rewrite lookup_alter_eq, IHc. destruct (wp_conns p !! b) as [w|]; simpl; [|done].
      rewrite Send_written, written_written. unfold cancel_line. done.
    + rewrite decide_False by congruence. rewrite lookup_alter_ne by done. by rewrite IHc, app_nil_r.
  - split; [done|]. intros a. by rewrite Hl, decide_False, app_nil_r.
Qed.

(** What cancelling changes apart from the jobs, the queue and the marks. *)
Record cancel_rest m m' (ids : list string) : Prop := {
  cx_workers : mg_workers m' = foldl tell (mg_workers m) ids;
  cx_tasks : taskDefs (ents m') = taskDefs (ents m);
  cx_runs : runs (ents m') = runs (ents m);
}.

Lemma cancel_rest_trans m1 m2 m3 ids1 ids2 : cancel_rest m1 m2 ids1 → cancel_rest m2 m3 ids2 →
  cancel_rest m1 m3 (ids1 ++ ids2).
Proof. intros [W1 T1 R1] [W2 T2 R2]. split; [by rewrite W2, W1, foldl_app|congruence..]. Qed.

Lemma cancel_rest_update m id f : cancel_rest m (update_job m id f).1 [].
Proof.
  destruct (update_job_spec m id f) as (_ & Ue & _ & _ & Uw & _).
  split; [done|..]; rewrite Ue; unfold UpdateJob; by destruct (jobs (ents m) !! id).
Qed.

Lemma cancel_rest_send m id : cancel_rest m (SendCancelToWorker m id) [id].
Proof.
  unfold SendCancelToWorker. split; simpl; unfold tell; by destruct (FindWorkerByInFlightJobID (mg_workers m) id).
Qed.

Lemma cancel_rest_child now m c : cancel_rest m (cancel_child now m c) (told_child c).
Proof.
  unfold cancel_child, told_child. destruct (IsTerminal (job_Status c)) eqn:Ht.
  { destruct (job_Status c); try done; by split. }
  rewrite <- (app_nil_r (match job_Status c with JobStatusRunning => _ | _ => _ end)).
  eapply cancel_rest_trans; [|apply cancel_rest_update].
  assert (∀ m1 ids, cancel_rest m m1 ids → cancel_rest m (if bool_decide (job_Status c = JobStatusPending)
    then m1 <| mg_cancelledJobIDs := ss_Add (job_ID c) (mg_cancelledJobIDs m1) |> else m1) ids) as Hmark.
  { intros m1 ids [W T R]. case_bool_decide; by split. }
  apply Hmark. destruct (job_Status c); try apply cancel_rest_send; by split.
Qed.

Lemma cancel_rest_children now l m : cancel_rest m (foldl (cancel_child now) m l) (l ≫= told_child).
Proof.
  revert m. induction l as [|c l IH]; intros m; [by split|].
  eapply cancel_rest_trans; [apply cancel_rest_child|apply IH].
Qed.

Lemma cancel_rest_whole m id job now : jobs (ents m) !! id = Some job → job_ID job = id →
  cancel_rest m (cancelJobByID m id now) ((ListChildJobs (ents m) id ≫= told_child) ++ told_self job).
Proof.
  intros Hj Hid. unfold cancelJobByID, GetJob. rewrite Hj.
  set (m1 := foldl (cancel_child now) m _). set (m2 := match job_Status job with JobStatusRunning => _ | _ => _ end).
  set (m3 := if bool_decide _ then _ else _).
  assert (cancel_rest m1 m2 (told_self job)) as H12.
  { unfold m2, told_self. rewrite Hid. destruct (job_Status job); try apply cancel_rest_send; by split. }
  assert (cancel_rest m2 m3 []) as H23 by (unfold m3; case_bool_decide; by split).
  pose proof (cancel_rest_update m3 id (cancel_job now)) as H34. destruct (update_job m3 id _) as [m4 err]. simpl in H34.
  destruct (enqueue_entities (mg_webhooks m4) job eventJobCancelled [] now) as (_ & T5 & R5).
  rewrite <- (app_nil_r (told_self job)). eapply cancel_rest_trans; [apply cancel_rest_children|].
  eapply cancel_rest_trans; [exact H12|]. eapply (cancel_rest_trans _ _ _ [] []); [exact H23|].
  destruct H34 as [W T R]. split; [exact W|exact (eq_trans T5 T)|exact (eq_trans R5 R)].
Qed.

Lemma children_stored e id : ids_ok e → NoDup (job_ID <$> ListChildJobs e id) ∧
  ∀ c, c ∈ ListChildJobs e id ↔ jobs e !! job_ID c = Some c ∧ job_ParentJobID c = id.
Proof.
  intros He. split.
  - unfold ListChildJobs. rewrite sort_slice_perm. apply filter_fmap_NoDup, range_values_NoDup. apply (ids_jobs _ He).
  - intros c. rewrite elem_of_ListChildJobs. split; [|intros [? ?]; split; [by eexists|done]].
    intros [[id' Hc] Hp]. by rewrite (ids_jobs _ He _ _ Hc).
Qed.

Lemma cancelled_twice now j : cancel_job now (cancelled_child now j) = cancel_job now j.
Proof. unfold cancelled_child. by destruct (IsTerminal (job_Status j)). Qed.
End cancellation.

(** ** Recovery *)
Section recovery.
Context `{SimpleSet SS} `{Store ST} `{GoRuntime} `{Ulid} `{SerialLanes} `{WebhookEnv} `{WorkerSelector SS}.
Context (cfg : Config).
Implicit Types (m : Manager SS ST) (job : Job).

Definition to_pending (j : Job) : Job := j <| job_Status := JobStatusPending |>.

Lemma core_close_orphans reason now m id : same_core m (close_orphans reason now m id).
Proof.
  unfold close_orphans. generalize (ListJobRuns (ents m) id) as l. intros l. revert m.
  induction l as [|r l IH]; intros m; [done|]. cbn [foldl]. etrans; [|apply IH].
  unfold close_orphan. destruct (_ || _); [apply core_update_run|done].
Qed.

Lemma recover_one_spec now m job :
  only_jobs m (recover_one cfg now m job) (alter to_pending (job_ID job) (jobs (ents m))).
Proof.
  unfold recover_one. set (m1 := if has_RunStore cfg then _ else _).
  assert (same_core m m1) as C1 by (unfold m1; destruct (has_RunStore cfg); [apply core_close_orphans|done]).
  rewrite <- (sc_jobs _ _ C1). destruct (only_jobs_update m1 (job_ID job) to_pending) as [Oj Oq Oc Ow Ot].
  destruct C1. split; [exact Oj|..]; etrans; eassumption.
Qed.

Lemma requeue_spec now m id job : manager_ok m → jobs (ents m) !! id = Some job →
  let m' := requeue_one cfg now m id in
  has_status m' id JobStatusPending ∧ Values (mg_queue m') ≡ₚ to_pending job :: Values (mg_queue m).
Proof.
  intros Hm Hj. cbn zeta. unfold requeue_one. set (m1 := if has_RunStore cfg then _ else _).
  assert (same_core m m1) as C1 by (unfold m1; destruct (has_RunStore cfg); [apply core_close_orphans|done]).
  assert (jobs (ents m1) !! id = Some job) as Hj1 by by rewrite (sc_jobs _ _ C1).
  unfold GetJob. rewrite Hj1. change (λ j, j <| job_Status := JobStatusPending |>) with to_pending.
  destruct (update_stored m1 id to_pending job Hj1) as (_ & Hj2 & Hq). destruct (update_job m1 id to_pending) as [m2 err].
  cbn [fst] in *. split; [by exists (to_pending job)|].
  etrans; [apply (PushItem_values job_higher); rewrite Hq, (sc_queue _ _ C1); apply Hm|].
  by rewrite Hq, (sc_queue _ _ C1).
Qed.

Lemma recover_all_spec now l m :
  let m' := foldl (recover_one cfg now) m l in
  (∀ id, jobs (ents m') !! id =
    (if bool_decide (id ∈ job_ID <$> l) then to_pending else λ j, j) <$> jobs (ents m) !! id) ∧
  mg_queue m' = mg_queue m ∧ mg_workers m' = mg_workers m.
Proof.
  revert m. induction l as [|job l IH]; intros m; cbn [foldl].
  { split_and!; [|done..]. intros id. simpl. by destruct (jobs (ents m) !! id). }
  destruct (recover_one_spec now m job) as [Oj Oq _ Ow _].
  destruct (IH (recover_one cfg now m job)) as (J & Q & W). split_and!; [|congruence..].
  intros id. rewrite J, Oj. destruct (decide (id = job_ID job)) as [->|Hne].
  - rewrite lookup_alter_eq. rewrite (bool_decide_eq_true_2 (_ ∈ job_ID <$> job :: l)) by (simpl; by left).
    destruct (jobs (ents m) !! job_ID job); [|done]. simpl. by case_bool_decide.
  - rewrite lookup_alter_ne by done. simpl.
    destruct (decide (id ∈ job_ID <$> l)).
    + rewrite !bool_decide_eq_true_2 by (try right; done). done.
    + rewrite !bool_decide_eq_false_2 by (rewrite ?elem_of_cons; naive_solver). done.
Qed.

Lemma EnqueueJobs_spec m l : pq_inv job_higher (mg_queue m) →
  Values (mg_queue (EnqueueJobs m l)) ≡ₚ l ++ Values (mg_queue m) ∧ ents (EnqueueJobs m l) = ents m ∧
  wp_conns (mg_workers (EnqueueJobs m l)) = wp_conns (mg_workers m).
Proof.
  intros Hq. unfold EnqueueJobs. destruct l as [|j l]; [done|].
  destruct (push_jobs_spec m (j :: l) Hq) as (F & _ & _ & V). unfold only_queue in F.
  split_and!; [exact V|..].
  - change (ents (foldl push_job m (j :: l)) = ents m). by rewrite F.
  - change (wp_conns (mg_workers (foldl push_job m (j :: l))) = wp_conns (mg_workers m)). by rewrite F.
Qed.

Lemma RecoverJobs_spec m now : manager_ok m →
  let m' := RecoverJobs cfg m now in
  let l := ListPendingJobs (ents m) ++ (to_pending <$> ListRecoverableJobs (ents m)) in
  (∀ id, jobs (ents m') !! id =
    (λ j, if recoverable (job_Status j) then to_pending j else j) <$> jobs (ents m) !! id) ∧
  Values (mg_queue m') ≡ₚ l ++ Values (mg_queue m).
Proof.
  intros Hm. cbn zeta. unfold RecoverJobs. cbn zeta.
  destruct (recover_all_spec now (ListRecoverableJobs (ents m)) m) as (J & Q & W).
  set (m1 := foldl _ _ _) in *.
  destruct (EnqueueJobs_spec m1 (ListPendingJobs (ents m) ++ (to_pending <$> ListRecoverableJobs (ents m))))
    as (V & E & _); [rewrite Q; apply Hm|].
  split; [|rewrite <- Q; exact V]. intros id. etrans; [exact (f_equal (λ e, jobs e !! id) E)|].
  rewrite J. destruct (jobs (ents m) !! id) as [j|] eqn:Hj; [|done]. simpl. f_equal.
  assert (id ∈ job_ID <$> ListRecoverableJobs (ents m) ↔ recoverable (job_Status j) = true) as Hiff.
  { rewrite list_elem_of_fmap. split.
    - intros (x & -> & [[id' Hx] Hr]%elem_of_ListRecoverableJobs).
      rewrite (ids_jobs _ (mo_ids _ Hm) _ _ Hx) in Hj. congruence.
    - intros Hr. exists j. rewrite elem_of_ListRecoverableJobs. split; [|by eauto].
      by rewrite (ids_jobs _ (mo_ids _ Hm) _ _ Hj). }
  case_bool_decide as Hin; [by rewrite (proj1 Hiff Hin)|].
  destruct (recoverable (job_Status j)); [|done]. exfalso. by apply Hin, Hiff.
Qed.
End recovery.

(** ** Child jobs *)
Section children.
Context `{SimpleSet SS} `{Store ST} `{GoRuntime} `{Ulid} `{SerialLanes} `{WebhookEnv} `{WorkerSelector SS}.
Context `{ConsolidateJson} (cfg : Config).
Implicit Types (m : Manager SS ST) (job : Job).

(** A request whose task exists and whose artifact version can be pinned. *)
Definition request_ok (e : Entities) (req : ChildJobRequest) : Prop :=
  ∃ t v, taskDefs e !! cjreq_Task req = Some t ∧ child_version cfg t req = Ok v.

(** The child of the [i]-th request: pending, first in line by age in request order. *)
Definition child_of (e : Entities) (parent : Job) (now : Time) (i : Z) (req : ChildJobRequest) (c : Job) : Prop :=
  ∃ t v, taskDefs e !! cjreq_Task req = Some t ∧ child_version cfg t req = Ok v ∧
    job_ParentJobID c = job_ID parent ∧ job_TaskName c = task_Name t ∧ job_ArtifactVersion c = v ∧
    job_Status c = JobStatusPending ∧ job_Phase c = JobPhaseRun ∧ job_Cost c = task_Cost t ∧
    job_Payload c = cjreq_Payload req ∧ job_Priority c = cjreq_Priority req ∧
    job_CreatedAt c = (now + i)%Z ∧ job_Attempts c = 0%Z.

(** [children] are the children of [reqs], numbered from [i]. *)
Fixpoint children_of (e : Entities) (parent : Job) (now : Time) (i : Z) (reqs : list ChildJobRequest)
    (children : list Job) : Prop :=
  match reqs, children with
  | [], [] => True
  | req :: reqs, c :: children => child_of e parent now i req c ∧ children_of e parent now (i + 1) reqs children
  | _, _ => False
  end.

Lemma children_of_ext e e' parent now i reqs children : taskDefs e' = taskDefs e →
  children_of e' parent now i reqs children → children_of e parent now i reqs children.
Proof.
  intros Ht. revert i children. induction reqs as [|r reqs IH]; intros i [|c children]; try done. simpl.
  intros [Hc Hrest]. split; [|by apply IH]. unfold child_of in *. by rewrite <- Ht.
Qed.

Lemma children_of_lookup e parent now i reqs children k req : children_of e parent now i reqs children →
  reqs !! k = Some req → ∃ c, children !! k = Some c ∧ child_of e parent now (i + Z.of_nat k) req c.
Proof.
  revert i children k. induction reqs as [|r reqs IH]; intros i [|c children] k; try done. simpl. intros [Hc Hrest].
  destruct k as [|k]; simpl.
  - intros [= ->]. exists c. by rewrite Z.add_0_r.
  - intros Hk. destruct (IH _ _ _ Hrest Hk) as (c' & Hc' & Hof). exists c'. split; [done|].
    by replace (i + Z.of_nat (S k))%Z with (i + 1 + Z.of_nat k)%Z by lia.
Qed.

Lemma children_of_length e parent now i reqs children : children_of e parent now i reqs children →
  length children = length reqs.
Proof.
  revert i children. induction reqs as [|r reqs IH]; intros i [|c children]; try done. simpl.
  intros [_ Hrest]. f_equal. by eapply IH.
Qed.

(** No identifier still to be made is in use. *)
Definition ulids_fresh m : Prop := ∀ k, wd_ulids (mg_webhooks m) ≤ k → jobs (ents m) !! ulid k = None.

Lemma save_children_spec parent now reqs m i : ulids_fresh m →
  Forall (request_ok (ents m)) reqs →
  ∃ m' children, save_children cfg m parent i reqs now = Some (m', Ok children) ∧
    mg_queue m' = mg_queue m ∧ mg_workers m' = mg_workers m ∧ taskDefs (ents m') = taskDefs (ents m) ∧
    NoDup (job_ID <$> children) ∧
    (∀ c, c ∈ children → jobs (ents m) !! job_ID c = None ∧ jobs (ents m') !! job_ID c = Some c) ∧
    (∀ id, id ∉ job_ID <$> children → jobs (ents m') !! id = jobs (ents m) !! id) ∧
    children_of (ents m) parent now i reqs children.
Proof.
  revert m i. induction reqs as [|req reqs IH]; intros m i Hfresh Hok.
  { exists m, []. split_and!; try done; [apply NoDup_nil_2|set_solver]. }
  apply Forall_cons in Hok as [(t & v & Ht & Hv) Hok]. cbn [save_children]. unfold GetTask. rewrite Ht, Hv. cbn zeta.
  set (n := wd_ulids (mg_webhooks m)). set (m1 := m <| mg_webhooks := _ |>).
  set (child := MkJob _ _ _ _ _ _ _ _ _ _ _ _ _ _ _ _ _ _ _).
  pose proof (ent_SaveJob (mg_store m1) child) as Hs. pose proof (err_SaveJob (mg_store m1) child) as He.
  destruct (st_SaveJob (mg_store m1) child) as [s err]. cbn [fst snd] in Hs, He. subst err.
  set (m2 := set_store m1 s).
  assert (jobs (ents m2) = <[ulid n := child]> (jobs (ents m)) ∧ taskDefs (ents m2) = taskDefs (ents m)) as [J2 T2].
  { change (ents m2) with (entities s). by rewrite Hs. }
  pose proof (Hfresh n ltac:(done)) as Hn.
  assert (ulids_fresh m2) as Hfresh2.
  { intros k Hk. simpl in Hk. rewrite J2, lookup_insert_ne; [apply Hfresh; unfold n in Hk; lia|].
    intros Heq%(inj ulid). lia. }
  destruct (IH m2 (i + 1)%Z Hfresh2) as (m' & cs & Hsave & Q & W & T & Hnd & Hcs & Hrest & Hall).
  { eapply Forall_impl; [exact Hok|]. intros r (t' & v' & Ht' & Hv'). exists t', v'. by rewrite T2. }
  assert (ulid n ∉ job_ID <$> cs) as Hnot.
  { rewrite list_elem_of_fmap. intros (c & Hid & Hc). destruct (Hcs c Hc) as [Hnone _].
    rewrite <- Hid, J2, lookup_insert_eq in Hnone. done. }
  exists m', (child :: cs). fold m2. rewrite Hsave. split_and!.
  - done.
  - by rewrite Q.
  - by rewrite W.
  - by rewrite T.
  - by apply NoDup_cons.
  - intros c [->|Hc]%elem_of_cons.
    + split; [done|]. change (job_ID child) with (ulid n). rewrite (Hrest (ulid n) Hnot), J2. apply lookup_insert_eq.
    + destruct (Hcs c Hc) as [Hnone Hsome]. split; [|done]. rewrite J2 in Hnone.
      by apply lookup_insert_None in Hnone as [? _].
  - intros id Hid. rewrite fmap_cons, elem_of_cons in Hid. rewrite Hrest by naive_solver.
    rewrite J2, lookup_insert_ne by naive_solver. done.
  - split; [exists t, v; by split_and!|]. by eapply children_of_ext.
Qed.

Lemma save_children_app parent now reqs1 reqs2 m i :
  save_children cfg m parent i (reqs1 ++ reqs2) now =
    '(m1, saved) ← save_children cfg m parent i reqs1 now;
    match saved with
    | Err e => Some (m1, Err e)
    | Ok cs1 =>
        '(m2, saved2) ← save_children cfg m1 parent (i + Z.of_nat (length reqs1)) reqs2 now;
        Some (m2, match saved2 with Ok cs2 => Ok (cs1 ++ cs2) | Err e => Err e end)
    end.
Proof.
  revert m i. induction reqs1 as [|req reqs1 IH]; intros m i; cbn [app save_children mbind option_bind].
  { cbn [length]. rewrite Z.add_0_r. destruct (save_children cfg m parent i reqs2 now) as [[m2 [cs|e]]|]; done. }
  destruct (GetTask _ _) as [t|e]; [|unfold fail_children; by destruct (fail_parent _ _ _ _) as [[]|]].
  destruct (child_version cfg t req) as [v|[reason e]]; [|unfold fail_children; by destruct (fail_parent _ _ _ _) as [[]|]].
  cbn zeta. destruct (st_SaveJob _ _) as [s [e|]]; [unfold fail_children; by destruct (fail_parent _ _ _ _) as [[]|]|].
  rewrite IH. set (m1 := set_store _ s). replace (i + 1 + Z.of_nat (length reqs1))%Z
    with (i + Z.of_nat (length (req :: reqs1)))%Z by (cbn [length]; lia).
  destruct (save_children cfg m1 parent (i + 1) reqs1 now) as [[m2 [cs|e]]|]; [|done..].
  cbn [mbind option_bind]. by destruct (save_children cfg m2 parent _ reqs2 now) as [[m3 [cs2|e]]|].
Qed.

(** The parent's subscription to its own failure. *)
Definition failure_subscribed job (reason : string) (now : Time) : bool :=
  ShouldDispatchEvent job eventJobFailed &&
  match marshal_event (MkWebhookEvent eventJobFailed (job_ID job) (job_ParentJobID job) now
          [("failure_reason", EvString reason)]) with Ok _ => true | Err _ => false end.

Definition failed_parent (reason : string) (now : Time) job : Job :=
  job <| job_Status := JobStatusFailed |> <| job_FailureReason := reason |> <| job_UpdatedAt := now |>
      <| job_CompletedAt := Some now |> <| job_Duration := Some (time_Sub now (job_CreatedAt job)) |>.

Lemma fail_parent_spec m job reason now : jobs (ents m) !! job_ID job = Some job →
  if failure_subscribed job reason now then fail_parent m job reason now = None
  else ∃ m', fail_parent m job reason now = Some (m', None) ∧
    only_jobs m m' (<[job_ID job := failed_parent reason now job]> (jobs (ents m))).
Proof.
  intros Hj. unfold fail_parent. rewrite Hj. fold (failure_subscribed job reason now).
  destruct (failure_subscribed job reason now); [done|].
  change (λ j, j <| job_Status := JobStatusFailed |> <| job_FailureReason := reason |> <| job_UpdatedAt := now |>
    <| job_CompletedAt := Some now |> <| job_Duration := Some (time_Sub now (job_CreatedAt j)) |>)
    with (failed_parent reason now).
  pose proof (only_jobs_update m (job_ID job) (failed_parent reason now)) as O.
  destruct (update_job_spec m (job_ID job) (failed_parent reason now)) as (Uerr & _).
  destruct (update_job m (job_ID job) _) as [m' err]. cbn [fst snd] in *. unfold UpdateJob in Uerr.
  rewrite Hj in Uerr. simpl in Uerr. subst err. exists m'. split; [done|].
  destruct O as [Oj Oq Oc Ow Ot]. split; try done. rewrite Oj. apply map_eq. intros id.
  destruct (decide (id = job_ID job)) as [->|].
  - by rewrite lookup_alter_eq, lookup_insert_eq, Hj.
  - by rewrite lookup_alter_ne, lookup_insert_ne.
Qed.
End children.
