(* ===== verification/JobProperties.v ===== *)
(** * Properties of the job lifecycle

    The theorems about whole messages, requests and restarts, from the
    descriptions of the handlers in JobFlow. *)
From S2P Require Import Prelude GoStd External Json Contract Store MemStore Webhooks Heap PriorityQueue Cache.
From S2P Require Import WorkerConn WorkerPool Proto Config Manager Dispatch Lifecycle Orchestrator JobFlow.

Section helpers.
Context `{SimpleSet SS} `{Store ST} `{GoRuntime} `{Ulid} `{SerialLanes} `{WebhookEnv} `{WorkerSelector SS}.
Context `{ConsolidateJson} (cfg : Config).
Implicit Types (m : Manager SS ST) (job : Job).

Lemma result_success m a job msg now : jobs (ents m) !! rm_JobID msg = Some job → rm_Type msg = ResultSuccess →
  handleWorkerMessage cfg m a (MResult msg) now = Some (handleJobCompleted m a job msg now).
Proof. intros Hj Ht. simpl. unfold handleResultMessage, GetJob. by rewrite Hj, Ht. Qed.

Lemma result_error m a job msg now : jobs (ents m) !! rm_JobID msg = Some job → rm_Type msg = ResultError →
  handleWorkerMessage cfg m a (MResult msg) now = Some (handleJobError cfg m a job msg now).
Proof. intros Hj Ht. simpl. unfold handleResultMessage, GetJob. by rewrite Hj, Ht. Qed.

Lemma result_subjobs m a job msg now : jobs (ents m) !! rm_JobID msg = Some job → rm_Type msg = ResultSubjobs →
  handleWorkerMessage cfg m a (MResult msg) now =
    '(m1, e) ← handleSubjobsEmitted cfg m job (rm_Jobs msg) now;
    let '(m2, _) := restore_capacity m1 a job now in
    match e with
    | Some e => Some (send_error m2 a "" (Error e))
    | None => Some (closeRun m2 (resolveRunID m (rm_JobID msg) (rm_RunID msg)) (rm_JobID msg) RunStatusCompleted
                ResultSubjobs (rm_Payload msg) "" 0 now)
    end.
Proof. intros Hj Ht. simpl. unfold handleResultMessage, GetJob. by rewrite Hj, Ht. Qed.
Lemma completion_spec m a w job msg now :
  manager_ok m → (∀ ns, lane_error ns = None) → wp_conns (mg_workers m) !! a = Some w →
  jobs (ents m) !! rm_JobID msg = Some job → IsTerminal (job_Status job) = false → rm_Type msg = ResultSuccess →
  ∃ m', handleWorkerMessage cfg m a (MResult msg) now = Some m' ∧
    let pid := job_ParentJobID job in
    let js := <[rm_JobID msg := complete_job (rm_Payload msg) now job]> (jobs (ents m)) in
    wp_conns (mg_workers m') = <[a := CompleteTask w (job_ID job) (job_Cost job) now]> (wp_conns (mg_workers m)) ∧
    (∀ r, rm_RunID msg ≠ "" → runs (ents m) !! rm_RunID msg = Some r →
      ∃ r', runs (ents m') !! rm_RunID msg = Some r' ∧ run_Status r' = RunStatusCompleted ∧
        run_OutputPayload r' = rm_Payload msg ∧ run_FinishedAt r' = now) ∧
    ((∃ parent, consolidation_due js pid parent ∧
        jobs (ents m') = <[pid := schedule_consolidation now parent]> js ∧
        Values (mg_queue m') ≡ₚ
          (parent <| job_Status := JobStatusPending |> <| job_Phase := JobPhaseConsolidate |>) :: Values (mg_queue m)) ∨
     ((∀ parent, ¬ consolidation_due js pid parent) ∧ jobs (ents m') = js ∧ mg_queue m' = mg_queue m)).
Proof.
  intros Hm Hopen Ha Hj Ht Hok. eexists. split; [by apply result_success|]. cbn zeta.
  destruct (handleJobCompleted_spec m a w job msg now Hm Hopen Ha Hj Ht) as (m1 & -> & Hm1 & J1 & Q1 & W1 & R1).
  destruct (consolidate_parent_spec m1 (job <| job_Status := JobStatusCompleted |>) now Hm1) as (W & R & Hcase).
  change (job_ParentJobID (job <| job_Status := JobStatusCompleted |>)) with (job_ParentJobID job) in Hcase.
  rewrite J1, Q1 in Hcase. rewrite W, W1, R. split; [done|]. split; [|exact Hcase].
  intros r Hne Hr. eexists. by rewrite (R1 r Hne Hr).
Qed.

End helpers.

(** ** Properties *)

(** Retries of a failing job back off exponentially. Before the n-th retry the manager waits the policy's
    delay doubled n - 1 times, or the configured maximum if that is smaller, as long as the doubled value fits
    64 bits; from the 65th attempt on it has been shifted out entirely and the job is retried at once,
    whatever the maximum. *)
Theorem retry_delay_doubles (p : RetryPolicy) (n : Z) :
  in_int64 (RetryDelay p) → (0 < RetryDelay p)%Z → (0 ≤ MaxRetryDelay p)%Z → (1 ≤ n)%Z →
  ((RetryDelay p * 2 ^ (n - 1) ≤ MaxInt64)%Z →
    retryDelay p n = if decide (MaxRetryDelay p = 0%Z) then (RetryDelay p * 2 ^ (n - 1))%Z
                     else Z.min (MaxRetryDelay p) (RetryDelay p * 2 ^ (n - 1))) ∧
  ((65 ≤ n)%Z → retryDelay p n = 0%Z).
Proof.
  intros Hd Hpos Hmax Hn. unfold retryDelay. rewrite (proj2 (Z.eqb_neq _ _)) by lia. cbn zeta.
  rewrite doubled_spec, Z2Nat.id by (done || lia). split.
  - intros Hfit. rewrite wrap64_id by (unfold in_int64, MaxInt64, MinInt64 in *; nia).
    case_decide as Hz; [by rewrite Hz|]. rewrite (proj2 (Z.ltb_lt 0 _)) by lia. simpl.
    destruct (Z.ltb_spec (MaxRetryDelay p) (RetryDelay p * 2 ^ (n - 1))); lia.
  - intros Hn65. replace (RetryDelay p * 2 ^ (n - 1))%Z
      with (0 + 18446744073709551616 * (RetryDelay p * 2 ^ (n - 65)))%Z.
    + rewrite wrap64_plus. change (wrap64 0) with 0%Z. rewrite (proj2 (Z.ltb_ge (MaxRetryDelay p) 0)) by lia.
      by rewrite andb_false_r.
    + replace (n - 1)%Z with (64 + (n - 65))%Z by lia. rewrite Z.pow_add_r by lia. lia.
Qed.

(** C4: A completed job is recorded once and completely. When a worker reports success for a job that is not
    final, the handler returns; the job is Completed with the result, its run is closed with the output, the
    worker gets the job's cost back, and the parent is queued for consolidation exactly when it awaits
    children and with this job all of its children are Completed; otherwise the queue is untouched. *)
Theorem job_completion `{SimpleSet SS} `{Store ST} `{GoRuntime} `{Ulid} `{SerialLanes} `{WebhookEnv}
    `{WorkerSelector SS} `{ConsolidateJson} (cfg : Config) (m : Manager SS ST) (a : nat) (w : WorkerConn SS)
    (job : Job) (msg : ResultMessage) (now : Time) :
  manager_ok m → (∀ ns, lane_error ns = None) → wp_conns (mg_workers m) !! a = Some w →
  jobs (ents m) !! rm_JobID msg = Some job → IsTerminal (job_Status job) = false → rm_Type msg = ResultSuccess →
  ∃ m', handleWorkerMessage cfg m a (MResult msg) now = Some m' ∧
    let pid := job_ParentJobID job in
    let js := <[rm_JobID msg := complete_job (rm_Payload msg) now job]> (jobs (ents m)) in
    wp_conns (mg_workers m') = <[a := CompleteTask w (job_ID job) (job_Cost job) now]> (wp_conns (mg_workers m)) ∧
    (∀ r, rm_RunID msg ≠ "" → runs (ents m) !! rm_RunID msg = Some r →
      ∃ r', runs (ents m') !! rm_RunID msg = Some r' ∧ run_Status r' = RunStatusCompleted ∧
        run_OutputPayload r' = rm_Payload msg ∧ run_FinishedAt r' = now) ∧
    ((∃ parent, consolidation_due js pid parent ∧
        jobs (ents m') = <[pid := schedule_consolidation now parent]> js ∧
        Values (mg_queue m') ≡ₚ
          (parent <| job_Status := JobStatusPending |> <| job_Phase := JobPhaseConsolidate |>) :: Values (mg_queue m)) ∨
     ((∀ parent, ¬ consolidation_due js pid parent) ∧ jobs (ents m') = js ∧ mg_queue m' = mg_queue m)).
Proof. apply completion_spec. Qed.

(** C5: A failed attempt is either retried later or final, never both and never lost. When a worker reports an
    error for a job that is not final, the worker gets the cost back and the attempt and its reason are
    recorded. If the exit code forbids retries or the attempts of the effective policy are used up, the
    job fails and with it its parent, for the same reason; otherwise exactly one retry timer is armed, due
    after the policy's backoff. The queue is untouched either way. *)
Theorem job_failure `{SimpleSet SS} `{Store ST} `{GoRuntime} `{Ulid} `{SerialLanes} `{WebhookEnv}
    `{WorkerSelector SS} `{ConsolidateJson} (cfg : Config) (m : Manager SS ST) (a : nat) (w : WorkerConn SS)
    (job : Job) (msg : ResultMessage) (now : Time) :
  manager_ok m → (∀ ns, lane_error ns = None) → wp_conns (mg_workers m) !! a = Some w →
  jobs (ents m) !! rm_JobID msg = Some job → IsTerminal (job_Status job) = false → rm_Type msg = ResultError →
  ∃ m', handleWorkerMessage cfg m a (MResult msg) now = Some m' ∧
    let attempts := wrap64 (job_Attempts job + 1) in
    let recorded := <[rm_JobID msg := record_attempt attempts (rm_Reason msg) now job]> (jobs (ents m)) in
    mg_queue m' = mg_queue m ∧
    wp_conns (mg_workers m') = <[a := CompleteTask w (job_ID job) (job_Cost job) now]> (wp_conns (mg_workers m)) ∧
    if permanent cfg m job msg
    then jobs (ents m') = fail_chain job (rm_Reason msg) now recorded ∧ mg_timers m' = mg_timers m
    else jobs (ents m') = recorded ∧
         mg_timers m' = mg_timers m ++
           [MkRetryTimer (now + retryDelay (effective_policy cfg m job) attempts)%Z (rm_JobID msg)].
Proof.
  intros Hm Hopen Ha Hj Ht He. eexists. split; [by apply result_error|].
  destruct (handleJobError_spec cfg m a w job msg now Hm Hopen Ha Hj Ht) as (Q & _ & W & Hif).
  exact (conj Q (conj W Hif)).
Qed.

(** What cancelling does to the jobs, the queue and the marks. *)
Lemma cancelled_jobs `{SimpleSet SS} `{Store ST} `{GoRuntime} `{Ulid} `{SerialLanes} `{WebhookEnv}
    `{WorkerSelector SS} (m : Manager SS ST) (id : string) (job : Job) (now : Time) :
  manager_ok m → jobs (ents m) !! id = Some job → job_ParentJobID job ≠ id →
  let m' := cancelJobByID m id now in
  (∀ x, jobs (ents m') !! x =
    (λ j, if decide (x = id) then cancel_job now j
          else if decide (job_ParentJobID j = id) then cancelled_child now j else j) <$> jobs (ents m) !! x) ∧
  mg_queue m' = mg_queue m ∧
  ∀ x, x ∈ ss_view (mg_cancelledJobIDs m') ↔ x ∈ ss_view (mg_cancelledJobIDs m) ∨
    ∃ j, jobs (ents m) !! x = Some j ∧ (x = id ∨ job_ParentJobID j = id) ∧ job_Status j = JobStatusPending.
Proof.
  intros Hm Hj Hself. cbn zeta. unfold cancelJobByID, GetJob. rewrite Hj.
  destruct (children_stored (ents m) id (mo_ids _ Hm)) as [Hnd Hstored].
  destruct (cancel_children_spec (ListChildJobs (ents m) id) m now Hnd) as (J1 & J2 & Q & C).
  { intros c Hc. by apply Hstored. }
  set (m1 := foldl (cancel_child now) m (ListChildJobs (ents m) id)) in *.
  pose proof (ids_jobs _ (mo_ids _ Hm) _ _ Hj) as Hid.
  set (m2 := match job_Status job with JobStatusRunning => _ | _ => _ end).
  assert (ents m2 = ents m1 ∧ mg_queue m2 = mg_queue m1 ∧ mg_cancelledJobIDs m2 = mg_cancelledJobIDs m1) as (E2 & Q2 & C2).
  { unfold m2. destruct (job_Status job); try done; apply send_cancel_core. }
  set (m3 := if bool_decide _ then _ else _).
  assert (ents m3 = ents m1 ∧ mg_queue m3 = mg_queue m1 ∧ ∀ x, x ∈ ss_view (mg_cancelledJobIDs m3) ↔
    x ∈ ss_view (mg_cancelledJobIDs m1) ∨ x = id ∧ job_Status job = JobStatusPending) as (E3 & Q3 & C3).
  { unfold m3. case_bool_decide as Hp.
    - split; [done|]. split; [done|]. intros x. change (mg_cancelledJobIDs (m2 <| mg_cancelledJobIDs := ?c |>)) with c.
      rewrite ss_view_Add, C2, Hid, elem_of_union, elem_of_singleton. naive_solver.
    - split; [done|]. split; [done|]. intros x. rewrite C2. naive_solver. }
  destruct (only_jobs_update m3 id (cancel_job now)) as [Oj Oq Oc _ _].
  destruct (update_job m3 id (cancel_job now)) as [m4 err]. cbn [fst] in Oj, Oq, Oc.
  pose proof (core_fire m4 job eventJobCancelled [] now) as C5. unfold FireJobCancelled.
  rewrite (sc_jobs _ _ C5), (sc_queue _ _ C5), (sc_cancelled _ _ C5), Oj, Oq, Oc, E3, Q3. split_and!; [|done|].
  - intros x. destruct (decide (x = id)) as [->|Hx].
    + rewrite lookup_alter_eq, J2; [done|]. rewrite list_elem_of_fmap. intros (c & -> & Hc).
      apply Hstored in Hc as [Hc Hcp]. congruence.
    + rewrite lookup_alter_ne by done. destruct (jobs (ents m) !! x) as [j|] eqn:Hx'.
      * simpl. pose proof (ids_jobs _ (mo_ids _ Hm) _ _ Hx') as <-. case_decide as Hp.
        -- apply J1, Hstored. done.
        -- rewrite J2; [done|]. rewrite list_elem_of_fmap. intros (c & Heq & Hc). apply Hstored in Hc as [Hc Hcp].
           rewrite <- Heq in Hc. congruence.
      * simpl. rewrite J2; [done|]. rewrite list_elem_of_fmap. intros (c & -> & Hc). apply Hstored in Hc as [Hc Hcp]. congruence.
  - intros x. rewrite C3, C. split.
    + intros [[?|(c & Hc & -> & Hp)]|[-> Hp]]; [by left|right..].
      * apply Hstored in Hc as [Hc Hcp]. eauto.
      * eauto.
    + intros [?|(j & Hx & [->|Hp] & Hs)]; [by left; left|right|left; right].
      * split; [done|]. congruence.
      * exists j. pose proof (ids_jobs _ (mo_ids _ Hm) _ _ Hx) as <-. by rewrite Hstored.
Qed.

(** C14: Cancelling reaches the job, its direct children and their workers. Afterwards the job is Cancelled, every
    child that was not final is Cancelled and every other stored job, task and run is unchanged; the queue is
    untouched, and precisely the pending ones among them are marked so that dispatch drops them. Every worker
    connection that can still be written has received one cancel line for each child it holds that is Proposing,
    Provisioning or Running, and for the job itself in these states or Accepted, in that order; nothing else of
    any connection changed. *)
Theorem cancel_reaches_children `{SimpleSet SS} `{Store ST} `{GoRuntime} `{Ulid} `{SerialLanes} `{WebhookEnv}
    `{WorkerSelector SS} (m : Manager SS ST) (id : string) (job : Job) (now : Time) :
  manager_ok m → jobs (ents m) !! id = Some job → job_ParentJobID job ≠ id →
  let m' := cancelJobByID m id now in
  let told := (ListChildJobs (ents m) id ≫= told_child) ++ told_self job in
  (∀ x, jobs (ents m') !! x =
    (λ j, if decide (x = id) then cancel_job now j
          else if decide (job_ParentJobID j = id) then cancelled_child now j else j) <$> jobs (ents m) !! x) ∧
  taskDefs (ents m') = taskDefs (ents m) ∧ runs (ents m') = runs (ents m) ∧ mg_queue m' = mg_queue m ∧
  (∀ x, x ∈ ss_view (mg_cancelledJobIDs m') ↔ x ∈ ss_view (mg_cancelledJobIDs m) ∨
    ∃ j, jobs (ents m) !! x = Some j ∧ (x = id ∨ job_ParentJobID j = id) ∧ job_Status j = JobStatusPending) ∧
  ∀ a, wp_conns (mg_workers m') !! a =
    (λ w, written w (cancel_lines (mg_workers m) a told)) <$> wp_conns (mg_workers m) !! a.
Proof.
  intros Hm Hj Hself. cbn zeta. destruct (cancelled_jobs m id job now Hm Hj Hself) as (J & Q & C).
  destruct (cancel_rest_whole m id job now Hj (ids_jobs _ (mo_ids _ Hm) _ _ Hj)) as [W T R].
  split_and!; [done..|]. rewrite W. apply tells_spec.
Qed.

(** C12: A restarted manager queues exactly the work that is left. After recovery over any store, the dispatch
    queue holds every stored job that is now Pending, once, as stored, and nothing else; jobs that were being
    proposed, provisioned or run have become Pending, every other job is as it was. *)
Theorem recovery_rebuilds_queue `{SimpleSet SS} `{Store ST} `{GoRuntime} `{Ulid} `{SerialLanes} `{WebhookEnv}
    `{WorkerSelector SS} (cfg : Config) (store : ST) (n : nat) (now : Time) :
  ids_ok (entities store) →
  let m' := RecoverJobs cfg (New store n : Manager SS ST) now in
  (∀ id, jobs (ents m') !! id =
    (λ j, if recoverable (job_Status j) then to_pending j else j) <$> jobs (entities store) !! id) ∧
  NoDup (job_ID <$> Values (mg_queue m')) ∧
  ∀ j, j ∈ Values (mg_queue m') ↔ jobs (ents m') !! job_ID j = Some j ∧ job_Status j = JobStatusPending.
Proof.
  intros Hids. pose proof (New_ok (exact := True) store n Hids) as Hm. cbn zeta.
  destruct (RecoverJobs_spec cfg (New store n) now Hm) as [J V]. set (m' := RecoverJobs cfg _ now) in *.
  change (ents (New store n)) with (entities store) in J, V.
  change (Values (mg_queue (New store n : Manager SS ST))) with (@nil Job) in V. rewrite app_nil_r in V.
  pose proof (ids_jobs _ Hids) as Hid. split; [exact J|]. split.
  - rewrite V, fmap_app, <- list_fmap_compose. apply NoDup_app.
    pose proof (range_values_NoDup (jobs (entities store)) job_ID Hid) as Hnd. split_and!.
    + unfold ListPendingJobs. rewrite sort_slice_perm. by apply filter_fmap_NoDup.
    + intros x (j & -> & [[i Hj] Hp]%elem_of_ListPendingJobs)%list_elem_of_fmap.
      intros (k & Hk & [[i' Hk'] Hr]%elem_of_ListRecoverableJobs)%list_elem_of_fmap. simpl in Hk.
      pose proof (Hid _ _ Hj) as E1. pose proof (Hid _ _ Hk') as E2. assert (i' = i) as -> by congruence.
      assert (k = j) as -> by congruence. by rewrite Hp in Hr.
    + by apply (filter_fmap_NoDup job_ID).
  - intros j. rewrite V, elem_of_app, J. split.
    + intros [[[i Hj] Hp]%elem_of_ListPendingJobs|(k & -> & [[i Hk] Hr]%elem_of_ListRecoverableJobs)%list_elem_of_fmap].
      * rewrite (Hid _ _ Hj), Hj. simpl. by rewrite Hp.
      * change (job_ID (to_pending k)) with (job_ID k). rewrite (Hid _ _ Hk), Hk. simpl. by rewrite Hr.
    + intros [(k & Hk & ->)%fmap_Some Hp]. destruct (recoverable (job_Status k)) eqn:Hr.
      * right. apply list_elem_of_fmap. exists k. split; [done|]. apply elem_of_ListRecoverableJobs. by eauto.
      * left. apply elem_of_ListPendingJobs. by eauto.
Qed.

(** C13: A job that emits child jobs fans out completely. If every requested task exists and its artifact version
    can be pinned, the handler returns; each request has become one stored Pending child with a new id, the
    cost of its task and a creation time in request order, all of them and nothing else are added to the queue,
    the parent awaits children, no other job changes and the worker gets the parent's cost back. *)
Theorem subjobs_fan_out `{SimpleSet SS} `{Store ST} `{GoRuntime} `{Ulid} `{SerialLanes} `{WebhookEnv}
    `{WorkerSelector SS} `{ConsolidateJson} (cfg : Config) (m : Manager SS ST) (a : nat) (w : WorkerConn SS)
    (job : Job) (msg : ResultMessage) (now : Time) :
  manager_ok m → (∀ ns, lane_error ns = None) → wp_conns (mg_workers m) !! a = Some w →
  jobs (ents m) !! rm_JobID msg = Some job → IsTerminal (job_Status job) = false → rm_Type msg = ResultSubjobs →
  ulids_fresh m → Forall (request_ok cfg (ents m)) (rm_Jobs msg) →
  ∃ m' children, handleWorkerMessage cfg m a (MResult msg) now = Some m' ∧
    children_of cfg (ents m) job now 0 (rm_Jobs msg) children ∧ NoDup (job_ID <$> children) ∧
    (∀ c, c ∈ children → jobs (ents m) !! job_ID c = None ∧ jobs (ents m') !! job_ID c = Some c) ∧
    jobs (ents m') !! rm_JobID msg =
      Some (job <| job_Status := JobStatusAwaitingChildren |> <| job_UpdatedAt := now |>) ∧
    (∀ id, id ≠ rm_JobID msg → id ∉ job_ID <$> children → jobs (ents m') !! id = jobs (ents m) !! id) ∧
    Values (mg_queue m') ≡ₚ children ++ Values (mg_queue m) ∧
    wp_conns (mg_workers m') = <[a := CompleteTask w (job_ID job) (job_Cost job) now]> (wp_conns (mg_workers m)).
Proof.
  intros Hm Hopen Ha Hj Ht Hs Hfresh Hok. rewrite (result_subjobs cfg m a job msg now Hj Hs).
  unfold handleSubjobsEmitted. rewrite Ht.
  destruct (save_children_spec cfg job now (rm_Jobs msg) m 0 Hfresh Hok)
    as (m1 & children & Hsave & Q1 & W1 & _ & Hnd & Hcs & Hrest & Hof).
  rewrite Hsave. cbn [mbind option_bind].
  pose proof (ids_jobs _ (mo_ids _ Hm) _ _ Hj) as Hid.
  assert (rm_JobID msg ∉ job_ID <$> children) as Hpar.
  { rewrite list_elem_of_fmap. intros (c & Heq & Hc). destruct (Hcs c Hc) as [Hnone _]. congruence. }
  set (await := λ j, j <| job_Status := JobStatusAwaitingChildren |> <| job_UpdatedAt := now |>).
  pose proof (update_job_spec m1 (job_ID job) await) as (Uerr & _).
  destruct (only_jobs_update m1 (job_ID job) await) as [Oj Oq _ Ow _].
  destruct (update_job m1 (job_ID job) await) as [m2 err]. cbn [fst snd] in *.
  assert (jobs (ents m1) !! job_ID job = Some job) as Hj1 by (rewrite Hid, Hrest; done).
  unfold UpdateJob in Uerr. rewrite Hj1 in Uerr. cbn [snd] in Uerr. subst err. cbn [mbind option_bind].
  destruct (EnqueueJobs_spec m2 children) as (V3 & E3 & W3); [rewrite Oq, Q1; apply Hm|].
  set (m3 := EnqueueJobs m2 children) in *.
  assert (wp_conns (mg_workers m3) !! a = Some w) as Ha3 by by rewrite W3, Ow, W1.
  destruct (restore_capacity_spec m3 a job w now Ha3 Hopen) as (_ & Re & Rq & _ & _ & _ & Rw).
  destruct (restore_capacity m3 a job now) as [m4 err4]. cbn [fst snd] in *.
  eexists _, children. split; [reflexivity|].
  match goal with |- context [closeRun m4 ?r ?i ?st ?rt ?o ?re ?c ?n] =>
    pose proof (core_closeRun m4 r i st rt o re c n) as C5; set (m5 := closeRun m4 r i st rt o re c n) in * end.
  assert (jobs (ents m5) = alter await (rm_JobID msg) (jobs (ents m1))) as J5.
  { rewrite (sc_jobs _ _ C5), Re, E3, Oj, Hid. done. }
  split_and!; [done|done|..].
  - intros c Hc. destruct (Hcs c Hc) as [Hnone Hsome]. split; [done|]. rewrite J5, lookup_alter_ne; [done|]. congruence.
  - by rewrite J5, lookup_alter_eq, Hrest, Hj.
  - intros id Hne Hni. by rewrite J5, lookup_alter_ne, Hrest.
  - rewrite (sc_queue _ _ C5), Rq, V3, Oq, Q1. done.
  - by rewrite (sc_workers _ _ C5), Rw, W3, Ow, W1.
Qed.

(** Emitting a child of an unknown task fails the parent, or hangs. When a request names a task that does not
    exist and the requests before it are good, the parent ends Failed with a reason that names the task, but the
    children of the earlier requests stay stored as Pending and outside the queue. If the parent subscribes
    to its own failure event the handler never returns: the event is queued inside the store's critical
    section, which needs the same lock. *)
Theorem bad_child_request `{SimpleSet SS} `{Store ST} `{GoRuntime} `{Ulid} `{SerialLanes} `{WebhookEnv}
    `{WorkerSelector SS} `{ConsolidateJson} (cfg : Config) (m : Manager SS ST) (a : nat) (w : WorkerConn SS)
    (job : Job) (msg : ResultMessage) (good bad : list ChildJobRequest) (req : ChildJobRequest) (now : Time) :
  manager_ok m → (∀ ns, lane_error ns = None) → wp_conns (mg_workers m) !! a = Some w →
  jobs (ents m) !! rm_JobID msg = Some job → IsTerminal (job_Status job) = false → rm_Type msg = ResultSubjobs →
  ulids_fresh m → rm_Jobs msg = good ++ req :: bad → Forall (request_ok cfg (ents m)) good →
  taskDefs (ents m) !! cjreq_Task req = None →
  let reason := "child job targets unknown task: " +:+ cjreq_Task req in
  if failure_subscribed job reason now then handleWorkerMessage cfg m a (MResult msg) now = None
  else ∃ m' saved, handleWorkerMessage cfg m a (MResult msg) now = Some m' ∧
    jobs (ents m') !! rm_JobID msg = Some (failed_parent reason now job) ∧
    children_of cfg (ents m) job now 0 good saved ∧
    (∀ c, c ∈ saved → jobs (ents m') !! job_ID c = Some c) ∧ mg_queue m' = mg_queue m.
Proof.
  intros Hm Hopen Ha Hj Ht Hs Hfresh Hreqs Hok Hbad. cbn zeta. set (reason := _ +:+ _).
  pose proof (ids_jobs _ (mo_ids _ Hm) _ _ Hj) as Hid.
  rewrite (result_subjobs cfg m a job msg now Hj Hs). unfold handleSubjobsEmitted. rewrite Ht, Hreqs, save_children_app.
  destruct (save_children_spec cfg job now good m 0 Hfresh Hok)
    as (m1 & saved & -> & Q1 & W1 & T1 & _ & Hcs & Hrest & Hof).
  cbn [mbind option_bind save_children]. unfold GetTask. rewrite T1, Hbad. unfold fail_children. fold reason.
  assert (jobs (ents m1) !! job_ID job = Some job) as Hj1.
  { rewrite Hid, Hrest; [done|]. rewrite list_elem_of_fmap. intros (c & Heq & Hc). destruct (Hcs c Hc). congruence. }
  pose proof (fail_parent_spec m1 job reason now Hj1) as Hf. destruct (failure_subscribed job reason now).
  { by rewrite Hf. }
  destruct Hf as (m2 & -> & [Oj Oq _ Ow _]). cbn [mbind option_bind errors_Join].
  assert (wp_conns (mg_workers m2) !! a = Some w) as Ha2 by by rewrite Ow, W1.
  destruct (restore_capacity_spec m2 a job w now Ha2 Hopen) as (_ & Re & Rq & _).
  destruct (restore_capacity m2 a job now) as [m3 err]. cbn [fst snd] in *.
  eexists _, saved. split; [reflexivity|].
  change (ents (send_error m3 a ?c ?t)) with (ents m3). change (mg_queue (send_error m3 a ?c ?t)) with (mg_queue m3).
  rewrite Re, Rq, Oj, Oq, Q1, Hid, lookup_insert_eq. split_and!; [done|done| |done].
  intros c Hc. destruct (Hcs c Hc) as [Hnone Hsome]. rewrite lookup_insert_ne; [done|]. congruence.
Qed.

(** Final states are not final. Whatever status a stored job has, Completed, Failed and Cancelled included, a
    late message about its staging makes it Provisioning again, one about its start makes it Running, a rejection
    makes it Pending and puts it back in the queue, and so does losing the worker it was last assigned to. *)
Theorem late_messages_revive `{SimpleSet SS} `{Store ST} `{GoRuntime} `{Ulid} `{SerialLanes} `{WebhookEnv}
    `{WorkerSelector SS} `{ConsolidateJson} (cfg : Config) (m : Manager SS ST) (a : nat) (job : Job)
    (runID reason : string) (now : Time) :
  manager_ok m → jobs (ents m) !! job_ID job = Some job →
  let id := job_ID job in
  let has st om := ∃ m', om = Some m' ∧ has_status m' id st in
  has JobStatusProvisioning (handleWorkerMessage cfg m a (MStaged id runID) now) ∧
  has JobStatusRunning (handleWorkerMessage cfg m a (MStarting id runID) now) ∧
  (∃ m', handleWorkerMessage cfg m a (MReject id reason) now = Some m' ∧ has_status m' id JobStatusPending ∧
    Values (mg_queue m') ≡ₚ to_pending job :: Values (mg_queue m)) ∧
  let m' := OnJobsRequeued cfg m [id] now in
  has_status m' id JobStatusPending ∧ Values (mg_queue m') ≡ₚ to_pending job :: Values (mg_queue m).
Proof.
  intros Hm Hj. cbn zeta. set (id := job_ID job) in *.
  split_and!.
  - eexists. split; [reflexivity|]. eexists. split; [by apply update_stored|done].
  - eexists. split; [reflexivity|]. unfold handleStartingMessage, GetJob. rewrite Hj. fold id.
    set (f := λ j, j <| job_Status := JobStatusRunning |> <| job_UpdatedAt := now |>).
    destruct (update_stored m id f job Hj) as (_ & Hj1 & _). destruct (update_job m id f) as [m1 err]. cbn [fst] in Hj1.
    cbn zeta. set (m2 := if bool_decide _ then _ else _).
    assert (same_core m1 m2) as C2 by (unfold m2; case_bool_decide; [apply core_update_run|done]).
    exists (f job). split; [|done]. unfold FireJobRunning. rewrite (sc_jobs _ _ (core_fire m2 _ _ _ _)).
    by rewrite (sc_jobs _ _ C2).
  - eexists. split; [reflexivity|]. unfold handleRejectMessage, GetJob. rewrite Hj.
    set (f := λ j, j <| job_Status := JobStatusPending |> <| job_UpdatedAt := now |>).
    destruct (update_stored m id f job Hj) as (He & Hj1 & Hq1). destruct (update_job m id f) as [m1 err].
    cbn [fst snd] in *. subst err. destruct (restore_capacity_frame m1 a job now) as [Re Rq].
    destruct (restore_capacity m1 a job now) as [m2 err2]. cbn [fst] in *. cbn zeta.
    set (m3 := on_worker m2 a _). split.
    + exists (f job). split; [|done]. change (jobs (ents m2) !! id = Some (f job)). by rewrite Re.
    + etrans; [apply (PushItem_values job_higher); change (mg_queue m3) with (mg_queue m2); rewrite Rq, Hq1; apply Hm|].
      change (mg_queue m3) with (mg_queue m2). by rewrite Rq, Hq1.
  - by apply (requeue_spec cfg now m id job).
  - by apply (requeue_spec cfg now m id job).
Qed.

(** A cancelled job never gives its capacity back. Once a job is Cancelled, neither a success nor an error
    report of the worker that ran it changes any connection: the job's cost stays reserved and the job stays in
    flight there until the worker disconnects. *)
Theorem cancelled_job_leaks_capacity `{SimpleSet SS} `{Store ST} `{GoRuntime} `{Ulid} `{SerialLanes} `{WebhookEnv}
    `{WorkerSelector SS} `{ConsolidateJson} (cfg : Config) (m : Manager SS ST) (a : nat) (job : Job)
    (msg : ResultMessage) (now : Time) :
  jobs (ents m) !! rm_JobID msg = Some job → job_Status job = JobStatusCancelled → rm_Type msg ≠ ResultSubjobs →
  ∃ m', handleWorkerMessage cfg m a (MResult msg) now = Some m' ∧ mg_workers m' = mg_workers m ∧
    has_status m' (rm_JobID msg) JobStatusCancelled.
Proof.
  intros Hj Hs Hty. simpl. unfold handleResultMessage, GetJob, handleJobError, handleJobCompleted. rewrite Hj, Hs.
  destruct (rm_Type msg); [| |done].
  - eexists. split; [reflexivity|]. split; [done|]. by exists job.
  - eexists. split; [reflexivity|]. simpl.
    match goal with |- context [closeRun ?m ?r ?i ?st ?rt ?o ?re ?c ?n] =>
      destruct (core_closeRun m r i st rt o re c n) as [Cj _ _ _ Cw _] end.
    split; [done|]. exists job. by rewrite Cj.
Qed.

(** ** Sample states, to evaluate the properties *)
Section samples.
#[local] Existing Instances gset_simple_set canonical_runtime unary_ulid open_lanes sample_env least_loaded tagged_payload.

(** A parent that awaits two running children, a running job of its own and a cancelled one. *)
Definition sample_job (id parent : string) (status : JobStatus) (cost : Z) : Job :=
  zero_job <| job_ID := id |> <| job_ParentJobID := parent |> <| job_TaskName := "resize" |>
           <| job_Status := status |> <| job_Cost := cost |>.

Definition parent_job : Job := sample_job "p" "" JobStatusAwaitingChildren 1.
Definition solo_job : Job := sample_job "solo" "" JobStatusRunning 1.
Definition dead_job : Job := sample_job "dead" "" JobStatusCancelled 1.

Definition family : list Job :=
  [parent_job; sample_job "c1" "p" JobStatusRunning 2; sample_job "c2" "p" JobStatusRunning 2; solo_job; dead_job].

Definition family_store : MemStore :=
  NewMemStore <| mem_entities := foldl SaveJob (SaveTask no_entities wire_task) family |>.

Definition family_manager : Manager (gset string) MemStore := New family_store 0 <| mg_workers := sample_pool |>.

Lemma family_ids : ids_ok (entities family_store).
Proof.
  change (entities family_store) with (foldl SaveJob (SaveTask no_entities wire_task) family).
  assert (ids_ok (SaveTask no_entities wire_task)) as Ht.
  { destruct no_entities_ids as [J T R W]. split; try done. simpl.
    intros id t [[<- <-]|[_ Ht]]%lookup_insert_Some; [done|by apply T]. }
  revert Ht. generalize (SaveTask no_entities wire_task). induction family as [|j l IH]; intros e He; [done|].
  by apply IH, ids_SaveJob.
Qed.

Lemma family_ok : manager_ok family_manager.
Proof. split; [apply New_inv|apply family_ids|apply sample_pool_synced]. Qed.

Lemma family_fresh : ulids_fresh family_manager.
Proof.
  intros k _. change (jobs (ents family_manager)) with (jobs (foldl SaveJob (SaveTask no_entities wire_task) family)).
  cbn [foldl family SaveJob jobs]. simpl.
  repeat (rewrite lookup_insert_ne; [|by destruct k as [|[|]]]). apply lookup_empty.
Qed.

Lemma retry_delay_doubles_witness : retryDelay (MkRetryPolicy 5 Second Minute) 3 = (4 * Second)%Z ∧
  retryDelay (MkRetryPolicy 5 Second Minute) 65 = 0%Z.
Proof.
  pose (p := MkRetryPolicy 5 Second Minute).
  destruct (retry_delay_doubles p 3) as [H3 _]; [vm_compute; split; congruence|vm_compute; congruence..|].
  destruct (retry_delay_doubles p 65) as [_ H65]; [vm_compute; split; congruence|vm_compute; congruence..|].
  split; [|apply H65; lia]. etrans; [apply H3; vm_compute; congruence|vm_compute; reflexivity].
Defined.

Definition report (id : string) (ty : ResultType) (code : Z) (reqs : list ChildJobRequest) : ResultMessage :=
  MkResultMessage "" id "" ty 0 "" "boom" code reqs "{}".

Definition worker_at (a : nat) : WorkerConn (gset string) := default sample_worker (wp_conns sample_pool !! a).

Lemma job_completion_witness : ∃ m',
  handleWorkerMessage dispatch_config family_manager 0 (MResult (report "solo" ResultSuccess 0 [])) 7 = Some m' ∧
  mg_queue m' = mg_queue family_manager.
Proof.
  destruct (job_completion dispatch_config family_manager 0 (worker_at 0) solo_job (report "solo" ResultSuccess 0 []) 7)
    as (m' & Hm' & _ & _ & Hcase);
    [exact family_ok|reflexivity|vm_compute; reflexivity|vm_compute; reflexivity|reflexivity|reflexivity|].
  exists m'. split; [exact Hm'|]. destruct Hcase as [(parent & (Hpid & _) & _)|(_ & _ & Hq)]; [by destruct Hpid|exact Hq].
Defined.

Lemma family_lookup id s : jobs (ents family_manager) !! id = Some s → s ∈ family ∧ job_ID s = id.
Proof.
  intros Hs. split; [|exact (ids_jobs _ family_ids _ _ Hs)]. revert Hs.
  change (jobs (ents family_manager)) with (jobs (foldl SaveJob (SaveTask no_entities wire_task) family)).
  cbn [foldl family SaveJob jobs]. simpl. rewrite !lookup_insert_Some, lookup_empty. unfold family. set_solver.
Qed.

Lemma job_failure_witness : ∃ m',
  handleWorkerMessage dispatch_config family_manager 0 (MResult (report "solo" ResultError 1 [])) 7 = Some m' ∧
  length (mg_timers m') = 1.
Proof.
  destruct (job_failure dispatch_config family_manager 0 (worker_at 0) solo_job (report "solo" ResultError 1 []) 7)
    as (m' & Hm' & _ & _ & Hif);
    [exact family_ok|reflexivity|vm_compute; reflexivity|vm_compute; reflexivity|reflexivity|reflexivity|].
  exists m'. split; [exact Hm'|]. revert Hif.
  replace (permanent dispatch_config family_manager solo_job (report "solo" ResultError 1 [])) with false
    by (vm_compute; reflexivity).
  intros [_ Ht]. rewrite Ht. reflexivity.
Defined.

(** The first child runs on the first worker. *)
Definition busy_family : Manager (gset string) MemStore :=
  set_conn family_manager 0 (worker_at 0 <| wc_inFlight := {["c1"]} |>).

Lemma busy_family_ok : manager_ok busy_family.
Proof. eapply ok_set_conn; [exact family_ok|vm_compute; reflexivity|by split]. Qed.

Lemma cancel_reaches_children_witness : let m' := cancelJobByID busy_family "p" 7 in
  job_Status <$> jobs (ents m') !! "c2" = Some JobStatusCancelled ∧ mg_queue m' = mg_queue busy_family ∧
  (conn_out ∘ wc_conn) <$> wp_conns (mg_workers m') !! 0 = Some [cancel_line "c1"].
Proof.
  destruct (cancel_reaches_children busy_family "p" parent_job 7) as (J & _ & _ & Q & _ & W);
    [exact busy_family_ok|vm_compute; reflexivity|discriminate|].
  split; [|split; [exact Q|]].
  - rewrite (J "c2"). vm_compute. reflexivity.
  - rewrite (W 0). vm_compute. reflexivity.
Defined.

Lemma recovery_rebuilds_queue_witness :
  let m' := RecoverJobs dispatch_config (New family_store 0 : Manager (gset string) MemStore) 7 in
  solo_job <| job_Status := JobStatusPending |> ∈ Values (mg_queue m').
Proof.
  destruct (recovery_rebuilds_queue (SS := gset string) dispatch_config family_store 0 7) as (J & _ & Hin).
  { exact family_ids. }
  apply Hin. split; [|reflexivity]. etrans; [exact (J "solo")|vm_compute; reflexivity].
Defined.

Definition resize_request : ChildJobRequest := MkChildJobRequest "resize" "{}" 0 "".

Lemma resize_request_ok : request_ok dispatch_config (ents family_manager) resize_request.
Proof. exists wire_task, "1.0". split; vm_compute; reflexivity. Qed.

Lemma subjobs_fan_out_witness : ∃ m' children,
  handleWorkerMessage dispatch_config family_manager 0
    (MResult (report "solo" ResultSubjobs 0 [resize_request; resize_request])) 7 = Some m' ∧
  length children = 2 ∧ Values (mg_queue m') ≡ₚ children ++ [].
Proof.
  destruct (subjobs_fan_out dispatch_config family_manager 0 (worker_at 0) solo_job
    (report "solo" ResultSubjobs 0 [resize_request; resize_request]) 7)
    as (m' & children & Hm' & Hof & _ & _ & _ & _ & Hq & _);
    [exact family_ok|reflexivity|vm_compute; reflexivity|vm_compute; reflexivity|reflexivity|reflexivity|
     exact family_fresh|repeat constructor; exact resize_request_ok|].
  exists m', children. split; [exact Hm'|]. split; [exact (children_of_length _ _ _ _ _ _ _ Hof)|exact Hq].
Defined.

Lemma bad_child_request_witness : ∃ m' saved,
  handleWorkerMessage dispatch_config family_manager 0 (MResult (report "solo" ResultSubjobs 0
    [resize_request; MkChildJobRequest "nowhere" "" 0 ""])) 7 = Some m' ∧
  children_of dispatch_config (ents family_manager) solo_job 7 0 [resize_request] saved ∧
  mg_queue m' = mg_queue family_manager.
Proof.
  pose proof (bad_child_request dispatch_config family_manager 0 (worker_at 0) solo_job (report "solo" ResultSubjobs 0
    [resize_request; MkChildJobRequest "nowhere" "" 0 ""]) [resize_request] [] (MkChildJobRequest "nowhere" "" 0 "") 7)
    as Hbad.
  destruct Hbad as (m' & saved & Hm' & _ & Hof & _ & Hq);
    [exact family_ok|reflexivity|vm_compute; reflexivity|vm_compute; reflexivity|reflexivity|reflexivity|
     exact family_fresh|reflexivity|repeat constructor; exact resize_request_ok|vm_compute; reflexivity|].
  exists m', saved. split; [exact Hm'|]. split; [exact Hof|exact Hq].
Defined.

Lemma late_messages_revive_witness : ∃ m',
  handleWorkerMessage dispatch_config family_manager 0 (MStarting "dead" "") 7 = Some m' ∧
  has_status m' "dead" JobStatusRunning.
Proof.
  destruct (late_messages_revive dispatch_config family_manager 0 dead_job "" "" 7) as (_ & Hstart & _);
    [exact family_ok|vm_compute; reflexivity|exact Hstart].
Defined.

Lemma cancelled_job_leaks_capacity_witness : ∃ m',
  handleWorkerMessage dispatch_config family_manager 0 (MResult (report "dead" ResultError 1 [])) 7 = Some m' ∧
  mg_workers m' = mg_workers family_manager.
Proof.
  destruct (cancelled_job_leaks_capacity dispatch_config family_manager 0 dead_job (report "dead" ResultError 1 []) 7)
    as (m' & Hm' & Hw & _); [vm_compute; reflexivity|reflexivity|discriminate|].
  exists m'. split; [exact Hm'|exact Hw].
Defined.
End samples.
