(* ===== verification/Consolidation.v ===== *)
(** * Interleaved completion handlers (src/manager/worker_conn_handler.go)

    The manager handles every worker message in a goroutine of its own, so the
    handlers of children that finish together run interleaved.  Here the success
    branch of [handleResultMessage], with [handleJobCompleted], is cut at every
    access to shared state: each step is one call on the store, the pool, the
    webhook dispatcher or the queue, which their mutexes make atomic, and between
    two steps other goroutines may run.  A handler that runs alone does what
    [handleWorkerMessage] does in one go ([handler_alone]); with any number of them
    interleaved, and with other goroutines that stay away from the family, the
    guard in the last update of the parent lets exactly one schedule it. *)
From S2P Require Import Prelude GoStd External Json Contract Store MemStore Webhooks Heap PriorityQueue Cache.
From S2P Require Import WorkerConn WorkerPool Proto Config Manager Dispatch Lifecycle Orchestrator JobFlow JobProperties.

(** Where a handler stands: the call it makes next, with the values it has loaded. *)
Inductive handler_pc :=
| AtLoad
| AtFlush (job : Job)
| AtComplete (job : Job)
| AtCloseRun (job : Job)
| AtRestore (job : Job)
| AtFire (job : Job)
| AtList (job : Job)
| AtParent (job : Job) (siblings : list Job)
| AtSchedule (parent : Job)
| AtEnqueue (parent : Job)
| Ended.

Record handler := MkHandler { hd_conn : nat; hd_msg : ResultMessage; hd_pc : handler_pc }.

(** The calls a handler has left at most. *)
Definition remaining (pc : handler_pc) : nat :=
  match pc with
  | AtLoad => 10 | AtFlush _ => 9 | AtComplete _ => 8 | AtCloseRun _ => 7 | AtRestore _ => 6 | AtFire _ => 5
  | AtList _ => 4 | AtParent _ _ => 3 | AtSchedule _ => 2 | AtEnqueue _ => 1 | Ended => 0
  end.

Definition all_ended (hs : list handler) : Prop := ∀ h, h ∈ hs → hd_pc h = Ended.

Definition for_consolidation (parent : Job) : Job :=
  parent <| job_Status := JobStatusPending |> <| job_Phase := JobPhaseConsolidate |>.

(** What a handler is about to put into the queue. *)
Definition due1 (h : handler) : list Job :=
  match hd_pc h with AtEnqueue parent => [for_consolidation parent] | _ => [] end.

Definition due (hs : list handler) : list Job := hs ≫= due1.

Section steps.
Context `{SimpleSet SS} `{Store ST} `{GoRuntime} `{Ulid} `{SerialLanes} `{WebhookEnv} `{WorkerSelector SS}.
Context `{ConsolidateJson} (cfg : Config).
Implicit Types (m : Manager SS ST) (h : handler).

(** One step of the handler of a success report. *)
Definition handler_step m (a : nat) (msg : ResultMessage) (pc : handler_pc) (now : Time) : Manager SS ST * handler_pc :=
  match pc with
  | AtLoad =>
      match GetJob (ents m) (rm_JobID msg) with
      | Err _ => (send_error m a "invalid_argument" ("job(" +:+ rm_JobID msg +:+ ") not found"), Ended)
      | Ok job => (m, AtFlush job)
      end
  | AtFlush job =>
      if IsTerminal (job_Status job) then (m, Ended) else (close_job_logs m (job_ID job), AtComplete job)
  | AtComplete job =>
      let '(m, err) := update_job m (rm_JobID msg) (complete_job (rm_Payload msg) now) in
      (m, match err with Some _ => Ended | None => AtCloseRun job end)
  | AtCloseRun job =>
      let runID := resolveRunID m (rm_JobID msg) (rm_RunID msg) in
      (closeRun m runID (rm_JobID msg) RunStatusCompleted (rm_Type msg) (rm_Payload msg) "" 0 now, AtRestore job)
  | AtRestore job =>
      let '(m, err) := restore_capacity m a job now in
      (m, match err with Some _ => Ended | None => AtFire job end)
  | AtFire job =>
      let job := job <| job_Status := JobStatusCompleted |> in
      (m <| mg_webhooks := FireJobCompleted (mg_webhooks m) job now |>, AtList job)
  | AtList job =>
      if bool_decide (job_ParentJobID job = "") then (m, Ended)
      else (m, AtParent job (ListChildJobs (ents m) (job_ParentJobID job)))
  | AtParent job siblings =>
      if negb (forallb (λ s, IsTerminal (job_Status s) && bool_decide (job_Status s = JobStatusCompleted)) siblings)
      then (m, Ended)
      else match GetJob (ents m) (job_ParentJobID job) with
           | Err _ => (m, Ended)
           | Ok parent => (m, AtSchedule parent)
           end
  | AtSchedule parent =>
      let scheduled := match jobs (ents m) !! job_ID parent with Some j => awaits_children j | None => false end in
      let '(m, err) := update_job m (job_ID parent) (schedule_consolidation now) in
      (m, match err with Some _ => Ended | None => if scheduled then AtEnqueue parent else Ended end)
  | AtEnqueue parent => (EnqueueJob m (for_consolidation parent), Ended)
  | Ended => (m, Ended)
  end.

(** A handler that is not interrupted. *)
Definition run_alone m (a : nat) (msg : ResultMessage) (now : Time) : Manager SS ST * handler_pc :=
  Nat.iter 10 (λ '(m, pc), handler_step m a msg pc now) (m, AtLoad).

Lemma uninterrupted m a msg now : rm_Type msg = ResultSuccess →
  handleWorkerMessage cfg m a (MResult msg) now = Some (run_alone m a msg now).1 ∧ (run_alone m a msg now).2 = Ended.
Proof.
  intros Ht. simpl. unfold handleResultMessage, run_alone. cbn [Nat.iter nat_rect].
  unfold GetJob. destruct (jobs (ents m) !! rm_JobID msg) as [job|] eqn:Hj;
    cbn [handler_step]; unfold GetJob; rewrite Hj; [|done].
  rewrite Ht. unfold handleJobCompleted. cbn [handler_step]. destruct (IsTerminal (job_Status job)); [done|].
  cbn [handler_step]. destruct (update_job _ _ _) as [m1 [e|]]; [done|]. cbn [handler_step]. rewrite Ht.
  destruct (restore_capacity _ _ _ _) as [m2 [e|]]; [done|]. cbn [handler_step].
  set (m3 := m2 <| mg_webhooks := _ |>). unfold consolidate_parent.
  change (job_ParentJobID (job <| job_Status := JobStatusCompleted |>)) with (job_ParentJobID job).
  case_bool_decide; [done|]. cbn [handler_step]. destruct (negb (forallb _ _)); [done|].
  change (job_ParentJobID (job <| job_Status := JobStatusCompleted |>)) with (job_ParentJobID job).
  unfold GetJob. destruct (jobs (ents m3) !! job_ParentJobID job) as [parent|]; [|done]. cbn [handler_step].
  destruct (update_job _ _ _) as [m4 [e|]]; [done|].
  destruct (match jobs (ents m3) !! job_ID parent with Some j => awaits_children j | None => false end); done.
Qed.

Lemma step_decreases m a msg pc now : pc ≠ Ended → remaining (handler_step m a msg pc now).2 < remaining pc.
Proof.
  intros Hpc. destruct pc; try done; simpl;
    repeat match goal with
           | |- context [match ?x with _ => _ end] => destruct x; simpl
           end; lia.
Qed.
End steps.

(** ** Interleavings *)
Section interleavings.
Context `{SimpleSet SS} `{Store ST} `{GoRuntime} `{Ulid} `{SerialLanes} `{WebhookEnv} `{WorkerSelector SS}.
Context {exact : Prop} (pid : string).
Implicit Types (m : Manager SS ST) (h : handler) (hs : list handler) (js : gmap string Job).

Definition child_in js (id : string) (s : Job) : Prop := js !! id = Some s ∧ job_ParentJobID s = pid.

Definition children_done js : Prop := ∀ id s, child_in js id s → job_Status s = JobStatusCompleted.

(** The entries of the dispatch queue for the parent. *)
Definition queued m : list Job := filter (λ j, job_ID j = pid) (Values (mg_queue m)).

(** Other goroutines: anything that leaves the state well-formed and the records of the parent and of
    its children and the parent's queue entries as they are. *)
Record elsewhere m m' : Prop := {
  el_ok : manager_inv exact m → manager_inv exact m';
  el_parent : jobs (ents m') !! pid = jobs (ents m) !! pid;
  el_children id s : child_in (jobs (ents m')) id s ↔ child_in (jobs (ents m)) id s;
  el_queue : queued m' ≡ₚ queued m;
}.

Inductive handlers_step : Manager SS ST * list handler → Manager SS ST * list handler → Prop :=
| hs_step m hs i a msg pc now m' pc' :
    hs !! i = Some (MkHandler a msg pc) → pc ≠ Ended → handler_step m a msg pc now = (m', pc') →
    handlers_step (m, hs) (m', <[i := MkHandler a msg pc']> hs).

Inductive interleave : Manager SS ST * list handler → Manager SS ST * list handler → Prop :=
| il_handler s s' : handlers_step s s' → interleave s s'
| il_other m m' hs : elsewhere m m' → interleave (m, hs) (m', hs).

(** Handlers that have just been started. *)
Definition started (l : list (nat * ResultMessage)) : list handler := (λ '(a, msg), MkHandler a msg AtLoad) <$> l.

(** ** The invariant *)
Variable parent : Job.

Definition awaiting js : bool := match js !! pid with Some p => awaits_children p | None => false end.

Definition all_done (l : list Job) : bool :=
  forallb (λ s, IsTerminal (job_Status s) && bool_decide (job_Status s = JobStatusCompleted)) l.

(** A handler that will try to schedule the parent. *)
Definition carrying h : Prop :=
  match hd_pc h with
  | AtCloseRun job | AtRestore job | AtFire job | AtList job => True
  | AtParent job siblings => all_done siblings = true
  | AtSchedule _ => True
  | _ => False
  end.

(** The handler's child is stored; once the handler is past its update, or has seen a final record, the
    child is Completed. *)
Definition handler_ok js h : Prop :=
  ∃ s, child_in js (rm_JobID (hd_msg h)) s ∧
  match hd_pc h with
  | AtLoad => True
  | AtFlush job => job_ParentJobID job = pid ∧ (IsTerminal (job_Status job) = true → job_Status s = JobStatusCompleted)
  | AtComplete job => job_ParentJobID job = pid
  | AtCloseRun job | AtRestore job | AtFire job | AtList job | AtParent job _ =>
      job_ParentJobID job = pid ∧ job_Status s = JobStatusCompleted
  | AtSchedule p => job_ID p = pid ∧ (awaiting js = true → p = parent) ∧ job_Status s = JobStatusCompleted
  | AtEnqueue p => p = parent ∧ job_ID p = pid ∧ job_Status s = JobStatusCompleted
  | Ended => job_Status s = JobStatusCompleted
  end.

Definition balance js : list Job := if awaiting js then [] else [for_consolidation parent].

Record family_inv (m0 m : Manager SS ST) hs : Prop := {
  fi_ok : manager_inv exact m;
  fi_parent : jobs (ents m) !! pid = Some parent ∨ ∃ t, jobs (ents m) !! pid = Some (schedule_consolidation t parent) ∧ awaiting (jobs (ents m)) = false;
  fi_members id : (∃ s, child_in (jobs (ents m)) id s) ↔ ∃ s, child_in (jobs (ents m0)) id s;
  fi_status id s : child_in (jobs (ents m)) id s →
    job_Status s = JobStatusCompleted ∨ IsTerminal (job_Status s) = false ∧ ∃ h, h ∈ hs ∧ rm_JobID (hd_msg h) = id;
  fi_handlers h : h ∈ hs → handler_ok (jobs (ents m)) h;
  fi_queue : queued m ++ due hs ≡ₚ queued m0 ++ balance (jobs (ents m));
  fi_carried : awaiting (jobs (ents m)) = true → children_done (jobs (ents m)) → ∃ h, h ∈ hs ∧ carrying h;
}.

(** What a step of one goroutine may do to the records the others rely on. *)
Record grows js js' : Prop := {
  gr_child id s : child_in js id s →
    ∃ s', child_in js' id s' ∧ (job_Status s = JobStatusCompleted → job_Status s' = JobStatusCompleted);
  gr_waits : awaiting js' = true → awaiting js = true;
}.

Lemma grows_refl js : grows js js.
Proof. split; [|done]. intros id s Hs. by exists s. Qed.

Lemma handler_ok_grows js js' h : grows js js' → handler_ok js h → handler_ok js' h.
Proof.
  intros [Hc Hw] (s & Hs & Hpc). destruct (Hc _ s Hs) as (s' & Hs' & Hst). exists s'. split; [done|].
  destruct (hd_pc h); naive_solver.
Qed.

Lemma due_replace hs i h h' : hs !! i = Some h →
  ∃ rest, due hs ≡ₚ due1 h ++ rest ∧ due (<[i := h']> hs) ≡ₚ due1 h' ++ rest.
Proof.
  intros Hi. exists (due (take i hs) ++ due (drop (S i) hs)). unfold due.
  pose proof (lookup_lt_Some _ _ _ Hi) as Hlt.
  rewrite insert_take_drop by done. rewrite <- (take_drop_middle hs i h Hi) at 1.
  rewrite !bind_app, !bind_cons. split; solve_Permutation.
Qed.

Lemma elem_replace {A} (l : list A) i (x y : A) : y ∈ <[i := x]> l → y = x ∨ y ∈ l.
Proof.
  intros [j Hj]%list_elem_of_lookup. apply list_lookup_insert_Some in Hj as [(_ & -> & _)|(_ & Hj)]; [by left|].
  right. by eapply list_elem_of_lookup_2.
Qed.

(** The one rule behind every step of a handler. *)
Lemma family_advance m0 m hs i h h' m' : family_inv m0 m hs → hs !! i = Some h → hd_msg h' = hd_msg h →
  manager_inv exact m' → grows (jobs (ents m)) (jobs (ents m')) →
  (jobs (ents m') !! pid = Some parent ∨ ∃ t, jobs (ents m') !! pid = Some (schedule_consolidation t parent) ∧ awaiting (jobs (ents m')) = false) →
  (∀ id s', child_in (jobs (ents m')) id s' → ∃ s, child_in (jobs (ents m)) id s ∧ (s' = s ∨ job_Status s' = JobStatusCompleted)) →
  handler_ok (jobs (ents m')) h' →
  queued m' ++ due1 h' ++ balance (jobs (ents m)) ≡ₚ queued m ++ due1 h ++ balance (jobs (ents m')) →
  (awaiting (jobs (ents m')) = true → children_done (jobs (ents m')) →
    carrying h' ∨ children_done (jobs (ents m)) ∧ ¬ carrying h) →
  family_inv m0 m' (<[i := h']> hs).
Proof.
  intros I Hi Hmsg Hok Hgr Hp Hback Hh' Hbal Hcar.
  assert (h' ∈ <[i := h']> hs) as Hin'.
  { apply (list_elem_of_lookup_2 _ i), list_lookup_insert_eq. by eapply lookup_lt_Some. }
  assert (∀ x, x ∈ hs → x = h ∨ x ∈ <[i := h']> hs) as Hkeep.
  { intros x [j Hj]%list_elem_of_lookup. destruct (decide (i = j)) as [->|Hne]; [left; congruence|].
    right. apply (list_elem_of_lookup_2 _ j). by rewrite list_lookup_insert_ne. }
  split; [done|done|..].
  - intros id. rewrite <- (fi_members _ _ _ I id). split.
    + intros [s' Hs']. destruct (Hback id s' Hs') as (s & ? & _). by exists s.
    + intros [s Hs]. destruct (gr_child _ _ Hgr id s Hs) as (s' & ? & _). by exists s'.
  - intros id s' Hs'. destruct (Hback id s' Hs') as (s & Hs & [->|?]); [|by left].
    destruct (fi_status _ _ _ I id s Hs) as [?|(Ht & x & Hx & Hid)]; [by left|right]. split; [done|].
    destruct (Hkeep x Hx) as [->|]; [exists h'; split; [done|congruence]|by exists x].
  - intros x [->|Hx]%elem_replace; [done|]. eapply handler_ok_grows; [done|]. by apply I.
  - destruct (due_replace hs i h h' Hi) as (rest & D & D'). pose proof (fi_queue _ _ _ I) as Q. rewrite D in Q.
    rewrite D'. apply (Permutation_app_inv_l (balance (jobs (ents m)))).
    transitivity ((queued m' ++ due1 h' ++ balance (jobs (ents m))) ++ rest); [solve_Permutation|]. rewrite Hbal.
    transitivity ((queued m ++ due1 h ++ rest) ++ balance (jobs (ents m'))); [solve_Permutation|]. rewrite Q.
    solve_Permutation.
  - intros Hw Hd. destruct (Hcar Hw Hd) as [?|[Hdm Hnc]]; [by exists h'|].
    destruct (fi_carried _ _ _ I (gr_waits _ _ Hgr Hw) Hdm) as (x & Hx & Hc).
    destruct (Hkeep x Hx) as [->|]; [done|by exists x].
Qed.

(** What the place of a handler says of its carrying. *)
Ltac carried := intros _ _; first [left; exact Logic.I | right; intros []].

(** A step that touches neither the jobs nor the queue. *)
Lemma family_silent m0 m hs i h h' m' : family_inv m0 m hs → hs !! i = Some h → hd_msg h' = hd_msg h →
  manager_inv exact m' → jobs (ents m') = jobs (ents m) → mg_queue m' = mg_queue m →
  handler_ok (jobs (ents m)) h' → due1 h' = due1 h →
  (awaiting (jobs (ents m)) = true → children_done (jobs (ents m)) → carrying h' ∨ ¬ carrying h) →
  family_inv m0 m' (<[i := h']> hs).
Proof.
  intros I Hi Hmsg Hok Hj Hq Hh' Hdue Hcar.
  eapply family_advance; try done; rewrite ?Hj; try done.
  - apply grows_refl.
  - apply I.
  - intros id s Hs. exists s. auto.
  - unfold queued. by rewrite Hq, Hdue.
  - intros Hw Hd. destruct (Hcar Hw Hd); auto.
Qed.

Section handlers.
Context (Hopen : ∀ ns, lane_error ns = None) (Hpid : pid ≠ "") (Hself : job_ParentJobID parent ≠ pid).
Context (Hparent : job_Status parent = JobStatusAwaitingChildren).

Lemma restore_frame m a job now : let r := restore_capacity m a job now in
  r.2 = None ∧ ents r.1 = ents m ∧ mg_queue r.1 = mg_queue m.
Proof.
  cbn zeta. split; [|apply restore_capacity_frame]. unfold restore_capacity, restoreCapacity.
  destruct (wp_conns (mg_workers m) !! a) as [w|]; [|done]. unfold lane_Do. by rewrite Hopen.
Qed.

Lemma stored_parent m0 m hs : family_inv m0 m hs → ∃ p, jobs (ents m) !! pid = Some p ∧ job_ID p = pid ∧
  job_ParentJobID p ≠ pid ∧ (awaiting (jobs (ents m)) = true → p = parent).
Proof.
  intros I. destruct (fi_parent _ _ _ I) as [Hp|(t & Hp & Hw)].
  - exists parent. split_and!; [done|exact (ids_jobs _ (mo_ids _ (fi_ok _ _ _ I)) _ _ Hp)|done|done].
  - exists (schedule_consolidation t parent).
    split_and!; [done|exact (ids_jobs _ (mo_ids _ (fi_ok _ _ _ I)) _ _ Hp)| |congruence].
    unfold schedule_consolidation. by destruct (negb _).
Qed.

Lemma step_load m0 m hs i a msg now : family_inv m0 m hs → hs !! i = Some (MkHandler a msg AtLoad) →
  let '(m', pc') := handler_step m a msg AtLoad now in family_inv m0 m' (<[i := MkHandler a msg pc']> hs).
Proof.
  intros I Hi. simpl. destruct (fi_handlers _ _ _ I _ (list_elem_of_lookup_2 _ _ _ Hi)) as (s & [Hs Hp] & _).
  simpl in Hs. unfold GetJob. rewrite Hs.
  eapply family_silent; try done; [apply I| |carried]. exists s. split; [done|]. split; [done|].
  intros Ht. destruct (fi_status _ _ _ I _ s (conj Hs Hp)) as [?|[? _]]; [done|congruence].
Qed.

Lemma step_flush m0 m hs i a msg job now : family_inv m0 m hs → hs !! i = Some (MkHandler a msg (AtFlush job)) →
  let '(m', pc') := handler_step m a msg (AtFlush job) now in family_inv m0 m' (<[i := MkHandler a msg pc']> hs).
Proof.
  intros I Hi. simpl. destruct (fi_handlers _ _ _ I _ (list_elem_of_lookup_2 _ _ _ Hi)) as (s & Hs & Hp & Ht).
  simpl in Hs. destruct (IsTerminal (job_Status job)) eqn:Et.
  - eapply family_silent; try done; [apply I| |carried]. exists s. split; [done|]. by apply Ht.
  - pose proof (core_close_job_logs m (job_ID job)) as C.
    eapply family_silent; try done; [by apply ok_close_job_logs, I|apply C|by exists s|carried].
Qed.

Lemma step_complete m0 m hs i a msg job now : family_inv m0 m hs → hs !! i = Some (MkHandler a msg (AtComplete job)) →
  let '(m', pc') := handler_step m a msg (AtComplete job) now in family_inv m0 m' (<[i := MkHandler a msg pc']> hs).
Proof.
  intros I Hi. destruct (fi_handlers _ _ _ I _ (list_elem_of_lookup_2 _ _ _ Hi)) as (s & [Hs Hsp] & Hp).
  simpl in Hs, Hp. cbn [handler_step]. set (f := complete_job (rm_Payload msg) now).
  assert (manager_inv exact (update_job m (rm_JobID msg) f).1) as Hok by by apply ok_update_job; [apply I|].
  destruct (update_job_spec m (rm_JobID msg) f) as (Ue & Uj & Uq & _).
  destruct (update_job m (rm_JobID msg) f) as [m1 err]. cbn [fst snd] in *.
  unfold UpdateJob in Ue, Uj. rewrite Hs in Ue, Uj. simpl in Ue, Uj. subst err.
  assert (jobs (ents m1) = <[rm_JobID msg := f s]> (jobs (ents m))) as J by by rewrite Uj.
  destruct (stored_parent _ _ _ I) as (p & Hpp & _ & Hpn & _).
  assert (rm_JobID msg ≠ pid) as Hne by congruence.
  assert (awaiting (jobs (ents m1)) = awaiting (jobs (ents m))) as Hw.
  { unfold awaiting. by rewrite J, lookup_insert_ne. }
  assert (∀ id x, child_in (jobs (ents m1)) id x ↔
    (id = rm_JobID msg ∧ x = f s) ∨ id ≠ rm_JobID msg ∧ child_in (jobs (ents m)) id x) as Hch.
  { intros id x. unfold child_in. rewrite J, lookup_insert_Some. naive_solver. }
  eapply (family_advance _ _ _ _ _ _ _ I Hi); try done.
  - split; [|by rewrite Hw]. intros id x Hx. destruct (decide (id = rm_JobID msg)) as [->|Hd].
    + exists (f s). rewrite Hch. auto.
    + exists x. rewrite Hch. auto.
  - rewrite J, lookup_insert_ne, <- J, Hw by done. apply I.
  - intros id x [[-> ->]|[_ Hx]]%Hch; [exists s; split; [done|by right]|exists x; auto].
  - exists (f s). simpl. rewrite Hch. auto.
  - unfold queued, balance. by rewrite Uq, Hw.
  - carried.
Qed.

Lemma step_quiet m0 m hs i a msg pc now : family_inv m0 m hs → hs !! i = Some (MkHandler a msg pc) →
  match pc with AtCloseRun _ | AtRestore _ | AtFire _ | AtList _ => True | _ => False end →
  let '(m', pc') := handler_step m a msg pc now in family_inv m0 m' (<[i := MkHandler a msg pc']> hs).
Proof.
  intros I Hi Hpc. destruct (fi_handlers _ _ _ I _ (list_elem_of_lookup_2 _ _ _ Hi)) as (s & Hs & Hok).
  pose proof (fi_ok _ _ _ I) as Hm.
  destruct pc as [| | |job|job|job|job| | | |]; try done; simpl in Hs, Hok; cbn [handler_step].
  - pose proof (core_closeRun m (resolveRunID m (rm_JobID msg) (rm_RunID msg)) (rm_JobID msg) RunStatusCompleted
      (rm_Type msg) (rm_Payload msg) "" 0 now) as C.
    eapply family_silent; try done; [by apply ok_closeRun|apply C|apply C|by exists s|carried].
  - destruct (restore_frame m a job now) as (Re & Rj & Rq). pose proof (ok_restore_capacity m a job now Hm) as Hm'.
    destruct (restore_capacity m a job now) as [m' err]. simpl in *. subst err.
    eapply family_silent; try done; [by rewrite Rj|by exists s|carried].
  - pose proof (core_fire m (job <| job_Status := JobStatusCompleted |>) eventJobCompleted
      [("result", EvRaw (job_Result job))] now) as C.
    eapply family_silent; try done; [by apply ok_fire|apply C|by exists s|carried].
  - destruct Hok as [Hp Hst]. rewrite Hp. rewrite bool_decide_eq_false_2 by done.
    eapply family_silent; try done; [by exists s|]. intros _ Hd. left.
    apply (proj2 (all_completed (ents m) pid)). intros id x Hx Hxp. by apply (Hd id x).
Qed.

Lemma step_parent m0 m hs i a msg job sibs now : family_inv m0 m hs →
  hs !! i = Some (MkHandler a msg (AtParent job sibs)) →
  let '(m', pc') := handler_step m a msg (AtParent job sibs) now in family_inv m0 m' (<[i := MkHandler a msg pc']> hs).
Proof.
  intros I Hi. destruct (fi_handlers _ _ _ I _ (list_elem_of_lookup_2 _ _ _ Hi)) as (s & Hs & Hp & Hst).
  simpl in Hs. cbn [handler_step]. change (forallb _ sibs) with (all_done sibs). destruct (all_done sibs) eqn:Ed; cbn [negb].
  - destruct (stored_parent _ _ _ I) as (p & Hpp & Hid & _ & Hw). unfold GetJob. rewrite Hp, Hpp.
    eapply family_silent; try done; [apply I|by exists s|carried].
  - eapply family_silent; try done; [apply I|by exists s|]. intros _ _. right. unfold carrying. simpl. congruence.
Qed.

Lemma step_schedule m0 m hs i a msg p now : family_inv m0 m hs →
  hs !! i = Some (MkHandler a msg (AtSchedule p)) →
  let '(m', pc') := handler_step m a msg (AtSchedule p) now in family_inv m0 m' (<[i := MkHandler a msg pc']> hs).
Proof.
  intros I Hi. destruct (fi_handlers _ _ _ I _ (list_elem_of_lookup_2 _ _ _ Hi)) as (s & [Hs Hsp] & Hid & Hw & Hst).
  simpl in Hs. cbn [handler_step]. rewrite Hid. fold (awaiting (jobs (ents m))). set (f := schedule_consolidation now).
  assert (manager_inv exact (update_job m pid f).1) as Hok.
  { apply ok_update_job; [apply I|]. intros j. unfold f, schedule_consolidation. by destruct (negb _). }
  destruct (stored_parent _ _ _ I) as (q & Hq & _ & Hqn & Hqw).
  destruct (update_job_spec m pid f) as (Ue & Uj & Uq & _).
  destruct (update_job m pid f) as [m1 err]. cbn [fst snd] in *.
  unfold UpdateJob in Ue, Uj. rewrite Hq in Ue, Uj. simpl in Ue, Uj. subst err.
  assert (jobs (ents m1) = <[pid := f q]> (jobs (ents m))) as J by by rewrite Uj.
  destruct (awaiting (jobs (ents m))) eqn:Ea.
  - assert (q = parent) as -> by auto. assert (p = parent) as -> by auto.
    assert (f parent = for_consolidation parent <| job_UpdatedAt := now |>) as Hf.
    { unfold f, schedule_consolidation, awaits_children. by rewrite bool_decide_eq_true_2. }
    assert (awaiting (jobs (ents m1)) = false) as Hw1.
    { unfold awaiting. by rewrite J, lookup_insert_eq, Hf. }
    assert (∀ id x, child_in (jobs (ents m1)) id x ↔ child_in (jobs (ents m)) id x) as Hch.
    { intros id x. unfold child_in. rewrite J, lookup_insert_Some, Hf. split; [naive_solver|].
      intros [Hx Hxp]. split; [|done]. right. split; [|done]. intros <-. congruence. }
    eapply (family_advance _ _ _ _ _ _ _ I Hi); try done.
    + split; [|congruence]. intros id x Hx. exists x. by rewrite Hch.
    + right. exists now. split; [by rewrite J, lookup_insert_eq|done].
    + intros id x Hx%Hch. exists x. auto.
    + exists s. rewrite Hch. done.
    + unfold queued, balance. rewrite Uq, Ea, Hw1. done.
    + congruence.
  - assert (jobs (ents m1) = jobs (ents m)) as J'.
    { rewrite J. unfold awaiting in Ea. rewrite Hq in Ea. unfold f, schedule_consolidation. rewrite Ea. simpl. by apply insert_id. }
    eapply family_silent; try done; [by exists s|congruence].
Qed.

Lemma step_enqueue m0 m hs i a msg p now : family_inv m0 m hs →
  hs !! i = Some (MkHandler a msg (AtEnqueue p)) →
  let '(m', pc') := handler_step m a msg (AtEnqueue p) now in family_inv m0 m' (<[i := MkHandler a msg pc']> hs).
Proof.
  intros I Hi. destruct (fi_handlers _ _ _ I _ (list_elem_of_lookup_2 _ _ _ Hi)) as (s & Hs & -> & Hid & Hst).
  simpl in Hs. cbn [handler_step]. set (m' := EnqueueJob m (for_consolidation parent)).
  assert (jobs (ents m') = jobs (ents m)) as J by done.
  eapply (family_advance _ _ _ _ _ _ _ I Hi); rewrite ?J; try done.
  - by apply ok_EnqueueJob, I.
  - apply grows_refl.
  - apply I.
  - intros id x Hx. exists x. auto.
  - by exists s.
  - assert (queued m' ≡ₚ for_consolidation parent :: queued m) as ->.
    { unfold queued. etrans; [apply filter_Permutation, (PushItem_values job_higher), (fi_ok _ _ _ I)|].
      by rewrite filter_cons_True. }
    simpl. by rewrite Permutation_middle.
  - intros Hw Hd. right. split; [done|]. unfold carrying. simpl. tauto.
Qed.

Lemma step_inv m0 m hs i a msg pc now : family_inv m0 m hs → hs !! i = Some (MkHandler a msg pc) → pc ≠ Ended →
  let '(m', pc') := handler_step m a msg pc now in family_inv m0 m' (<[i := MkHandler a msg pc']> hs).
Proof.
  intros I Hi Hpc. destruct pc.
  - by apply step_load.
  - by apply step_flush.
  - by apply step_complete.
  - by apply step_quiet.
  - by apply step_quiet.
  - by apply step_quiet.
  - by apply step_quiet.
  - by apply step_parent.
  - by apply step_schedule.
  - by apply step_enqueue.
  - done.
Qed.

Lemma elsewhere_inv m0 m m' hs : family_inv m0 m hs → elsewhere m m' → family_inv m0 m' hs.
Proof.
  intros I [Hok Hp Hc Hq].
  assert (awaiting (jobs (ents m')) = awaiting (jobs (ents m))) as Hw by (unfold awaiting; by rewrite Hp).
  assert (grows (jobs (ents m)) (jobs (ents m'))) as Hg.
  { split; [|by rewrite Hw]. intros id s Hs. exists s. by rewrite Hc. }
  split.
  - by apply Hok, I.
  - rewrite Hp, Hw. apply I.
  - intros id. rewrite <- (fi_members _ _ _ I id). by setoid_rewrite Hc.
  - intros id s Hs%Hc. by apply I.
  - intros h Hh. eapply handler_ok_grows; [done|]. by apply I.
  - unfold balance. rewrite Hq, Hw. apply I.
  - intros Hx Hd. apply (fi_carried _ _ _ I); [congruence|]. intros id s Hs. apply (Hd id s). by apply Hc.
Qed.

Lemma interleave_inv m0 s s' : rtc interleave s s' → family_inv m0 s.1 s.2 → family_inv m0 s'.1 s'.2.
Proof.
  induction 1 as [|s1 s2 s3 Hstep _ IH]; [done|]. intros I. apply IH.
  destruct Hstep as [s1 s2 Hh|m m' hs He]; [|by eapply elsewhere_inv].
  destruct Hh as [m hs i a msg pc now m' pc' Hi Hpc Hs]. pose proof (step_inv m0 m hs i a msg pc now I Hi Hpc) as I'.
  by rewrite Hs in I'.
Qed.
End handlers.

(** Handlers that take turns, the n-th of them for every number n of a schedule. *)
Definition handler_turn (s : Manager SS ST * list handler) (i : nat) : Manager SS ST * list handler :=
  match s.2 !! i with
  | Some (MkHandler a msg pc) =>
      let '(m', pc') := handler_step s.1 a msg pc 5 in (m', <[i := MkHandler a msg pc']> s.2)
  | None => s
  end.

Lemma turns_interleave schedule s : rtc interleave s (foldl handler_turn s schedule).
Proof.
  revert s. induction schedule as [|i schedule IH]; intros [m hs]; simpl; [apply rtc_refl|].
  unfold handler_turn at 2. cbn [fst snd]. destruct (hs !! i) as [[a msg pc]|] eqn:Hi; [|apply IH].
  destruct (handler_step m a msg pc 5) as [m' pc'] eqn:Es.
  destruct (decide (remaining pc = 0)) as [Hz|Hz].
  - assert (pc = Ended) as -> by by destruct pc. injection Es as <- <-. rewrite list_insert_id by done. apply IH.
  - eapply rtc_l; [|apply IH]. constructor. econstructor; [exact Hi| |exact Es]. by intros ->.
Qed.

(** Handlers block on nothing but the mutexes: left to themselves they all end. *)
Lemma handlers_end n m hs : sum_list_with (λ h, remaining (hd_pc h)) hs ≤ n →
  ∃ s', rtc handlers_step (m, hs) s' ∧ all_ended s'.2.
Proof.
  revert m hs. induction n as [n IH] using lt_wf_ind. intros m hs Hn.
  destruct (decide (Forall (λ h, remaining (hd_pc h) = 0) hs)) as [Hall|Hsome].
  { exists (m, hs). split; [apply rtc_refl|]. intros h Hh. rewrite Forall_forall in Hall. specialize (Hall h Hh).
    by destruct (hd_pc h). }
  apply not_Forall_Exists in Hsome; [|apply _]. apply Exists_exists in Hsome as (h & Hh & Hpos).
  apply list_elem_of_lookup in Hh as [i Hi]. destruct h as [a msg pc].
  destruct (handler_step m a msg pc 0) as [m' pc'] eqn:Es.
  assert (pc ≠ Ended) as Hpc by (intros ->; by apply Hpos).
  pose proof (step_decreases m a msg pc 0 Hpc) as Hdec. rewrite Es in Hdec. simpl in Hdec.
  assert (sum_list_with (λ h, remaining (hd_pc h)) (<[i := MkHandler a msg pc']> hs) <
    sum_list_with (λ h, remaining (hd_pc h)) hs) as Hlt.
  { pose proof (lookup_lt_Some _ _ _ Hi). rewrite insert_take_drop by done.
    rewrite <- (take_drop_middle hs i _ Hi) at 3. rewrite !sum_list_with_app. simpl. lia. }
  destruct (IH _ ltac:(eapply Nat.lt_le_trans; [exact Hlt|exact Hn]) m' (<[i := MkHandler a msg pc']> hs) (le_n _)) as (s' & Hs' & He).
  exists s'. split; [|done]. eapply rtc_l; [|exact Hs']. by econstructor.
Qed.
End interleavings.

(** Reports of success for children of [pid] that cover every child not yet Completed, of which there is
    one; a child may be reported more than once. *)
Record child_reports (pid : string) (js : gmap string Job) (l : list (nat * ResultMessage)) : Prop := {
  cr_success r : r ∈ l → rm_Type r.2 = ResultSuccess ∧ ∃ s, child_in pid js (rm_JobID r.2) s;
  cr_cover id s : child_in pid js id s → job_Status s = JobStatusCompleted ∨
    IsTerminal (job_Status s) = false ∧ ∃ r, r ∈ l ∧ rm_JobID r.2 = id;
  cr_unfinished : ¬ children_done pid js;
}.

Lemma due_started l : due (started l) = [].
Proof. unfold due, started. induction l as [|[a msg] l IH]; [done|]. exact IH. Qed.

Lemma due_ended hs : all_ended hs → due hs = [].
Proof.
  intros Hall. unfold due. induction hs as [|h hs IH]; [done|]. rewrite bind_cons. unfold due1.
  rewrite (Hall h) by (by left). apply IH. intros x Hx. apply Hall. by right.
Qed.

Lemma started_inv `{SimpleSet SS} `{Store ST} {exact : Prop} (m : Manager SS ST) pid parent l :
  manager_inv exact m → jobs (ents m) !! pid = Some parent → job_Status parent = JobStatusAwaitingChildren →
  child_reports pid (jobs (ents m)) l → family_inv (exact := exact) pid parent m m (started l).
Proof.
  intros Hm Hp Hst [Hs Hc Hu]. split.
  - done.
  - by left.
  - done.
  - intros id s Hx. destruct (Hc id s Hx) as [?|(Ht & [a msg] & Hr & Hid)]; [by left|right]. split; [done|].
    exists (MkHandler a msg AtLoad). split; [|done]. apply list_elem_of_fmap. by exists (a, msg).
  - intros h ([a msg] & -> & Hr)%list_elem_of_fmap. destruct (Hs _ Hr) as (_ & s & Hx). by exists s.
  - rewrite due_started.
    unfold balance, awaiting, awaits_children. rewrite Hp, bool_decide_eq_true_2 by done. done.
  - intros _ Hd. by destruct Hu.
Qed.

(** ** Properties *)


(** C3: Consolidation is scheduled exactly once, however the completion handlers interleave. A parent awaits
    children, and success reports arrive for all children not yet Completed, some perhaps twice, each handled by a
    goroutine of its own whose calls on shared state interleave with those of the others and with other goroutines
    that leave this family alone. Then at no time has the queue gained more than one entry for the parent; the
    handlers can always run to their end; and when they have, every child is Completed, the parent is Pending in
    its consolidate phase and the queue has gained exactly one entry for it. *)
Theorem consolidation_once `{SimpleSet SS} `{Store ST} `{GoRuntime} `{Ulid} `{SerialLanes} `{WebhookEnv}
    `{WorkerSelector SS} (exact : Prop) (m : Manager SS ST) (pid : string) (parent : Job)
    (l : list (nat * ResultMessage)) (s : Manager SS ST * list handler) :
  manager_inv exact m → (∀ ns, lane_error ns = None) → pid ≠ "" →
  jobs (ents m) !! pid = Some parent → job_Status parent = JobStatusAwaitingChildren → job_ParentJobID parent ≠ pid →
  child_reports pid (jobs (ents m)) l →
  rtc (interleave (exact := exact) pid) (m, started l) s →
  length (queued pid s.1) ≤ S (length (queued pid m)) ∧
  (∃ s', rtc handlers_step s s' ∧ all_ended s'.2) ∧
  (all_ended s.2 →
    (∀ id, (∃ c, child_in pid (jobs (ents s.1)) id c) ↔ ∃ c, child_in pid (jobs (ents m)) id c) ∧
    children_done pid (jobs (ents s.1)) ∧
    (∃ t, jobs (ents s.1) !! pid = Some (for_consolidation parent <| job_UpdatedAt := t |>)) ∧
    queued pid s.1 ≡ₚ for_consolidation parent :: queued pid m).
Proof.
  intros Hm Hopen Hpid Hp Hst Hself Hl Hrtc.
  pose proof (interleave_inv pid parent Hopen Hpid Hself Hst m _ _ Hrtc (started_inv m pid parent l Hm Hp Hst Hl)) as I.
  destruct s as [m' hs]. cbn [fst snd] in *. split_and!.
  - pose proof (Permutation_length (fi_queue _ _ _ _ _ I)) as Hlen. rewrite !length_app in Hlen.
    unfold balance in Hlen. destruct (awaiting pid (jobs (ents m'))); simpl in Hlen; lia.
  - by eapply handlers_end.
  - intros Hall. split; [apply I|].
    assert (children_done pid (jobs (ents m'))) as Hd.
    { intros id c Hc. destruct (fi_status _ _ _ _ _ I id c Hc) as [?|(_ & h & Hh & <-)]; [done|].
      destruct (fi_handlers _ _ _ _ _ I h Hh) as (c' & [Hc' _] & Hpc). rewrite (Hall h Hh) in Hpc.
      destruct Hc as [Hc _]. congruence. }
    split; [done|]. destruct (awaiting pid (jobs (ents m'))) eqn:Ew.
    { destruct (fi_carried _ _ _ _ _ I Ew Hd) as (h & Hh & Hcar). unfold carrying in Hcar. by rewrite (Hall h Hh) in Hcar. }
    assert (awaits_children parent = true) as Hwait by (unfold awaits_children; by rewrite bool_decide_eq_true_2).
    split.
    + destruct (fi_parent _ _ _ _ _ I) as [Hx|(t & Hx & _)].
      { unfold awaiting in Ew. rewrite Hx in Ew. congruence. }
      exists t. rewrite Hx. unfold schedule_consolidation. by rewrite Hwait.
    + pose proof (fi_queue _ _ _ _ _ I) as Hq. rewrite (due_ended hs Hall), app_nil_r in Hq. unfold balance in Hq.
      rewrite Ew in Hq. rewrite Hq. by rewrite Permutation_app_comm.
Qed.

(** ** Two children that finish together *)
Section samples.
#[local] Existing Instances gset_simple_set canonical_runtime unary_ulid open_lanes sample_env least_loaded tagged_payload.

(** The first child is reported over one connection, the second over the other and then once more. *)
Definition three_reports : list (nat * ResultMessage) :=
  [(0, report "c1" ResultSuccess 0 []); (1, report "c2" ResultSuccess 0 []); (1, report "c2" ResultSuccess 0 [])].

(** All three run in lockstep: each lists the siblings after both have completed, and each comes to the update
    of the parent. *)
Definition lockstep : list nat := concat (replicate 10 [0; 1; 2]).

Definition before_updates : Manager (gset string) MemStore * list handler :=
  foldl handler_turn (family_manager, started three_reports) (take 24 lockstep).

Definition after_updates : Manager (gset string) MemStore * list handler :=
  foldl handler_turn (family_manager, started three_reports) lockstep.

Lemma family_reports : child_reports "p" (jobs (ents family_manager)) three_reports.
Proof.
  assert (∀ id s, child_in "p" (jobs (ents family_manager)) id s →
    job_Status s = JobStatusRunning ∧ (id = "c1" ∨ id = "c2")) as Hc.
  { intros id s [Hs Hp]. destruct (family_lookup id s Hs) as [Hin <-]. unfold family in Hin.
    rewrite !elem_of_cons, elem_of_nil in Hin. destruct_or! Hin; subst s; try discriminate; auto. }
  split.
  - intros r. unfold three_reports. rewrite !elem_of_cons, elem_of_nil. intros Hr.
    destruct_or! Hr; try done; subst r; (split; [reflexivity|]); eexists; (split; [vm_compute; reflexivity|reflexivity]).
  - intros id s Hs. destruct (Hc id s Hs) as [-> Hid]. right. split; [done|].
    destruct Hid as [-> | ->].
    + exists (0, report "c1" ResultSuccess 0 []). split; [unfold three_reports; set_solver|reflexivity].
    + exists (1, report "c2" ResultSuccess 0 []). split; [unfold three_reports; set_solver|reflexivity].
  - intros Hd. assert (child_in "p" (jobs (ents family_manager)) "c1" (sample_job "c1" "p" JobStatusRunning 2)) as Hx
      by (split; vm_compute; reflexivity).
    discriminate (Hd _ _ Hx).
Qed.


Lemma consolidation_once_witness :
  ((λ h, match hd_pc h with AtSchedule _ => true | _ => false end) <$> before_updates.2) = [true; true; true] ∧
  queued "p" after_updates.1 ≡ₚ [for_consolidation parent_job].
Proof.
  split; [vm_compute; reflexivity|].
  destruct (consolidation_once True family_manager "p" parent_job three_reports after_updates)
    as (_ & _ & Hend).
  - exact family_ok.
  - reflexivity.
  - discriminate.
  - vm_compute. reflexivity.
  - reflexivity.
  - discriminate.
  - exact family_reports.
  - apply turns_interleave.
  - destruct Hend as (_ & _ & _ & Hq); [|exact Hq].
    intros h Hh. apply (Forall_forall (λ h, hd_pc h = Ended) after_updates.2); [|exact Hh].
    vm_compute. repeat constructor.
Defined.
End samples.
