(* ===== verification/Routes.v ===== *)
(** * The client API (src/manager/routes.go, QueueInfo of src/manager/manager.go)

    Each handler is a function of the manager's state and the request, after the
    router extracted path values and [encoding/json] decoded the body (an [Err]
    is a body that does not decode).  Bodies are the values that are encoded;
    times are given as such, not formatted. *)
From S2P Require Import Prelude GoStd External Json Contract Store MemStore Webhooks Heap PriorityQueue Cache.
From S2P Require Import WorkerConn WorkerPool Proto Config Registry Manager Dispatch Lifecycle.
From Stdlib Require Import QArith.
Open Scope nat_scope.

(** A status with a body, with a problem document, or alone. *)
Inductive response (B : Type) :=
| Reply (status : Z) (body : B)
| Problem (status : Z) (detail : string)
| NoBody (status : Z).
Arguments Reply {B} status body.
Arguments Problem {B} status detail.
Arguments NoBody {B} status.

(** ** Text utilities *)
Section text.
Local Open Scope go_scope.

(** [n = n*10 + int(c-'0')] at 64 bits; [None] at the first character that is no digit. *)
Fixpoint limit_digits (s : string) (n : Z) : option Z :=
  match s with
  | "" => Some n
  | String c s => match char_digit c with Some d => limit_digits s (n *! 10 +! d) | None => None end
  end.

Definition parseLimit (s : string) (def : Z) : Z :=
  if bool_decide (s = "") then def
  else match limit_digits s 0 with
       | None => def
       | Some n => if ((n <=? 0) || (1000 <? n))%Z then def else n
       end.
End text.

Definition nl : ascii := ascii_of_N 10.

Definition writeSSEEvent (event data : string) : string :=
  "event: " +:+ event +:+ newline +:+ "data: " +:+ data +:+ newline +:+ newline.

(** The byte loop of [emitLogLines]: the line being built and the lines emitted. *)
Definition emit_byte (st : string * list string) (b : ascii) : string * list string :=
  let '(line, out) := st in
  if decide (b = nl) then if bool_decide (line ≠ "") then ("", out ++ [line]) else (line, out)
  else (line +:+ String b "", out).

Fixpoint emit_chunk (st : string * list string) (chunk : string) : string * list string :=
  match chunk with "" => st | String b chunk => emit_chunk (emit_byte st b) chunk end.

(** The lines sent for a reader that returns [chunks] before its error. *)
Definition emitLogLines (chunks : list string) : list string := (foldl emit_chunk ("", []) chunks).2.

(** The lines of a chunk received from a subscription. *)
Definition stream_lines (chunk : string) : list string :=
  filter (λ line, line ≠ "") (strings_Split nl (TrimRight nl chunk)).

(** ** Bodies *)
Record workerInfo := MkWorkerInfo {
  wi_WorkerID : string;
  wi_OS : string;
  wi_Arch : string;
  wi_Capacity : Z;
  wi_AvailableCapacity : Z;
  wi_State : string;
  wi_ConnectedAt : Time;
  wi_TasksRunning : Z;
}.

Record workerDetailInfo := MkWorkerDetailInfo {
  wdi_WorkerID : string;
  wdi_OS : string;
  wdi_Arch : string;
  wdi_State : string;
  wdi_Capacity : Z;
  wdi_AvailableCapacity : Z;
  wdi_TasksRunning : Z;
  wdi_InFlightJobIDs : list string;
  wdi_ConnectedAt : Time;
  wdi_LastHeartbeatAt : Time;
  wdi_LastIdleAt : Time;
}.

Record clusterWorkerCounts := MkClusterWorkerCounts {
  cwc_Total : Z;
  cwc_Online : Z;
  cwc_Pressured : Z;
  cwc_Draining : Z;
  cwc_Offline : Z;
}.

(** The utilization is exact here, a [float64] in the source. *)
Record clusterCapacity := MkClusterCapacity {
  cc_Total : Z;
  cc_Available : Z;
  cc_Utilization : option Q;
}.

Record clusterPlatformSummary := MkClusterPlatformSummary {
  cps_OS : string;
  cps_Arch : string;
  cps_Workers : Z;
  cps_TotalCapacity : Z;
  cps_AvailableCapacity : Z;
}.

Record clusterSummaryResponse := MkClusterSummaryResponse {
  csr_Workers : clusterWorkerCounts;
  csr_Capacity : clusterCapacity;
  csr_QueueDepth : Z;
  csr_Platforms : list clusterPlatformSummary;
}.

Record queuePlatformEntry := MkQueuePlatformEntry {
  qpe_OS : string;
  qpe_Arch : string;
  qpe_Depth : Z;
  qpe_TotalCost : Z;
}.

Record queuePriorityEntry := MkQueuePriorityEntry { qre_Priority : Z; qre_Depth : Z }.

Record queueSnapshot := MkQueueSnapshot {
  qs_Depth : Z;
  qs_ByPlatform : list queuePlatformEntry;
  qs_ByPriority : list queuePriorityEntry;
}.

Record clusterMetrics := MkClusterMetrics {
  cm_jobs : list (string * Z);
  cm_connected : Z;
  cm_total : Z;
  cm_available : Z;
  cm_queue_depth : Z;
}.

Section routes.
Context `{SimpleSet SS} `{Store ST} `{GoRuntime} `{Ulid} `{SerialLanes} `{WebhookEnv} `{WorkerSelector SS}.
Context (cfg : Config).
Local Open Scope go_scope.
Implicit Types (m : Manager SS ST).

(** ** Middleware: [next] runs unless the check fails; [unauthorized] answers with a problem document *)
Definition clientAuth {R A} (auth : option (R → option error)) (unauthorized : string → A) (next : R → A) (req : R) : A :=
  match auth with
  | Some check => match check req with Some e => unauthorized (Error e) | None => next req end
  | None => next req
  end.

(** The outcome of verifying a signed address. *)
Inductive urlsign_error := UrlExpired | UrlInvalidSig | UrlMissingParams | UrlOther.

Definition signedArtifactMiddleware {A} (signer : option (string → option urlsign_error)) (domain url : string)
    (unauthorized : string → A) (next : A) : A :=
  match signer with
  | None => next
  | Some verify =>
      match verify (domain +:+ url) with
      | None => next
      | Some UrlExpired => unauthorized "The URL has expired"
      | Some UrlInvalidSig => unauthorized "The provided signature is invalid"
      | Some UrlMissingParams => unauthorized "This resource requires a valid signature to access"
      | Some UrlOther => unauthorized "You are unauthorized to access this resource"
      end
  end.

(** ** Workers *)
Definition live_workers m : list (WorkerConn SS) := omap (λ a, wp_conns (mg_workers m) !! a) (allWorkers (mg_workers m)).

Definition handleListWorkers m : response (list workerInfo) :=
  Reply 200 ((λ w, MkWorkerInfo (wc_workerID w) (wc_os w) (wc_arch w) (wc_capacity w) (AvailableCapacity w)
                     (WorkerState_String (State w)) (wc_connectedAt w) 0) <$> live_workers m).

Definition handleGetWorker m (id : string) : response workerDetailInfo :=
  match GetWorker (mg_workers m) id ≫= λ a, wp_conns (mg_workers m) !! a with
  | None => Problem 404 "worker not found"
  | Some w =>
      Reply 200 (MkWorkerDetailInfo (wc_workerID w) (wc_os w) (wc_arch w) (WorkerState_String (State w)) (wc_capacity w)
                   (AvailableCapacity w) 0 (inFlightIDs w) (wc_connectedAt w) (LastHeartbeat w) (LastIdleTime w))
  end.

Definition handleDrainWorker m (id : string) : Manager SS ST * response unit :=
  match DrainWorker m id with
  | (m, Some e) => (m, Problem 404 (Error e))
  | (m, None) => (m, NoBody 202)
  end.

Definition handleDisconnectWorker m (id : string) : Manager SS ST * response unit :=
  match DisconnectWorker m id with
  | (m, Some e) => (m, Problem 404 (Error e))
  | (m, None) => (m, NoBody 204)
  end.

(** ** Cluster *)
Definition count_state (c : clusterWorkerCounts) (w : WorkerConn SS) : clusterWorkerCounts :=
  let '(MkClusterWorkerCounts t on pr dr off) := c in
  let t := t +! 1 in
  if (State w =? WorkerStateOnline)%Z then MkClusterWorkerCounts t (on +! 1) pr dr off
  else if (State w =? WorkerStatePressure)%Z then MkClusterWorkerCounts t on (pr +! 1) dr off
  else if (State w =? WorkerStateDraining)%Z then MkClusterWorkerCounts t on pr (dr +! 1) off
  else if (State w =? WorkerStateOffline)%Z then MkClusterWorkerCounts t on pr dr (off +! 1)
  else MkClusterWorkerCounts t on pr dr off.

Definition add_platform (pm : gmap string clusterPlatformSummary) (w : WorkerConn SS) : gmap string clusterPlatformSummary :=
  let key := platformKey (wc_os w) (wc_arch w) in
  let p := default (MkClusterPlatformSummary (wc_os w) (wc_arch w) 0 0 0) (pm !! key) in
  <[key := MkClusterPlatformSummary (cps_OS p) (cps_Arch p) (cps_Workers p +! 1)
             (cps_TotalCapacity p +! wc_capacity w) (cps_AvailableCapacity p +! AvailableCapacity w)]> pm.

Definition handleCluster m : response clusterSummaryResponse :=
  let workers := live_workers m in
  let counts := foldl count_state (MkClusterWorkerCounts 0 0 0 0 0) workers in
  let totalCap := foldl (λ t w, t +! wc_capacity w) 0%Z workers in
  let availCap := foldl (λ t w, if IsInState w WorkerStateOnline then t +! AvailableCapacity w else t) 0%Z workers in
  let util := if (0 <? totalCap)%Z then Some (1 - inject_Z availCap / inject_Z totalCap)%Q else None in
  Reply 200 (MkClusterSummaryResponse counts (MkClusterCapacity totalCap availCap util)
               (Z.of_nat (Size (mg_queue m))) (range_values (foldl add_platform ∅ workers))).

Definition count_priority (bp : gmap Z Z) (job : Job) : gmap Z Z :=
  <[job_Priority job := default 0%Z (bp !! job_Priority job) +! 1]> bp.

Definition count_platform (bp : gmap string queuePlatformEntry) (job : Job) : gmap string queuePlatformEntry :=
  match cfg_ArtifactsRegistry cfg with
  | None => bp
  | Some reg =>
      match ListPlatforms reg (job_TaskName job) "" with
      | Err _ | Ok [] => bp
      | Ok (p :: _) =>
          let key := platformKey (ap_OS p) (ap_Arch p) in
          let e := default (MkQueuePlatformEntry (ap_OS p) (ap_Arch p) 0 0) (bp !! key) in
          <[key := MkQueuePlatformEntry (qpe_OS e) (qpe_Arch e) (qpe_Depth e +! 1) (qpe_TotalCost e +! job_Cost job)]> bp
      end
  end.

(** The order of [ByPriority] is that of ranging over the map. *)
Definition QueueInfo m : queueSnapshot :=
  let items := Values (mg_queue m) in
  MkQueueSnapshot (Z.of_nat (length items)) (range_values (foldl count_platform ∅ items))
    ((λ '(p, n), MkQueuePriorityEntry p n) <$> map_to_list (foldl count_priority ∅ items)).

Definition handleClusterQueue m : response queueSnapshot := Reply 200 (QueueInfo m).

Definition handleClusterMetrics m : response clusterMetrics :=
  let count := CountJobsByStatus (ents m) in
  let workers := live_workers m in
  Reply 200 (MkClusterMetrics
    [("pending", count JobStatusPending); ("proposing", count JobStatusProposing);
     ("provisioning", count JobStatusProvisioning); ("running", count JobStatusRunning);
     ("awaiting_children", count JobStatusAwaitingChildren); ("completed", count JobStatusCompleted);
     ("failed", count JobStatusFailed); ("cancelled", count JobStatusCancelled)]
    (Z.of_nat (length workers)) (foldl (λ t w, t +! wc_capacity w) 0%Z workers)
    (foldl (λ t w, t +! AvailableCapacity w) 0%Z workers) (Z.of_nat (Size (mg_queue m)))).

(** ** Jobs *)
(** [None] is a panic of the store; its listing has no error. *)
Definition handleListJobs m (cursor limit : string) : option (response (list Job * string)) :=
  '(jobs, next) ← ListJobs (ents m) cursor (parseLimit limit 20); Some (Reply 200 (jobs, next)).

Definition handleGetJob m (id : string) : response Job :=
  match GetJob (ents m) id with Err _ => Problem 404 "job not found" | Ok job => Reply 200 job end.

Definition handleListChildJobs m (id : string) : response (list Job) :=
  match GetJob (ents m) id with
  | Err _ => Problem 404 "job not found"
  | Ok _ => Reply 200 (ListChildJobs (ents m) id)
  end.

Definition handleListJobRuns m (id : string) : response (list JobRun) :=
  match GetJob (ents m) id with
  | Err _ => Problem 404 "job not found"
  | Ok _ => Reply 200 (ListJobRuns (ents m) id)
  end.

(** ** Logs: [reader] is what the log store returns, [chunks] how its text is read *)
Definition handleJobLogs m (reader : string → res error string) (id : string) : response string :=
  match GetJob (ents m) id with
  | Err _ => Problem 404 "job not found"
  | Ok _ => match reader id with Err _ => Problem 500 "failed to read logs" | Ok log => Reply 200 log end
  end.

Definition handleRunLogs (reader : string → res error string) (runID : string) : response string :=
  match reader runID with Err _ => Problem 500 "failed to read run logs" | Ok log => Reply 200 log end.

(** What a streaming request sends at once: the lines of a finished job or run and the final event, or nothing yet
    because it was subscribed to a new channel of the log store. [None] is a subscription that never returns. *)
Inductive stream := Finished (lines : list string) | Subscribed (ch : nat).

Definition subscribed m (subscription : option (nat * ST)) : option (Manager SS ST * response stream) :=
  '(ch, st) ← subscription; Some (set_store m st, Reply 200 (Subscribed ch)).

Definition handleJobLogsStream m (chunks : string → option (list string)) (jobID : string)
  : option (Manager SS ST * response stream) :=
  match GetJob (ents m) jobID with
  | Err _ => Some (m, Problem 404 "job not found")
  | Ok job =>
      if IsTerminal (job_Status job) then Some (m, Reply 200 (Finished (emitLogLines (default [] (chunks jobID)))))
      else subscribed m (st_SubscribeJobLogs (mg_store m) jobID)
  end.

Definition handleRunLogsStream m (chunks : string → option (list string)) (runID : string)
  : option (Manager SS ST * response stream) :=
  match GetRun (ents m) runID with
  | Err _ => Some (m, Problem 404 "run not found")
  | Ok run =>
      if bool_decide (run_Status run = RunStatusCompleted) || bool_decide (run_Status run = RunStatusFailed)
      then Some (m, Reply 200 (Finished (emitLogLines (default [] (chunks runID)))))
      else subscribed m (st_SubscribeRunLogs (mg_store m) runID)
  end.

(** A subscribed request then waits for its channel: a chunk, or that it was closed.  The lines sent, and whether the
    final event was; the list ends where the client goes away. *)
Inductive delivery := Chunk (data : string) | ChanClosed.

Fixpoint follow_logs (ds : list delivery) : list string * bool :=
  match ds with
  | [] => ([], false)
  | ChanClosed :: _ => ([], true)
  | Chunk data :: ds => let '(lines, closed) := follow_logs ds in (stream_lines data ++ lines, closed)
  end.

(** Each line of a followed run is sent with the run and the job it belongs to; a request whose subscription failed sends
    nothing and waits for its client to go away. *)
Record run_log_event := MkRunLogEvent { rle_run_id : string; rle_job_id : string; rle_line : string }.

Fixpoint follow_run_deliveries (runID jobID : string) (ds : list delivery) : list run_log_event * bool :=
  match ds with
  | [] => ([], false)
  | ChanClosed :: _ => ([], true)
  | Chunk data :: ds =>
      let '(events, closed) := follow_run_deliveries runID jobID ds in
      ((MkRunLogEvent runID jobID <$> stream_lines data) ++ events, closed)
  end.

Definition follow_run_logs (runID jobID : string) (subscription : res error (list delivery)) : list run_log_event * bool :=
  match subscription with Err _ => ([], false) | Ok ds => follow_run_deliveries runID jobID ds end.

(** ** Task definitions *)
Definition handleListTaskDefs m : response (list Task) := Reply 200 (ListTasks (ents m)).

Definition handleCreateTaskDef m (body : res error Task) : Manager SS ST * response Task :=
  match body with
  | Err e => (m, Problem 400 (Error e))
  | Ok task =>
      if bool_decide (task_Name task = "") then (m, Problem 400 "task name is required")
      else match st_SaveTask (mg_store m) task with
           | (s, Some _) => (set_store m s, Problem 500 "failed to save task")
           | (s, None) => (set_store m s, Reply 201 task)
           end
  end.

Definition handleGetTaskDef m (name : string) : response Task :=
  match GetTask (ents m) name with Err _ => Problem 404 "task not found" | Ok task => Reply 200 task end.

Definition update_task (updates t : Task) : Task :=
  let t := t <| task_Limitations := task_Limitations updates |> <| task_RetryPolicy := task_RetryPolicy updates |> in
  let t := if (task_Cost updates =? 0)%Z then t else t <| task_Cost := task_Cost updates |> in
  t <| task_NoResult := task_NoResult updates |>.

Definition handleUpdateTaskDef m (name : string) (body : res error Task) : Manager SS ST * response (option Task) :=
  match body with
  | Err e => (m, Problem 400 (Error e))
  | Ok updates =>
      match st_UpdateTask (mg_store m) name (update_task updates) with
      | (s, Some _) => (set_store m s, Problem 404 "task not found")
      | (s, None) =>
          let m := set_store m s in
          (m, Reply 200 (match GetTask (ents m) name with Ok t => Some t | Err _ => None end))
      end
  end.

Definition handleDeleteTaskDef m (reg : option FsRegistry) (name : string) : Manager SS ST * option FsRegistry * response unit :=
  match st_DeleteTask (mg_store m) name with
  | (s, Some _) => (set_store m s, reg, Problem 404 "task not found")
  | (s, None) => (set_store m s, (λ r, DeleteArtifact r name) <$> reg, NoBody 204)
  end.
End routes.

(** ** Artifacts *)
Section artifacts.
Context `{SimpleSet SS} `{Store ST} `{GoRuntime} `{RegistryCodec}.
Implicit Types (m : Manager SS ST) (r : FsRegistry).

(** [strings.TrimSpace] as far as ASCII spaces go. *)
Definition ascii_space (c : ascii) : bool := let n := N_of_ascii c in ((9 <=? n) && (n <=? 13) || (n =? 32))%N.

Fixpoint trim_left (s : string) : string :=
  match s with String c s' => if ascii_space c then trim_left s' else s | "" => "" end.

Definition TrimSpace (s : string) : string :=
  let rev s := String.string_of_list_ascii (List.rev (String.list_ascii_of_string s)) in
  rev (trim_left (rev (trim_left s))).

(** [strings.HasSuffix(key, suffix)] with the rest. *)
Definition cut_suffix (suffix s : string) : option string :=
  let n := String.length s - String.length suffix in
  if bool_decide (n + String.length suffix = String.length s) && bool_decide (String.substring n (String.length suffix) s = suffix)
  then Some (String.substring 0 n s) else None.

(** The dependency lists of the form fields named [{platform}_deps]. *)
Definition add_deps (acc : gmap string (list string)) (field : string * list string) : gmap string (list string) :=
  match cut_suffix "_deps" field.1, field.2 with
  | Some platform, v :: _ =>
      match filter (λ d, d ≠ "") (TrimSpace <$> strings_Split "," v) with
      | [] => acc
      | deps => <[platform := deps]> acc
      end
  | _, _ => acc
  end.

(** The uploaded files that are binaries; [Err] carries the field that cannot be opened. *)
Fixpoint collect_binaries (acc : gmap string (res error string)) (files : list (string * res error (res error string)))
  : res string (gmap string (res error string)) :=
  match files with
  | [] => Ok acc
  | (key, file) :: files =>
      match cut_suffix "_deps" key with
      | Some _ => collect_binaries acc files
      | None =>
          if negb (no_char "_" key) then
            match file with
            | Err _ => Err key
            | Ok reader => collect_binaries (<[key := reader]> acc) files
            end
          else collect_binaries acc files
      end
  end.

(** A parsed multipart form. *)
Record upload_form := MkUploadForm {
  uf_Value : gmap string (list string);
  uf_File : gmap string (res error (res error string));
}.

Definition form_value (f : upload_form) (name : string) : string := default "" (uf_Value f !! name ≫= head).

Definition publishArtifact m (reg : option FsRegistry) (artifactName : string) (form : res error upload_form) (now : Time)
  : Manager SS ST * option FsRegistry * response unit :=
  match reg with
  | None => (m, None, Problem 503 "artifact registry not configured")
  | Some r =>
      match form with
      | Err e => (m, Some r, Problem 400 (Error e))
      | Ok f =>
          let version := form_value f "version" in
          if bool_decide (version = "") then (m, Some r, Problem 400 "version is required")
          else
            let platformDeps := foldl add_deps ∅ (range_map (uf_Value f)) in
            match collect_binaries ∅ (range_map (uf_File f)) with
            | Err key => (m, Some r, Problem 400 ("failed to open file: " +:+ key))
            | Ok binaries =>
                if bool_decide (binaries = ∅)
                then (m, Some r, Problem 400 "no platform binaries provided (expected fields like linux_amd64)")
                else
                  let av := MkArtifactVersion artifactName version (bool_decide (form_value f "pre_release" = "true")) now []
                              platformDeps in
                  match Publish r av binaries now with
                  | (r, None) => (NotifyDispatcher m, Some r, NoBody 201)
                  | (r, Some ErrArtifactAlreadyExists) =>
                      (m, Some r, if bool_decide (form_value f "ignore_if_exists" = "true") then NoBody 200
                                  else Problem 409 "version already exists for this platform")
                  | (r, Some _) => (m, Some r, Problem 500 "publish failed")
                  end
            end
      end
  end.

Definition listArtifactVersions (reg : option FsRegistry) (artifactName : string)
  : option FsRegistry * response (list ArtifactVersion) :=
  match reg with
  | None => (None, Problem 503 "artifact registry not configured")
  | Some r => let '(r, versions) := ListVersions r artifactName in (Some r, Reply 200 versions)
  end.

Definition artifactLatest (reg : option FsRegistry) (artifactName : string) : option FsRegistry * response ArtifactVersion :=
  match reg with
  | None => (None, Problem 503 "artifact registry not configured")
  | Some r =>
      let '(r, versions) := ListVersions r artifactName in
      (Some r, match versions with
               | [] => Problem 404 "no versions found"
               | _ => match first (λ v, negb (av_PreRelease v)) versions with
                      | Some v => Reply 200 v
                      | None => Problem 404 "no released version found"
                      end
               end)
  end.

(** The filesystem registry serves its files itself: the path of the file. *)
Definition serveArtifact (reg : option FsRegistry) (artifactName version os arch : string) : response (list string) :=
  match reg with
  | None => Problem 503 "artifact registry not configured"
  | Some r =>
      match ServeFile r artifactName version os arch with
      | Err _ => Problem 404 "artifact not found"
      | Ok p => Reply 200 p
      end
  end.

(** A registry that serves no files itself: the address the client is redirected to. *)
Definition redirectArtifact (reg : ArtifactRegistry) (artifactName version os arch : string) : response string :=
  match ResolveVersion reg artifactName version os arch with
  | Err _ => Problem 404 "artifact not found"
  | Ok platform =>
      if bool_decide (ap_URL platform ≠ "") then Reply 302 (ap_URL platform) else Problem 404 "artifact binary not available"
  end.

(** The routes under [/tasks/{name}/artifacts], and the older handlers under a task type, which no route reaches. *)
Definition PathValue (vals : gmap string string) (name : string) : string := default "" (vals !! name).

Definition handleTaskArtifactUpload m reg vals form now := publishArtifact m reg (PathValue vals "name") form now.
Definition handleTaskListArtifactVersions reg vals := listArtifactVersions reg (PathValue vals "name").
Definition handleTaskArtifactLatest reg vals := artifactLatest reg (PathValue vals "name").
Definition handleTaskArtifactDownload reg vals :=
  serveArtifact reg (PathValue vals "name") (PathValue vals "version") (PathValue vals "os") (PathValue vals "arch").

Definition handleArtifactUpload m reg vals form now := publishArtifact m reg (PathValue vals "task_type") form now.
Definition handleListArtifactVersions reg vals := listArtifactVersions reg (PathValue vals "task_type").
Definition handleArtifactLatest reg vals := artifactLatest reg (PathValue vals "task_type").
Definition handleArtifactDownload reg vals :=
  serveArtifact reg (PathValue vals "task_type") (PathValue vals "version") (PathValue vals "os") (PathValue vals "arch").
End artifacts.

(** ** Properties *)

(** The lines of a text: what lies between line ends; what follows the last one is no line. *)
Definition terminated_lines (s : string) : list string := filter (λ l, l ≠ "") (removelast (strings_Split nl s)).

Lemma emit_chunk_app st a b : emit_chunk st (a +:+ b) = emit_chunk (emit_chunk st a) b.
Proof. revert st. induction a as [|c a IH]; intros st; [done|]. apply IH. Qed.

Lemma emit_chunks st chunks : foldl emit_chunk st chunks = emit_chunk st (str_concat chunks).
Proof. revert st. induction chunks as [|c chunks IH]; intros st; [done|]. cbn. by rewrite IH, emit_chunk_app. Qed.

Lemma Split_nonempty sep s : strings_Split sep s ≠ [].
Proof. destruct s as [|c s]; simpl; [done|]. case_decide; [done|]. by destruct (strings_Split sep s). Qed.

Lemma Split_line sep line s : no_char sep line = true →
  strings_Split sep (line +:+ String sep s) = line :: strings_Split sep s.
Proof.
  induction line as [|c line IH]; simpl; [by rewrite decide_True by done|].
  intros [Hc Hl]%andb_prop. apply negb_true_iff, bool_decide_eq_false in Hc.
  by rewrite decide_False, IH by done.
Qed.

Lemma removelast_cons {A} (x : A) l : l ≠ [] → removelast (x :: l) = x :: removelast l.
Proof. by destruct l. Qed.

Lemma emit_chunk_lines s line out : no_char nl line = true →
  (emit_chunk (line, out) s).2 = out ++ terminated_lines (line +:+ s).
Proof.
  revert line out. induction s as [|b s IH]; intros line out Hl.
  { rewrite str_app_nil_r. unfold terminated_lines. by rewrite Split_no_char, app_nil_r. }
  cbn [emit_chunk emit_byte]. case_decide as Hb.
  - subst b. unfold terminated_lines. rewrite Split_line, removelast_cons, filter_cons by (done || apply Split_nonempty).
    case_bool_decide as Hne.
    + rewrite IH by done. rewrite decide_True by done. by rewrite <- app_assoc.
    + subst line. rewrite IH by done. by rewrite decide_False by naive_solver.
  - rewrite IH; [|rewrite no_char_app, Hl; simpl; by rewrite bool_decide_eq_false_2].
    by rewrite str_app_assoc.
Qed.

Lemma log_lines_text (chunks : list string) : emitLogLines chunks = terminated_lines (str_concat chunks).
Proof. unfold emitLogLines. rewrite emit_chunks. by apply (emit_chunk_lines (str_concat chunks) "" []). Qed.

(** A finished log is sent line by line, however it is read. Whatever sizes the reads have, the lines sent for a
    finished job are the non-empty lines of the whole text in order; text after the last line end is not sent. *)
Theorem log_lines_reference (chunks : list string) :
  emitLogLines chunks = terminated_lines (str_concat chunks).
Proof. apply log_lines_text. Qed.

Lemma Split_app sep a b : strings_Split sep (a +:+ String sep b) = strings_Split sep a ++ strings_Split sep b.
Proof.
  induction a as [|c a IH]; [simpl; by rewrite decide_True|]. simpl. rewrite IH. case_decide; [done|].
  pose proof (Split_nonempty sep a). by destruct (strings_Split sep a).
Qed.

(** Trailing line ends only make empty lines. *)
Lemma TrimRight_lines s : ∃ x l l', strings_Split nl s = x :: l ∧ strings_Split nl (TrimRight nl s) = x :: l' ∧
  filter (λ y, y ≠ "") l' = filter (λ y, y ≠ "") l.
Proof.
  induction s as [|c s (x & l & l' & E & E' & Hf)]; [by exists "", [], []|]. simpl. rewrite E.
  destruct (decide (c = nl)) as [->|Hc].
  - exists "", (x :: l). destruct (TrimRight nl s) as [|d t] eqn:Et.
    + exists []. split_and!; [done..|]. injection E' as <- <-. by rewrite filter_cons_False by (intros []; done).
    + exists (x :: l'). split_and!; [done| |by rewrite !filter_cons, Hf].
      change (strings_Split nl (String nl (String d t))) with (if decide (nl = nl) then "" :: strings_Split nl (String d t) else []).
      by rewrite decide_True, E'.
  - exists (String c x), l, l'. split_and!; [done| |done]. destruct (TrimRight nl s) as [|d t].
    + injection E' as <- <-. simpl. by rewrite decide_False.
    + change (strings_Split nl (String c (String d t))) with (if decide (c = nl) then "" :: strings_Split nl (String d t) else
        match strings_Split nl (String d t) with [] => [String c ""] | x :: l => String c x :: l end).
      by rewrite decide_False, E'.
Qed.

Lemma stream_lines_all s : stream_lines s = filter (λ l, l ≠ "") (strings_Split nl s).
Proof. destruct (TrimRight_lines s) as (x & l & l' & E & E' & Hf). unfold stream_lines. by rewrite E, E', !filter_cons, Hf. Qed.

Lemma terminated_lines_app a b : terminated_lines (a +:+ String nl b) = stream_lines a ++ terminated_lines b.
Proof.
  unfold terminated_lines. rewrite stream_lines_all, Split_app, removelast_app by apply Split_nonempty. apply filter_app.
Qed.

Lemma stream_lines_end a : stream_lines (a +:+ String nl "") = stream_lines a.
Proof. rewrite !stream_lines_all, Split_app, filter_app. simpl. rewrite filter_cons_False by (intros []; done). apply app_nil_r. Qed.



(** A followed run is sent the lines of a followed job, each under its own run. *)
Lemma follow_run_lines runID jobID ds :
  follow_run_logs runID jobID (Ok ds) = (MkRunLogEvent runID jobID <$> (follow_logs ds).1, (follow_logs ds).2).
Proof.
  cbn. induction ds as [|[data|] ds IH]; [done| |done]. cbn -[stream_lines]. rewrite IH. destruct (follow_logs ds) as [lines closed].
  cbn. by rewrite fmap_app.
Qed.

Lemma parseLimit_bounds s : (1 ≤ parseLimit s 20 ≤ 1000)%Z.
Proof.
  unfold parseLimit. case_bool_decide; [lia|]. destruct (limit_digits s 0) as [n|]; [|lia].
  destruct ((n <=? 0)%Z || (1000 <? n)%Z) eqn:E; [lia|]. apply orb_false_elim in E as [?%Z.leb_gt ?%Z.ltb_ge]. lia.
Qed.

(** Listing jobs answers every request. Whatever the cursor and limit parameters are, the handler replies with
    at most 1000 jobs and never panics, as long as the number of stored jobs is far from the integer limit. *)
Theorem list_request_total `{SimpleSet SS} `{Store ST} `{GoRuntime} (m : Manager SS ST) (cursor limit : string) :
  (Z.of_nat (length (root_jobs (ents m))) + 1000 ≤ MaxInt64)%Z →
  ∃ jobs next, handleListJobs m cursor limit = Some (Reply 200 (jobs, next)) ∧ length jobs ≤ 1000.
Proof.
  intros Hsize. unfold handleListJobs, ListJobs. pose proof (parseLimit_bounds limit) as Hl.
  set (lim := parseLimit limit 20) in *. set (all := root_jobs (ents m)) in *. cbn zeta.
  set (start := if bool_decide _ then _ else _).
  destruct (length all <=? start) eqn:Hs; [eexists _, _; split; [reflexivity|simpl; lia]|]. apply Nat.leb_gt in Hs.
  rewrite wrap64_id by (unfold in_int64, MinInt64, MaxInt64 in *; lia).
  set (stop := if (Z.of_nat (length all) <? Z.of_nat start + lim)%Z then _ else _).
  assert (Z.of_nat start < stop ≤ Z.of_nat (length all) ∧ stop ≤ Z.of_nat start + 1000)%Z as Hstop.
  { unfold stop. destruct (Z.ltb_spec (Z.of_nat (length all)) (Z.of_nat start + lim)); lia. }
  rewrite (proj2 (Z.ltb_ge _ _)) by lia. set (page := take _ _).
  assert (length page = Z.to_nat stop - start) as Hp by (unfold page; rewrite length_take, length_drop; lia).
  destruct (stop <? _)%Z; [|eexists _, _; split; [reflexivity|lia]].
  destruct (last page) as [j|] eqn:Hlast; [eexists _, _; split; [reflexivity|lia]|].
  apply last_None in Hlast. rewrite Hlast in Hp. simpl in Hp. lia.
Qed.

Section samples.
#[local] Existing Instances gset_simple_set canonical_runtime unary_ulid open_lanes sample_env least_loaded.

Lemma list_request_total_witness : ∃ jobs next,
  handleListJobs sample_manager "nosuch" "99999999999999999999999" = Some (Reply 200 (jobs, next)) ∧ length jobs ≤ 1000.
Proof. apply (list_request_total sample_manager). vm_compute. congruence. Defined.
End samples.
