(* ===== verification/ArtifactCache.v ===== *)
(** * The worker's artifact cache (src/worker/cache/cache.go)

    Entries are in memory, files on the disk of [Registry]; as there, of the file
    system's errors the model has those its contents cause.  What the outside
    contributes to one download is the record [Download]: the reply of the server,
    the name [os.CreateTemp] picked and the time.  The single-flight group runs the
    function it is given and is modelled on its own in [SingleFlight]. *)
From S2P Require Import Prelude GoStd External Contract Config Registry RegistryProps.

Record artifact_entry := MkEntry {
  entry_path : path;
  entry_size : Z;
  entry_lastUsed : Time;
}.

Record ArtifactCache := MkArtifactCache {
  ac_dir : string;
  ac_maxSize : Z;
  ac_ttl : Duration;
  ac_entries : gmap string artifact_entry;
  ac_total : Z;
  ac_disk : disk;
}.

#[export] Instance ArtifactCache_rebuild : Rebuild ArtifactCache := λ c,
  MkArtifactCache (ac_dir c) (ac_maxSize c) (ac_ttl c) (ac_entries c) (ac_total c) (ac_disk c).
#[export] Instance entry_rebuild : Rebuild artifact_entry := λ e, MkEntry (entry_path e) (entry_size e) (entry_lastUsed e).

(** A reply of the server: its status, the bytes of the body that arrived, and the error that cut
    them short. *)
Record Response := MkResponse {
  rs_StatusCode : Z;
  rs_Body : string;
  rs_err : option error;
}.

Record Download := MkDownload {
  dl_request : option error;
  dl_reply : res error Response;
  dl_temp : string;
  dl_now : Time;
}.

Definition NewArtifactCache (dir : string) (maxSize : Z) (ttl : Duration) (d : disk) : res error ArtifactCache :=
  if mkdir_ok d (filepath_Join [dir]) then Ok (MkArtifactCache dir maxSize ttl ∅ 0 d)
  else Err (ErrMsg ("cache: create dir " +:+ Quote dir)).

Definition removeLocked (c : ArtifactCache) (hash : string) : ArtifactCache :=
  match ac_entries c !! hash with
  | None => c
  | Some e =>
      c <| ac_disk := delete (entry_path e) (ac_disk c) |> <| ac_total := (ac_total c -! entry_size e)%go |>
        <| ac_entries := delete hash (ac_entries c) |>
  end.

(** The path of a cached file, or the empty string ([None]). *)
Definition cache_get (c : ArtifactCache) (hash : string) (now : Time) : ArtifactCache * option path :=
  match ac_entries c !! hash with
  | None => (c, None)
  | Some e =>
      if (0 <? ac_ttl c)%Z && (ac_ttl c <? time_Sub now (entry_lastUsed e))%Z then (removeLocked c hash, None)
      else (c <| ac_entries := <[hash := e <| entry_lastUsed := now |>]> (ac_entries c) |>, Some (entry_path e))
  end.

(** The loop of [evictLocked] over the sorted entries. *)
Fixpoint evict_items (c : ArtifactCache) (items : list (string * Time)) : ArtifactCache :=
  match items with
  | [] => c
  | (hash, _) :: items =>
      if (ac_total c <=? ac_maxSize c)%Z then c else evict_items (removeLocked c hash) items
  end.

Definition older (a b : string * Time) : bool := Before a.2 b.2.

Section cache.
Context `{GoRuntime} (sha256_hex : string → string) (goos : string).

Definition evictLocked (c : ArtifactCache) : ArtifactCache :=
  if (ac_maxSize c <=? 0)%Z || (ac_total c <=? ac_maxSize c)%Z then c
  else evict_items c (sort_slice older (prod_map id entry_lastUsed <$> range_map (ac_entries c))).

(** The name of the file of a hash. *)
Definition cache_name (hash : string) : string :=
  if bool_decide (goos = "windows") then hash +:+ ".exe" else hash.

Definition Obtain (c : ArtifactCache) (hash url : string) (d : Download) : ArtifactCache * res error path :=
  let fail (msg : string) := (c, Err (ErrMsg ("cache: " +:+ msg))) in
  match dl_request d with
  | Some e => fail ("build request: " +:+ Error e)
  | None =>
  match dl_reply d with
  | Err e => fail ("fetch " +:+ url +:+ ": " +:+ Error e)
  | Ok resp =>
      if negb (rs_StatusCode resp =? 200)%Z
      then fail ("fetch " +:+ url +:+ ": unexpected status " +:+ Itoa (rs_StatusCode resp))
      else
        let tmp := filepath_Join [ac_dir c; "dl-" +:+ dl_temp d] in
        if bool_decide (is_Some (ac_disk c !! tmp)) || negb (mkdir_ok (ac_disk c) (filepath_Join [ac_dir c]))
        then fail "create temp"
        else
          let written := <[tmp := rs_Body resp]> (ac_disk c) in
          let abort (msg : string) :=
            (c <| ac_disk := delete tmp written |>, Err (ErrMsg ("cache: " +:+ msg))) in
          match rs_err resp with
          | Some e => abort ("download: " +:+ Error e)
          | None =>
              let got := sha256_hex (rs_Body resp) in
              if bool_decide (hash ≠ "") && bool_decide (got ≠ hash)
              then abort ("integrity check failed (want " +:+ hash +:+ ", got " +:+ got +:+ ")")
              else
                let dest := filepath_Join [ac_dir c; cache_name hash] in
                if is_dir written dest then abort "rename"
                else
                  let size := Z.of_nat (String.length (rs_Body resp)) in
                  (evictLocked
                     (c <| ac_disk := <[dest := rs_Body resp]> (delete tmp written) |>
                        <| ac_entries := <[hash := MkEntry dest size (dl_now d)]> (ac_entries c) |>
                        <| ac_total := (ac_total c +! size)%go |>),
                   Ok dest)
          end
  end end.

(** [t] is the time of the lookup, [dl_now d] that of the end of the download. *)
Definition Fetch (c : ArtifactCache) (hash url : string) (t : Time) (d : Download) : ArtifactCache * res error path :=
  match cache_get c hash t with
  | (c, Some p) => (c, Ok p)
  | (c, None) => Obtain c hash url d
  end.

(** ** The invariant *)

(** Hashes whose file lies directly in the cache's directory. *)
Definition cacheable (hash : string) : Prop := hash ≠ "" ∧ plain_name (cache_name hash).

Definition sizes (c : ArtifactCache) : gmap string Z := entry_size <$> ac_entries c.

Definition file_of (c : ArtifactCache) (hash : string) : path := filepath_Join [ac_dir c] ++ [cache_name hash].

Record entry_ok (c : ArtifactCache) (hash : string) (e : artifact_entry) : Prop := {
  eo_name : cacheable hash;
  eo_path : entry_path e = file_of c hash;
  eo_file : ∃ content, ac_disk c !! entry_path e = Some content ∧ sha256_hex content = hash ∧
              entry_size e = Z.of_nat (String.length content);
}.

(** Every entry has its file, and the running total is the sum of the sizes. *)
Record cache_ok (c : ArtifactCache) : Prop := {
  co_entry hash e : ac_entries c !! hash = Some e → entry_ok c hash e;
  co_total : ac_total c = ledger_cost (sizes c);
  co_width : (ac_total c ≤ MaxInt64)%Z;
}.

Definition within_limit (c : ArtifactCache) : Prop := (0 < ac_maxSize c)%Z → (ac_total c ≤ ac_maxSize c)%Z.

Lemma cache_name_inj h1 h2 : cache_name h1 = cache_name h2 → h1 = h2.
Proof.
  unfold cache_name. case_bool_decide; [|done]. intros E.
  assert (String.length h1 = String.length h2) as Hl.
  { apply (f_equal String.length) in E. rewrite !str_app_length in E. lia. }
  revert h2 E Hl. induction h1 as [|a h1 IH]; intros [|b h2] E [=]; [done|]. injection E as -> E.
  f_equal. by apply IH.
Qed.

Lemma file_of_inj c h1 h2 : file_of c h1 = file_of c h2 → h1 = h2.
Proof. intros [_ [= E]]%app_inj_2; [|done]. by apply cache_name_inj. Qed.

Lemma entry_size_nonneg c h e : cache_ok c → ac_entries c !! h = Some e → (0 ≤ entry_size e)%Z.
Proof. intros Hc He. destruct (eo_file _ _ _ (co_entry _ Hc h e He)) as (content & _ & _ & ->). lia. Qed.

Lemma sizes_nonneg c : cache_ok c → ∀ h z, sizes c !! h = Some z → (0 ≤ z)%Z.
Proof.
  intros Hc h z. unfold sizes. rewrite lookup_fmap. intros (e & He & ->)%fmap_Some_1.
  by eapply entry_size_nonneg.
Qed.

(** Removing an entry removes its file, and only it. *)
Lemma removeLocked_ok c h : cache_ok c →
  cache_ok (removeLocked c h) ∧ ac_entries (removeLocked c h) = delete h (ac_entries c) ∧
  ac_maxSize (removeLocked c h) = ac_maxSize c ∧ ac_dir (removeLocked c h) = ac_dir c ∧
  ac_total (removeLocked c h) = (ac_total c - default 0 (entry_size <$> ac_entries c !! h))%Z ∧
  ac_disk (removeLocked c h) ⊆ ac_disk c ∧
  (∀ e, ac_entries c !! h = Some e → ac_disk (removeLocked c h) !! entry_path e = None) ∧
  (∀ p, (∀ h', p = file_of c h' → ac_entries c !! h' = None) → ac_disk (removeLocked c h) !! p = ac_disk c !! p).
Proof.
  intros Hc. unfold removeLocked. destruct (ac_entries c !! h) as [e|] eqn:He.
  2: { split_and!; try done; [by rewrite delete_id|simpl; lia]. }
  pose proof (sizes_nonneg c Hc) as Hnn.
  assert (sizes c !! h = Some (entry_size e)) as Hs by (unfold sizes; by rewrite lookup_fmap, He).
  pose proof (ledger_cost_delete _ _ _ Hs) as Hd.
  assert (0 ≤ ledger_cost (delete h (sizes c)))%Z.
  { apply ledger_cost_nonneg. intros j z [_ Hj]%lookup_delete_Some. eauto. }
  pose proof (entry_size_nonneg c h e Hc He).
  assert (ac_total c -! entry_size e = ac_total c - entry_size e)%go%Z as Hw.
  { pose proof (co_total _ Hc). pose proof (co_width _ Hc). apply wrap64_id. i64. lia. }
  pose proof (co_entry _ Hc h e He) as [_ Hpath _].
  split_and!; [|done|done|done|exact Hw|apply delete_subseteq|intros e' [= <-]; apply lookup_delete_eq|].
  - split; cbn.
    + intros h' e' [Hne He']%lookup_delete_Some. destruct (co_entry _ Hc h' e' He') as [P1 P2 (content & P3 & P4)].
      split; [done|done|]. exists content. cbn. rewrite lookup_delete_ne; [done|].
      rewrite Hpath, P2. intros E%file_of_inj. done.
    + rewrite Hw. unfold sizes. cbn. rewrite fmap_delete. fold (sizes c). pose proof (co_total _ Hc). lia.
    + rewrite Hw. pose proof (co_width _ Hc). lia.
  - intros p Hp. cbn. apply lookup_delete_ne. intros <-. rewrite (Hp h) in He; done.
Qed.

Lemma removals_ok l c : cache_ok c →
  let c' := foldl removeLocked c l in
  cache_ok c' ∧ ac_maxSize c' = ac_maxSize c ∧ ac_dir c' = ac_dir c ∧
  (∀ h, ac_entries c' !! h = if decide (h ∈ l) then None else ac_entries c !! h) ∧
  ac_disk c' ⊆ ac_disk c ∧
  (∀ h e, ac_entries c !! h = Some e → h ∈ l → ac_disk c' !! entry_path e = None) ∧
  (∀ p, (∀ h', p = file_of c h' → ac_entries c !! h' = None) → ac_disk c' !! p = ac_disk c !! p).
Proof.
  revert c. induction l as [|h l IH]; intros c Hc; cbn [foldl].
  { split_and!; try done. intros h e _ Hin. by apply not_elem_of_nil in Hin. }
  destruct (removeLocked_ok c h Hc) as (H1 & H2 & H3 & H4 & _ & Hsub & Hdel & H5).
  destruct (IH _ H1) as (J1 & J2 & J3 & J4 & Jsub & Jdel & J5).
  split_and!; [done|by rewrite J2|by rewrite J3| |by etrans| |].
  - intros h'. rewrite J4, H2. destruct (decide (h' = h)) as [->|Hne].
    + rewrite lookup_delete_eq. repeat case_decide; set_solver.
    + rewrite lookup_delete_ne by done. repeat case_decide; set_solver.
  - intros h' e He [->|Hin]%elem_of_cons.
    + eapply lookup_weaken_None; [by apply Hdel|exact Jsub].
    + destruct (decide (h' = h)) as [->|Hne]; [eapply lookup_weaken_None; [by apply Hdel|exact Jsub]|].
      apply (Jdel h'); [|done]. by rewrite H2, lookup_delete_ne.
  - intros p Hp. rewrite J5; [by apply H5|]. intros h' E. rewrite H2.
    unfold file_of in E. rewrite H4 in E. apply lookup_delete_None. right. by apply Hp.
Qed.

(** What the last of a series of removals does. *)
Lemma last_removal c l g e : cache_ok c → ac_entries c !! g = Some e → g ∉ l →
  let c' := foldl removeLocked c (l ++ [g]) in
  ac_entries c' !! g = None ∧ ac_total (foldl removeLocked c l) = (ac_total c' + entry_size e)%Z.
Proof.
  intros Hc He Hg. destruct (removals_ok l c Hc) as (H1 & _ & _ & H4 & _).
  rewrite foldl_app. cbn [foldl]. destruct (removeLocked_ok _ g H1) as (_ & -> & _ & _ & -> & _).
  split; [apply lookup_delete_eq|]. rewrite H4, decide_False, He by done. cbn. lia.
Qed.

(** The loop removes a prefix of its items: the shortest that brings the total under the limit. *)
Lemma evict_items_prefix c items : ∃ k, k ≤ length items ∧
  evict_items c items = foldl removeLocked c (take k items).*1 ∧
  ((ac_total (evict_items c items) ≤ ac_maxSize (evict_items c items))%Z ∨ k = length items) ∧
  (∀ j, j < k → (ac_maxSize (foldl removeLocked c (take j items).*1) < ac_total (foldl removeLocked c (take j items).*1))%Z).
Proof.
  revert c. induction items as [|[h t] items IH]; intros c; cbn [evict_items].
  { exists 0. split_and!; [done|done|by right|lia]. }
  destruct (Z.leb_spec (ac_total c) (ac_maxSize c)).
  { exists 0. split_and!; [lia|done|by left|lia]. }
  destruct (IH (removeLocked c h)) as (k & Hk & He & Hd & Hm). exists (S k).
  split_and!; [simpl; lia|done|destruct Hd; [by left|right; simpl; lia]|].
  intros [|j] Hj; [done|]. apply (Hm j). lia.
Qed.

Lemma ac_total_nonneg c : cache_ok c → (0 ≤ ac_total c)%Z.
Proof. intros Hc. rewrite (co_total _ Hc). by apply ledger_cost_nonneg, sizes_nonneg. Qed.

(** The entries in the order they are evicted. *)
Definition eviction_order (c : ArtifactCache) : list (string * Time) :=
  sort_slice older (prod_map id entry_lastUsed <$> range_map (ac_entries c)).

Lemma eviction_order_perm c : eviction_order c ≡ₚ prod_map id entry_lastUsed <$> map_to_list (ac_entries c).
Proof. unfold eviction_order. by rewrite sort_slice_perm, range_map_perm. Qed.

Lemma elem_of_eviction_order c h t :
  (h, t) ∈ eviction_order c ↔ ∃ e, ac_entries c !! h = Some e ∧ entry_lastUsed e = t.
Proof.
  rewrite eviction_order_perm, list_elem_of_fmap. split.
  - intros ([h' e] & [= -> ->] & He%elem_of_map_to_list). eauto.
  - intros (e & He & <-). exists (h, e). split; [done|]. by apply elem_of_map_to_list.
Qed.

Lemma eviction_order_NoDup c : NoDup (eviction_order c).*1.
Proof. rewrite eviction_order_perm, <-list_fmap_compose. exact (NoDup_fst_map_to_list _). Qed.

Lemma eviction_order_sorted c : StronglySorted (not_after older) (eviction_order c).
Proof. apply sort_slice_sorted. exact (swo_key snd). Qed.

(** [evictLocked] on a consistent cache: a prefix of the eviction order goes. *)
Lemma evictLocked_prefix c : cache_ok c → (0 < ac_maxSize c)%Z → ∃ k,
  k ≤ length (eviction_order c) ∧ evictLocked c = foldl removeLocked c (take k (eviction_order c)).*1 ∧
  (ac_total (evictLocked c) ≤ ac_maxSize c)%Z ∧
  (∀ j, j < k → (ac_maxSize c < ac_total (foldl removeLocked c (take j (eviction_order c)).*1))%Z).
Proof.
  intros Hc Hmax. unfold evictLocked. rewrite (proj2 (Z.leb_gt _ _) Hmax). cbn [orb].
  destruct (Z.leb_spec (ac_total c) (ac_maxSize c)); [exists 0; split_and!; [lia|done|done|lia]|].
  fold (eviction_order c). destruct (evict_items_prefix c (eviction_order c)) as (k & Hk & He & Hd & Hm).
  exists k. destruct (removals_ok (take k (eviction_order c)).*1 c Hc) as (H1 & H2 & _ & H4 & _).
  split_and!; [done|done| |].
  - rewrite <-He in *. destruct Hd as [Hd| ->]; [by rewrite H2 in Hd|].
    rewrite (co_total _ H1). replace (sizes _) with (∅ : gmap string Z); [exact (Z.lt_le_incl _ _ Hmax)|].
    symmetry. apply map_empty. intros h. unfold sizes. rewrite lookup_fmap, H4.
    case_decide as Hin; [done|]. destruct (ac_entries c !! h) as [e|] eqn:E; [|done].
    destruct Hin. rewrite take_ge by done. apply list_elem_of_fmap. exists (h, entry_lastUsed e).
    split; [done|]. apply elem_of_eviction_order. eauto.
  - intros j Hj. destruct (removals_ok (take j (eviction_order c)).*1 c Hc) as (_ & <- & _). by apply Hm.
Qed.

Lemma evictLocked_ok c : cache_ok c →
  let c' := evictLocked c in
  cache_ok c' ∧ within_limit c' ∧ ac_maxSize c' = ac_maxSize c ∧ ac_dir c' = ac_dir c ∧ ac_entries c' ⊆ ac_entries c ∧
  ac_disk c' ⊆ ac_disk c ∧
  (∀ h e, ac_entries c !! h = Some e → ac_entries c' !! h = None → ac_disk c' !! entry_path e = None) ∧
  (∀ p, (∀ h', p = file_of c h' → ac_entries c !! h' = None) → ac_disk c' !! p = ac_disk c !! p) ∧
  (∀ h e h' e', ac_entries c !! h = Some e → ac_entries c' !! h = None → ac_entries c' !! h' = Some e' →
     entry_lastUsed e ≤ entry_lastUsed e')%Z ∧
  (∀ h e, ac_entries c !! h = Some e → ac_entries c' !! h = None →
     ∃ g e', ac_entries c !! g = Some e' ∧ ac_entries c' !! g = None ∧
       (ac_maxSize c < ac_total c' + entry_size e')%Z).
Proof.
  intros Hc c'. destruct (Z.leb_spec (ac_maxSize c) 0) as [Hno|Hmax].
  { assert (c' = c) as -> by (unfold c', evictLocked; by rewrite (proj2 (Z.leb_le _ _) Hno)).
    split_and!; try done; [unfold within_limit; lia|intros; congruence..]. }
  destruct (evictLocked_prefix c Hc Hmax) as (k & Hlen & Hk & Hle & Hmin). fold c' in Hk, Hle.
  destruct (removals_ok (take k (eviction_order c)).*1 c Hc) as (H1 & H2 & H3 & H4 & Hsub & Hdel & H5).
  rewrite <-Hk in *.
  assert (∀ h e, ac_entries c !! h = Some e → ac_entries c' !! h = None →
    (h, entry_lastUsed e) ∈ take k (eviction_order c)) as Hgone.
  { intros h e He. rewrite H4. case_decide as Hin; [|congruence]. intros _.
    apply list_elem_of_fmap in Hin as ([h' t] & -> & Hin). cbn in *.
    assert ((h', t) ∈ eviction_order c) as (e' & He' & <-)%elem_of_eviction_order.
    { rewrite <-(take_drop k (eviction_order c)). apply elem_of_app. by left. }
    by simplify_eq. }
  split_and!; try done.
  - intros _. by rewrite H2.
  - apply map_subseteq_spec. intros h e. rewrite H4. by case_decide.
  - intros h e He Hn. apply (Hdel h e He). apply list_elem_of_fmap. exists (h, entry_lastUsed e). eauto.
  - intros h e h' e' He Hn He'. pose proof (Hgone h e He Hn) as Hin. rewrite H4 in He'. case_decide as Hout; [done|].
    pose proof (eviction_order_sorted c) as Hs. rewrite <-(take_drop k (eviction_order c)) in Hs.
    assert ((h', entry_lastUsed e') ∈ drop k (eviction_order c)) as Hin'.
    { assert ((h', entry_lastUsed e') ∈ eviction_order c) as Hall by (apply elem_of_eviction_order; eauto).
      rewrite <-(take_drop k (eviction_order c)) in Hall. apply elem_of_app in Hall as [Hall|]; [|done].
      destruct Hout. apply list_elem_of_fmap. by exists (h', entry_lastUsed e'). }
    pose proof (StronglySorted_app_1_elem_of _ _ _ _ _ Hs Hin Hin') as Hord. unfold not_after, older, Before in Hord.
    zb. exact Hord.
  - intros h e He Hn. pose proof (Hgone h e He Hn) as Hin.
    destruct k as [|k]; [by apply not_elem_of_nil in Hin|].
    destruct (lookup_lt_is_Some_2 (eviction_order c) k ltac:(lia)) as [[g t] Hg].
    destruct (proj1 (elem_of_eviction_order c g t)) as (e' & He' & _); [by eapply list_elem_of_lookup_2|].
    exists g, e'. rewrite (take_S_r _ _ _ Hg), fmap_app in Hk.
    destruct (last_removal c (take k (eviction_order c)).*1 g e' Hc He') as [Hn' Ht].
    { pose proof (eviction_order_NoDup c) as Hnd. rewrite <-(take_drop k (eviction_order c)), fmap_app in Hnd.
      apply NoDup_app in Hnd as (_ & Hnd & _). intros Hin'. apply (Hnd _ Hin'). apply list_elem_of_fmap.
      exists (g, t). split; [done|]. apply list_elem_of_lookup. exists 0. by rewrite lookup_drop, Nat.add_0_r. }
    cbn in Hk. rewrite <-Hk in Hn', Ht. split_and!; [done|done|]. specialize (Hmin k ltac:(lia)). lia.
Qed.
(** The cache with one more file, before eviction. *)
Definition with_file (c : ArtifactCache) (hash body : string) (now : Time) : ArtifactCache :=
  c <| ac_disk := <[file_of c hash := body]> (ac_disk c) |>
    <| ac_entries := <[hash := MkEntry (file_of c hash) (Z.of_nat (String.length body)) now]> (ac_entries c) |>
    <| ac_total := (ac_total c +! Z.of_nat (String.length body))%go |>.

Lemma with_file_ok c hash body now : cache_ok c → cacheable hash → ac_entries c !! hash = None →
  sha256_hex body = hash → (ac_total c + Z.of_nat (String.length body) ≤ MaxInt64)%Z →
  cache_ok (with_file c hash body now) ∧
  ac_total (with_file c hash body now) = (ac_total c + Z.of_nat (String.length body))%Z.
Proof.
  intros Hc Hh Hnone Hsha Hmax. pose proof (ac_total_nonneg c Hc).
  assert (ac_total c +! Z.of_nat (String.length body) = ac_total c + Z.of_nat (String.length body))%go%Z as Hw.
  { apply wrap64_id. i64. lia. }
  split; [|exact Hw]. split; [|unfold with_file; cbn; rewrite Hw|unfold with_file; cbn; rewrite Hw; lia].
  - unfold with_file. cbn. intros h e [[<- <-]|[Hne He]]%lookup_insert_Some.
    + split; [done|done|]. exists body. cbn. by rewrite lookup_insert_eq.
    + destruct (co_entry _ Hc h e He) as [P1 P2 (content & P3 & P4)]. split; [done|done|].
      exists content. cbn. rewrite lookup_insert_ne; [done|]. rewrite P2. by intros E%file_of_inj.
  - unfold sizes. cbn. rewrite fmap_insert. fold (sizes c). rewrite ledger_cost_insert.
    + rewrite (co_total _ Hc). cbn. lia.
    + unfold sizes. by rewrite lookup_fmap, Hnone.
Qed.

Lemma entry_le_total c h e : cache_ok c → ac_entries c !! h = Some e → (entry_size e ≤ ac_total c)%Z.
Proof.
  intros Hc He. rewrite (co_total _ Hc), (ledger_cost_delete (sizes c) h (entry_size e)).
  - assert (0 ≤ ledger_cost (delete h (sizes c)))%Z; [|lia]. apply ledger_cost_nonneg.
    intros j z [_ Hj]%lookup_delete_Some. by eapply sizes_nonneg.
  - unfold sizes. by rewrite lookup_fmap, He.
Qed.

Lemma no_limit_no_eviction c : (ac_maxSize c ≤ 0)%Z → evictLocked c = c.
Proof. intros Hm. unfold evictLocked. by rewrite (proj2 (Z.leb_le _ _) Hm). Qed.

(** The newest entry is evicted last, so only when it alone is over the limit. *)
Lemma newest_evicted c hash e : cache_ok c → ac_entries c !! hash = Some e → within_limit (removeLocked c hash) →
  (∀ h e', h ≠ hash → ac_entries c !! h = Some e' → entry_lastUsed e' < entry_lastUsed e)%Z →
  ac_entries (evictLocked c) !! hash = None → (0 < ac_maxSize c < entry_size e)%Z.
Proof.
  intros Hc Hnew Hlim Hnow He. destruct (Z.ltb_spec 0 (ac_maxSize c)) as [Hp|Hp].
  2: { rewrite no_limit_no_eviction in He by done. congruence. }
  destruct (evictLocked_ok c Hc) as (K1 & _ & _ & _ & K5 & _ & _ & _ & K8 & K9).
  destruct (removeLocked_ok c hash Hc) as (Hr & Hre & Hrm & _ & _).
  destruct (K9 hash _ Hnew He) as (g & e' & Hg & Hgn & Hbig).
  assert (ac_entries (evictLocked c) = ∅) as Hempty.
  { apply map_empty. intros h. destruct (ac_entries (evictLocked c) !! h) as [e0|] eqn:E; [|done]. exfalso.
    pose proof (K8 _ _ _ _ Hnew He E) as Hle. pose proof (lookup_weaken _ _ _ _ E K5) as E1.
    apply Hnow in E1; [lia|]. intros ->. congruence. }
  assert (ac_total (evictLocked c) = 0)%Z as H0 by (rewrite (co_total _ K1); unfold sizes; rewrite Hempty; reflexivity).
  destruct (decide (g = hash)) as [->|Hne]; [simplify_eq; lia|]. exfalso.
  assert (entry_size e' ≤ ac_total (removeLocked c hash))%Z.
  { apply (entry_le_total _ g); [done|]. by rewrite Hre, lookup_delete_ne. }
  unfold within_limit in Hlim. rewrite Hrm in Hlim. lia.
Qed.

(** A new file survives its own eviction pass exactly when it fits the limit alone. *)
Lemma new_file_kept c hash body now : cache_ok c → within_limit c → cacheable hash → ac_entries c !! hash = None →
  sha256_hex body = hash → (ac_total c + Z.of_nat (String.length body) ≤ MaxInt64)%Z →
  (∀ h e, ac_entries c !! h = Some e → entry_lastUsed e < now)%Z →
  ac_disk (evictLocked (with_file c hash body now)) !! file_of c hash =
    if ((0 <? ac_maxSize c) && (ac_maxSize c <? Z.of_nat (String.length body)))%Z then None else Some body.
Proof.
  intros Hc Hlim Hh Hnone Hsha Hmax Hnow.
  destruct (with_file_ok c hash body now) as [Hc1 Ht1]; try done. set (c1 := with_file c hash body now) in *.
  destruct (evictLocked_ok c1 Hc1) as (K1 & K2 & K3 & _ & K5 & K6 & K7 & _).
  assert (ac_entries c1 !! hash = Some (MkEntry (file_of c hash) (Z.of_nat (String.length body)) now)) as Hnew
    by apply lookup_insert_eq.
  destruct (ac_entries (evictLocked c1) !! hash) as [e|] eqn:He.
  - pose proof (lookup_weaken _ _ _ _ He K5) as E. rewrite Hnew in E. injection E as <-.
    pose proof (entry_le_total _ _ _ K1 He) as Hle. cbn [entry_size] in Hle.
    destruct (eo_file _ _ _ (co_entry _ K1 _ _ He)) as (content & Hf & _). cbn [entry_path] in Hf.
    pose proof (lookup_weaken _ _ _ _ Hf K6) as Hf'. unfold c1, with_file in Hf'. cbn [ac_disk] in Hf'.
    change (<[file_of c hash := body]> (ac_disk c) !! file_of c hash = Some content) in Hf'.
    rewrite lookup_insert_eq in Hf'. injection Hf' as <-. rewrite Hf.
    unfold within_limit in K2. change (ac_maxSize c1) with (ac_maxSize c) in *.
    destruct (Z.ltb_spec 0 (ac_maxSize c)); [|done].
    destruct (Z.ltb_spec (ac_maxSize c) (Z.of_nat (String.length body))); [lia|done].
  - pose proof (K7 hash _ Hnew He) as Hgone. cbn [entry_path] in Hgone.
    assert (0 < ac_maxSize c1 < Z.of_nat (String.length body))%Z as [Hp Hb].
    { destruct (removeLocked_ok c1 hash Hc1) as (Hr & _ & Hrm & _ & Hrt & _).
      eapply (newest_evicted c1 hash _ Hc1 Hnew); [|  |done].
      - unfold within_limit. rewrite Hrm, Hrt, Hnew, Ht1. cbn. intros Hp. pose proof (Hlim Hp). lia.
      - intros h e' Hne He'. cbn. apply (Hnow h). rewrite <-He'. symmetry.
        exact (lookup_insert_ne (ac_entries c) hash h _ (not_eq_sym Hne)). }
    change (ac_maxSize c1) with (ac_maxSize c) in *.
    by rewrite (proj2 (Z.ltb_lt _ _) Hp), (proj2 (Z.ltb_lt _ _) Hb).
Qed.
(** A lookup keeps the cache consistent and answers with the file of the hash, or forgets an
    entry unused for longer than the TTL. *)
Lemma cache_get_ok c hash t : cache_ok c → within_limit c →
  let '(c', r) := cache_get c hash t in
  cache_ok c' ∧ within_limit c' ∧ ac_dir c' = ac_dir c ∧ ac_maxSize c' = ac_maxSize c ∧ ac_disk c' ⊆ ac_disk c ∧
  (ac_total c' ≤ ac_total c)%Z ∧
  match r with
  | None => ac_entries c' = delete hash (ac_entries c)
  | Some p => p = file_of c hash ∧ ac_disk c' = ac_disk c ∧ is_Some (ac_entries c !! hash)
  end.
Proof.
  intros Hc Hl. unfold cache_get. destruct (ac_entries c !! hash) as [e|] eqn:He.
  2: { split_and!; try done. by rewrite delete_id. }
  destruct ((0 <? ac_ttl c)%Z && _).
  - destruct (removeLocked_ok c hash Hc) as (R1 & R2 & R3 & R4 & R5 & R6 & _).
    pose proof (entry_size_nonneg c hash e Hc He). rewrite He in R5. cbn in R5.
    split_and!; try done; [|lia]. unfold within_limit in *. rewrite R3, R5. lia.
  - pose proof (co_entry _ Hc hash e He) as [P1 P2 P3].
    split_and!; try done. split; [| |exact (co_width _ Hc)].
    + intros h e'. cbn [ac_entries field_set rebuild]. intros [[<- <-]|[Hne He']]%lookup_insert_Some; [done|]. by destruct (co_entry _ Hc h e' He').
    + unfold sizes. cbn. rewrite fmap_insert. cbn. rewrite insert_id; [exact (co_total _ Hc)|].
      by rewrite lookup_fmap, He.
Qed.

(** What a reply must be for its body to be stored. *)
Definition served (hash : string) (d : Download) (body : string) : Prop :=
  dl_request d = None ∧ dl_reply d = Ok (MkResponse 200 body None) ∧ sha256_hex body = hash.

(** A download that is not stored leaves everything as it was. *)
Lemma Obtain_spec c hash url d c' r : cacheable hash → Obtain c hash url d = (c', r) →
  match r with
  | Err _ => c' = c
  | Ok p => p = file_of c hash ∧ ∃ body, served hash d body ∧ c' = evictLocked (with_file c hash body (dl_now d))
  end.
Proof.
  intros [Hne Hplain]. unfold Obtain.
  rewrite (join_plain (ac_dir c) [cache_name hash]) by (apply Forall_singleton; done).
  change (filepath_Join [ac_dir c] ++ [cache_name hash]) with (file_of c hash).
  destruct (dl_request d) eqn:Hq; [by intros [= <- <-]|].
  destruct (dl_reply d) as [[status body err]|e] eqn:Hr; [|by intros [= <- <-]]. cbn [rs_StatusCode rs_Body rs_err].
  destruct (Z.eqb_spec status 200) as [->|]; [cbn [negb]|by intros [= <- <-]].
  set (tmp := filepath_Join [ac_dir c; "dl-" +:+ dl_temp d]).
  case_bool_decide as Htmp; [by intros [= <- <-]|]. cbn [orb]. apply eq_None_not_Some in Htmp.
  destruct (negb _); [by intros [= <- <-]|]. rewrite (delete_insert_id (ac_disk c) tmp body Htmp).
  assert (c <| ac_disk := ac_disk c |> = c) as -> by by destruct c.
  destruct err; [by intros [= <- <-]|]. rewrite (bool_decide_eq_true_2 (hash ≠ "")) by done. cbn [andb].
  case_bool_decide as Hsha; [by intros [= <- <-]|].
  destruct (is_dir _ _); intros [= <- <-]; [done|]. split; [done|]. exists body. by split_and!.
Qed.

(** C19: Fetching keeps the cache consistent (every entry has its file with the right digest, the
    total is the sum of the sizes and within the limit), adds no file but that of the hash, and a
    path it returns is the hash's file: it holds content of that digest, unless the file just
    downloaded is larger than the whole cache, in which case it has already been evicted and the
    path does not exist. *)
Theorem fetch_delivers c hash url t d : cache_ok c → within_limit c → cacheable hash →
  (∀ h e, ac_entries c !! h = Some e → entry_lastUsed e < dl_now d)%Z →
  (∀ resp, dl_reply d = Ok resp → ac_total c + Z.of_nat (String.length (rs_Body resp)) ≤ MaxInt64)%Z →
  let '(c', r) := Fetch c hash url t d in
  cache_ok c' ∧ within_limit c' ∧
  (∀ p, is_Some (ac_disk c' !! p) → is_Some (ac_disk c !! p) ∨ p = file_of c hash) ∧
  match r with
  | Err _ => True
  | Ok p => p = file_of c hash ∧
      ((∃ content, ac_disk c' !! p = Some content ∧ sha256_hex content = hash) ∨
       (∃ body, served hash d body ∧ (0 < ac_maxSize c < Z.of_nat (String.length body))%Z ∧ ac_disk c' !! p = None))
  end.
Proof.
  intros Hc Hl Hh Hnow Hwidth. unfold Fetch. pose proof (cache_get_ok c hash t Hc Hl) as Hget.
  destruct (cache_get c hash t) as [c1 [p|]]; destruct Hget as (G1 & G2 & G3 & G4 & G5 & G6 & G7).
  - destruct G7 as (-> & Hd & [e He]). rewrite Hd. split_and!; [done..|by left|done|]. left.
    destruct (co_entry _ Hc _ _ He) as [_ P2 (content & P3 & P4 & _)]. rewrite P2 in P3. eauto.
  - assert (file_of c1 hash = file_of c hash) as Hf by (unfold file_of; by rewrite G3).
    destruct (Obtain c1 hash url d) as [c' r] eqn:Ho. pose proof (Obtain_spec _ _ _ _ _ _ Hh Ho) as Hs.
    destruct r as [p|e].
    + destruct Hs as (-> & body & Hb & ->). pose proof Hb as (_ & Hrep & Hsha). pose proof (Hwidth _ Hrep) as Hw.
      cbn in Hw. destruct (with_file_ok c1 hash body (dl_now d)) as [W1 W2]; try done.
      { by rewrite G7, lookup_delete_eq. } { lia. }
      destruct (evictLocked_ok _ W1) as (K1 & K2 & _ & _ & _ & K6 & _).
      pose proof (new_file_kept c1 hash body (dl_now d) G1 G2 Hh) as Hk. rewrite Hf in *.
      split_and!; [done|done| |done|].
      * intros p [x Hp]. pose proof (lookup_weaken _ _ _ _ Hp K6) as Hp'. unfold with_file in Hp'.
        cbn [ac_disk field_set rebuild] in Hp'. rewrite Hf in Hp'.
        apply lookup_insert_Some in Hp' as [[<- _]|[_ Hp']]; [by right|]. left. eexists. by eapply lookup_weaken.
      * rewrite Hk; try done; [|by rewrite G7, lookup_delete_eq|lia|].
        -- rewrite G4. destruct ((0 <? ac_maxSize c)%Z && _) eqn:E; [right|left; eauto]. zb. exists body. split_and!; done || lia.
        -- intros h e. rewrite G7. intros [_ He]%lookup_delete_Some. eauto.
    + subst c'. split_and!; [done|done| |done]. intros p [x Hp]. left. eexists. by eapply lookup_weaken.
Qed.

(** C36: Eviction brings the total under the limit by removing entries in order of last use, and no
    more of them than needed: whatever is removed was used no later than whatever stays, its file is
    deleted, and giving back one of the removed entries would exceed the limit. *)
Theorem eviction_is_lru c : cache_ok c →
  let c' := evictLocked c in
  cache_ok c' ∧ within_limit c' ∧ ac_entries c' ⊆ ac_entries c ∧ (within_limit c → c' = c) ∧
  (∀ h e, ac_entries c !! h = Some e → ac_entries c' !! h = None →
     ac_disk c' !! entry_path e = None ∧
     (∀ h' e', ac_entries c' !! h' = Some e' → entry_lastUsed e ≤ entry_lastUsed e')%Z ∧
     ∃ g e', ac_entries c !! g = Some e' ∧ ac_entries c' !! g = None ∧ (ac_maxSize c < ac_total c' + entry_size e')%Z).
Proof.
  intros Hc c'. destruct (evictLocked_ok c Hc) as (K1 & K2 & K3 & K4 & K5 & K6 & K7 & _ & K8 & K9).
  split_and!; [done|done|done| |eauto 10].
  intros Hl. unfold c', evictLocked. destruct (Z.leb_spec (ac_maxSize c) 0); [done|]. cbn [orb].
  by rewrite (proj2 (Z.leb_le _ _) (Hl ltac:(done))).
Qed.
End cache.

(** ** A cache of three bytes *)
Definition demo_sha (s : string) : string := "h" +:+ Itoa (Z.of_nat (String.length s)).

Definition demo_cache : ArtifactCache :=
  MkArtifactCache "/c" 3 0 {[ "h1" := MkEntry ["c"; "h1"] 1 10; "h2" := MkEntry ["c"; "h2"] 2 20 ]} 3
    {[ ["c"; "h1"] := "a"; ["c"; "h2"] := "bb" ]}.

Lemma demo_entry h e : ac_entries demo_cache !! h = Some e →
  (h = "h1" ∧ e = MkEntry ["c"; "h1"] 1 10) ∨ (h = "h2" ∧ e = MkEntry ["c"; "h2"] 2 20).
Proof.
  unfold demo_cache. cbn [ac_entries].
  intros [[<- <-]|[_ [<- <-]%lookup_singleton_Some]]%lookup_insert_Some; auto.
Qed.

Lemma demo_cache_ok : cache_ok demo_sha "linux" demo_cache ∧ within_limit demo_cache.
Proof.
  split; [|intros _; vm_compute; done].
  split; [|vm_compute; reflexivity|vm_compute; done].
  intros h e [[-> ->]|[-> ->]]%demo_entry; (split; [split; [done|apply (bool_decide_unpack _); by vm_compute]|done|]).
  - by exists "a".
  - by exists "bb".
Qed.

Definition demo_download (body : string) : Download := MkDownload None (Ok (MkResponse 200 body None)) "1" 30.

Lemma demo_now h e : ac_entries demo_cache !! h = Some e → (entry_lastUsed e < 30)%Z.
Proof. intros [[-> ->]|[-> ->]]%demo_entry; done. Qed.

Lemma fetch_delivers_witness :
  let '(c', r) := Fetch (H := canonical_runtime) demo_sha "linux" demo_cache "h4" "u" 25 (demo_download "dddd") in
  r = Ok ["c"; "h4"] ∧ ac_disk c' !! ["c"; "h4"] = None ∧ within_limit c'.
Proof.
  pose proof (fetch_delivers (H := canonical_runtime) demo_sha "linux" demo_cache "h4" "u" 25 (demo_download "dddd")
    (proj1 demo_cache_ok) (proj2 demo_cache_ok) ltac:(split; [done|apply (bool_decide_unpack _); by vm_compute])
    demo_now ltac:(intros resp [= <-]; vm_compute; discriminate)) as Hf.
  assert (snd (Fetch (H := canonical_runtime) demo_sha "linux" demo_cache "h4" "u" 25 (demo_download "dddd")) = Ok ["c"; "h4"]) as Er
    by (vm_compute; reflexivity).
  assert (ac_disk (fst (Fetch (H := canonical_runtime) demo_sha "linux" demo_cache "h4" "u" 25 (demo_download "dddd"))) !! ["c"; "h4"] = None) as Ed
    by (vm_compute; reflexivity).
  destruct (Fetch _ _ _ _ _ _ _) as [c' r]. destruct Hf as (_ & Hl & _). exact (conj Er (conj Ed Hl)).
Defined.

Definition full_cache : ArtifactCache := demo_cache <| ac_maxSize := 2%Z |>.

Lemma full_cache_ok : cache_ok demo_sha "linux" full_cache.
Proof.
  destruct demo_cache_ok as [[He Ht Hw] _]. split; [|exact Ht|exact Hw].
  intros h e Hh. destruct (He h e Hh). by split.
Qed.

Lemma eviction_is_lru_witness :
  ac_entries (evictLocked (H := canonical_runtime) full_cache) !! "h1" = None ∧
  (∀ h' e', ac_entries (evictLocked (H := canonical_runtime) full_cache) !! h' = Some e' → 10 ≤ entry_lastUsed e')%Z.
Proof.
  destruct (eviction_is_lru (H := canonical_runtime) demo_sha "linux" full_cache full_cache_ok) as (_ & _ & _ & _ & Hg).
  assert (ac_entries (evictLocked (H := canonical_runtime) full_cache) !! "h1" = None) as Hn by (vm_compute; reflexivity).
  split; [exact Hn|].
  destruct (Hg "h1" (MkEntry ["c"; "h1"] 1 10) ltac:(vm_compute; reflexivity) Hn) as (_ & Hl & _). exact Hl.
Defined.
