(* ===== verification/SingleFlight.v ===== *)
(** * Duplicate suppression of concurrent calls (src/worker/sf/sf.go)

    The group is a state machine: callers enter [Do] or [DoChan], the running
    function of a call ends in one of three ways, callers blocked on a call wake
    up, and a key may be forgotten.  Each operation is one critical section of the
    group's mutex, so that a sequence of operations is an interleaving of the
    program's goroutines; an operation that is not enabled gives [None].  Callers
    and calls are numbered. *)
From S2P Require Import Prelude GoStd External.

(** How the given function ended: it returned, panicked or called [runtime.Goexit]. *)
Inductive call_outcome :=
| Returned (val : string) (err : option error)
| Panicked (value : string)
| Goexited.

(** [call]: the goroutine that runs the function ([None] when [DoChan] spawned one), those blocked
    on its wait group, and the channels to be sent the result. *)
Record call := MkCall {
  cl_key : string;
  cl_leader : option nat;
  cl_waiters : list nat;
  cl_chans : list nat;
  cl_dups : nat;
  cl_outcome : option call_outcome;
}.

#[export] Instance call_rebuild : Rebuild call := λ c,
  MkCall (cl_key c) (cl_leader c) (cl_waiters c) (cl_chans c) (cl_dups c) (cl_outcome c).

(** What a caller observes. *)
Inductive answer :=
| Result (val : string) (err : option error) (shared : bool)
| PanicError (value : string)
| GoexitCalled.

Record Group := MkGroup {
  sg_m : gmap string nat;
  sg_calls : list call;
  sg_answers : list (nat * nat * answer);
  sg_crashed : bool;
}.

#[export] Instance Group_rebuild : Rebuild Group := λ g,
  MkGroup (sg_m g) (sg_calls g) (sg_answers g) (sg_crashed g).

Definition empty_group : Group := MkGroup ∅ [] [] false.

(** A new call for a key, running. *)
Definition start_call (g : Group) (key : string) (c : call) : Group :=
  g <| sg_m := <[key := length (sg_calls g)]> (sg_m g) |> <| sg_calls := sg_calls g ++ [c] |>.

(** [Do], up to the wait or the start of the function. *)
Definition Do_enter (g : Group) (caller : nat) (key : string) : Group :=
  match sg_m g !! key with
  | Some i =>
      g <| sg_calls := alter (λ c, c <| cl_dups := S (cl_dups c) |> <| cl_waiters := cl_waiters c ++ [caller] |>) i
                         (sg_calls g) |>
  | None => start_call g key (MkCall key (Some caller) [] [] 0 None)
  end.

Definition DoChan (g : Group) (caller : nat) (key : string) : Group :=
  match sg_m g !! key with
  | Some i =>
      g <| sg_calls := alter (λ c, c <| cl_dups := S (cl_dups c) |> <| cl_chans := cl_chans c ++ [caller] |>) i
                         (sg_calls g) |>
  | None => start_call g key (MkCall key None [] [caller] 0 None)
  end.

(** What [Do] makes of the outcome once the wait group is done: the leader's [shared] is whether the
    call has duplicates, a waiter's is true. *)
Definition answer_of (o : call_outcome) (shared : bool) : answer :=
  match o with
  | Returned v e => Result v e shared
  | Panicked v => PanicError v
  | Goexited => GoexitCalled
  end.

(** The deferred part of [doCall]: the wait group is done, the key is freed if it is still this
    call's, and then the panic is raised again (fatally when channels wait), or the channels are
    sent the result; after a [Goexit] they are sent nothing. *)
Definition doCall_end (g : Group) (i : nat) (o : call_outcome) : option Group :=
  c ← sg_calls g !! i;
  match cl_outcome c with
  | Some _ => None
  | None =>
      let shared := bool_decide (0 < cl_dups c) in
      let g := g <| sg_calls := alter (λ c, c <| cl_outcome := Some o |>) i (sg_calls g) |>
                 <| sg_m := if bool_decide (sg_m g !! cl_key c = Some i) then delete (cl_key c) (sg_m g) else sg_m g |> in
      let lead := (λ caller, (caller, i, answer_of o shared)) <$> option_list (cl_leader c) in
      Some (match o with
            | Panicked _ =>
                if bool_decide (cl_chans c ≠ []) then g <| sg_crashed := true |>
                else g <| sg_answers := sg_answers g ++ lead |>
            | Goexited => g <| sg_answers := sg_answers g ++ lead |>
            | Returned _ _ =>
                g <| sg_answers := sg_answers g ++ lead ++
                                   ((λ caller, (caller, i, answer_of o shared)) <$> cl_chans c) |>
            end)
  end.

(** A caller blocked in [Do] resumes; it cannot before the call ended. *)
Definition Do_resume (g : Group) (i caller : nat) : option Group :=
  c ← sg_calls g !! i; o ← cl_outcome c;
  if bool_decide (caller ∈ cl_waiters c)
  then Some (g <| sg_answers := sg_answers g ++ [(caller, i, answer_of o true)] |>)
  else None.

Definition Forget (g : Group) (key : string) : Group := g <| sg_m := delete key (sg_m g) |>.

(** ** Interleavings *)
Inductive sf_op :=
| OpDo (caller : nat) (key : string)
| OpDoChan (caller : nat) (key : string)
| OpEnd (i : nat) (o : call_outcome)
| OpResume (i caller : nat)
| OpForget (key : string).

Definition sf_step (g : Group) (op : sf_op) : option Group :=
  if sg_crashed g then None
  else match op with
       | OpDo caller key => Some (Do_enter g caller key)
       | OpDoChan caller key => Some (DoChan g caller key)
       | OpEnd i o => doCall_end g i o
       | OpResume i caller => Do_resume g i caller
       | OpForget key => Some (Forget g key)
       end.

Fixpoint sf_run (g : Group) (ops : list sf_op) : option Group :=
  match ops with [] => Some g | op :: ops => g' ← sf_step g op; sf_run g' ops end.

(** ** The invariant *)

(** The number of callers a call serves. *)
Definition callers (c : call) : nat := length (option_list (cl_leader c)) + length (cl_waiters c) + length (cl_chans c).

Record answered (c : call) (caller : nat) (a : answer) : Prop := {
  an_joined : caller ∈ option_list (cl_leader c) ++ cl_waiters c ++ cl_chans c;
  an_answer : ∃ o, cl_outcome c = Some o ∧ a = answer_of o (bool_decide (1 < callers c));
}.

Record group_ok (g : Group) : Prop := {
  go_map key i : sg_m g !! key = Some i →
    ∃ c, sg_calls g !! i = Some c ∧ cl_key c = key ∧ cl_outcome c = None;
  go_callers i c : sg_calls g !! i = Some c → callers c = S (cl_dups c);
  go_first i c : sg_calls g !! i = Some c → option_list (cl_leader c) ++ cl_chans c ≠ [];
  go_answers caller i a : (caller, i, a) ∈ sg_answers g → ∃ c, sg_calls g !! i = Some c ∧ answered c caller a;
  go_sent i c v e caller : sg_calls g !! i = Some c → cl_outcome c = Some (Returned v e) →
    caller ∈ option_list (cl_leader c) ++ cl_chans c →
    (caller, i, Result v e (bool_decide (1 < callers c))) ∈ sg_answers g;
}.

(** Every running call is the one its key leads to. *)
Definition all_mapped (g : Group) : Prop :=
  ∀ i c, sg_calls g !! i = Some c → cl_outcome c = None → sg_m g !! cl_key c = Some i.

(** One more caller of a running call. *)
Record joins (f : call → call) : Prop := {
  jo_key c : cl_key (f c) = cl_key c;
  jo_outcome c : cl_outcome (f c) = cl_outcome c;
  jo_callers c : callers (f c) = S (callers c) ∧ cl_dups (f c) = S (cl_dups c);
  jo_first c : option_list (cl_leader c) ++ cl_chans c ≠ [] → option_list (cl_leader (f c)) ++ cl_chans (f c) ≠ [];
}.

Lemma alter_call_inv (f : call → call) i j (l : list call) c : alter f i l !! j = Some c →
  (i = j ∧ ∃ c0, l !! j = Some c0 ∧ c = f c0) ∨ (i ≠ j ∧ l !! j = Some c).
Proof.
  destruct (decide (i = j)) as [->|Hne].
  - rewrite list_lookup_alter_eq. intros (c0 & Hc & ->)%fmap_Some_1. eauto.
  - rewrite list_lookup_alter_ne by done. auto.
Qed.

Lemma join_ok g key i f : joins f → sg_m g !! key = Some i → group_ok g →
  group_ok (g <| sg_calls := alter f i (sg_calls g) |>).
Proof.
  intros Hf Hi Hg. destruct (go_map _ Hg key i Hi) as (c & Hc & Hk & Ho).
  split; cbn [sg_m sg_calls sg_answers field_set rebuild Group_rebuild].
  - intros key' j Hj. destruct (go_map _ Hg key' j Hj) as (c' & Hc' & Hk' & Ho').
    destruct (decide (i = j)) as [->|Hne].
    + exists (f c'). rewrite list_lookup_alter_eq, Hc'. split_and!; [done|by rewrite (jo_key _ Hf)|by rewrite (jo_outcome _ Hf)].
    + exists c'. by rewrite list_lookup_alter_ne.
  - intros j c' [(<- & c0 & H0 & ->)|[_ H0]]%alter_call_inv; [|exact (go_callers _ Hg _ _ H0)].
    destruct (jo_callers _ Hf c0) as [-> ->]. by rewrite (go_callers _ Hg _ _ H0).
  - intros j c' [(<- & c0 & H0 & ->)|[_ H0]]%alter_call_inv; [|exact (go_first _ Hg _ _ H0)].
    apply (jo_first _ Hf). exact (go_first _ Hg _ _ H0).
  - intros caller j a Hin. destruct (go_answers _ Hg _ _ _ Hin) as (c' & Hc' & Ha).
    exists c'. split; [|done]. rewrite list_lookup_alter_ne; [done|]. intros <-. simplify_eq.
    destruct Ha as [_ (o & Ho' & _)]. congruence.
  - intros j c' v e caller [(<- & c0 & H0 & ->)|[_ H0]]%alter_call_inv; [|intros Hr Hin; exact (go_sent _ Hg _ _ _ _ _ H0 Hr Hin)].
    rewrite (jo_outcome _ Hf). congruence.
Qed.

Lemma join_waiter caller : joins (λ c, c <| cl_dups := S (cl_dups c) |> <| cl_waiters := cl_waiters c ++ [caller] |>).
Proof. split; try done. intros c. split; [|done]. unfold callers. cbn. rewrite length_app. cbn. lia. Qed.

Lemma join_chan caller : joins (λ c, c <| cl_dups := S (cl_dups c) |> <| cl_chans := cl_chans c ++ [caller] |>).
Proof.
  split; try done.
  - intros c. split; [|done]. unfold callers. cbn. rewrite length_app. cbn. lia.
  - intros c _. cbn. intros [_ Hn]%app_eq_nil. by destruct (cl_chans c).
Qed.

Lemma start_ok g key c : cl_key c = key → cl_outcome c = None → callers c = S (cl_dups c) →
  option_list (cl_leader c) ++ cl_chans c ≠ [] → group_ok g → group_ok (start_call g key c).
Proof.
  intros Hk Ho Hn Hf Hg. unfold start_call.
  assert (∀ j c', (sg_calls g ++ [c]) !! j = Some c' → sg_calls g !! j = Some c' ∨ c' = c) as Hl.
  { intros j c' [?|[_ Hj]]%lookup_app_Some; [by left|]. right. by apply list_lookup_singleton_Some in Hj as [_ ->]. }
  split; cbn [sg_m sg_calls sg_answers field_set rebuild Group_rebuild].
  - intros key' j [[<- <-]|[_ Hj]]%lookup_insert_Some.
    + exists c. by rewrite lookup_app_r, Nat.sub_diag.
    + destruct (go_map _ Hg key' j Hj) as (c' & Hc' & ?). exists c'. by rewrite (lookup_app_l_Some _ _ _ _ Hc').
  - intros j c' [H0| ->]%Hl; [exact (go_callers _ Hg _ _ H0)|done].
  - intros j c' [H0| ->]%Hl; [exact (go_first _ Hg _ _ H0)|done].
  - intros caller j a Hin. destruct (go_answers _ Hg _ _ _ Hin) as (c' & Hc' & Ha).
    exists c'. by rewrite (lookup_app_l_Some _ _ _ _ Hc').
  - intros j c' v e caller [H0| ->]%Hl; [intros Hr Hin; exact (go_sent _ Hg _ _ _ _ _ H0 Hr Hin)|congruence].
Qed.

(** Appending answers that belong to ended calls. *)
Lemma answers_ok g l : group_ok g →
  (∀ caller i a, (caller, i, a) ∈ l → ∃ c, sg_calls g !! i = Some c ∧ answered c caller a) →
  group_ok (g <| sg_answers := sg_answers g ++ l |>).
Proof.
  intros Hg Hl. destruct Hg as [G1 G2 G3 G4 G5]. split; cbn [sg_m sg_calls sg_answers field_set rebuild Group_rebuild]; try done.
  - intros caller i a [?|?]%elem_of_app; eauto.
  - intros i c v e caller Hc Ho Hin. apply elem_of_app. left. eauto.
Qed.

Lemma Do_resume_ok g g' i caller : group_ok g → Do_resume g i caller = Some g' → group_ok g'.
Proof.
  intros Hg. unfold Do_resume. intros (c & Hc & (o & Ho & Hr)%bind_Some)%bind_Some.
  case_bool_decide as Hw; [|done]. injection Hr as <-. apply answers_ok; [done|].
  intros caller' i' a [= -> -> ->]%list_elem_of_singleton. exists c. split; [done|]. split.
  - apply elem_of_app. right. apply elem_of_app. by left.
  - exists o. split; [done|]. f_equal. symmetry. apply bool_decide_eq_true. unfold callers.
    pose proof (go_first _ Hg _ _ Hc) as Hf. apply list_elem_of_lookup in Hw as [k Hk%lookup_lt_Some].
    destruct (cl_leader c); cbn; [lia|]. destruct (cl_chans c); [done|cbn; lia].
Qed.

(** The group after a call ended, with some answers given. *)
Definition ended (g : Group) (i : nat) (c : call) (o : call_outcome) (l : list (nat * nat * answer)) : Group :=
  g <| sg_calls := alter (λ c, c <| cl_outcome := Some o |>) i (sg_calls g) |>
    <| sg_m := if bool_decide (sg_m g !! cl_key c = Some i) then delete (cl_key c) (sg_m g) else sg_m g |>
    <| sg_answers := sg_answers g ++ l |>.

Lemma ended_m g i c o l key j : sg_m (ended g i c o l) !! key = Some j → group_ok g → sg_calls g !! i = Some c →
  sg_m g !! key = Some j ∧ j ≠ i.
Proof.
  unfold ended. cbn [sg_m field_set rebuild Group_rebuild]. intros Hj Hg Hc.
  case_bool_decide as Hm; [apply lookup_delete_Some in Hj as [Hne Hj]|]; (split; [done|]); intros ->;
    destruct (go_map _ Hg _ _ Hj) as (c' & Hc' & Hk & _); simplify_eq; congruence.
Qed.

Lemma ended_ok g i c o l : group_ok g → sg_calls g !! i = Some c → cl_outcome c = None →
  (∀ caller j a, (caller, j, a) ∈ l → j = i ∧ caller ∈ option_list (cl_leader c) ++ cl_chans c ∧
     a = answer_of o (bool_decide (1 < callers c))) →
  (∀ v e caller, o = Returned v e → caller ∈ option_list (cl_leader c) ++ cl_chans c →
     (caller, i, answer_of o (bool_decide (1 < callers c))) ∈ l) →
  group_ok (ended g i c o l).
Proof.
  intros Hg Hc Ho Hl Hall. split.
  - intros key j Hj. destruct (ended_m _ _ _ _ _ _ _ Hj Hg Hc) as [Hj' Hne].
    destruct (go_map _ Hg _ _ Hj') as (c' & Hc' & ?). exists c'. split; [|done].
    unfold ended. cbn [sg_calls field_set rebuild Group_rebuild]. by rewrite list_lookup_alter_ne.
  - intros j c' [(<- & c0 & H0 & ->)|[_ H0]]%alter_call_inv; exact (go_callers _ Hg _ _ H0).
  - intros j c' [(<- & c0 & H0 & ->)|[_ H0]]%alter_call_inv; exact (go_first _ Hg _ _ H0).
  - unfold ended. cbn [sg_calls sg_answers field_set rebuild Group_rebuild]. intros caller j a [Hin|Hin]%elem_of_app.
    + destruct (go_answers _ Hg _ _ _ Hin) as (c' & Hc' & Ha). exists c'. split; [|done].
      rewrite list_lookup_alter_ne; [done|]. intros <-. destruct Ha as [_ (o' & Ho' & _)]. congruence.
    + destruct (Hl _ _ _ Hin) as (-> & Hj & ->). eexists. rewrite list_lookup_alter_eq, Hc. split; [done|]. split.
      * cbn. apply elem_of_app in Hj as [?|?]; apply elem_of_app; [by left|]. right. apply elem_of_app. by right.
      * exists o. by split.
  - intros j c' v e caller [(<- & c0 & H0 & ->)|[_ H0]]%alter_call_inv Hr Hin; apply elem_of_app.
    + right. rewrite Hc in H0. injection H0 as <-. cbn in Hr. injection Hr as ->. by apply (Hall v e).
    + left. exact (go_sent _ Hg _ _ _ _ _ H0 Hr Hin).
Qed.

Lemma crashed_ok g b : group_ok g → group_ok (g <| sg_crashed := b |>).
Proof. intros [G1 G2 G3 G4 G5]. by split. Qed.

(** The answers an end gives, and whether it is fatal. *)
Lemma doCall_end_ended g g' i o : doCall_end g i o = Some g' → ∃ c l b, sg_calls g !! i = Some c ∧ cl_outcome c = None ∧
  g' = ended g i c o l <| sg_crashed := b |> ∧
  (∀ caller j a, (caller, j, a) ∈ l → j = i ∧ caller ∈ option_list (cl_leader c) ++ cl_chans c ∧
     a = answer_of o (bool_decide (0 < cl_dups c))) ∧
  (∀ v e caller, o = Returned v e → caller ∈ option_list (cl_leader c) ++ cl_chans c →
     (caller, i, answer_of o (bool_decide (0 < cl_dups c))) ∈ l).
Proof.
  unfold doCall_end. intros (c & Hc & Hr)%bind_Some. destruct (cl_outcome c) eqn:Ho; [done|]. injection Hr as <-.
  set (ans := λ caller : nat, (caller, i, answer_of o (bool_decide (0 < cl_dups c)))).
  assert (∀ (xs : list nat) caller j a, (caller, j, a) ∈ ans <$> xs → j = i ∧ caller ∈ xs ∧ a = answer_of o (bool_decide (0 < cl_dups c))) as Hans.
  { intros xs caller j a (x & [= -> -> ->] & Hx)%list_elem_of_fmap. done. }
  destruct o as [v e|v|].
  - exists c, (ans <$> (option_list (cl_leader c) ++ cl_chans c)), (sg_crashed g).
    split_and!; [done|done| |apply Hans|].
    + rewrite fmap_app. by destruct g.
    + intros v' e' caller _ Hin. by apply (list_elem_of_fmap_2 ans).
  - destruct (bool_decide (cl_chans c ≠ [])) eqn:Hch.
    + exists c, [], true. split_and!; try done.
      * unfold ended. cbn. by rewrite app_nil_r.
      * by intros ??? ?%not_elem_of_nil.
    + exists c, (ans <$> option_list (cl_leader c)), (sg_crashed g). split_and!; try done; try by destruct g.
      intros caller j a (-> & Hx & ->)%Hans. split_and!; try done. apply elem_of_app. by left.
  - exists c, (ans <$> option_list (cl_leader c)), (sg_crashed g). split_and!; try done; try by destruct g.
    intros caller j a (-> & Hx & ->)%Hans. split_and!; try done. apply elem_of_app. by left.
Qed.

Lemma doCall_end_ok g g' i o : group_ok g → doCall_end g i o = Some g' → group_ok g'.
Proof.
  intros Hg (c & l & b & Hc & Ho & -> & Hl & Hall)%doCall_end_ended. apply crashed_ok.
  assert (bool_decide (0 < cl_dups c) = bool_decide (1 < callers c)) as E.
  { rewrite (go_callers _ Hg _ _ Hc). apply bool_decide_ext. lia. }
  rewrite E in Hl, Hall. by apply ended_ok.
Qed.

Lemma sf_step_ok g g' op : group_ok g → sf_step g op = Some g' → group_ok g'.
Proof.
  intros Hg. unfold sf_step. destruct (sg_crashed g); [done|]. destruct op as [caller key|caller key|i o|i caller|key].
  - intros [= <-]. unfold Do_enter. destruct (sg_m g !! key) eqn:E; [by apply (join_ok _ key); [apply join_waiter| |]|by apply start_ok].
  - intros [= <-]. unfold DoChan. destruct (sg_m g !! key) eqn:E; [by apply (join_ok _ key); [apply join_chan| |]|by apply start_ok].
  - by apply doCall_end_ok.
  - by apply Do_resume_ok.
  - intros [= <-]. destruct Hg as [G1 G2 G3 G4 G5]. split; try done. intros k j. unfold Forget. cbn [sg_m field_set rebuild Group_rebuild]. intros [_ Hj]%lookup_delete_Some. eauto.
Qed.

Lemma empty_group_ok : group_ok empty_group.
Proof. split; try done. by intros ??? ?%not_elem_of_nil. Qed.

Lemma sf_run_ok g g' ops : group_ok g → sf_run g ops = Some g' → group_ok g'.
Proof.
  revert g. induction ops as [|op ops IH]; intros g Hg; simpl; [by intros [= <-]|].
  intros (g1 & H1 & Hr)%bind_Some. eapply IH; [|done]. by eapply sf_step_ok.
Qed.

(** ** One execution per key *)
Definition forgets (op : sf_op) : bool := match op with OpForget _ => true | _ => false end.

Lemma mapped_alter g i f : all_mapped g → (∀ c, cl_key (f c) = cl_key c ∧ cl_outcome (f c) = cl_outcome c) →
  all_mapped (g <| sg_calls := alter f i (sg_calls g) |>).
Proof.
  intros Hm Hf j c [(<- & c0 & H0 & ->)|[_ H0]]%alter_call_inv Ho; [|exact (Hm _ _ H0 Ho)].
  destruct (Hf c0) as [-> E]. rewrite E in Ho. exact (Hm _ _ H0 Ho).
Qed.

Lemma mapped_start g key c : all_mapped g → sg_m g !! key = None → cl_key c = key → all_mapped (start_call g key c).
Proof.
  intros Hm Hn Hk j c'. unfold start_call. cbn [sg_m sg_calls field_set rebuild Group_rebuild].
  intros [Hc|[Hlen Hc]]%lookup_app_Some Ho.
  - rewrite lookup_insert_ne; [by apply Hm|]. intros E. pose proof (Hm _ _ Hc Ho). congruence.
  - apply list_lookup_singleton_Some in Hc as [Hj <-]. subst key. rewrite lookup_insert_eq. f_equal. lia.
Qed.

Lemma mapped_ended g i c o l : all_mapped g → sg_calls g !! i = Some c → all_mapped (ended g i c o l).
Proof.
  intros Hm Hc j c' [(<- & c0 & H0 & ->)|[Hne H0]]%alter_call_inv Ho; [done|].
  unfold ended. cbn [sg_m field_set rebuild Group_rebuild]. pose proof (Hm _ _ H0 Ho) as Hj.
  case_bool_decide as Hi; [|done]. rewrite lookup_delete_ne; [done|]. intros E. rewrite E in Hi. congruence.
Qed.

Lemma sf_step_mapped g g' op : all_mapped g → forgets op = false → sf_step g op = Some g' → all_mapped g'.
Proof.
  intros Hm Hf. unfold sf_step. destruct (sg_crashed g); [done|]. destruct op as [caller key|caller key|i o|i caller|key]; [| | | |done].
  - intros [= <-]. unfold Do_enter. destruct (sg_m g !! key) eqn:E; [by apply mapped_alter|by apply mapped_start].
  - intros [= <-]. unfold DoChan. destruct (sg_m g !! key) eqn:E; [by apply mapped_alter|by apply mapped_start].
  - intros (c & l & b & Hc & _ & -> & _)%doCall_end_ended. exact (mapped_ended g i c o l Hm Hc).
  - unfold Do_resume. intros (c & Hc & (o & Ho & Hr)%bind_Some)%bind_Some. case_bool_decide; [|done]. by injection Hr as <-.
Qed.

Lemma sf_run_mapped g g' ops : all_mapped g → forallb (λ op, negb (forgets op)) ops = true → sf_run g ops = Some g' →
  all_mapped g'.
Proof.
  revert g. induction ops as [|op ops IH]; intros g Hg; simpl; [by intros _ [= <-]|].
  intros [Hop Hops]%andb_true_iff (g1 & H1 & Hr)%bind_Some. eapply IH; [|done|done].
  eapply sf_step_mapped; [done| |done]. by apply negb_true_iff.
Qed.

(** C20: In every interleaving without [Forget], the function runs at most once at a time per key; in
    every interleaving, an answer a caller gets is the outcome of a call it joined, marked shared
    exactly when that call had more than one caller, and once a call returned normally its leader
    and every channel have been answered. *)
Theorem single_flight ops g : sf_run empty_group ops = Some g →
  (forallb (λ op, negb (forgets op)) ops = true → ∀ i j c d, sg_calls g !! i = Some c → sg_calls g !! j = Some d →
     cl_outcome c = None → cl_outcome d = None → cl_key c = cl_key d → i = j) ∧
  (∀ caller i a, (caller, i, a) ∈ sg_answers g → ∃ c, sg_calls g !! i = Some c ∧ answered c caller a) ∧
  (∀ i c v e caller, sg_calls g !! i = Some c → cl_outcome c = Some (Returned v e) →
     caller ∈ option_list (cl_leader c) ++ cl_chans c →
     (caller, i, Result v e (bool_decide (1 < callers c))) ∈ sg_answers g).
Proof.
  intros Hr. pose proof (sf_run_ok _ _ _ empty_group_ok Hr) as Hg. split_and!; [|apply Hg|apply Hg].
  intros Hf. assert (all_mapped g) as Hm by (eapply sf_run_mapped; [|exact Hf|exact Hr]; by intros i c Hc).
  intros i j c d Hi Hj Hc Hd Hk. pose proof (Hm _ _ Hi Hc) as H1. rewrite Hk, (Hm _ _ Hj Hd) in H1. congruence.
Qed.

Definition sf_trace : list sf_op :=
  [OpDo 0 "k"; OpDo 1 "k"; OpDoChan 2 "k"; OpEnd 0 (Returned "v" None); OpResume 0 1; OpDo 3 "k"].

Lemma single_flight_witness : ∃ g, sf_run empty_group sf_trace = Some g ∧
  (∀ caller i a, (caller, i, a) ∈ sg_answers g → ∃ c, sg_calls g !! i = Some c ∧ answered c caller a) ∧
  sg_answers g = [(0, 0, Result "v" None true); (2, 0, Result "v" None true); (1, 0, Result "v" None true)].
Proof.
  destruct (sf_run empty_group sf_trace) as [g|] eqn:E; [|discriminate (eq_trans (eq_sym E) ltac:(vm_compute; reflexivity))].
  exists g. split; [reflexivity|]. destruct (single_flight _ _ E) as (_ & Ha & _). split; [exact Ha|].
  vm_compute in E. by injection E as <-.
Defined.
