(* ===== verification/Worker.v ===== *)
(** * The worker (src/worker/worker.go, handle_message.go, runner.go)

    The worker keeps one connection, the proposals it accepted and the tasks it
    runs.  Each handler is one definition; [None] is a run-time panic, which ends
    the process (a write to a connection that is gone is one).  Goroutines started
    with [go w.runJob] are the list [w_running]; a job's run is cut where it waits
    for the outside: [runJob_start] up to the start of the process,
    [logLineWriter_Write] for each piece of its output, [runJob_end] once it ended.

    The process itself, the search of [PATH], the clock and the renderings of
    times and durations are arguments; what they contribute to a step is a value. *)
From S2P Require Import Prelude GoStd External Contract WorkerConn Proto Registry Window ArtifactCache.
From Stdlib Require Import Floats.SpecFloat.

(** ** Configuration *)
Record ResourceLimits := MkResourceLimits {
  MaxCPUPercent : spec_float;
  MaxMemPercent : spec_float;
  SampleInterval : Duration;
}.

(** [retry.Strategy]: the default one, or a configured one. *)
Inductive Strategy :=
| Exponential (initial max : Duration)
| OtherStrategy (name : string).

(** The loggers are left out. *)
Record WorkerConfig := MkWorkerConfig {
  wf_ManagerAddr : string;
  wf_Capacity : Z;
  wf_CacheDir : string;
  wf_CacheMaxSize : Z;
  wf_CacheTTL : Duration;
  wf_TmpStorageDir : string;
  wf_TmpStorageMaxLifetime : Duration;
  wf_TmpStorageCleanupInterval : Duration;
  wf_HeartbeatInterval : Duration;
  wf_HeartbeatTimeout : Duration;
  wf_WorkerID : string;
  wf_AuthToken : string;
  wf_InheritableENVPrefix : string;
  wf_ReconnectMaxAttempts : Z;
  wf_ConnectionRetryStrategy : option Strategy;
  wf_KillGracePeriod : Duration;
  wf_AllowNonRoot : bool;
  wf_ResourceLimits : ResourceLimits;
}.

Definition zero_or {A} `{EqDecision A} (zero v d : A) : A := if decide (v = zero) then d else v.

Definition worker_applyDefaults (c : WorkerConfig) : WorkerConfig :=
  let limits := wf_ResourceLimits c in
  MkWorkerConfig (wf_ManagerAddr c)
    (zero_or 0 (wf_Capacity c) 1)%Z
    (zero_or "" (wf_CacheDir c) "/tmp/workforce")
    (wf_CacheMaxSize c) (wf_CacheTTL c) (wf_TmpStorageDir c)
    (zero_or 0 (wf_TmpStorageMaxLifetime c) (48 * Hour))%Z
    (zero_or 0 (wf_TmpStorageCleanupInterval c) (3 * Hour))%Z
    (zero_or 0 (wf_HeartbeatInterval c) (10 * Second))%Z
    (zero_or 0 (wf_HeartbeatTimeout c) (30 * Second))%Z
    (wf_WorkerID c) (wf_AuthToken c)
    (zero_or "" (wf_InheritableENVPrefix c) "WORKFORCE_WORKER_TASK_")
    (zero_or 0 (wf_ReconnectMaxAttempts c) 10000)%Z
    (match wf_ConnectionRetryStrategy c with
     | None => Some (Exponential (5 * Second) (10 * Minute))
     | s => s
     end)
    (zero_or 0 (wf_KillGracePeriod c) (5 * Second))%Z
    (wf_AllowNonRoot c)
    (MkResourceLimits (MaxCPUPercent limits) (MaxMemPercent limits)
       (zero_or 0 (SampleInterval limits) (2 * Second))%Z).

(** ** State *)
Record activeTask := MkActiveTask {
  at_cancelled : bool;
  at_cost : Z;
  at_runID : string;
}.

(** A [runJob] goroutine: its proposal and dispatch, the buffer of its log writer, and whether its
    process has been started. *)
Record runningJob := MkRunningJob {
  rj_proposal : ProposeMessage;
  rj_dispatch : DispatchMessage;
  rj_buf : string;
  rj_started : bool;
}.

Record Worker := MkWorker {
  w_cfg : WorkerConfig;
  w_artifactCache : ArtifactCache;
  w_metricsSampler : metricsSampler;
  w_depCache : gset string;
  w_state : AtomicWorkerState;
  w_conn : option Conn;
  w_done : bool;
  w_tasks : gmap string activeTask;
  w_pendingJobs : gmap string ProposeMessage;
  w_usedCap : Z;
  w_lastHeartbeatAck : Z;
  w_heartbeatSendFaulureCount : Z;
  w_running : list runningJob;
}.

#[export] Instance runningJob_rebuild : Rebuild runningJob := λ j,
  MkRunningJob (rj_proposal j) (rj_dispatch j) (rj_buf j) (rj_started j).
#[export] Instance activeTask_rebuild : Rebuild activeTask := λ t,
  MkActiveTask (at_cancelled t) (at_cost t) (at_runID t).
#[export] Instance Worker_rebuild : Rebuild Worker := λ w,
  MkWorker (w_cfg w) (w_artifactCache w) (w_metricsSampler w) (w_depCache w) (w_state w) (w_conn w) (w_done w)
    (w_tasks w) (w_pendingJobs w) (w_usedCap w) (w_lastHeartbeatAck w) (w_heartbeatSendFaulureCount w) (w_running w).

(** [New] on a disk whose cache directory can be made; the sampler's window has a positive capacity. *)
Definition New_worker (cfg : WorkerConfig) (d : disk) : option (res error Worker) :=
  let cfg := worker_applyDefaults cfg in
  match NewArtifactCache (wf_CacheDir cfg) (wf_CacheMaxSize cfg) (wf_CacheTTL cfg) d with
  | Err e => Some (Err e)
  | Ok c =>
      let interval := SampleInterval (wf_ResourceLimits cfg) in
      sampler ← newMetricsSampler interval (Z.quot interval 2);
      Some (Ok (MkWorker cfg c sampler ∅ (MkAtomicWorkerState WorkerStateOffline) None false ∅ ∅ 0 0 0 []))
  end.

Definition generateID (goos shortID : string) : string := goos +:+ "-worker" +:+ "-" +:+ shortID.

(** The identity [Run] gives a worker that has none. *)
Definition with_identity (w : Worker) (goos shortID : string) : Worker :=
  if bool_decide (wf_WorkerID (w_cfg w) = "") then
    let c := w_cfg w in
    w <| w_cfg := MkWorkerConfig (wf_ManagerAddr c) (wf_Capacity c) (wf_CacheDir c) (wf_CacheMaxSize c) (wf_CacheTTL c)
                    (wf_TmpStorageDir c) (wf_TmpStorageMaxLifetime c) (wf_TmpStorageCleanupInterval c)
                    (wf_HeartbeatInterval c) (wf_HeartbeatTimeout c) (generateID goos shortID) (wf_AuthToken c)
                    (wf_InheritableENVPrefix c) (wf_ReconnectMaxAttempts c) (wf_ConnectionRetryStrategy c)
                    (wf_KillGracePeriod c) (wf_AllowNonRoot c) (wf_ResourceLimits c) |>
  else w.

(** ** Sending *)
Definition send (w : Worker) (line : string) : option (Worker * option error) :=
  c ← w_conn w;
  let '(c, err) := conn_Write c (line +:+ newline) in Some (w <| w_conn := Some c |>, err).

(** [send] where the error is dropped. *)
Definition send_ (w : Worker) (line : string) : option Worker := fst <$> send w line.

Definition sendWithPayload (w : Worker) (header payload : string) : option Worker :=
  c ← w_conn w;
  let '(c, err) := conn_Write c (header +:+ " -- " +:+ Itoa (Z.of_nat (String.length payload)) +:+ newline) in
  match err with
  | Some _ => Some (w <| w_conn := Some c |>)
  | None => Some (w <| w_conn := Some (conn_Write c payload).1 |>)
  end.

Definition worker_sendError (w : Worker) (code message : string) : option Worker :=
  send_ w ("error --code=" +:+ code +:+ " --message='" +:+ strip_quotes message +:+ "'").

(** [w.conn.Close()]. *)
Definition close_conn (w : Worker) : option Worker :=
  c ← w_conn w; Some (w <| w_conn := Some (conn_Close c).1 |>).

(** ** Proposals *)

(** The loop of [checkDeps]; [lookpath] is what [exec.LookPath] finds now. *)
Definition check_dep (lookpath : string → bool) (st : gset string * list string) (dep : string)
  : gset string * list string :=
  let '(known, missing) := st in
  if bool_decide (dep ∈ known) then st
  else if lookpath dep then ({[dep]} ∪ known, missing)
  else (known, missing ++ [dep]).

Definition checkDeps (w : Worker) (lookpath : string → bool) (deps : list string) : Worker * list string :=
  let '(known, missing) := foldl (check_dep lookpath) (w_depCache w, []) deps in
  (w <| w_depCache := known |>, missing).

Definition limits_set (l : ResourceLimits) : bool := f64_gt (MaxCPUPercent l) f64_zero || f64_gt (MaxMemPercent l) f64_zero.

(** The services [Run] starts, after the worker has an identity; the sampler only when a limit needs it. *)
Inductive worker_service := HeartbeatService | MetricsSamplerService | ConnectionHandlerService.

Definition Worker_Run (w : Worker) (goos shortID : string) : Worker * list worker_service :=
  let w := with_identity w goos shortID in
  (w, [HeartbeatService] ++ (if limits_set (wf_ResourceLimits (w_cfg w)) then [MetricsSamplerService] else []) ++ [ConnectionHandlerService]).

Definition under_pressure (w : Worker) : bool :=
  let l := wf_ResourceLimits (w_cfg w) in
  limits_set l && IsOverLimit (sampler_snapshot (w_metricsSampler w)) (MaxCPUPercent l) (MaxMemPercent l).

Definition handlePropose (w : Worker) (lookpath : string → bool) (msg : ProposeMessage) : option Worker :=
  let reject (w : Worker) (why : string) := send_ w ("reject --job-id=" +:+ pm_JobID msg +:+ " --reason=" +:+ why) in
  if negb (aws_Is (w_state w) WorkerStateOnline) then reject w "draining"
  else if under_pressure w then reject w "pressure"
  else
    let '(w, missing) := checkDeps w lookpath (pm_ArtifactDeps msg) in
    if bool_decide (missing ≠ []) then reject w ("missing_deps --detail='" +:+ strings_Join "," missing +:+ "'")
    else
      let used := (w_usedCap w +! pm_Cost msg)%go in
      if (used <=? wf_Capacity (w_cfg w))%Z then
        send_ (w <| w_usedCap := used |> <| w_pendingJobs := <[pm_JobID msg := msg]> (w_pendingJobs w) |>)
          ("accept --job-id=" +:+ pm_JobID msg)
      else reject w "capacity".

Definition handleDispatch (w : Worker) (msg : DispatchMessage) : option Worker :=
  match w_pendingJobs w !! dm_JobID msg with
  | None => worker_sendError w "unknown_job" "dispatched job was not proposed or accepted"
  | Some proposal =>
      let w := w <| w_pendingJobs := delete (dm_JobID msg) (w_pendingJobs w) |>
                 <| w_tasks := <[dm_JobID msg := MkActiveTask false (pm_Cost proposal) (dm_RunID msg)]> (w_tasks w) |> in
      w ← send_ w ("staged --job-id=" +:+ dm_JobID msg +:+ " --run-id=" +:+ dm_RunID msg);
      Some (w <| w_running := w_running w ++ [MkRunningJob proposal msg "" false] |>)
  end.

(** Closing [done] a second time would panic; the transitions allow it once. *)
Definition handleSystem (w : Worker) (cmd : SystemCommand) : option Worker :=
  match cmd with
  | SystemCommandDrain =>
      let w := w <| w_state := aws_Store (w_state w) WorkerStateDraining |> in
      if bool_decide (w_tasks w = ∅)
      then close_conn (w <| w_state := aws_Store (w_state w) WorkerStateShuttingDown |>)
      else Some w
  | SystemCommandShutdown =>
      let '(s, ok) := aws_Transition (w_state w) WorkerStateOnline WorkerStateShuttingDown in
      let '(s, ok) := if ok then (s, ok) else aws_Transition s WorkerStateDraining WorkerStateShuttingDown in
      let w := w <| w_state := s |> in
      if ok then if w_done w then None else Some (w <| w_done := true |>) else Some w
  end.

Definition handleCancel (w : Worker) (jobID : string) : Worker :=
  w <| w_tasks := alter (λ t, t <| at_cancelled := true |>) jobID (w_tasks w) |>.

Definition releaseTask (w : Worker) (jobID : string) : option Worker :=
  let w := match w_tasks w !! jobID with
           | Some t => w <| w_usedCap := (w_usedCap w -! at_cost t)%go |> <| w_tasks := delete jobID (w_tasks w) |>
           | None => w
           end in
  if (aws_Is (w_state w) WorkerStateDraining || aws_Is (w_state w) WorkerStateShuttingDown) && bool_decide (w_tasks w = ∅)
  then close_conn (w <| w_state := aws_Store (w_state w) WorkerStateShuttingDown |>)
  else Some w.

Definition worker_handleMessage (w : Worker) (lookpath : string → bool) (now : Time) (msg : Message) : option Worker :=
  match msg with
  | MPropose m => handlePropose w lookpath m
  | MDispatch m => handleDispatch w m
  | MHeartbeat _ _ _ => Some (w <| w_lastHeartbeatAck := UnixNano now |>)
  | MSystem c => handleSystem w c
  | MCancel jobID => Some (handleCancel w jobID)
  | _ => worker_sendError w "unhandled_message" ("message of type " +:+ message_type_name msg +:+ " is not handled")
  end.

(** One frame of the loop of [ConnectAndWork]. *)
Definition serve_frame `{NetArgv FL} `{Parsers} (w : Worker) (lookpath : string → bool) (now : Time) (fr : Frame FL)
  : option Worker :=
  match message_factory (fr_Verb fr) with
  | None => worker_sendError w "unknown_verb" ("unknown message verb: " +:+ fr_Verb fr)
  | Some factory =>
      match factory fr with
      | Err e => worker_sendError w "invalid_message" (Error e)
      | Ok msg => worker_handleMessage w lookpath now msg
      end
  end.

(** ** Connecting *)

(** The headers of the connection request. *)
Definition connect_headers (w : Worker) (key goos goarch : string) : list (string * string) :=
  [("X-Workforce-Key", key); ("X-Worker-ID", wf_WorkerID (w_cfg w)); ("X-Worker-Capacity", Itoa (wf_Capacity (w_cfg w)));
   ("X-Worker-OS", goos); ("X-Worker-Arch", goarch)] ++
  (if bool_decide (wf_AuthToken (w_cfg w) = "") then [] else [("Authorization", "Bearer " +:+ wf_AuthToken (w_cfg w))]).

(** What building the request and dialling gave. *)
Inductive dial_end := BadRequest (e : error) | DialFailed (e : error) | Dialled (c : Conn).

(** [ConnectAndWork] up to its read loop. *)
Definition ConnectAndWork_begin (w : Worker) (dial : dial_end) (now : Time) : Worker * option error :=
  let w := w <| w_state := aws_Store (w_state w) WorkerStateOffline |> <| w_done := false |> <| w_tasks := ∅ |>
             <| w_pendingJobs := ∅ |> <| w_usedCap := 0%Z |> in
  match dial with
  | BadRequest e => (w, Some (ErrMsg ("failed to build connection request: " +:+ Error e)))
  | DialFailed e => (w <| w_conn := None |>, Some (ErrMsg ("failed to connect to manager: " +:+ Error e)))
  | Dialled c => (w <| w_conn := Some c |> <| w_lastHeartbeatAck := UnixNano now |>
               <| w_state := aws_Store (w_state w) WorkerStateOnline |>, None)
  end.

(** How the read loop ended: the stream's end and the end of the context are no error. *)
Inductive stream_end := EndOfStream | ContextDone | ReadError (e : error).

Definition ConnectAndWork_end (w : Worker) (e : stream_end) : Worker * option error :=
  (w <| w_conn := None |>,
   match e with ReadError e => Some (ErrMsg ("failed to read message from stream: " +:+ Error e)) | _ => None end).

(** What the connection service returns to its supervisor. *)
Inductive routine_end := ShutdownAll | RetryAfter (e : error).

(** [ConnectAndWorkRoutine] after [ConnectAndWork] returned [err]; the log line at its end calls
    [Error] on the context's error, which is nil there. *)
Definition ConnectAndWorkRoutine (w : Worker) (err : option error) (retries_exceeded ctx_done : bool)
  : option routine_end :=
  match err with
  | Some e =>
      if aws_Is (w_state w) WorkerStateShuttingDown then Some ShutdownAll
      else if retries_exceeded then Some ShutdownAll
      else Some (RetryAfter e)
  | None =>
      if aws_Is (w_state w) WorkerStateShuttingDown then Some ShutdownAll
      else if ctx_done then Some ShutdownAll
      else None
  end.

(** ** Heartbeats *)

(** The verb [%.2f]: the decimal nearest the exact value, ties to even. *)
Definition round_half_even (num den : Z) : Z :=
  let q := (num / den)%Z in
  let r := (2 * (num mod den))%Z in
  if (r <? den)%Z then q else if (den <? r)%Z then (q + 1)%Z else if Z.even q then q else (q + 1)%Z.

Definition two_digits (n : Z) : string := String (digit_char (n / 10)) (String (digit_char (n mod 10)) "").

(** 400 digits are enough for the integer part of any [float64]. *)
Definition format_2f (x : spec_float) : string :=
  let show (s : bool) (n : Z) :=
    (if s then "-" else "") +:+ digits_fuel 400 (n / 100) "" +:+ "." +:+ two_digits (n mod 100) in
  match x with
  | S754_zero s => show s 0%Z
  | S754_infinity s => if s then "-Inf" else "+Inf"
  | S754_nan => "NaN"
  | S754_finite s m e =>
      show s (if (0 <=? e)%Z then Z.pos m * 2 ^ e * 100 else round_half_even (Z.pos m * 100) (2 ^ (- e)))%Z
  end.

(** Its result: nothing, [rungroup.ErrShutdownAll], or the error of the send. *)
Inductive heartbeat_end := HeartbeatOk | HeartbeatShutdown | HeartbeatFailed (e : error).

Definition heartbeat_timed_out (w : Worker) (now : Time) : bool :=
  (Z.quot (wf_HeartbeatTimeout (w_cfg w)) Second <? (Unix now -! w_lastHeartbeatAck w)%go)%Z.

Definition HeartbeatRoutine (w : Worker) (now : Time) : option (Worker * heartbeat_end) :=
  match w_conn w with
  | None => Some (w, HeartbeatOk)
  | Some _ =>
      if heartbeat_timed_out w now then w ← close_conn w; Some (w, HeartbeatShutdown)
      else
        let metrics := sampler_snapshot (w_metricsSampler w) in
        let l := wf_ResourceLimits (w_cfg w) in
        let w :=
          if aws_Is (w_state w) WorkerStateOnline || aws_Is (w_state w) WorkerStatePressure then
            w <| w_state := aws_Store (w_state w)
                   (if IsOverLimit metrics (MaxCPUPercent l) (MaxMemPercent l)
                    then WorkerStatePressure else WorkerStateOnline) |>
          else w in
        '(w, err) ← send w ("heartbeat --cpu=" +:+ format_2f (sm_CPUPercent metrics) +:+ " --mem=" +:+
                       format_2f (sm_MemPercent metrics) +:+ " --state=" +:+ Itoa (aws_Load (w_state w)));
        match err with
        | Some e =>
            let n := wrap32 (w_heartbeatSendFaulureCount w + 1) in
            let w := w <| w_heartbeatSendFaulureCount := n |> in
            w ← (if (3 <=? n)%Z then close_conn w else Some w);
            Some (w, HeartbeatFailed e)
        | None =>
            Some (if (0 <? w_heartbeatSendFaulureCount w)%Z
                  then w <| w_heartbeatSendFaulureCount := wrap32 (w_heartbeatSendFaulureCount w - 1) |> else w,
                  HeartbeatOk)
        end
  end.

(** ** Tasks (runner.go) *)

(** [cmd.Wait]: no error, an exit status, or another failure. *)
Inductive wait_error := ExitError (code : Z) (text : string) | WaitError (text : string).

Definition exitCodeOf (err : option wait_error) : Z :=
  match err with None => 0%Z | Some (ExitError code _) => code | Some (WaitError _) => 1%Z end.

Definition wait_error_text (err : option wait_error) : string :=
  match err with None => "" | Some (ExitError _ t) => t | Some (WaitError t) => t end.

(** The errors of [RunTask]: [exitError], or another. *)
Inductive run_error := exitError (code : Z) (reason : string) | otherError (text : string).

Definition run_error_text (e : run_error) : string :=
  match e with exitError code reason => "exit " +:+ Itoa code +:+ ": " +:+ reason | otherError t => t end.

Definition IsExitError (e : run_error) : Z * string * bool :=
  match e with exitError code reason => (code, reason, true) | otherError _ => (0%Z, "", false) end.

(** What the operating system made of the process: a pipe, the working directory or the start
    failed, or it ran and wrote to its result and child pipes and to stderr. *)
Inductive process :=
| PipeFailed (which : string) (e : error)
| TempRootFailed (e : error)
| StartFailed (e : error)
| Exited (waitErr : option wait_error) (resultData childJobsData stderr : string).

Definition RunTask (noResult : bool) (p : process) : res run_error (string * string * string) :=
  match p with
  | PipeFailed which e => Err (otherError ("runner: " +:+ which +:+ " pipe: " +:+ Error e))
  | TempRootFailed e => Err (otherError ("runner: create temp root: " +:+ Error e))
  | StartFailed e => Err (otherError ("runner: start: " +:+ Error e))
  | Exited waitErr resultData childJobsData stderr =>
      let code := exitCodeOf waitErr in
      if negb (code =? 0)%Z
      then Err (exitError code (if bool_decide (stderr = "") then wait_error_text waitErr else stderr))
      else if negb noResult && bool_decide (childJobsData = "") && bool_decide (resultData = "")
      then Err (otherError "binary exited 0 without writing a result or child jobs")
      else Ok (resultData, childJobsData, stderr)
  end.

(** The environment: [KEY=VALUE] strings. *)
Definition Getenv (environ : list (string * string)) (k : string) : string :=
  default "" (snd <$> first (λ kv, bool_decide (kv.1 = k)) environ).

Definition SystemEnv (environ : list (string * string)) : list string :=
  omap (λ k, let v := Getenv environ k in if bool_decide (v = "") then None else Some (k +:+ "=" +:+ v))
    ["PATH"; "HOME"; "SSL_CERT_FILE"; "SSL_CERT_DIR"; "COMSPEC"; "SYSTEMROOT"; "USERPROFILE"; "HOMEDRIVE";
     "HOMEPATH"; "TMP"; "TEMP"].

Definition EnvWithPrefix (environ : list (string * string)) (prefix : string) : list string :=
  filter (λ e, HasPrefix prefix e = true) ((λ kv, kv.1 +:+ "=" +:+ kv.2) <$> environ).

(** [filepath.Join]: the non-empty elements, joined and cleaned. *)
Definition clean_relative (acc : list string) (e : string) : list string :=
  if bool_decide (e = "") || bool_decide (e = ".") then acc
  else if bool_decide (e = "..") then
    if bool_decide (acc = []) || bool_decide (last acc = Some "..") then acc ++ [".."] else removelast acc
  else acc ++ [e].

Definition path_Join (elems : list string) : string :=
  let s := strings_Join "/" (filter (λ e, e ≠ "") elems) in
  if bool_decide (s = "") then ""
  else if HasPrefix "/" s then "/" +:+ strings_Join "/" (foldl clean_step [] (strings_Split "/" s))
  else let parts := foldl clean_relative [] (strings_Split "/" s) in
       if bool_decide (parts = []) then "." else strings_Join "/" parts.

Definition taskTmpDir (w : Worker) (jobID : string) : string := path_Join [wf_TmpStorageDir (w_cfg w); jobID].

(** The environment of the process of a job. *)
Definition task_env (w : Worker) (environ : list (string * string)) (j : runningJob) : list string :=
  SystemEnv environ ++ EnvWithPrefix environ (wf_InheritableENVPrefix (w_cfg w)) ++
  ["WORKFORCE_PHASE=" +:+ dm_Phase (rj_dispatch j);
   "WORKFORCE_JOB_ID=" +:+ dm_JobID (rj_dispatch j);
   "WORKFORCE_TASK_TYPE=" +:+ pm_Task (rj_proposal j);
   "WORKFORCE_PARENT_JOB_ID=" +:+ pm_ParentJobID (rj_proposal j);
   "WORKFORCE_ATTEMPT=" +:+ Itoa (dm_Attempt (rj_dispatch j));
   "WORKFORCE_TMP_STORAGE_DIRECTORY=" +:+ wf_TmpStorageDir (w_cfg w);
   "WORKFORCE_TASK_STORAGE_DIRECTORY=" +:+ taskTmpDir w (dm_JobID (rj_dispatch j))].

(** ** Runs of jobs (handle_message.go) *)

(** [strings.Trim] for the characters newline, carriage return and tab. *)
Definition trimmed (c : ascii) : bool := bool_decide (N_of_ascii c ∈ [9; 10; 13]%N).

Fixpoint trim_left (s : string) : string :=
  match s with String c s' => if trimmed c then trim_left s' else s | EmptyString => "" end.

Fixpoint trim_right (s : string) : string :=
  match s with
  | EmptyString => ""
  | String c s => match trim_right s with
                  | EmptyString => if trimmed c then "" else String c ""
                  | t => String c t
                  end
  end.

(** [html.EscapeString]. *)
Fixpoint html_escape (s : string) : string :=
  match s with
  | EmptyString => ""
  | String c s =>
      (if Ascii.eqb c "&" then "&amp;" else if Ascii.eqb c "<" then "&lt;" else if Ascii.eqb c ">" then "&gt;"
       else if Ascii.eqb c (ascii_of_N 39) then "&#39;" else if Ascii.eqb c (ascii_of_N 34) then "&#34;"
       else String c "") +:+ html_escape s
  end.

Definition sanitize (s : string) : string := html_escape (trim_right (trim_left (strip_quotes s))).

(** [time.Time.Format(time.RFC3339)] and [time.Duration.String]. *)
Class TimeFormat := { rfc3339 : Time → string; duration_String : Duration → string }.

Definition job_flags (jobID runID : string) : string := " --job-id=" +:+ jobID +:+ " --run-id=" +:+ runID.

Definition box_top : string := "┌────────────────────────────────────────────────────────".
Definition box_bottom : string := "└────────────────────────────────────────────────────────".

(** The lines of a text template, each ended by a newline. *)
Definition lines (l : list string) : string := str_concat ((λ x, x +:+ newline) <$> l).

Section runs.
Context `{GoRuntime} `{TimeFormat} (sha256_hex : string → string) (goos : string).

Definition log_header (w : Worker) (j : runningJob) (now : Time) : string :=
  let d := rj_dispatch j in
  lines [""; box_top; "│  " +:+ pm_Task (rj_proposal j); "│  phase:   " +:+ dm_Phase d;
         "│  attempt: " +:+ Itoa (dm_Attempt d); "│  job:     " +:+ dm_JobID d; "│  run:     " +:+ dm_RunID d;
         "│  time:    " +:+ rfc3339 now; "│  worker:  " +:+ wf_WorkerID (w_cfg w); box_bottom].

Definition log_footer (status : string) (now : Time) (duration : Duration) (body : string) : string :=
  lines [""; ""; ""; box_top; "│  status:   " +:+ status; "│  time:     " +:+ rfc3339 now;
         "│  duration: " +:+ duration_String duration; box_bottom; ""; body].

(** A goroutine that returns. *)
Definition finish (w : Worker) (i : nat) : Worker := w <| w_running := delete i (w_running w) |>.

(** From the start of [runJob] to that of the process: [t] and [d] are the times and the download of
    the fetch, [mkdir] the outcome of making the task's directory. *)
Definition runJob_start (w : Worker) (i : nat) (t : Time) (d : Download) (mkdir : option error) (now : Time)
  : option Worker :=
  j ← w_running w !! i;
  if rj_started j then None
  else
    let msg := rj_dispatch j in
    let '(cache, fetched) := Fetch sha256_hex goos (w_artifactCache w) (pm_ArtifactHash (rj_proposal j))
                               (pm_ArtifactURL (rj_proposal j)) t d in
    let w := w <| w_artifactCache := cache |> in
    match fetched with
    | Err e =>
        w ← send_ w ("result --job-id=" +:+ dm_JobID msg +:+ " --type=error --reason='" +:+ sanitize (Error e) +:+ "'");
        w ← releaseTask w (dm_JobID msg); Some (finish w i)
    | Ok _ =>
        w ← send_ w ("starting" +:+ job_flags (dm_JobID msg) (dm_RunID msg));
        match mkdir with
        | Some e =>
            w ← send_ w ("result" +:+ job_flags (dm_JobID msg) (dm_RunID msg) +:+ " --type=error --reason='"
                         +:+ sanitize (Error e) +:+ "'");
            w ← releaseTask w (dm_JobID msg); Some (finish w i)
        | None =>
            w ← sendWithPayload w ("log" +:+ job_flags (dm_JobID msg) (dm_RunID msg)) (log_header w j now);
            Some (w <| w_running := alter (λ j, j <| rj_started := true |>) i (w_running w) |>)
        end
    end.

(** The messages of the three endings of a run: header and payload of the result. *)
Definition result_message (j : runningJob) (r : res run_error (string * string * string)) (duration : Duration)
  : string * string :=
  let flags := job_flags (dm_JobID (rj_dispatch j)) (dm_RunID (rj_dispatch j)) in
  match r with
  | Err e =>
      let '(code, reason, isExit) := IsExitError e in
      ("result" +:+ flags +:+ " --type=error --exit-code=" +:+ Itoa code +:+ " --duration=" +:+ duration_String duration,
       if isExit then reason else run_error_text e)
  | Ok (resultData, childJobsData, _) =>
      if bool_decide (childJobsData ≠ "")
      then ("result" +:+ flags +:+ " --type=subjobs --duration=" +:+ duration_String duration, childJobsData)
      else ("result" +:+ flags +:+ " --type=result --duration=" +:+ duration_String duration, resultData)
  end.

Definition result_status (r : res run_error (string * string * string)) : string :=
  match r with Err _ => "failed" | Ok _ => "success" end.

(** From the end of the process, [duration] after its start, to the end of [runJob]. *)
Definition runJob_end (w : Worker) (i : nat) (p : process) (now : Time) (duration : Duration) : option Worker :=
  j ← w_running w !! i;
  if negb (rj_started j) then None
  else
    let msg := rj_dispatch j in
    let r := RunTask (pm_NoResult (rj_proposal j)) p in
    let '(header, payload) := result_message j r duration in
    w ← sendWithPayload w ("log" +:+ job_flags (dm_JobID msg) (dm_RunID msg))
          (log_footer (result_status r) now duration payload);
    w ← sendWithPayload w header payload;
    w ← releaseTask w (dm_JobID msg);
    Some (finish w i).
End runs.

(** The loop of [logLineWriter.Write]: up to each newline a line is cut off and sent, the rest stays
    in the buffer.  Every round shortens the buffer, so its length bounds the rounds. *)
Fixpoint write_loop (rounds : nat) (buf : string) : list string * string :=
  match rounds with
  | O => ([], buf)
  | S rounds =>
      match cut_at (ascii_of_N 10) buf with
      | None => ([], buf)
      | Some (line, buf) => let '(ls, rest) := write_loop rounds buf in (line :: ls, rest)
      end
  end.

Fixpoint send_lines (w : Worker) (header : string) (ls : list string) : option Worker :=
  match ls with [] => Some w | l :: ls => w ← sendWithPayload w header l; send_lines w header ls end.

Definition logLineWriter_Write (w : Worker) (i : nat) (p : string) : option Worker :=
  j ← w_running w !! i;
  if negb (rj_started j) then None
  else
    let '(ls, rest) := write_loop (String.length (rj_buf j +:+ p)) (rj_buf j +:+ p) in
    let w := w <| w_running := alter (λ j, j <| rj_buf := rest |>) i (w_running w) |> in
    send_lines w ("log" +:+ job_flags (dm_JobID (rj_dispatch j)) (dm_RunID (rj_dispatch j))) ls.
