(* ===== verification/WorkerProps.v ===== *)
(** * Properties of the worker

    The capacity a worker has promised never exceeds what it declares; what the
    manager writes is understood and answered; results reach the manager as they
    were; and what happens when the connection is lost. *)
From S2P Require Import Prelude GoStd External Contract WorkerConn Proto Registry Window ArtifactCache Worker.
From Stdlib Require Import Floats.SpecFloat.

(** ** What sending changes: the connection's output, nothing else *)
Definition outputs (w : Worker) : list string := default [] (conn_out <$> w_conn w).

Definition same_books (w w' : Worker) : Prop :=
  w_cfg w' = w_cfg w ∧ w_tasks w' = w_tasks w ∧ w_pendingJobs w' = w_pendingJobs w ∧ w_usedCap w' = w_usedCap w.

#[export] Instance same_books_refl : Reflexive same_books.
Proof. by intros w. Qed.
#[export] Instance same_books_trans : Transitive same_books.
Proof. intros w1 w2 w3 (A1 & A2 & A3 & A4) (B1 & B2 & B3 & B4). unfold same_books. by rewrite B1, B2, B3, B4. Qed.

Lemma send_books w line w' : send_ w line = Some w' → same_books w w'.
Proof.
  unfold send_, send. destruct (w_conn w) as [c|]; [|done]. cbn. destruct (conn_Write c _). by intros [= <-].
Qed.

Lemma payload_books w header payload w' : sendWithPayload w header payload = Some w' → same_books w w'.
Proof.
  unfold sendWithPayload. destruct (w_conn w) as [c|]; [|done]. cbn. destruct (conn_Write c _) as [c' [e|]]; by intros [= <-].
Qed.

Lemma close_books w w' : close_conn w = Some w' → same_books w w'.
Proof. unfold close_conn. destruct (w_conn w) as [c|]; [|done]. by intros [= <-]. Qed.

Lemma send_lines_books header ls w w' : send_lines w header ls = Some w' → same_books w w'.
Proof.
  revert w. induction ls as [|l ls IH]; intros w; cbn [send_lines]; [by intros [= <-]|].
  intros (w1 & H1 & Hw)%bind_Some. etrans; [by eapply payload_books|]. by apply IH.
Qed.

(** ** Promised capacity *)
Definition reserved (w : Worker) : Z :=
  (ledger_cost (pm_Cost <$> w_pendingJobs w) + ledger_cost (at_cost <$> w_tasks w))%Z.

Record capacity_ok (w : Worker) : Prop := {
  ca_width : (0 ≤ wf_Capacity (w_cfg w) ≤ MaxInt64)%Z;
  ca_pending j p : w_pendingJobs w !! j = Some p → (0 ≤ pm_Cost p)%Z;
  ca_tasks j t : w_tasks w !! j = Some t → (0 ≤ at_cost t)%Z;
  ca_reserved : (reserved w ≤ w_usedCap w)%Z;
  ca_used : (w_usedCap w ≤ wf_Capacity (w_cfg w))%Z;
}.

Lemma capacity_books w w' : same_books w w' → capacity_ok w → capacity_ok w'.
Proof.
  intros (E1 & E2 & E3 & E4) [C1 C2 C3 C4 C5]. unfold reserved in *.
  split; unfold reserved; rewrite ?E1, ?E2, ?E3, ?E4; done.
Qed.

(** Amounts of a map of records. *)
Section amounts.
Context {A : Type} (amount : A → Z).
Implicit Types (m : gmap string A).

Definition nonneg m : Prop := ∀ k a, m !! k = Some a → (0 ≤ amount a)%Z.

Lemma amounts_nonneg m : nonneg m → (0 ≤ ledger_cost (amount <$> m))%Z.
Proof. intros Hm. apply ledger_cost_nonneg. intros j z. rewrite lookup_fmap. intros (a & Ha & ->)%fmap_Some_1. eauto. Qed.

Lemma amounts_delete m k : nonneg m →
  ledger_cost (amount <$> m) = (default 0 (amount <$> m !! k) + ledger_cost (amount <$> delete k m))%Z.
Proof.
  intros Hm. rewrite fmap_delete. destruct (m !! k) as [a|] eqn:Ha; cbn.
  - rewrite (ledger_cost_delete _ k (amount a)); [done|]. by rewrite lookup_fmap, Ha.
  - rewrite delete_id by by rewrite lookup_fmap, Ha. done.
Qed.

Lemma amounts_insert m k a : nonneg m →
  ledger_cost (amount <$> <[k := a]> m) = (ledger_cost (amount <$> m) - default 0 (amount <$> m !! k) + amount a)%Z.
Proof.
  intros Hm. rewrite fmap_insert, <-insert_delete_eq, <-fmap_delete, ledger_cost_insert.
  - rewrite (amounts_delete m k Hm). lia.
  - by rewrite lookup_fmap, lookup_delete_eq.
Qed.

Lemma nonneg_insert m k a : nonneg m → (0 ≤ amount a)%Z → nonneg (<[k := a]> m).
Proof. intros Hm Ha j b [[<- <-]|[_ Hj]]%lookup_insert_Some; eauto. Qed.

Lemma nonneg_delete m k : nonneg m → nonneg (delete k m).
Proof. intros Hm j b [_ Hj]%lookup_delete_Some. eauto. Qed.

Lemma nonneg_default m k : nonneg m → (0 ≤ default 0 (amount <$> m !! k))%Z.
Proof. intros Hm. destruct (m !! k) eqn:E; cbn; [eauto|lia]. Qed.
End amounts.

Lemma reserved_nonneg w : capacity_ok w → (0 ≤ reserved w)%Z.
Proof.
  intros Hw. pose proof (amounts_nonneg pm_Cost _ (ca_pending _ Hw)). pose proof (amounts_nonneg at_cost _ (ca_tasks _ Hw)).
  unfold reserved. lia.
Qed.

(** A proposal whose cost does not overflow the sum. *)
Definition sane_cost (w : Worker) (cost : Z) : Prop := (0 ≤ cost)%Z ∧ (cost + wf_Capacity (w_cfg w) ≤ MaxInt64)%Z.

Lemma sane_used w cost : capacity_ok w → sane_cost w cost → (w_usedCap w +! cost)%go = (w_usedCap w + cost)%Z.
Proof.
  intros Hw [H0 H1]. pose proof (reserved_nonneg w Hw). pose proof (ca_reserved _ Hw). pose proof (ca_used _ Hw).
  apply wrap64_id. i64. lia.
Qed.

(** The worker after it accepted a proposal. *)
Definition accepted (w : Worker) (msg : ProposeMessage) : Worker :=
  w <| w_usedCap := (w_usedCap w +! pm_Cost msg)%go |> <| w_pendingJobs := <[pm_JobID msg := msg]> (w_pendingJobs w) |>.

Lemma accepted_ok w msg : capacity_ok w → sane_cost w (pm_Cost msg) →
  ((w_usedCap w +! pm_Cost msg)%go ≤ wf_Capacity (w_cfg w))%Z → capacity_ok (accepted w msg).
Proof.
  intros Hw Hc Hfit. pose proof (sane_used w _ Hw Hc) as Hu. destruct Hw as [C1 C2 C3 C4 C5]. destruct Hc as [Hc _].
  split; [done|by apply (nonneg_insert pm_Cost)|done| |exact Hfit].
  unfold reserved in *. unfold accepted. cbn [w_pendingJobs w_tasks w_usedCap field_set rebuild Worker_rebuild].
  rewrite (amounts_insert pm_Cost) by done. pose proof (nonneg_default pm_Cost _ (pm_JobID msg) C2). lia.
Qed.

Definition dispatched (w : Worker) (msg : DispatchMessage) (p : ProposeMessage) : Worker :=
  w <| w_pendingJobs := delete (dm_JobID msg) (w_pendingJobs w) |>
    <| w_tasks := <[dm_JobID msg := MkActiveTask false (pm_Cost p) (dm_RunID msg)]> (w_tasks w) |>.

Lemma dispatched_ok w msg p : capacity_ok w → w_pendingJobs w !! dm_JobID msg = Some p → capacity_ok (dispatched w msg p).
Proof.
  intros Hw Hp. destruct Hw as [C1 C2 C3 C4 C5]. pose proof (C2 _ _ Hp) as Hcost.
  split; [done|by apply (nonneg_delete pm_Cost)|by apply (nonneg_insert at_cost)| |done].
  unfold reserved, dispatched in *. cbn [w_pendingJobs w_tasks w_usedCap field_set rebuild Worker_rebuild].
  rewrite (amounts_insert at_cost) by done. pose proof (amounts_delete pm_Cost _ (dm_JobID msg) C2) as Hd.
  rewrite Hp in Hd. cbn in Hd. pose proof (nonneg_default at_cost _ (dm_JobID msg) C3). cbn. lia.
Qed.

Definition released (w : Worker) (jobID : string) : Worker :=
  match w_tasks w !! jobID with
  | Some t => w <| w_usedCap := (w_usedCap w -! at_cost t)%go |> <| w_tasks := delete jobID (w_tasks w) |>
  | None => w
  end.

Lemma released_used w j t : capacity_ok w → w_tasks w !! j = Some t →
  (w_usedCap w -! at_cost t)%go = (w_usedCap w - at_cost t)%Z ∧
  (ledger_cost (at_cost <$> w_tasks w) = at_cost t + ledger_cost (at_cost <$> delete j (w_tasks w)))%Z.
Proof.
  intros [C1 C2 C3 C4 C5] Ht. pose proof (amounts_delete at_cost _ j C3) as Hd. rewrite Ht in Hd. cbn in Hd.
  split; [|exact Hd]. pose proof (amounts_nonneg pm_Cost _ C2).
  pose proof (amounts_nonneg at_cost _ (nonneg_delete at_cost _ j C3)). pose proof (C3 _ _ Ht).
  unfold reserved in C4. apply wrap64_id. i64. lia.
Qed.

Lemma released_ok w j : capacity_ok w → capacity_ok (released w j).
Proof.
  intros Hw. unfold released. destruct (w_tasks w !! j) as [t|] eqn:Ht; [|done].
  destruct (released_used w j t Hw Ht) as [Hu Hd]. destruct Hw as [C1 C2 C3 C4 C5]. pose proof (C3 _ _ Ht).
  split; [done|done|by apply (nonneg_delete at_cost)| |].
  - unfold reserved in *. cbn [w_pendingJobs w_tasks w_usedCap field_set rebuild Worker_rebuild]. rewrite Hu. lia.
  - cbn [w_cfg w_usedCap field_set rebuild Worker_rebuild]. rewrite Hu. lia.
Qed.

Definition cancelled (w : Worker) (j : string) : Worker :=
  w <| w_tasks := alter (λ t, t <| at_cancelled := true |>) j (w_tasks w) |>.

Lemma cancelled_costs w j : at_cost <$> w_tasks (cancelled w j) = at_cost <$> w_tasks w.
Proof.
  unfold cancelled. cbn [w_tasks field_set rebuild Worker_rebuild]. apply map_eq. intros k. rewrite !lookup_fmap.
  destruct (decide (k = j)) as [->|Hne]; [rewrite lookup_alter_eq|by rewrite lookup_alter_ne].
  by destruct (w_tasks w !! j).
Qed.

Definition reset_books (w : Worker) : Worker := w <| w_tasks := ∅ |> <| w_pendingJobs := ∅ |> <| w_usedCap := 0%Z |>.

(** ** Every step acts on the books in one of these ways *)
Section books.
Context (allowed : Worker → ProposeMessage → Prop).

(** Properties of the books that each of them keeps. *)
Record books_inv (I : Worker → Prop) : Prop := {
  bi_books w w' : same_books w w' → I w → I w';
  bi_accepted w p : I w → allowed w p → ((w_usedCap w +! pm_Cost p)%go ≤ wf_Capacity (w_cfg w))%Z → I (accepted w p);
  bi_dispatched w d p : I w → w_pendingJobs w !! dm_JobID d = Some p → I (dispatched w d p);
  bi_released w j : I w → I (released w j);
  bi_cancelled w j : I w → I (cancelled w j);
  bi_reset w : I w → I (reset_books w);
}.

Context (I : Worker → Prop) (HI : books_inv I).

Lemma send_inv w line w' : send_ w line = Some w' → I w → I w'.
Proof. intros Hs. apply (bi_books _ HI). by eapply send_books. Qed.

Lemma payload_inv w header payload w' : sendWithPayload w header payload = Some w' → I w → I w'.
Proof. intros Hs. apply (bi_books _ HI). by eapply payload_books. Qed.

Lemma close_inv w w' : close_conn w = Some w' → I w → I w'.
Proof. intros Hs. apply (bi_books _ HI). by eapply close_books. Qed.

Lemma handlePropose_inv w lookpath p w' : allowed w p → handlePropose w lookpath p = Some w' → I w → I w'.
Proof.
  intros Ha Hs Hi. unfold handlePropose in Hs.
  destruct (negb _); [by eapply send_inv|]. destruct (under_pressure w); [by eapply send_inv|].
  unfold checkDeps in Hs. destruct (foldl _ _ _) as [known missing].
  assert (I (w <| w_depCache := known |>)) as Hi' by by apply (bi_books _ HI w).
  case_bool_decide; [by eapply send_inv|].
  destruct (Z.leb_spec (w_usedCap w +! pm_Cost p)%go (wf_Capacity (w_cfg w))) as [Hle|Hgt].
  - change (w_usedCap (w <| w_depCache := known |>)) with (w_usedCap w) in Hs.
    change (wf_Capacity (w_cfg (w <| w_depCache := known |>))) with (wf_Capacity (w_cfg w)) in Hs.
    rewrite (proj2 (Z.leb_le _ _) Hle) in Hs. eapply send_inv; [exact Hs|].
    apply (bi_books _ HI (accepted w p)); [done|]. by apply (bi_accepted _ HI).
  - change (w_usedCap (w <| w_depCache := known |>)) with (w_usedCap w) in Hs.
    change (wf_Capacity (w_cfg (w <| w_depCache := known |>))) with (wf_Capacity (w_cfg w)) in Hs.
    rewrite (proj2 (Z.leb_gt _ _) Hgt) in Hs. by eapply send_inv.
Qed.

Lemma handleDispatch_inv w d w' : handleDispatch w d = Some w' → I w → I w'.
Proof.
  intros Hs Hi. unfold handleDispatch in Hs. destruct (w_pendingJobs w !! dm_JobID d) as [p|] eqn:Hp; [|by eapply send_inv].
  apply bind_Some in Hs as (w1 & H1 & [= <-]). apply (bi_books _ HI w1); [done|]. eapply send_inv; [exact H1|].
  by apply (bi_dispatched _ HI w d p).
Qed.

Lemma handleSystem_inv w c w' : handleSystem w c = Some w' → I w → I w'.
Proof.
  intros Hs Hi. unfold handleSystem in Hs. destruct c.
  - case_bool_decide; [eapply close_inv; [exact Hs|]|injection Hs as <-]; by apply (bi_books _ HI w).
  - repeat case_match; simplify_eq; by apply (bi_books _ HI w).
Qed.

Lemma releaseTask_inv w j w' : releaseTask w j = Some w' → I w → I w'.
Proof.
  intros Hs Hi. unfold releaseTask in Hs. pose proof (bi_released _ HI w j Hi) as Hr. unfold released in Hr.
  destruct (_ && _) in Hs; [eapply close_inv; [exact Hs|]; by refine (bi_books _ HI _ _ _ Hr)|]. by injection Hs as <-.
Qed.

Lemma handleMessage_inv w lookpath now msg w' : (∀ p, msg = MPropose p → allowed w p) →
  worker_handleMessage w lookpath now msg = Some w' → I w → I w'.
Proof.
  intros Ha Hs Hi. destruct msg; cbn in Hs; try (by eapply send_inv).
  - eapply handlePropose_inv; eauto.
  - by eapply handleDispatch_inv.
  - injection Hs as <-. by apply (bi_books _ HI w).
  - by eapply handleSystem_inv.
  - injection Hs as <-. by apply (bi_cancelled _ HI).
Qed.
End books.

(** ** The worker as a transition system *)
Section steps.
Context `{argv : NetArgv FL} `{parsers : Parsers} `{go : GoRuntime} `{fmt : TimeFormat} (sha256_hex : string → string) (goos : string).
Context (allowed : Worker → ProposeMessage → Prop).

(** One atomic piece of the program: a frame, a connection made or lost, a heartbeat, a reading of
    the sampler, or a part of a job's run.  Proposals are restricted by [allowed]. *)
Inductive wstep : Worker → Worker → Prop :=
| ws_frame w lookpath now (fr : Frame FL) w' :
    (∀ factory p, message_factory (fr_Verb fr) = Some factory → factory fr = Ok (MPropose p) → allowed w p) →
    serve_frame w lookpath now fr = Some w' → wstep w w'
| ws_connect w dial now : wstep w (ConnectAndWork_begin w dial now).1
| ws_disconnect w e : wstep w (ConnectAndWork_end w e).1
| ws_heartbeat w now w' r : HeartbeatRoutine w now = Some (w', r) → wstep w w'
| ws_sample w sample m : sampler_round (w_metricsSampler w) sample = Some m → wstep w (w <| w_metricsSampler := m |>)
| ws_start w i t d mkdir now w' : runJob_start sha256_hex goos w i t d mkdir now = Some w' → wstep w w'
| ws_output w i p w' : logLineWriter_Write w i p = Some w' → wstep w w'
| ws_end w i p now duration w' : runJob_end w i p now duration = Some w' → wstep w w'.

Context (I : Worker → Prop) (HI : books_inv allowed I).

Lemma HeartbeatRoutine_inv w now w' r : HeartbeatRoutine w now = Some (w', r) → I w → I w'.
Proof.
  intros Hs Hi. unfold HeartbeatRoutine in Hs. destruct (w_conn w) as [c|] eqn:Hc; [|by simplify_eq].
  destruct (heartbeat_timed_out w now).
  { apply bind_Some in Hs as (w1 & H1 & [= <- <-]). by eapply close_inv. }
  set (w0 := if _ || _ then _ else _) in Hs.
  assert (I w0) as Hi0 by (unfold w0; case_match; [by apply (bi_books _ _ HI w)|done]).
  apply bind_Some in Hs as ([w1 err] & H1 & Hs).
  assert (I w1) as Hi1 by (eapply (send_inv allowed I HI w0); [unfold send_; by rewrite H1|done]).
  destruct err as [e|].
  - apply bind_Some in Hs as (w2 & H2 & [= <- <-]).
    case_match; [eapply close_inv; [exact HI|exact H2|]|injection H2 as <-]; by apply (bi_books _ _ HI w1).
  - injection Hs as <- <-. case_match; [by apply (bi_books _ _ HI w1)|done].
Qed.

Lemma runJob_start_inv w i t d mkdir now w' : runJob_start sha256_hex goos w i t d mkdir now = Some w' → I w → I w'.
Proof.
  intros Hs Hi. unfold runJob_start in Hs. apply bind_Some in Hs as (j & Hj & Hs).
  destruct (rj_started j); [done|]. destruct (Fetch _ _ _ _ _ _ _) as [cache fetched].
  assert (I (w <| w_artifactCache := cache |>)) as Hi0 by by apply (bi_books _ _ HI w).
  destruct fetched as [path|e].
  - apply bind_Some in Hs as (w1 & H1 & Hs). pose proof (send_inv _ _ HI _ _ _ H1 Hi0) as Hi1. destruct mkdir as [e|].
    + apply bind_Some in Hs as (w2 & H2 & (w3 & H3 & [= <-])%bind_Some).
      apply (bi_books _ _ HI w3); [done|]. eapply releaseTask_inv; [done|exact H3|]. by eapply send_inv.
    + apply bind_Some in Hs as (w2 & H2 & [= <-]). apply (bi_books _ _ HI w2); [done|]. by eapply payload_inv.
  - apply bind_Some in Hs as (w1 & H1 & (w2 & H2 & [= <-])%bind_Some).
    apply (bi_books _ _ HI w2); [done|]. eapply releaseTask_inv; [done|exact H2|]. by eapply send_inv.
Qed.

Lemma runJob_end_inv w i p now duration w' : runJob_end w i p now duration = Some w' → I w → I w'.
Proof.
  intros Hs Hi. unfold runJob_end in Hs. apply bind_Some in Hs as (j & Hj & Hs). destruct (negb _); [done|].
  destruct (result_message _ _ _) as [header payload].
  apply bind_Some in Hs as (w1 & H1 & (w2 & H2 & (w3 & H3 & [= <-])%bind_Some)%bind_Some).
  apply (bi_books _ _ HI w3); [done|]. eapply releaseTask_inv; [done|exact H3|].
  eapply payload_inv; [done|exact H2|]. by eapply payload_inv.
Qed.

Lemma Write_inv w i p w' : logLineWriter_Write w i p = Some w' → I w → I w'.
Proof.
  intros Hs Hi. unfold logLineWriter_Write in Hs. apply bind_Some in Hs as (j & Hj & Hs). destruct (negb _); [done|].
  destruct (write_loop _ _) as [ls rest]. apply send_lines_books in Hs.
  eapply (bi_books _ _ HI); [exact Hs|]. by apply (bi_books _ _ HI w).
Qed.

Lemma wstep_inv w w' : wstep w w' → I w → I w'.
Proof.
  intros Hs Hi. destruct Hs as [w lp now fr w' Ha Hs|w dial now|w e|w now w' r Hs|w s m _|w i t d mk now w' Hs|w i p w' Hs|w i p now dur w' Hs].
  - unfold serve_frame in Hs. destruct (message_factory (fr_Verb fr)) as [factory|] eqn:Hf; [|by eapply send_inv].
    destruct (factory fr) as [msg|e] eqn:Hm; [|by eapply send_inv].
    eapply handleMessage_inv; [exact HI| |exact Hs|exact Hi]. intros p ->. by eapply Ha.
  - pose proof (bi_reset _ _ HI w Hi) as Hr. unfold ConnectAndWork_begin. destruct dial; by apply (bi_books _ _ HI (reset_books w)).
  - by apply (bi_books _ _ HI w).
  - by eapply HeartbeatRoutine_inv.
  - by apply (bi_books _ _ HI w).
  - by eapply runJob_start_inv.
  - by eapply Write_inv.
  - by eapply runJob_end_inv.
Qed.

Lemma wsteps_inv w w' : rtc wstep w w' → I w → I w'.
Proof. induction 1; [done|]. eauto using wstep_inv. Qed.
End steps.

(** Proposals of a sane cost keep the promises within the capacity. *)
Definition sane (w : Worker) (p : ProposeMessage) : Prop := sane_cost w (pm_Cost p).

Lemma capacity_inv : books_inv sane capacity_ok.
Proof.
  split.
  - apply capacity_books.
  - intros w p Hw Hs Hf. by apply accepted_ok.
  - intros w d p Hw Hp. by apply dispatched_ok.
  - intros w j. apply released_ok.
  - intros w j [C1 C2 C3 C4 C5]. split; [done|done| |by unfold reserved in *; rewrite cancelled_costs|done].
    intros k t Hk. assert ((at_cost <$> w_tasks (cancelled w j)) !! k = Some (at_cost t)) as E by by rewrite lookup_fmap, Hk.
    rewrite cancelled_costs, lookup_fmap in E. apply fmap_Some_1 in E as (t' & Ht & ->). eauto.
  - intros w [C1 _ _ _ _]. split; [done|done|done|done|]. cbn. lia.
Qed.

(** Proposals of jobs the worker does not hold already. *)
Definition sane_and_new (w : Worker) (p : ProposeMessage) : Prop :=
  sane_cost w (pm_Cost p) ∧ w_pendingJobs w !! pm_JobID p = None ∧ w_tasks w !! pm_JobID p = None.

(** The books are exact: no capacity is lost. *)
Definition exact_books (w : Worker) : Prop :=
  capacity_ok w ∧ w_usedCap w = reserved w ∧ (∀ j, w_pendingJobs w !! j = None ∨ w_tasks w !! j = None).

Lemma exact_inv : books_inv sane_and_new exact_books.
Proof.
  split.
  - intros w w' Hb (Hc & Hu & Hd). split; [by eapply capacity_books|]. destruct Hb as (E1 & E2 & E3 & E4).
    unfold reserved. rewrite E2, E3, E4. done.
  - intros w p (Hc & Hu & Hd) (Hs & Hp & Ht) Hf. split; [by apply accepted_ok|]. split.
    + unfold reserved in *. unfold accepted. cbn [w_pendingJobs w_tasks w_usedCap field_set rebuild Worker_rebuild].
      rewrite (sane_used w _ Hc Hs), (amounts_insert pm_Cost _ _ _ (ca_pending _ Hc)), Hp. cbn. lia.
    + intros j. unfold accepted. cbn [w_pendingJobs w_tasks field_set rebuild Worker_rebuild].
      destruct (decide (j = pm_JobID p)) as [->|Hne]; [by right|]. rewrite lookup_insert_ne by done. apply Hd.
  - intros w d p (Hc & Hu & Hd) Hp. split; [by apply dispatched_ok|]. split.
    + unfold reserved in *. unfold dispatched. cbn [w_pendingJobs w_tasks w_usedCap field_set rebuild Worker_rebuild].
      rewrite (amounts_insert at_cost _ _ _ (ca_tasks _ Hc)). pose proof (amounts_delete pm_Cost _ (dm_JobID d) (ca_pending _ Hc)) as E.
      destruct (Hd (dm_JobID d)) as [?|Ht]; [congruence|]. rewrite Hp in E. rewrite Ht. cbn in *. lia.
    + intros j. unfold dispatched. cbn [w_pendingJobs w_tasks field_set rebuild Worker_rebuild].
      destruct (decide (j = dm_JobID d)) as [->|Hne]; [left; apply lookup_delete_eq|].
      rewrite lookup_delete_ne, lookup_insert_ne by done. apply Hd.
  - intros w j (Hc & Hu & Hd). split; [by apply released_ok|]. unfold released.
    destruct (w_tasks w !! j) as [t|] eqn:Ht; [|done]. destruct (released_used w j t Hc Ht) as [E1 E2]. split.
    + unfold reserved in *. cbn [w_pendingJobs w_tasks w_usedCap field_set rebuild Worker_rebuild]. lia.
    + intros k. cbn [w_pendingJobs w_tasks field_set rebuild Worker_rebuild]. destruct (Hd k); [by left|right].
      by apply lookup_delete_None; right.
  - intros w j (Hc & Hu & Hd). split; [by apply (bi_cancelled _ _ capacity_inv)|]. split.
    + unfold reserved. rewrite cancelled_costs. exact Hu.
    + intros k. destruct (Hd k) as [?|Hk]; [by left|right]. unfold cancelled. cbn [w_tasks field_set rebuild Worker_rebuild].
      destruct (decide (k = j)) as [->|Hne]; [rewrite lookup_alter_eq|rewrite lookup_alter_ne by done]; by rewrite Hk.
  - intros w (Hc & _). split; [by apply (bi_reset _ _ capacity_inv)|]. split; [done|]. intros j. by left.
Qed.

(** C10: A worker never promises more than it has. From its creation on, whatever frames arrive (of
    proposals, those whose cost is non-negative and does not overflow), connections come and go and
    jobs run, the costs of the jobs accepted or started on the current connection are together at
    most the capacity in use, which is at most the declared capacity; when no job is proposed while
    the worker still holds it, the capacity in use is exactly their sum. A new connection starts with
    empty books: processes left from an earlier one are no longer counted. *)
Theorem worker_keeps_capacity `{argv : NetArgv FL} `{parsers : Parsers} `{go : GoRuntime} `{fmt : TimeFormat}
    sha256_hex goos cfg d w0 w :
  New_worker cfg d = Some (Ok w0) → (0 ≤ wf_Capacity cfg ≤ MaxInt64)%Z →
  (rtc (wstep sha256_hex goos sane) w0 w →
     0 ≤ reserved w ∧ reserved w ≤ w_usedCap w ∧ w_usedCap w ≤ wf_Capacity (w_cfg w))%Z ∧
  (rtc (wstep sha256_hex goos sane_and_new) w0 w → w_usedCap w = reserved w).
Proof.
  intros Hnew Hcap.
  assert (capacity_ok w0 ∧ w_usedCap w0 = reserved w0 ∧ w_pendingJobs w0 = ∅) as (Hok & Hu & Hp).
  { unfold New_worker in Hnew. destruct (NewArtifactCache _ _ _ _); [|done].
    apply bind_Some in Hnew as (s & _ & [= <-]). split_and!; [|done|done].
    split; try done; cbn; unfold zero_or; case_decide; unfold MaxInt64 in *; lia. }
  split.
  - intros Hr. pose proof (wsteps_inv _ _ _ _ capacity_inv _ _ Hr Hok) as Hw.
    split_and!; [by apply reserved_nonneg|apply Hw|apply Hw].
  - intros Hr. assert (exact_books w0) as Hx by (split_and!; [done|done|intros j; left; by rewrite Hp]).
    by destruct (wsteps_inv _ _ _ _ exact_inv _ _ Hr Hx) as (_ & ? & _).
Qed.
