(* ===== verification/WorkerWire.v ===== *)
(** * The worker on the wire

    What the worker writes to a working connection: the answer to every
    proposal, the lines of a job's output, the result of a run, and that the
    manager's factories read them back; then what becomes of the worker when the
    connection is lost and what its heartbeat timeout can detect. *)
From S2P Require Import Prelude GoStd External Contract WorkerConn Proto Registry Window ArtifactCache Worker WorkerProps.
From Stdlib Require Import Floats.SpecFloat.

(** ** Writing to a usable connection *)
Definition connected (w : Worker) : Prop := ∃ c, w_conn w = Some c ∧ conn_usable c = true.

(** The worker with more output. *)
Definition wrote (w : Worker) (data : list string) : Worker :=
  w <| w_conn := (λ c, c <| conn_out := conn_out c ++ data |>) <$> w_conn w |>.

Lemma wrote_wrote w a b : wrote (wrote w a) b = wrote w (a ++ b).
Proof. unfold wrote. destruct w as [? ? ? ? ? [c|] ? ? ? ? ? ? ?]; cbn; [by rewrite app_assoc|done]. Qed.

Lemma wrote_connected w data : connected w → connected (wrote w data).
Proof. intros (c & Hc & Hu). unfold connected, wrote. cbn. rewrite Hc. eexists. split; [done|exact Hu]. Qed.

Lemma wrote_outputs w data : connected w → outputs (wrote w data) = outputs w ++ data.
Proof. intros (c & Hc & _). unfold outputs, wrote. cbn. by rewrite Hc. Qed.

Lemma send_connected w line : connected w → send_ w line = Some (wrote w [line +:+ newline]).
Proof.
  intros (c & Hc & Hu). unfold send_, send, wrote, conn_Write. rewrite Hc. cbn. rewrite Hu. done.
Qed.

(** A header with its payload: two writes. *)
Definition framed (header payload : string) : list string :=
  [header +:+ " -- " +:+ Itoa (Z.of_nat (String.length payload)) +:+ newline; payload].

Lemma payload_connected w header payload : connected w → sendWithPayload w header payload = Some (wrote w (framed header payload)).
Proof.
  intros (c & Hc & Hu). unfold sendWithPayload, wrote, framed, conn_Write. rewrite Hc. cbn. rewrite Hu. cbn.
  assert (conn_usable (c <| conn_out := conn_out c ++ [header +:+ " -- " +:+ Itoa (Z.of_nat (String.length payload)) +:+ newline] |>) = true)
    as E by exact Hu.
  rewrite E. cbn. by rewrite <-app_assoc.
Qed.

Lemma send_lines_connected w header ls : connected w →
  send_lines w header ls = Some (wrote w (ls ≫= framed header)).
Proof.
  revert w. induction ls as [|l ls IH]; intros w Hw; cbn [send_lines].
  { f_equal. unfold wrote. destruct w as [? ? ? ? ? [c|] ? ? ? ? ? ? ?]; cbn; [|done]. destruct c; cbn. by rewrite app_nil_r. }
  rewrite payload_connected by done. cbn [mbind option_bind]. rewrite IH by by apply wrote_connected.
  by rewrite wrote_wrote.
Qed.

(** ** Proposals *)

(** [checkDeps] reports the executables that are neither remembered nor found. *)
Lemma check_deps_spec lookpath deps known acc :
  (foldl (check_dep lookpath) (known, acc) deps).2 = acc ++ filter (λ d, d ∉ known ∧ lookpath d = false) deps.
Proof.
  revert known acc. induction deps as [|d deps IH]; intros known acc; [by rewrite app_nil_r|]. cbn [foldl check_dep].
  case_bool_decide as Hk; [|destruct (lookpath d) eqn:Hl].
  - rewrite IH, filter_cons_False by tauto. done.
  - rewrite IH, filter_cons_False by (intros [_ E]; congruence). f_equal. apply list_filter_iff. intros x.
    rewrite not_elem_of_union, not_elem_of_singleton. split; [tauto|]. intros [? Hx]. split_and!; try done.
    intros ->. congruence.
  - rewrite IH, filter_cons_True by done. by rewrite <-app_assoc.
Qed.

Definition may_accept (w : Worker) (lookpath : string → bool) (msg : ProposeMessage) : Prop :=
  aws_Load (w_state w) = WorkerStateOnline ∧ under_pressure w = false ∧
  (∀ d, d ∈ pm_ArtifactDeps msg → d ∈ w_depCache w ∨ lookpath d = true) ∧
  ((w_usedCap w +! pm_Cost msg)%go ≤ wf_Capacity (w_cfg w))%Z.

(** The worker after an accepted proposal, with its answer written. *)
Definition after_accept (w : Worker) (known : gset string) (msg : ProposeMessage) : Worker :=
  wrote (accepted (w <| w_depCache := known |>) msg) ["accept --job-id=" +:+ pm_JobID msg +:+ newline].

Lemma check_deps_grows lookpath deps known missing : known ⊆ (foldl (check_dep lookpath) (known, missing) deps).1.
Proof.
  revert known missing. induction deps as [|d deps IH]; intros known missing; [done|]. cbn [foldl].
  assert (known ⊆ (check_dep lookpath (known, missing) d).1) as Hk by (unfold check_dep; repeat case_match; set_solver).
  destruct (check_dep lookpath (known, missing) d) as [known' missing']. etrans; [exact Hk|apply IH].
Qed.

Lemma handlePropose_accepts w lookpath msg : connected w → may_accept w lookpath msg →
  ∃ known, handlePropose w lookpath msg = Some (after_accept w known msg) ∧ w_depCache w ⊆ known.
Proof.
  intros Hc (Hs & Hp & Hd & Hf). unfold handlePropose, aws_Is. rewrite (proj2 (Z.eqb_eq _ _) Hs), Hp. cbn [negb].
  unfold checkDeps. pose proof (check_deps_spec lookpath (pm_ArtifactDeps msg) (w_depCache w) []) as E.
  pose proof (check_deps_grows lookpath (pm_ArtifactDeps msg) (w_depCache w) []) as Hg.
  destruct (foldl _ _ _) as [known missing]. cbn in E, Hg. exists known. split; [|exact Hg].
  assert (missing = []) as ->.
  { destruct missing as [|d l]; [done|]. exfalso. assert (d ∈ filter (λ d, d ∉ w_depCache w ∧ lookpath d = false) (pm_ArtifactDeps msg)) as Hin
      by (rewrite <-E; by left).
    apply list_elem_of_filter in Hin as [[Hn Hl] Hin]. destruct (Hd d Hin); congruence. }
  rewrite bool_decide_eq_false_2 by auto. change (w_usedCap (w <| w_depCache := known |>)) with (w_usedCap w).
  change (wf_Capacity (w_cfg (w <| w_depCache := known |>))) with (wf_Capacity (w_cfg w)).
  rewrite (proj2 (Z.leb_le _ _) Hf). rewrite send_connected by exact Hc. unfold after_accept. by rewrite <-str_app_assoc.
Qed.

Lemma handlePropose_rejects w lookpath msg : connected w → ¬ may_accept w lookpath msg →
  ∃ known why, handlePropose w lookpath msg =
    Some (wrote (w <| w_depCache := known |>) ["reject --job-id=" +:+ pm_JobID msg +:+ " --reason=" +:+ why +:+ newline]).
Proof.
  intros Hc Hn. unfold handlePropose. set (line why := "reject --job-id=" +:+ pm_JobID msg +:+ " --reason=" +:+ why).
  assert (∀ known why, send_ (w <| w_depCache := known |>) (line why) =
    Some (wrote (w <| w_depCache := known |>) ["reject --job-id=" +:+ pm_JobID msg +:+ " --reason=" +:+ why +:+ newline])) as Hsend.
  { intros known why. rewrite send_connected by exact Hc. unfold line. by rewrite !str_app_assoc. }
  assert (w <| w_depCache := w_depCache w |> = w) as Ew by by destruct w.
  destruct (aws_Is (w_state w) WorkerStateOnline) eqn:Hs; [cbn [negb]|].
  2: { exists (w_depCache w), "draining". rewrite <-Hsend. by rewrite Ew. }
  destruct (under_pressure w) eqn:Hp; [exists (w_depCache w), "pressure"; rewrite <-Hsend; by rewrite Ew|].
  unfold checkDeps. pose proof (check_deps_spec lookpath (pm_ArtifactDeps msg) (w_depCache w) []) as E.
  destruct (foldl _ _ _) as [known missing]. cbn in E. exists known.
  case_bool_decide as Hm; [by eexists (_ +:+ _); rewrite <-Hsend|].
  change (w_usedCap (w <| w_depCache := known |>)) with (w_usedCap w).
  change (wf_Capacity (w_cfg (w <| w_depCache := known |>))) with (wf_Capacity (w_cfg w)).
  destruct (Z.leb_spec (w_usedCap w +! pm_Cost msg)%go (wf_Capacity (w_cfg w))) as [Hf|Hf]; [|by eexists; rewrite <-Hsend].
  destruct Hn. unfold aws_Is in Hs. zb. split_and!; [done|done| |done].
  intros d Hd. destruct (decide (d ∈ w_depCache w)) as [|Hk]; [by left|right].
  destruct (lookpath d) eqn:Hl; [done|]. rewrite Hm in E. exfalso.
  by apply (filter_nil_not_elem_of _ _ d (eq_sym E)).
Qed.

(** C16: Every proposal gets exactly one answer. The worker accepts, and then reserves the cost and
    remembers the proposal, exactly when it is online, not under pressure, finds or remembers every
    required executable and has the capacity left; otherwise it rejects and its books stay as they
    were. *)
Theorem proposal_decision w lookpath msg : connected w →
  ∃ w' line, handlePropose w lookpath msg = Some w' ∧ outputs w' = outputs w ++ [line +:+ newline] ∧
    ((may_accept w lookpath msg ∧ line = "accept --job-id=" +:+ pm_JobID msg ∧
        w_pendingJobs w' !! pm_JobID msg = Some msg ∧ w_usedCap w' = (w_usedCap w +! pm_Cost msg)%go) ∨
     (¬ may_accept w lookpath msg ∧ (∃ why, line = "reject --job-id=" +:+ pm_JobID msg +:+ " --reason=" +:+ why) ∧
        same_books w w')).
Proof.
  intros Hc. assert (may_accept w lookpath msg ∨ ¬ may_accept w lookpath msg) as [Hm|Hm].
  { destruct (decide (aws_Load (w_state w) = WorkerStateOnline)); [|right; unfold may_accept; tauto].
    destruct (under_pressure w) eqn:Hp; [right; intros (_ & ? & _); congruence|].
    destruct (decide (w_usedCap w +! pm_Cost msg ≤ wf_Capacity (w_cfg w))%go%Z); [|right; unfold may_accept; tauto].
    destruct (decide (Forall (λ d, d ∈ w_depCache w ∨ lookpath d = true) (pm_ArtifactDeps msg))) as [Hf|Hf];
      rewrite Forall_forall in Hf; [left; done|right; unfold may_accept; tauto]. }
  - destruct (handlePropose_accepts w lookpath msg Hc Hm) as (known & Hk & _).
    exists (after_accept w known msg), ("accept --job-id=" +:+ pm_JobID msg). split; [done|]. split.
    + unfold after_accept. rewrite wrote_outputs by exact Hc. by rewrite str_app_assoc.
    + left. split_and!; [done|done|apply lookup_insert_eq|done].
  - destruct (handlePropose_rejects w lookpath msg Hc Hm) as (known & why & Hk).
    eexists _, ("reject --job-id=" +:+ pm_JobID msg +:+ " --reason=" +:+ why). split; [exact Hk|]. split.
    + rewrite wrote_outputs by exact Hc. by rewrite !str_app_assoc.
    + right. split_and!; [done|by exists why|done..].
Qed.

(** ** From proposal to run *)
Section handshake.
Context `{argv : NetArgv FL} `{parsers : Parsers}.

Lemma accept_read id : word id = true → id ≠ "" →
  ∃ fl, argv_parse ("accept --job-id=" +:+ id) = Ok ("accept", fl) ∧
    acceptV0Factory (MkFrame "accept" fl "") = Ok (MAccept id).
Proof.
  intros Hw Hne. destruct (argv_parse_spec "accept" [("job-id", Some id)]) as (fl & Hp & Hfl); [done|..].
  { apply Forall_singleton. unfold word_arg. cbn. by rewrite Hw. }
  exists fl. unfold render_line, str_concat in Hp. cbn in Hp. rewrite str_app_nil_r in Hp. split; [exact Hp|].
  unfold acceptV0Factory. cbn. by rewrite (requireFlag_value fl "job-id" id) by (done || by apply Hfl).
Qed.

Lemma staged_read id run : word id = true → id ≠ "" → word run = true → run ≠ "" →
  ∃ fl, argv_parse ("staged --job-id=" +:+ id +:+ " --run-id=" +:+ run) = Ok ("staged", fl) ∧
    stagedV0Factory (MkFrame "staged" fl "") = Ok (MStaged id run).
Proof.
  intros Hw Hne Hr Hrne. destruct (argv_parse_spec "staged" [("job-id", Some id); ("run-id", Some run)]) as (fl & Hp & Hfl); [done|..].
  { repeat constructor; unfold word_arg; cbn; by rewrite ?Hw, ?Hr. }
  exists fl. unfold render_line, str_concat in Hp. cbn in Hp. rewrite str_app_nil_r in Hp.
  split; [rewrite <-Hp; f_equal; by rewrite ?str_app_assoc|].
  unfold stagedV0Factory. cbn. rewrite (requireFlag_value fl "job-id" id) by (done || by apply Hfl). cbn.
  by rewrite (requireFlag_value fl "run-id" run) by (done || by apply Hfl).
Qed.

(** The proposal and the dispatch as the worker reads them. *)
Definition proposal_of (job : Job) (task : Task) (art : ArtifactInfo) : ProposeMessage :=
  MkProposeMessage (job_ID job) "" (job_TaskName job) (job_Cost job) (task_NoResult task) (ai_Hash art) (ai_URL art)
    (ai_Dependencies art).

Definition dispatch_of (job : Job) (runID payload : string) : DispatchMessage :=
  MkDispatchMessage (job_ID job) runID (JobPhase_string (job_Phase job)) (job_Attempts job) 0 0 0 payload.

Lemma handleDispatch_starts w msg p : connected w → w_pendingJobs w !! dm_JobID msg = Some p →
  handleDispatch w msg = Some ((wrote (dispatched w msg p)
      ["staged --job-id=" +:+ dm_JobID msg +:+ " --run-id=" +:+ dm_RunID msg +:+ newline])
    <| w_running := w_running w ++ [MkRunningJob p msg "" false] |>).
Proof.
  intros Hc Hp. unfold handleDispatch. rewrite Hp. fold (dispatched w msg p).
  rewrite send_connected by exact Hc. cbn [mbind option_bind]. by rewrite !str_app_assoc.
Qed.
End handshake.

(** The two ends of the protocol fit together. The proposal line the manager writes for a job is
    read by the worker as that job; when the worker may accept it, its answer is read by the manager
    as the acceptance of the job; the dispatch line is then read and answered with a staged message
    for the run, and the worker has started the job's run, holding exactly its cost. *)
Theorem proposal_to_staged `{argv : NetArgv FL} `{parsers : Parsers} job task art runID payload w lookpath now :
  propose_words job art → in_int64 (job_Cost job) → in_int64 (job_Attempts job) → job_ID job ≠ "" → job_TaskName job ≠ "" →
  ai_Hash art ≠ "" → ai_URL art ≠ "" → word runID = true → runID ≠ "" →
  connected w → may_accept w lookpath (proposal_of job task art) →
  ∃ fp w1 accept_line fa fd w2 staged_line fs,
    argv_parse (FormulateProposeV0Message job task art) = Ok ("propose", fp) ∧
    serve_frame w lookpath now (MkFrame "propose" fp "") = Some w1 ∧
    outputs w1 = outputs w ++ [accept_line +:+ newline] ∧
    argv_parse accept_line = Ok ("accept", fa) ∧ acceptV0Factory (MkFrame "accept" fa "") = Ok (MAccept (job_ID job)) ∧
    argv_parse (FormulateDispatchV0Message job runID) = Ok ("dispatch", fd) ∧
    serve_frame w1 lookpath now (MkFrame "dispatch" fd payload) = Some w2 ∧
    outputs w2 = outputs w1 ++ [staged_line +:+ newline] ∧
    argv_parse staged_line = Ok ("staged", fs) ∧ stagedV0Factory (MkFrame "staged" fs "") = Ok (MStaged (job_ID job) runID) ∧
    w_running w2 = w_running w ++ [MkRunningJob (proposal_of job task art) (dispatch_of job runID payload) "" false] ∧
    w_tasks w2 !! job_ID job = Some (MkActiveTask false (job_Cost job) runID) ∧
    w_pendingJobs w2 !! job_ID job = None ∧ w_usedCap w2 = (w_usedCap w +! job_Cost job)%go.
Proof.
  intros Hw Hcost Hatt Hid Htask Hhash Hurl Hrun Hrne Hc Hm. pose proof Hw as (Hidw & _).
  destruct (propose_parsed job task art Hw) as (fp & Hp & L1 & L2 & L3 & L4 & L5 & L6 & L7 & L8).
  destruct (dispatch_parsed job runID Hidw Hrun) as (fd & Hd & D1 & D2 & D3 & D4 & D5).
  destruct (accept_read (job_ID job) Hidw Hid) as (fa & Ha & Hacc).
  destruct (staged_read (job_ID job) runID Hidw Hid Hrun Hrne) as (fs & Hs & Hstg).
  destruct (handlePropose_accepts w lookpath (proposal_of job task art) Hc Hm) as (known & Hk & _).
  set (w1 := after_accept w known (proposal_of job task art)) in *.
  assert (connected w1) as Hc1 by (unfold w1, after_accept; by apply wrote_connected).
  assert (w_pendingJobs w1 !! job_ID job = Some (proposal_of job task art)) as Hpend by apply lookup_insert_eq.
  pose proof (handleDispatch_starts w1 (dispatch_of job runID payload) _ Hc1 Hpend) as Hds.
  match type of Hds with _ = Some ?x => set (w2 := x) in Hds end.
  exists fp, w1, ("accept --job-id=" +:+ job_ID job), fa, fd, w2, ("staged --job-id=" +:+ job_ID job +:+ " --run-id=" +:+ runID), fs.
  split_and!; [done| | |done|done|done| | |done|done|done|apply lookup_insert_eq|apply lookup_delete_eq|done].
  - unfold serve_frame. cbn [fr_Verb]. change (message_factory "propose") with (Some (proposeV0Factory (FL := FL))). cbv beta iota.
    rewrite (propose_read fp job art (task_NoResult task) "") by assumption. exact Hk.
  - unfold w1, after_accept. rewrite wrote_outputs by exact Hc. by rewrite str_app_assoc.
  - unfold serve_frame. cbn [fr_Verb]. change (message_factory "dispatch") with (Some (dispatchV0Factory (FL := FL))). cbv beta iota.
    rewrite (dispatch_read fd job runID payload) by done. exact Hds.
  - unfold w2. change (outputs (?x <| w_running := ?r |>)) with (outputs x). rewrite wrote_outputs by exact Hc1.
    by rewrite !str_app_assoc.
Qed.

(** ** Results *)
Section results.
Context `{argv : NetArgv FL} `{parsers : Parsers} `{fmt : TimeFormat}.

(** Durations written as plain words and read back, as [time.ParseDuration] documents of
    [Duration.String]. *)
Definition duration_reads (d : Duration) : Prop :=
  word (duration_String d) = true ∧ duration_String d ≠ "" ∧ ParseDuration (duration_String d) = Some d.

Definition result_args (id run typ : string) (code : option Z) (d : Duration) : list arg :=
  [("job-id", Some id); ("run-id", Some run); ("type", Some typ)] ++
  match code with Some n => [("exit-code", Some (Itoa n))] | None => [] end ++
  [("duration", Some (duration_String d))].

(** What the flags of a result line hold. *)
Lemma result_parsed id run typ code d : word id = true → word run = true → word typ = true → word (duration_String d) = true →
  ∃ fl, argv_parse (render_line "result" (result_args id run typ code d)) = Ok ("result", fl) ∧
    fl_Lookup fl "job-id" = Some id ∧ fl_Lookup fl "run-id" = Some run ∧ fl_Lookup fl "type" = Some typ ∧
    fl_Lookup fl "duration" = Some (duration_String d) ∧ fl_Lookup fl "exit-code" = Itoa <$> code ∧
    fl_Lookup fl "parent-job-id" = None ∧ fl_Lookup fl "warnings" = None.
Proof.
  intros Hid Hrun Htyp Hd. destruct (argv_parse_spec "result" (result_args id run typ code d)) as (fl & Hp & Hfl); [done|..].
  { unfold result_args. destruct code as [n|]; repeat constructor; unfold word_arg; cbn; by rewrite ?Hid, ?Hrun, ?Htyp, ?Hd, ?word_Itoa. }
  exists fl. split; [exact Hp|]. unfold result_args in Hfl.
  destruct code as [n|]; split_and!; apply Hfl; try reflexivity; apply (bool_decide_unpack _); vm_compute; exact Logic.I.
Qed.

(** The header of a result is a rendered line. *)
Definition result_typ (r : res run_error (string * string * string)) : string * option Z :=
  match r with
  | Err e => ("error", Some (IsExitError e).1.1)
  | Ok (_, childJobsData, _) => (if bool_decide (childJobsData ≠ "") then "subjobs" else "result", None)
  end.

Lemma result_header j r d :
  (result_message j r d).1 =
    render_line "result" (result_args (dm_JobID (rj_dispatch j)) (dm_RunID (rj_dispatch j)) (result_typ r).1 (result_typ r).2 d).
Proof.
  destruct r as [[[res child] err]|[code reason|text]]; cbn [result_message result_typ IsExitError];
    [case_bool_decide| |]; unfold render_line, str_concat, result_args, job_flags; cbn; by rewrite ?str_app_nil_r, ?str_app_assoc.
Qed.

(** What the manager should learn of a run. *)
Definition reported (j : runningJob) (r : res run_error (string * string * string)) (d : Duration) : res error Message :=
  let msg typ reason code jobs payload :=
    MResult (MkResultMessage "" (dm_JobID (rj_dispatch j)) (dm_RunID (rj_dispatch j)) typ d "" reason code jobs payload) in
  match r with
  | Err (exitError code reason) => Ok (msg ResultError reason code [] "")
  | Err (otherError text) => Ok (msg ResultError text 0%Z [] "")
  | Ok (resultData, childJobsData, _) =>
      if bool_decide (childJobsData ≠ "") then
        jobs ← parse_child_jobs childJobsData;
        if bool_decide (jobs = []) then Err (ErrMsg "outcome subjobs: payload must contain at least one job")
        else Ok (msg ResultSubjobs "" 0%Z jobs childJobsData)
      else Ok (msg ResultSuccess "" 0%Z [] resultData)
  end.

(** Flags that read as the result of a run. *)
Lemma result_read fl j r d : let id := dm_JobID (rj_dispatch j) in let run := dm_RunID (rj_dispatch j) in
  id ≠ "" → run ≠ "" → duration_reads d →
  match r with Err (exitError code _) => in_int64 code | _ => True end →
  fl_Lookup fl "job-id" = Some id → fl_Lookup fl "run-id" = Some run → fl_Lookup fl "type" = Some (result_typ r).1 →
  fl_Lookup fl "duration" = Some (duration_String d) → fl_Lookup fl "exit-code" = Itoa <$> (result_typ r).2 →
  fl_Lookup fl "parent-job-id" = None → fl_Lookup fl "warnings" = None →
  resultV0Factory (MkFrame "result" fl (result_message j r d).2) = reported j r d.
Proof.
  intros id run Hid Hrun (_ & Hdne & Hdur) Hcode L1 L2 L3 L4 L5 L6 L7. unfold resultV0Factory, optional_flag. cbn [fr_Flags fr_Payload].
  rewrite (requireFlag_value fl _ _ L1 Hid). cbn [mbind res_bind].
  rewrite (requireFlag_value fl _ _ L3) by (destruct r as [[[? ?] ?]|]; cbn; [by case_bool_decide|done]). cbn [mbind res_bind].
  rewrite (requireFlag_value fl _ _ L2 Hrun), !fl_Get_spec, L4, L5, L6, L7. cbn [mbind res_bind]. unfold default, Datatypes.id.
  rewrite (bool_decide_eq_false_2 (duration_String d = "")), Hdur by done. cbn [or_error mbind res_bind].
  destruct r as [[[res child] err]|[code reason|text]]; cbn [result_message result_typ reported IsExitError fst snd].
  - destruct (decide (child = "")) as [->|Hne]; [by rewrite (bool_decide_eq_false_2 ("" ≠ "")) by auto|].
    rewrite (bool_decide_eq_true_2 (child ≠ "")) by done. cbn [fst snd].
    change (bool_decide ("subjobs" = "result")) with false. change (bool_decide ("subjobs" = "error")) with false.
    change (bool_decide ("subjobs" = "subjobs")) with true. cbv beta iota.
    by rewrite (bool_decide_eq_false_2 (child = "")).
  - change (bool_decide ("error" = "result")) with false. change (bool_decide ("error" = "error")) with true. cbv beta iota.
    cbn [fmap option_fmap option_map]. rewrite (bool_decide_eq_false_2 (Itoa code = "")) by apply Itoa_nonempty. by rewrite Atoi_Itoa.
  - change (bool_decide ("error" = "result")) with false. change (bool_decide ("error" = "error")) with true. cbv beta iota.
    cbn [fmap option_fmap option_map]. reflexivity.
Qed.
End results.

(** What the manager's factory makes of a run, case by case: a failure, a success, child jobs that can be read and
    number at least one, and a list of child jobs that is not JSON or is empty, which it refuses. *)
Definition outcome_read `{parsers : Parsers} (j : runningJob) (r : res run_error (string * string * string)) (d : Duration)
    (out : res error Message) : Prop :=
  let msg typ reason code jobs payload :=
    MResult (MkResultMessage "" (dm_JobID (rj_dispatch j)) (dm_RunID (rj_dispatch j)) typ d "" reason code jobs payload) in
  match r with
  | Err (exitError code reason) => out = Ok (msg ResultError reason code [] "")
  | Err (otherError text) => out = Ok (msg ResultError text 0%Z [] "")
  | Ok (resultData, EmptyString, _) => out = Ok (msg ResultSuccess "" 0%Z [] resultData)
  | Ok (_, childJobsData, _) =>
      match parse_child_jobs childJobsData with
      | Ok ((_ :: _) as jobs) => out = Ok (msg ResultSubjobs "" 0%Z jobs childJobsData)
      | Ok [] | Err _ => ∃ e, out = Err e
      end
  end.

Lemma reported_outcome `{parsers : Parsers} j r d : outcome_read j r d (reported j r d).
Proof.
  destruct r as [[[res [|c child]] err]|[code reason|text]]; try reflexivity. unfold outcome_read, reported. cbv zeta.
  rewrite bool_decide_eq_true_2 by done.
  destruct (parse_child_jobs (String c child)) as [[|x jobs]|e]; cbn [mbind res_bind]; [by eexists| |by eexists].
  by rewrite bool_decide_eq_false_2.
Qed.

(** C17: The outcome of a run is read by the manager as the worker wrote it, or refused. Whatever the process did, the
    header the worker writes parses, and the manager's factory reads a success with its result data, a failure with
    its exit code and reason (code 0 for a failure that is not an exit status), or the child jobs when some were
    written, for that job and run with the duration measured. The exception is a list of child jobs that is no
    valid JSON or has no entries: the worker sends it as it is and the factory refuses the message, so that the
    manager learns no outcome at all. *)
Theorem result_reported `{argv : NetArgv FL} `{parsers : Parsers} `{fmt : TimeFormat} j (p : process) d :
  let r := RunTask (pm_NoResult (rj_proposal j)) p in
  word (dm_JobID (rj_dispatch j)) = true → dm_JobID (rj_dispatch j) ≠ "" →
  word (dm_RunID (rj_dispatch j)) = true → dm_RunID (rj_dispatch j) ≠ "" → duration_reads d →
  match p with Exited (Some (ExitError code _)) _ _ _ => in_int64 code | _ => True end →
  ∃ fl, argv_parse (result_message j r d).1 = Ok ("result", fl) ∧
    outcome_read j r d (resultV0Factory (MkFrame "result" fl (result_message j r d).2)).
Proof.
  intros r Hid Hidn Hrun Hrunn Hd Hcode. rewrite result_header.
  destruct (result_parsed (dm_JobID (rj_dispatch j)) (dm_RunID (rj_dispatch j)) (result_typ r).1 (result_typ r).2 d)
    as (fl & Hp & L1 & L2 & L3 & L4 & L5 & L6 & L7); [done|done| |apply Hd|].
  { destruct r as [[[? ?] ?]|]; cbn; [by case_bool_decide|done]. }
  exists fl. split; [exact Hp|]. rewrite (result_read fl j r d); try done; [apply reported_outcome|].
  unfold r. destruct p as [| | |we res child err]; [done..|]. unfold RunTask. cbv zeta.
  destruct (negb _); [|by destruct (_ && _)]. destruct we as [[code text|text]|]; [exact Hcode|split; discriminate..].
Qed.

(** ** Output of tasks *)

(** The complete lines of a text and what follows the last newline. *)
Fixpoint complete_lines (s : string) : list string * string :=
  match s with
  | EmptyString => ([], "")
  | String c s =>
      let '(ls, rest) := complete_lines s in
      if decide (c = ascii_of_N 10) then ("" :: ls, rest)
      else match ls with [] => ([], String c rest) | l :: ls => (String c l :: ls, rest) end
  end.

Lemma complete_lines_cut s :
  match cut_at (ascii_of_N 10) s with
  | None => complete_lines s = ([], s)
  | Some (line, rest) =>
      complete_lines s = (line :: (complete_lines rest).1, (complete_lines rest).2) ∧ String.length rest < String.length s
  end.
Proof.
  induction s as [|c s IH]; [done|]. cbn [cut_at complete_lines]. case_decide as Hc.
  - destruct (complete_lines s). split; [done|cbn; lia].
  - destruct (cut_at (ascii_of_N 10) s) as [[line rest]|]; cbn [mbind option_bind].
    + destruct IH as [-> Hl]. split; [done|cbn; lia].
    + by rewrite IH.
Qed.

Lemma write_loop_spec n s : String.length s ≤ n → write_loop n s = complete_lines s.
Proof.
  revert s. induction n as [|n IH]; intros s Hn; cbn [write_loop].
  { destruct s; [done|cbn in Hn; lia]. }
  pose proof (complete_lines_cut s) as Hs. destruct (cut_at (ascii_of_N 10) s) as [[line rest]|]; [|done].
  destruct Hs as [-> Hl]. rewrite IH by lia. by destruct (complete_lines rest).
Qed.

Lemma complete_lines_app a b :
  complete_lines (a +:+ b) =
    ((complete_lines a).1 ++ (complete_lines ((complete_lines a).2 +:+ b)).1, (complete_lines ((complete_lines a).2 +:+ b)).2).
Proof.
  induction a as [|c a IH]; [cbn; change ("" +:+ b) with b; by destruct (complete_lines b)|].
  change (String c a +:+ b) with (String c (a +:+ b)). cbn [complete_lines]. rewrite IH.
  destruct (complete_lines a) as [ls rest]. cbn [fst snd]. case_decide as Hc; [done|].
  destruct ls as [|l ls]; [|done]. cbn [app fst snd].
  assert (complete_lines (String c rest +:+ b) =
    match complete_lines (rest +:+ b) with ([], r) => ([], String c r) | (l :: ls, r) => (String c l :: ls, r) end) as ->.
  { change (String c rest +:+ b) with (String c (rest +:+ b)). cbn [complete_lines]. destruct (complete_lines (rest +:+ b)) as [ls r].
    by rewrite decide_False. }
  destruct (complete_lines (rest +:+ b)) as [[|l' ls'] r']; done.
Qed.

(** The writes of a process's output, piece by piece. *)
Fixpoint write_all (w : Worker) (i : nat) (chunks : list string) : option Worker :=
  match chunks with [] => Some w | p :: chunks => w ← logLineWriter_Write w i p; write_all w i chunks end.

Definition log_line_header (j : runningJob) : string := "log" +:+ job_flags (dm_JobID (rj_dispatch j)) (dm_RunID (rj_dispatch j)).

(** The worker after a job's output: lines written, the rest in the job's buffer. *)
Definition logged (w : Worker) (i : nat) (j : runningJob) (out : list string) (rest : string) : Worker :=
  wrote (w <| w_running := <[i := j <| rj_buf := rest |>]> (w_running w) |>) out.

Lemma Write_logged w i j p : connected w → w_running w !! i = Some j → rj_started j = true →
  logLineWriter_Write w i p = Some (logged w i j ((complete_lines (rj_buf j +:+ p)).1 ≫= framed (log_line_header j))
                                      (complete_lines (rj_buf j +:+ p)).2).
Proof.
  intros Hc Hj Hs. unfold logLineWriter_Write. rewrite Hj. cbn [mbind option_bind]. rewrite Hs. cbn [negb].
  rewrite write_loop_spec by done. destruct (complete_lines _) as [ls rest]. cbn [fst snd].
  rewrite send_lines_connected by exact Hc. unfold logged. do 2 f_equal.
  rewrite list_insert_alter. rewrite (list_alter_ext _ (λ _, j <| rj_buf := rest |>) (w_running w) (w_running w) i); [done| |done].
  intros x Hx. by simplify_eq.
Qed.

Lemma logged_logged w i j out rest out' rest' : i < length (w_running w) →
  logged (logged w i j out rest) i (j <| rj_buf := rest |>) out' rest' = logged w i j (out ++ out') rest'.
Proof.
  intros Hi. unfold logged, wrote. destruct w as [? ? ? ? ? [[? ? ? ?]|] ? ? ? ? ? ? running]; cbn in *;
    rewrite ?list_insert_insert_eq, ?app_assoc; done.
Qed.

Lemma complete_lines_rest s : complete_lines (complete_lines s).2 = ([], (complete_lines s).2).
Proof.
  induction s as [|c s IH]; [done|]. cbn [complete_lines]. destruct (complete_lines s) as [ls rest]. cbn [snd] in IH.
  case_decide; [done|]. destruct ls; [|done]. cbn [snd complete_lines]. rewrite IH. by rewrite decide_False.
Qed.

Lemma write_all_logged w i j chunks : connected w → w_running w !! i = Some j → rj_started j = true →
  complete_lines (rj_buf j) = ([], rj_buf j) →
  write_all w i chunks = Some (logged w i j ((complete_lines (rj_buf j +:+ str_concat chunks)).1 ≫= framed (log_line_header j))
                                 (complete_lines (rj_buf j +:+ str_concat chunks)).2).
Proof.
  revert w j. induction chunks as [|p chunks IH]; intros w j Hc Hj Hs Hb; cbn [write_all].
  { change (str_concat []) with "". rewrite str_app_nil_r, Hb. f_equal. unfold logged. cbn [fst snd mbind list_bind].
    destruct j as [? ? ? ?]. cbn in *. rewrite list_insert_id by exact Hj.
    destruct w as [? ? ? ? ? [[? ? ? ?]|] ? ? ? ? ? ? ?]; unfold wrote; cbn; by rewrite ?app_nil_r. }
  rewrite (Write_logged w i j p Hc Hj Hs). cbn [mbind option_bind].
  pose proof (complete_lines_rest (rj_buf j +:+ p)) as Hr.
  set (l := complete_lines (rj_buf j +:+ p)) in *. set (w1 := logged w i j _ l.2).
  change (str_concat (p :: chunks)) with (p +:+ str_concat chunks).
  rewrite <-str_app_assoc, (complete_lines_app (rj_buf j +:+ p)). fold l. cbn [fst snd].
  assert (i < length (w_running w)) as Hi by by eapply lookup_lt_Some.
  rewrite (IH w1 (j <| rj_buf := l.2 |>)).
  - f_equal. unfold w1. rewrite logged_logged by done. by rewrite bind_app.
  - by apply wrote_connected.
  - unfold w1, logged. cbn. by rewrite list_lookup_insert_eq.
  - done.
  - exact Hr.
Qed.

(** C35: The output of a task is streamed line by line, however it arrives. Whatever pieces the
    process's output is written in, the connection carries one log message per complete line of the
    whole output, in order, without its newline; what follows the last newline stays in the writer's
    buffer, from which nothing ever sends it. *)
Theorem task_output_lines w i j chunks : connected w → w_running w !! i = Some j → rj_started j = true → rj_buf j = "" →
  ∃ w', write_all w i chunks = Some w' ∧
    outputs w' = outputs w ++ ((complete_lines (str_concat chunks)).1 ≫= framed (log_line_header j)) ∧
    w_running w' !! i = Some (j <| rj_buf := (complete_lines (str_concat chunks)).2 |>) ∧
    str_concat ((λ l, l +:+ newline) <$> (complete_lines (str_concat chunks)).1) +:+ (complete_lines (str_concat chunks)).2 =
      str_concat chunks.
Proof.
  intros Hc Hj Hs Hb. pose proof (write_all_logged w i j chunks Hc Hj Hs ltac:(by rewrite Hb)) as Hw.
  rewrite Hb in Hw. change ("" +:+ str_concat chunks) with (str_concat chunks) in Hw.
  eexists. split; [exact Hw|]. unfold logged. rewrite wrote_outputs by exact Hc. split_and!; [done| |].
  - cbn. rewrite list_lookup_insert_eq; [done|]. by eapply lookup_lt_Some.
  - generalize (str_concat chunks) as s. induction s as [|c s IH]; [done|]. cbn [complete_lines].
    destruct (complete_lines s) as [ls rest]. cbn [fst snd] in IH. case_decide as Hd.
    + subst c. cbn [fst snd fmap list_fmap str_concat foldr]. rewrite str_app_assoc.
      change (foldr _ "" ?x) with (str_concat x). rewrite IH. done.
    + destruct ls as [|l ls]; cbn [fst snd fmap list_fmap str_concat foldr] in *.
      * change ("" +:+ rest) with rest in IH. by rewrite <-IH.
      * rewrite <-IH. done.
Qed.

(** ** Losing the connection *)

(** C39: When the manager closes the connection, the worker crashes. The end of the stream reported by
    the read loop is no error, and for an online worker whose context lives the connection service
    then panics; a job still running panics as soon as it reports, since the connection is gone. A
    read error, in contrast, makes the service return for a new attempt. *)
Theorem closed_connection_is_fatal `{go : GoRuntime} `{fmt : TimeFormat} sha256_hex goos w :
  aws_Load (w_state w) = WorkerStateOnline →
  let '(w1, err) := ConnectAndWork_end w EndOfStream in
  ConnectAndWorkRoutine w1 err false false = None ∧
  (∀ i j, w_running w !! i = Some j →
     if rj_started j then ∀ p now duration, runJob_end w1 i p now duration = None
     else ∀ t d mkdir now, runJob_start sha256_hex goos w1 i t d mkdir now = None) ∧
  (∀ e, let '(w2, err) := ConnectAndWork_end w (ReadError e) in
     ∃ e', err = Some e' ∧ ConnectAndWorkRoutine w2 err false false = Some (RetryAfter e')).
Proof.
  intros Hs. unfold ConnectAndWork_end, ConnectAndWorkRoutine, aws_Is.
  change (w_state (w <| w_conn := None |>)) with (w_state w). rewrite Hs. split_and!; [done| |by eauto].
  intros i j Hj. destruct (rj_started j) eqn:Hst.
  - intros p now duration. unfold runJob_end. change (w_running (w <| w_conn := None |>)) with (w_running w).
    rewrite Hj. cbn [mbind option_bind]. rewrite Hst. cbn [negb]. destruct (result_message _ _ _). done.
  - intros t d mkdir now. unfold runJob_start. change (w_running (w <| w_conn := None |>)) with (w_running w).
    rewrite Hj. cbn [mbind option_bind]. rewrite Hst. destruct (Fetch _ _ _ _ _ _ _) as [cache [p|e]]; done.
Qed.

(** The heartbeat timeout never fires. Whatever timeout is configured and however long ago the
    manager was last heard of, a connected worker whose clock shows a time between ten seconds after
    the Unix epoch and the year 2262 never gives the connection up for silence: the elapsed time is
    computed as seconds minus nanoseconds. *)
Theorem heartbeat_timeout_never_fires w (t now : Time) : w_lastHeartbeatAck w = UnixNano t →
  (unix_epoch + 10 * Second ≤ t)%Z → (t ≤ now)%Z → (now ≤ unix_epoch + MaxInt64)%Z → (0 ≤ wf_HeartbeatTimeout (w_cfg w))%Z →
  ∀ w', HeartbeatRoutine w now ≠ Some (w', HeartbeatShutdown).
Proof.
  intros Hack Ht Hnow Hmax Hto w'. assert (heartbeat_timed_out w now = false) as Hf.
  { unfold heartbeat_timed_out. rewrite Hack. unfold Unix, UnixNano, Second in *.
    pose proof (Z.quot_pos (wf_HeartbeatTimeout (w_cfg w)) 1000000000 ltac:(lia) ltac:(lia)).
    assert (0 ≤ (now - unix_epoch) / 1000000000 ≤ 9223372036)%Z.
    { unfold MaxInt64 in Hmax. split; [apply Z.div_pos; lia|]. apply Z.lt_succ_r, Z.div_lt_upper_bound; lia. }
    rewrite (wrap64_id ((now - unix_epoch) / _)) by (i64; lia). rewrite (wrap64_id (t - unix_epoch)) by (i64; lia).
    rewrite wrap64_id by (i64; lia). apply Z.ltb_ge. unfold MaxInt64 in Hmax. lia. }
  unfold HeartbeatRoutine. destruct (w_conn w) as [c|]; [|congruence]. rewrite Hf. unfold send.
  intros ([w1 err] & _ & Hr)%bind_Some. destruct err as [e|]; [|congruence].
  by apply bind_Some in Hr as (w2 & _ & [=]).
Qed.

(** ** A worker at work *)
Definition demo_worker_config : WorkerConfig :=
  MkWorkerConfig "http://manager/worker/connect" 4 "/c" 0 0 "/t" 0 0 0 0 "w1" "" "" 0 None 0 false
    (MkResourceLimits f64_zero f64_zero 0).

Definition demo_instant : Time := (unix_epoch + 60 * Second)%Z.

Definition new_demo : Worker :=
  match New_worker demo_worker_config ∅ with Some (Ok w) => w | _ => MkWorker demo_worker_config demo_cache
    (MkMetricsSampler (MkWindow [] 0 0 0) zero_metrics 0 0) ∅ (MkAtomicWorkerState 0) None false ∅ ∅ 0 0 0 [] end.

Definition online_demo : Worker := (ConnectAndWork_begin new_demo (Dialled (MkConn "m" false false [])) demo_instant).1.

Definition demo_format : TimeFormat := {| rfc3339 _ := "now"; duration_String d := Itoa d +:+ "ns" |}.

Lemma online_demo_connected : connected online_demo.
Proof. eexists. split; vm_compute; reflexivity. Qed.

Definition demo_artifact : ArtifactInfo := MkArtifactInfo "h1" "u" ["sh"].

Lemma online_demo_accepts : may_accept online_demo (λ _, true) (proposal_of wire_job wire_task demo_artifact).
Proof. split_and!; [vm_compute; reflexivity..|by right|vm_compute; discriminate]. Qed.

Definition accepted_demo : Worker :=
  match @serve_frame _ plain_argv no_parsers online_demo (λ _, true) demo_instant
          (MkFrame "propose" (propose_args wire_job wire_task demo_artifact) "") with
  | Some w => w | None => online_demo end.

Lemma worker_keeps_capacity_witness :
  rtc (@wstep _ plain_argv no_parsers canonical_runtime demo_format demo_sha "linux" sane_and_new) new_demo accepted_demo ∧
  w_usedCap accepted_demo = reserved accepted_demo ∧ w_usedCap accepted_demo = 2%Z.
Proof.
  assert (rtc (@wstep _ plain_argv no_parsers canonical_runtime demo_format demo_sha "linux" sane_and_new) new_demo accepted_demo) as Hr.
  { apply (rtc_l _ _ online_demo); [apply ws_connect|]. apply rtc_once.
    apply (ws_frame _ _ _ online_demo (λ _, true) demo_instant (MkFrame "propose" (propose_args wire_job wire_task demo_artifact) ""));
      [|vm_compute; reflexivity].
    intros factory p Hf Hp. assert (Hf' : Some (@proposeV0Factory _ plain_argv) = Some factory) by exact Hf.
    injection Hf' as <-. vm_compute in Hp. injection Hp as <-. split; [split; vm_compute; discriminate|split; vm_compute; reflexivity]. }
  split; [exact Hr|]. split; [|vm_compute; reflexivity].
  refine (proj2 (@worker_keeps_capacity _ plain_argv no_parsers canonical_runtime demo_format demo_sha "linux"
    demo_worker_config ∅ new_demo accepted_demo _ _) Hr); [vm_compute; reflexivity|split; vm_compute; discriminate].
Defined.

Lemma proposal_decision_witness : ∃ w' line,
  handlePropose online_demo (λ _, true) (proposal_of wire_job wire_task demo_artifact) = Some w' ∧
  outputs w' = outputs online_demo ++ [line +:+ newline] ∧ line = "accept --job-id=01J".
Proof.
  destruct (proposal_decision online_demo (λ _, true) (proposal_of wire_job wire_task demo_artifact) online_demo_connected)
    as (w' & line & H1 & H2 & [(_ & H3 & _)|(Hn & _)]); [|destruct (Hn online_demo_accepts)].
  exists w', line. exact (conj H1 (conj H2 H3)).
Defined.

Lemma proposal_to_staged_witness : ∃ fp w1 w2, @argv_parse _ plain_argv (FormulateProposeV0Message wire_job wire_task demo_artifact) = Ok ("propose", fp) ∧
  @serve_frame _ plain_argv no_parsers online_demo (λ _, true) demo_instant (MkFrame "propose" fp "") = Some w1 ∧
  w_tasks w2 !! "01J" = Some (MkActiveTask false 2 "r1").
Proof.
  destruct (@proposal_to_staged _ plain_argv no_parsers wire_job wire_task demo_artifact "r1" "{}" online_demo (λ _, true) demo_instant)
    as (fp & w1 & al & fa & fd & w2 & sl & fs & H1 & H2 & _ & _ & _ & _ & _ & _ & _ & _ & _ & H3 & _).
  - split_and!; try reflexivity. apply Forall_singleton. reflexivity.
  - split; vm_compute; discriminate.
  - split; vm_compute; discriminate.
  - discriminate.
  - discriminate.
  - discriminate.
  - discriminate.
  - reflexivity.
  - discriminate.
  - exact online_demo_connected.
  - exact online_demo_accepts.
  - exists fp, w1, w2. exact (conj H1 (conj H2 H3)).
Defined.

(** A reader that knows one duration. *)
Definition demo_parsers : Parsers := {|
  ParseFloat _ := None; ParseDuration s := if bool_decide (s = "5ns") then Some 5%Z else None;
  parse_child_jobs _ := Err (ErrMsg "json");
|}.

Definition demo_running (started : bool) : runningJob :=
  MkRunningJob (proposal_of wire_job wire_task demo_artifact) (dispatch_of wire_job "r1" "{}") "" started.

(** A run that exits with code 3, and one that writes an empty list of child jobs. *)
Lemma result_reported_witness : (∃ fl,
  @argv_parse _ plain_argv (@result_message demo_format (demo_running true) (RunTask true (Exited (Some (ExitError 3 "exit status 3")) "" "" "boom")) 5).1 = Ok ("result", fl) ∧
  @resultV0Factory _ plain_argv demo_parsers (MkFrame "result" fl "boom") =
    Ok (MResult (MkResultMessage "" "01J" "r1" ResultError 5 "" "boom" 3 [] ""))) ∧
  ∃ fl e, @argv_parse _ plain_argv (@result_message demo_format (demo_running true) (RunTask true (Exited None "" "[]" "")) 5).1 = Ok ("result", fl) ∧
    @resultV0Factory _ plain_argv demo_parsers (MkFrame "result" fl "[]") = Err e.
Proof.
  split.
  - refine (@result_reported _ plain_argv demo_parsers demo_format (demo_running true)
      (Exited (Some (ExitError 3 "exit status 3")) "" "" "boom") 5 _ _ _ _ _ _).
    + reflexivity.
    + discriminate.
    + reflexivity.
    + discriminate.
    + split_and!; [reflexivity|discriminate|reflexivity].
    + split; discriminate.
  - destruct (@result_reported _ plain_argv demo_parsers demo_format (demo_running true) (Exited None "" "[]" "") 5)
      as (fl & Hp & e & He).
    + reflexivity.
    + discriminate.
    + reflexivity.
    + discriminate.
    + split_and!; [reflexivity|discriminate|reflexivity].
    + exact Logic.I.
    + exists fl, e. exact (conj Hp He).
Defined.

Definition running_demo : Worker := online_demo <| w_running := [demo_running true] |>.

Lemma task_output_lines_witness : ∃ w', write_all running_demo 0 ["ab"; "c" +:+ newline +:+ "d"] = Some w' ∧
  outputs w' = outputs running_demo ++ framed "log --job-id=01J --run-id=r1" "abc".
Proof.
  destruct (task_output_lines running_demo 0 (demo_running true) ["ab"; "c" +:+ newline +:+ "d"]
    online_demo_connected eq_refl eq_refl eq_refl) as (w' & H1 & H2 & _).
  exists w'. exact (conj H1 H2).
Defined.

Lemma closed_connection_is_fatal_witness :
  let '(w1, err) := ConnectAndWork_end running_demo EndOfStream in
  ConnectAndWorkRoutine w1 err false false = None ∧
  @runJob_end demo_format w1 0 (Exited None "" "" "") demo_instant 5 = None.
Proof.
  destruct (@closed_connection_is_fatal canonical_runtime demo_format demo_sha "linux" running_demo eq_refl) as (H1 & H2 & _).
  split; [exact H1|]. exact (H2 0 (demo_running true) eq_refl (Exited None "" "" "") demo_instant 5%Z).
Defined.

Lemma heartbeat_timeout_never_fires_witness :
  is_Some (HeartbeatRoutine online_demo (demo_instant + 24 * Hour)) ∧
  snd <$> HeartbeatRoutine online_demo (demo_instant + 24 * Hour) ≠ Some HeartbeatShutdown.
Proof.
  split; [vm_compute; eauto|].
  destruct (HeartbeatRoutine online_demo (demo_instant + 24 * Hour)) as [[w' r]|] eqn:E; [|discriminate].
  intros [= Hr]. apply (heartbeat_timeout_never_fires online_demo demo_instant (demo_instant + 24 * Hour)) with (w' := w');
    [vm_compute; reflexivity|vm_compute; discriminate..|]. rewrite E. by rewrite Hr.
Defined.
