(* ===== verification/TaskKit.v ===== *)
(** * The task side (src/taskkit/env.go, phase.go, output.go, fds.go)

    A task binary reads its context from the environment the worker gave it and
    writes its result and its child jobs to two inherited descriptors.  JSON
    encoding of the task's own values is a parameter: what is written is the text. *)
From S2P Require Import Prelude GoStd External Contract WorkerConn Proto Registry Window ArtifactCache Worker WorkerProps WorkerWire.

(** ** Environment *)
Inductive Phase := PhaseRun | PhaseConsolidate.

Record Env := MkEnv {
  env_JobID : string;
  env_TaskType : string;
  env_ParentJobID : string;
  env_Attempt : Z;
  env_Phase : Phase;
}.

Definition CurrentPhase (getenv : string → string) : Phase :=
  if bool_decide (getenv "WORKFORCE_PHASE" = "consolidate") then PhaseConsolidate else PhaseRun.

(** A number that does not parse is 0. *)
Definition GetEnv (getenv : string → string) : Env :=
  MkEnv (getenv "WORKFORCE_JOB_ID") (getenv "WORKFORCE_TASK_TYPE") (getenv "WORKFORCE_PARENT_JOB_ID")
    (default 0%Z (Atoi (getenv "WORKFORCE_ATTEMPT"))) (CurrentPhase getenv).

Fixpoint after_prefix (p s : string) : string :=
  match p, s with String _ p, String _ s => after_prefix p s | _, _ => s end.

(** [os.Getenv] in a process started with [env]: of several bindings of a name [os/exec] passes the last. *)
Definition child_Getenv (env : list string) (k : string) : string :=
  default "" (after_prefix (k +:+ "=") <$> first (HasPrefix (k +:+ "=")) (reverse env)).

(** ** Input: [decode] is [encoding/json] for the task's own type; [None] is a panic *)
Definition ReadInput {A} (decode : string → res error A) (stdin : string) : res error A :=
  match decode stdin with Err e => Err (ErrMsg ("read input: " +:+ Error e)) | Ok v => Ok v end.

Definition MustReadInput {A} (decode : string → res error A) (stdin : string) : option A :=
  match ReadInput decode stdin with Ok v => Some v | Err _ => None end.

(** ** Descriptors: open with what was written so far, or closed *)
Record task_io := MkTaskIO {
  io_result : option string;
  io_subjobs : option string;
  io_stdout : string;
}.

(** As the worker starts a process. *)
Definition inherited_io : task_io := MkTaskIO (Some "") (Some "") "".

(** What has arrived at the reading ends. *)
Record delivered_io := MkDelivered { dv_result : string; dv_subjobs : string }.

(** [SubmitResult] of a value whose JSON text is [compact], or [indented] for people: the text goes to
    the result descriptor, which is closed, or to stdout when it is not open.  A value that has no JSON text
    is an error; the descriptor is closed all the same, with nothing written. *)
Definition SubmitResult (io : task_io) (d : delivered_io) (compact indented : res error string) : task_io * delivered_io * option error :=
  match io_result io with
  | Some sofar =>
      let io := MkTaskIO None (io_subjobs io) (io_stdout io) in
      match compact with
      | Ok text => (io, MkDelivered (sofar +:+ text +:+ newline) (dv_subjobs d), None)
      | Err e => (io, MkDelivered sofar (dv_subjobs d), Some (ErrMsg ("write result to FD3: " +:+ Error e)))
      end
  | None =>
      match indented with
      | Ok text => (MkTaskIO None (io_subjobs io)
               (io_stdout io +:+ newline +:+ newline +:+ "=== RESULT =============================================" +:+ newline
                +:+ text +:+ newline), d, None)
      | Err e => (MkTaskIO None (io_subjobs io) (io_stdout io), d, Some (ErrMsg ("marshal result for stdout fallback: " +:+ Error e)))
      end
  end.

Definition EmitJobs (io : task_io) (d : delivered_io) (compact indented : res error string) : task_io * delivered_io * option error :=
  match io_subjobs io with
  | Some sofar =>
      let io := MkTaskIO (io_result io) None (io_stdout io) in
      match compact with
      | Ok text => (io, MkDelivered (dv_result d) (sofar +:+ text +:+ newline), None)
      | Err e => (io, MkDelivered (dv_result d) sofar, Some (ErrMsg ("write child jobs to FD4: " +:+ Error e)))
      end
  | None =>
      match indented with
      | Ok text => (MkTaskIO (io_result io) None
               (io_stdout io +:+ newline +:+ newline +:+ "=== CHILD JOBS ==========================================" +:+ newline
                +:+ text +:+ newline), d, None)
      | Err e => (MkTaskIO (io_result io) None (io_stdout io), d, Some (ErrMsg ("marshal child jobs for stdout fallback: " +:+ Error e)))
      end
  end.

(** ** Properties *)
Lemma child_Getenv_app a b k : child_Getenv (a ++ b) k =
  default (child_Getenv a k) (after_prefix (k +:+ "=") <$> first (HasPrefix (k +:+ "=")) (reverse b)).
Proof.
  unfold child_Getenv, first. rewrite reverse_app. destruct (list_find (λ x, HasPrefix (k +:+ "=") x = true) (reverse b)) as [[i x]|] eqn:E.
  - by rewrite (list_find_app_l _ _ _ _ _ E).
  - rewrite list_find_app_r by done. by destruct (list_find _ (reverse a)) as [[i x]|].
Qed.

(** The worker's bindings, read in the task. *)
Lemma own_bindings base phase id task parent attempt tmp dir :
  let env := base ++ ["WORKFORCE_PHASE=" +:+ phase; "WORKFORCE_JOB_ID=" +:+ id; "WORKFORCE_TASK_TYPE=" +:+ task;
    "WORKFORCE_PARENT_JOB_ID=" +:+ parent; "WORKFORCE_ATTEMPT=" +:+ attempt;
    "WORKFORCE_TMP_STORAGE_DIRECTORY=" +:+ tmp; "WORKFORCE_TASK_STORAGE_DIRECTORY=" +:+ dir] in
  child_Getenv env "WORKFORCE_PHASE" = phase ∧ child_Getenv env "WORKFORCE_JOB_ID" = id ∧
  child_Getenv env "WORKFORCE_TASK_TYPE" = task ∧ child_Getenv env "WORKFORCE_PARENT_JOB_ID" = parent ∧
  child_Getenv env "WORKFORCE_ATTEMPT" = attempt.
Proof. intros env. unfold env. rewrite !child_Getenv_app. split_and!; reflexivity. Qed.

(** A task sees the job it runs for. Whatever the worker's own environment holds and whichever part
    of it is inherited, the context a started task reads is the identifier, task, parent, attempt and
    phase of its dispatch: the worker's bindings take precedence over inherited ones. *)
Theorem task_sees_its_job w environ j phase : in_int64 (dm_Attempt (rj_dispatch j)) →
  dm_Phase (rj_dispatch j) = JobPhase_string phase →
  GetEnv (child_Getenv (task_env w environ j)) =
    MkEnv (dm_JobID (rj_dispatch j)) (pm_Task (rj_proposal j)) (pm_ParentJobID (rj_proposal j)) (dm_Attempt (rj_dispatch j))
      (match phase with JobPhaseRun => PhaseRun | JobPhaseConsolidate => PhaseConsolidate end).
Proof.
  intros Ha Hp. unfold GetEnv, CurrentPhase, task_env. rewrite app_assoc.
  edestruct own_bindings as (-> & -> & -> & -> & ->). rewrite Atoi_Itoa, Hp by done. by destruct phase.
Qed.

Lemma task_sees_its_job_witness :
  GetEnv (child_Getenv (task_env running_demo [("PATH", "/bin"); ("WORKFORCE_WORKER_TASK_X", "1")] (demo_running true))) =
    MkEnv "01J" "resize" "" 1 PhaseRun.
Proof.
  apply (task_sees_its_job running_demo [("PATH", "/bin"); ("WORKFORCE_WORKER_TASK_X", "1")] (demo_running true) JobPhaseRun).
  - split; vm_compute; discriminate.
  - reflexivity.
Defined.

(** Only the first submission counts: it closes the descriptor, a second one is printed, and the run
    of a task that then exits with status 0 has the first value as its result, unless child jobs were
    emitted too, which take precedence. *)
Theorem first_submission_counts noResult c1 i1 c2 i2 jobs ijobs stderr (emit : bool) :
  let '(io1, d1, e1) := SubmitResult inherited_io (MkDelivered "" "") (Ok c1) i1 in
  let '(io2, d2, e2) := SubmitResult io1 d1 c2 (Ok i2) in
  let '(io3, d3, e3) := if emit then EmitJobs io2 d2 (Ok jobs) ijobs else (io2, d2, None) in
  RunTask noResult (Exited None (dv_result d3) (dv_subjobs d3) stderr) =
    Ok (c1 +:+ newline, if emit then jobs +:+ newline else "", stderr) ∧ [e1; e2; e3] = [None; None; None] ∧
  ∃ rest, io_stdout io3 = newline +:+ newline +:+ "=== RESULT =============================================" +:+ rest.
Proof.
  assert (∀ c, c +:+ newline ≠ "") as Hne by (intros [|a c]; done). destruct emit; cbn.
  - rewrite (bool_decide_eq_false_2 ("" +:+ c1 +:+ newline = "")) by apply Hne. rewrite andb_false_r. eauto.
  - rewrite (bool_decide_eq_false_2 ("" +:+ c1 +:+ newline = "")) by apply Hne. rewrite andb_false_r. eauto.
Qed.

(** A value that does not encode is lost for good: the descriptor is closed with nothing written, so a second
    submission is only printed and the run fails for want of a result. *)
Theorem failed_submission_is_final e i1 c2 i2 stderr :
  let '(io1, d1, e1) := SubmitResult inherited_io (MkDelivered "" "") (Err e) i1 in
  let '(io2, d2, e2) := SubmitResult io1 d1 c2 (Ok i2) in
  e1 ≠ None ∧ e2 = None ∧
  RunTask false (Exited None (dv_result d2) (dv_subjobs d2) stderr) = Err (otherError "binary exited 0 without writing a result or child jobs").
Proof. done. Qed.
