(* ===== verification/RateLimiter.v ===== *)
(** * Rate limiting of the client API (src/manager/ratelimiter.go)

    A token bucket in binary64 arithmetic ([SpecFloat]); the locks make each
    operation atomic, the clock is an argument. *)
From S2P Require Import Prelude GoStd External Window.
From Stdlib Require Import Floats.SpecFloat.

Record Limiter := MkLimiter {
  li_rate : spec_float;
  li_capacity : spec_float;
  li_tokens : spec_float;
  li_lastUpdated : Time;
}.

#[export] Instance Limiter_rebuild : Rebuild Limiter := λ l,
  MkLimiter (li_rate l) (li_capacity l) (li_tokens l) (li_lastUpdated l).

Definition NewLimiter (rate capacity : spec_float) (now : Time) : Limiter := MkLimiter rate capacity capacity now.

(** [Duration.Seconds]: whole seconds and the fraction, as floats. *)
Definition duration_Seconds (d : Duration) : spec_float :=
  f64_add (f64_of_Z (Z.quot d Second)) (f64_div (f64_of_Z (Z.rem d Second)) (f64_of_Z Second)).

Definition f64_one : spec_float := f64_of_Z 1.

(** The replenishment both entry points start with. *)
Definition replenish (l : Limiter) (now : Time) : Limiter :=
  let elapsed := duration_Seconds (time_Sub now (li_lastUpdated l)) in
  let tokens := f64_add (li_tokens l) (f64_mul elapsed (li_rate l)) in
  l <| li_tokens := if f64_gt tokens (li_capacity l) then li_capacity l else tokens |> <| li_lastUpdated := now |>.

Definition Allow (l : Limiter) (now : Time) : Limiter * bool :=
  let l := replenish l now in
  if f64_ge (li_tokens l) f64_one then (l <| li_tokens := f64_sub (li_tokens l) f64_one |>, true) else (l, false).

(** [int(x)]: towards zero; what does not fit is [MinInt64], as amd64 converts. *)
Definition f64_to_int (x : spec_float) : Z :=
  match x with
  | S754_finite s m e =>
      let n := if (0 <=? e)%Z then (Z.pos m * 2 ^ e)%Z else (Z.pos m / 2 ^ (- e))%Z in
      let n := if s then (- n)%Z else n in
      if ((MinInt64 <=? n) && (n <=? MaxInt64))%Z then n else MinInt64
  | S754_zero _ => 0%Z
  | _ => MinInt64
  end.

(** [int(math.Ceil(x))]. *)
Definition f64_ceil (x : spec_float) : Z :=
  match x with
  | S754_finite s m e =>
      let n := if s then (- Z.pos m)%Z else Z.pos m in
      let c := if (0 <=? e)%Z then (n * 2 ^ e)%Z else (- ((- n) / 2 ^ (- e)))%Z in
      if ((MinInt64 <=? c) && (c <=? MaxInt64))%Z then c else MinInt64
  | S754_zero _ => 0%Z
  | _ => MinInt64
  end.

(** Whether the request is allowed, the tokens left, and the time until the bucket is full. *)
Definition Attempt (l : Limiter) (now : Time) : Limiter * (bool * Z * Duration) :=
  let l := replenish l now in
  let allowed := f64_ge (li_tokens l) f64_one in
  let l := if allowed then l <| li_tokens := f64_sub (li_tokens l) f64_one |> else l in
  let timeToFull := f64_div (f64_sub (li_capacity l) (li_tokens l)) (li_rate l) in
  (l, (allowed, f64_to_int (li_tokens l), f64_to_int (f64_mul timeToFull (f64_of_Z Second)))).

Definition limiter_Capacity (l : Limiter) : Z := f64_to_int (li_capacity l).

(** The headers of a response and whether the request goes on. *)
Definition limit_response (l : Limiter) (a : bool * Z * Duration) : list (string * string) * bool :=
  let '(allowed, remaining, reset) := a in
  let resetSecs := Itoa (f64_ceil (duration_Seconds reset)) in
  ([("RateLimit-Limit", Itoa (limiter_Capacity l)); ("RateLimit-Remaining", Itoa remaining); ("RateLimit-Reset", resetSecs)] ++
   (if allowed then [] else [("Retry-After", resetSecs)]), allowed).

Definition HTTPLimiter_Middleware (l : Limiter) (now : Time) : Limiter * (list (string * string) * bool) :=
  let '(l, a) := Attempt l now in (l, limit_response l a).

(** ** A limiter per client *)
Notation limiters := (gmap string Limiter).

Section collection.
Context `{GoRuntime} (factory : Time → Limiter).

Definition Get_limiter (c : limiters) (key : string) (now : Time) : limiters * Limiter :=
  match c !! key with
  | Some l => (c, l)
  | None => let l := factory now in (<[key := l]> c, l)
  end.

Definition cleanup_one (now : Time) (idle : Duration) (c : limiters) (kl : string * Limiter) : limiters :=
  if (idle <? time_Sub now (li_lastUpdated kl.2))%Z then delete kl.1 c else c.

Definition Cleanup (c : limiters) (idle : Duration) (now : Time) : limiters :=
  foldl (cleanup_one now idle) c (range_map c).

(** [Middleware] for the key of a request: the limiter's update is to the shared object. *)
Definition Collection_Middleware (c : limiters) (key : string) (now : Time) : limiters * (list (string * string) * bool) :=
  let '(c, l) := Get_limiter c key now in
  let '(l, a) := Attempt l now in
  (<[key := l]> c, limit_response l a).
End collection.

(** The host of [host:port] or [[host]:port] ([net.SplitHostPort]), else the address. *)
Definition RemoteAddrKey (addr : string) : string :=
  match addr with
  | String "[" rest =>
      match cut_at "]" rest with
      | Some (host, String ":" port) => if no_char ":" port then host else addr
      | _ => addr
      end
  | _ =>
      match cut_at ":" addr with
      | Some (host, port) => if no_char ":" port then host else addr
      | None => addr
      end
  end.

(** ** Properties *)
Lemma SFltb_irrefl x : SFltb x x = false.
Proof.
  unfold SFltb, SFcompare. destruct x as [[]|[]| |[] m e]; try done; rewrite Z.compare_refl, Pos.compare_cont_refl; done.
Qed.

(** The answers to [n] requests at one instant. *)
Fixpoint burst (l : Limiter) (now : Time) (n : nat) : list bool :=
  match n with O => [] | S n => let '(l, a) := Attempt l now in a.1.1 :: burst l now n end.

(** The limiter after [n] requests at one instant. *)
Fixpoint after_burst (l : Limiter) (now : Time) (n : nat) : Limiter :=
  match n with O => l | S n => after_burst (Attempt l now).1 now n end.

Lemma Attempt_same_instant r c tok now :
  Attempt (MkLimiter r c tok now) now =
    let '(l', a) := Attempt (MkLimiter r c tok 0) 0 in (l' <| li_lastUpdated := now |>, a).
Proof.
  unfold Attempt, replenish. cbn. unfold time_Sub. rewrite !Z.sub_diag. by destruct (f64_ge _ _).
Qed.

Lemma burst_same_instant r c tok now n : burst (MkLimiter r c tok now) now n = burst (MkLimiter r c tok 0) 0 n.
Proof.
  revert tok. induction n as [|n IH]; intros tok; [done|]. cbn [burst]. rewrite Attempt_same_instant.
  destruct (Attempt (MkLimiter r c tok 0) 0) as [l a] eqn:E.
  assert (l = MkLimiter r c (li_tokens l) 0) as -> by (unfold Attempt, replenish in E; injection E as <- _; cbn; by destruct (f64_ge _ _)).
  cbn. f_equal. apply IH.
Qed.

Lemma burst_app l now n m : burst l now (n + m) = burst l now n ++ burst (after_burst l now n) now m.
Proof.
  revert l. induction n as [|n IH]; intros l; [done|]. cbn [burst after_burst Nat.add].
  destruct (Attempt l now) as [l1 a]. cbn. by rewrite IH.
Qed.

(** An empty bucket refuses at the instant it was last updated. *)
Lemma burst_empty l n : Attempt l 0 = (l, (false, (Attempt l 0).2.1.2, (Attempt l 0).2.2)) → burst l 0 n = replicate n false.
Proof. intros He. induction n as [|n IH]; [done|]. cbn [burst replicate]. rewrite He. cbn. by rewrite IH. Qed.

(** The rates and burst sizes of the three limiters of the API: health, worker connections, clients. *)
Definition api_limits : list (Z * nat) := [(2%Z, 20); (1%Z, 10); (10%Z, 30)].

(** A full bucket of the API admits exactly its capacity of requests at one instant and refuses every
    further one. *)
Theorem api_burst rate cap now n : (rate, cap) ∈ api_limits →
  burst (NewLimiter (f64_of_Z rate) (f64_of_Z (Z.of_nat cap)) now) now n =
    replicate (n `min` cap) true ++ replicate (n - cap) false.
Proof.
  intros Hin. unfold NewLimiter. rewrite burst_same_instant. set (l := MkLimiter _ _ _ _).
  assert (burst l 0 cap = replicate cap true ∧ ∀ m, burst (after_burst l 0 cap) 0 m = replicate m false) as [Hb He].
  { unfold api_limits in Hin. rewrite !elem_of_cons in Hin.
    destruct Hin as [[= -> ->]|[[= -> ->]|[[= -> ->]|Hin]]]; [| | |by apply not_elem_of_nil in Hin];
      (split; [vm_compute; reflexivity|intros m; apply burst_empty; vm_compute; reflexivity]). }
  destruct (decide (n ≤ cap)) as [Hle|Hgt].
  - rewrite Nat.min_l, (proj2 (Nat.sub_0_le _ _) Hle), app_nil_r by done.
    replace cap with (n + (cap - n)) in Hb by lia. rewrite burst_app, replicate_add in Hb.
    apply app_inj_1 in Hb as [-> _]; [done|]. rewrite length_replicate. clear. generalize l. induction n as [|n IH]; intros l0; [done|].
    cbn [burst]. destruct (Attempt l0 0). cbn. by rewrite IH.
  - rewrite Nat.min_r by lia. replace n with (cap + (n - cap)) at 1 by lia. by rewrite burst_app, Hb, He.
Qed.

Lemma api_burst_witness :
  (1%Z, 10) ∈ api_limits ∧ burst (NewLimiter (f64_of_Z 1) (f64_of_Z 10) 7) 7 12 = replicate 10 true ++ [false; false].
Proof.
  assert ((1%Z, 10) ∈ api_limits) as Hin by (right; left). split; [exact Hin|]. exact (api_burst 1 10 7 12 Hin).
Defined.

(** Replenishing never exceeds the capacity. *)
Theorem bucket_within_capacity l now : f64_gt (li_tokens (replenish l now)) (li_capacity (replenish l now)) = false.
Proof.
  unfold replenish. cbn. set (tokens := f64_add _ _).
  destruct (f64_gt tokens (li_capacity l)) eqn:E; [apply SFltb_irrefl|exact E].
Qed.

(** A client's requests do not touch the bucket of another. *)
Theorem limiters_are_separate factory (c : limiters) key key' now : key ≠ key' →
  (Collection_Middleware factory c key now).1 !! key' = c !! key'.
Proof.
  intros Hne. unfold Collection_Middleware, Get_limiter. destruct (c !! key) as [l|] eqn:E.
  - destruct (Attempt l now). cbn. by rewrite lookup_insert_ne.
  - destruct (Attempt _ now). cbn. by rewrite !lookup_insert_ne.
Qed.

(** [Cleanup] removes exactly the limiters unused for longer than the given time. *)
Theorem cleanup_exact `{GoRuntime} c idle now key :
  Cleanup c idle now !! key = (l ← c !! key; if (idle <? time_Sub now (li_lastUpdated l))%Z then None else Some l).
Proof.
  unfold Cleanup. pose proof (range_map_NoDup c) as Hnd.
  assert (∀ kl, kl ∈ range_map c → c !! kl.1 = Some kl.2) as Hin by (intros [k l] Hk; by apply elem_of_range_map).
  assert (∀ l d, NoDup l.*1 → (∀ kl : string * Limiter, kl ∈ l → d !! kl.1 = Some kl.2) →
    foldl (cleanup_one now idle) d l !! key =
      if decide (key ∈ l.*1) then (x ← d !! key; if (idle <? time_Sub now (li_lastUpdated x))%Z then None else Some x) else d !! key) as Hfold.
  { induction l as [|[k x] l IH]; intros d Hd Hl; [done|]. cbn [foldl]. apply NoDup_cons in Hd as [Hk Hd].
    rewrite IH; [|done|].
    - unfold cleanup_one. cbn [fst snd]. pose proof (Hl (k, x) ltac:(left)) as Hx. cbn in Hx.
      destruct (decide (key = k)) as [->|Hne].
      + rewrite decide_False, decide_True by (done || by left). rewrite Hx. cbn.
        destruct (idle <? _)%Z; [apply lookup_delete_eq|done].
      + assert ((if (idle <? time_Sub now (li_lastUpdated x))%Z then delete k d else d) !! key = d !! key) as ->
          by (destruct (idle <? _)%Z; [by rewrite lookup_delete_ne|done]).
        apply decide_ext. cbn. rewrite elem_of_cons. tauto.
    - intros kl Hkl. unfold cleanup_one. cbn. destruct (idle <? _)%Z; [|apply Hl; by right].
      rewrite lookup_delete_ne; [apply Hl; by right|]. intros ->. apply Hk. apply list_elem_of_fmap. by exists kl. }
  rewrite Hfold by done. destruct (decide (key ∈ (range_map c).*1)) as [|Hn]; [done|].
  destruct (c !! key) as [l|] eqn:E; [|done]. destruct Hn. apply elem_of_range_map in E. apply list_elem_of_fmap. by exists (key, l).
Qed.
