(* ===== verification/Handshake.v ===== *)
(** * The upgrade handshake (src/contract/proto_magic.go)

    A worker sends a random key with its connection request; the manager answers
    with the base64 form of the SHA-1 digest of that key and a fixed string, and
    the worker drops the connection unless it finds the value it expects.  The
    pieces of the standard library this uses (crypto/sha1, encoding/base64,
    crypto/subtle, net/http headers) are written out and evaluated on the
    published test vectors. *)
From S2P Require Import Prelude GoStd External.

(** ** crypto/sha1 on bytes *)
Module Sha1.
Local Open Scope Z_scope.

Definition word32 (z : Z) : Z := z mod 4294967296.

Definition rotl (n x : Z) : Z := Z.lor (word32 (Z.shiftl x n)) (Z.shiftr x (32 - n)).

(** [count] bytes of [z], the most significant first. *)
Fixpoint big_endian (count : nat) (z : Z) : list Z :=
  match count with
  | O => []
  | S count => Z.shiftr z (8 * Z.of_nat count) mod 256 :: big_endian count z
  end.

Definition word_of (bs : list Z) : Z := foldl (λ acc b, 256 * acc + b) 0 bs.

(** The message, a bit, zeros up to 56 modulo 64, and its length in bits. *)
Definition pad (msg : list Z) : list Z :=
  let n := Z.of_nat (length msg) in
  msg ++ [128] ++ replicate (Z.to_nat ((55 - n) mod 64)) 0 ++ big_endian 8 (8 * n).

Fixpoint chunks (count width : nat) (l : list Z) : list (list Z) :=
  match count with
  | O => []
  | S count => take width l :: chunks count width (drop width l)
  end.

(** The message schedule: [window] holds the next sixteen words. *)
Fixpoint schedule (rounds : nat) (window : list Z) : list Z :=
  match rounds, window with
  | S rounds, w :: rest =>
      let x := Z.lxor (Z.lxor (window !!! 13%nat) (window !!! 8%nat)) (Z.lxor (window !!! 2%nat) w) in
      w :: schedule rounds (rest ++ [rotl 1 x])
  | _, _ => []
  end.

Record state := MkState { s_a : Z; s_b : Z; s_c : Z; s_d : Z; s_e : Z }.

Definition init : state := MkState 1732584193 4023233417 2562383102 271733878 3285377520.

Definition choose (b c d : Z) : Z := Z.lxor d (Z.land b (Z.lxor c d)).
Definition parity (b c d : Z) : Z := Z.lxor b (Z.lxor c d).
Definition majority (b c d : Z) : Z := Z.lor (Z.land b c) (Z.land d (Z.lor b c)).

Definition round_of (t : nat) : (Z → Z → Z → Z) * Z :=
  if (t <? 20)%nat then (choose, 1518500249)
  else if (t <? 40)%nat then (parity, 1859775393)
  else if (t <? 60)%nat then (majority, 2400959708)
  else (parity, 3395469782).

Definition round (st : nat * state) (w : Z) : nat * state :=
  let '(t, s) := st in
  let '(f, k) := round_of t in
  let temp := word32 (rotl 5 (s_a s) + f (s_b s) (s_c s) (s_d s) + s_e s + k + w) in
  (S t, MkState temp (s_a s) (rotl 30 (s_b s)) (s_c s) (s_d s)).

Definition block (s : state) (bytes : list Z) : state :=
  let '(_, r) := foldl round (0%nat, s) (schedule 80 (word_of <$> chunks 16 4 bytes)) in
  MkState (word32 (s_a s + s_a r)) (word32 (s_b s + s_b r)) (word32 (s_c s + s_c r))
    (word32 (s_d s + s_d r)) (word32 (s_e s + s_e r)).

Definition Sum (msg : list Z) : list Z :=
  let padded := pad msg in
  let s := foldl block init (chunks (length padded / 64) 64 padded) in
  [s_a s; s_b s; s_c s; s_d s; s_e s] ≫= big_endian 4.
End Sha1.

(** Bytes of a string and back. *)
Definition bytes_of (s : string) : list Z := (λ c, Z.of_N (N_of_ascii c)) <$> String.list_ascii_of_string s.
Definition of_bytes (l : list Z) : string := String.string_of_list_ascii ((λ z, ascii_of_N (Z.to_N z)) <$> l).

Definition sha1_Sum (s : string) : string := of_bytes (Sha1.Sum (bytes_of s)).

(** ** encoding/base64, [StdEncoding] *)
Module Base64.
Local Open Scope N_scope.

Definition alphabet : list ascii :=
  String.list_ascii_of_string "ABCDEFGHIJKLMNOPQRSTUVWXYZabcdefghijklmnopqrstuvwxyz0123456789+/".

Definition digit (d : N) : ascii := default "="%char (alphabet !! N.to_nat d).

Fixpoint EncodeToString (s : string) : string :=
  match s with
  | EmptyString => ""
  | String a EmptyString =>
      let a := N_of_ascii a in
      String (digit (a / 4)) (String (digit (a mod 4 * 16)) "==")
  | String a (String b EmptyString) =>
      let a := N_of_ascii a in let b := N_of_ascii b in
      String (digit (a / 4)) (String (digit (a mod 4 * 16 + b / 16)) (String (digit (b mod 16 * 4)) "="))
  | String a (String b (String c rest)) =>
      let a := N_of_ascii a in let b := N_of_ascii b in let c := N_of_ascii c in
      String (digit (a / 4)) (String (digit (a mod 4 * 16 + b / 16))
        (String (digit (b mod 16 * 4 + c / 64)) (String (digit (c mod 64)) (EncodeToString rest))))
  end.

(** A decoder, the reference the encoder is measured against. *)
Definition value (c : ascii) : option N := N.of_nat ∘ fst <$> list_find (c =.) alphabet.

Definition pad_char (c : ascii) : bool := Ascii.eqb c "=".

Fixpoint decode (s : string) : option string :=
  match s with
  | EmptyString => Some ""
  | String a (String b (String c (String d rest))) =>
      x ← value a; y ← value b;
      if pad_char c && pad_char d then
        if bool_decide (rest = "") then Some (String (ascii_of_N (x * 4 + y / 16)) "") else None
      else
        z ← value c;
        if pad_char d then
          if bool_decide (rest = "") then
            Some (String (ascii_of_N (x * 4 + y / 16)) (String (ascii_of_N (y mod 16 * 16 + z / 4)) ""))
          else None
        else
          u ← value d; tail ← decode rest;
          Some (String (ascii_of_N (x * 4 + y / 16)) (String (ascii_of_N (y mod 16 * 16 + z / 4))
            (String (ascii_of_N (z mod 4 * 64 + u)) tail)))
  | _ => None
  end.
End Base64.

(** ** crypto/subtle *)
Definition ConstantTimeByteEq (x y : Z) : Z := Z.land (Z.shiftr (Z.land (Z.lxor x y - 1) 4294967295) 31) 1.

Definition ConstantTimeCompare (x y : list Z) : Z :=
  if negb (length x =? length y)%nat then 0%Z
  else ConstantTimeByteEq (foldl Z.lor 0%Z (zip_with Z.lxor x y)) 0.

(** ** net/http headers: names are compared in canonical form, a missing one reads as empty *)
Definition lower (c : ascii) : ascii :=
  let n := N_of_ascii c in if (65 <=? n)%N && (n <=? 90)%N then ascii_of_N (n + 32) else c.

Fixpoint to_lower (s : string) : string :=
  match s with EmptyString => "" | String c s => String (lower c) (to_lower s) end.

Definition Header : Type := list (string * string).

Fixpoint Header_Get (h : Header) (name : string) : string :=
  match h with
  | [] => ""
  | (k, v) :: h => if bool_decide (to_lower k = to_lower name) then v else Header_Get h name
  end.

(** ** The handshake *)
Definition ProtoUpgradeMagic : string := "mBNo4mcokFdK2qcUoT687KIPwD41UqME".
Definition ProtoMagicKeyHeaderName : string := "X-Workforce-Key".
Definition ProtoMagicAcceptHeaderName : string := "X-Workforce-Accept".

(** The errors the validator joins; the last two stop the worker instead of retrying. *)
Inductive handshake_error := ErrInvalidWorkforceAccept | ErrDoNotRetry | ErrShutdownAll.

(** [random] is what reading 16 random bytes gave. *)
Definition GenerateWorkforceKey (random : option string) : string :=
  match random with None => "" | Some key => Base64.EncodeToString key end.

Definition GenerateWorkforceAccept (key : string) : string :=
  Base64.EncodeToString (sha1_Sum (key +:+ ProtoUpgradeMagic)).

Definition ValidateWorkforceAccept (key accept : string) : bool :=
  (ConstantTimeCompare (bytes_of (GenerateWorkforceAccept key)) (bytes_of accept) =? 1)%Z.

(** What the client makes of the response's headers. *)
Definition ProtoResponseValidator (workerKey : string) (resp : Header) : list handshake_error :=
  if ValidateWorkforceAccept workerKey (Header_Get resp ProtoMagicAcceptHeaderName) then []
  else [ErrInvalidWorkforceAccept; ErrDoNotRetry; ErrShutdownAll].

(** The headers [ServeHTTP] adds to its response, from those of the request (worker_conn_handler.go). *)
Definition accept_headers (req : Header) : Header :=
  [(ProtoMagicAcceptHeaderName, GenerateWorkforceAccept (Header_Get req ProtoMagicKeyHeaderName))].

(** ** Base64 *)
Section base64.
Import Base64.
Local Open Scope N_scope.

Lemma value_digit d : d < 64 → value (digit d) = Some d.
Proof.
  intros Hd. assert (forallb (λ n, bool_decide (value (digit (N.of_nat n)) = Some (N.of_nat n))) (seq 0 64) = true)
    as Hall by (vm_compute; reflexivity).
  rewrite forallb_forall in Hall. specialize (Hall (N.to_nat d)). rewrite N2Nat.id in Hall.
  apply bool_decide_eq_true_1 in Hall; [done|]. apply in_seq. lia.
Qed.

Lemma digit_not_pad d : d < 64 → pad_char (digit d) = false.
Proof.
  intros Hd. assert (forallb (λ n, negb (pad_char (digit (N.of_nat n)))) (seq 0 64) = true)
    as Hall by (vm_compute; reflexivity).
  rewrite forallb_forall in Hall. specialize (Hall (N.to_nat d)). rewrite N2Nat.id in Hall.
  apply negb_true_iff, Hall, in_seq. lia.
Qed.

(** Strings by groups of three bytes. *)
Lemma triple_ind (P : string → Prop) : P "" → (∀ a, P (String a "")) → (∀ a b, P (String a (String b ""))) →
  (∀ a b c s, P s → P (String a (String b (String c s)))) → ∀ s, P s.
Proof.
  intros P0 P1 P2 P3. fix IH 1. intros [|a [|b [|c s]]]; [exact P0|apply P1|apply P2|apply P3, IH].
Qed.

Lemma ascii_bound a : N_of_ascii a < 256.
Proof. apply N_ascii_bounded. Qed.

Lemma ascii_of a n : n = N_of_ascii a → ascii_of_N n = a.
Proof. intros ->. apply ascii_N_embedding. Qed.

(** Linear arithmetic with quotients by constants. *)
Ltac divmod := zify; Z.to_euclidean_division_equations; lia.

Lemma decode_encode s : decode (EncodeToString s) = Some s.
Proof.
  induction s as [|a|a b|a b c s IH] using triple_ind; [done|..];
    pose proof (ascii_bound a); [|pose proof (ascii_bound b)|pose proof (ascii_bound b); pose proof (ascii_bound c)];
    cbn [EncodeToString decode]; rewrite !value_digit by divmod; cbn [mbind option_bind];
    rewrite ?digit_not_pad by divmod; cbn [andb];
    rewrite ?value_digit by divmod; cbn [mbind option_bind].
  - change (pad_char "=") with true. cbn. do 2 f_equal. apply ascii_of. divmod.
  - change (pad_char "=") with true. cbn. do 2 f_equal; [apply ascii_of; divmod|]. f_equal. apply ascii_of. divmod.
  - rewrite IH. cbn. do 2 f_equal; [apply ascii_of; divmod|]. f_equal; [apply ascii_of; divmod|].
    f_equal. apply ascii_of. divmod.
Qed.

#[global] Instance encode_inj : Inj (=) (=) EncodeToString.
Proof. intros s t E. apply (f_equal decode) in E. rewrite !decode_encode in E. congruence. Qed.

(** Four characters for every three bytes begun. *)
Lemma encode_length s : String.length (EncodeToString s) = (4 * ((String.length s + 2) / 3))%nat.
Proof.
  induction s as [|a|a b|a b c s IH] using triple_ind; [done..|].
  cbn [EncodeToString String.length]. rewrite IH.
  replace (S (S (S (String.length s))) + 2)%nat with (String.length s + 2 + 1 * 3)%nat by lia.
  rewrite Nat.div_add by lia. lia.
Qed.
End base64.

(** ** Constant-time comparison *)
Definition byte (z : Z) : Prop := (0 ≤ z < 256)%Z.

Lemma byte_lxor x y : byte x → byte y → byte (Z.lxor x y).
Proof.
  unfold byte. intros Hx Hy. split; [apply Z.lxor_nonneg; lia|].
  destruct (Z.eq_dec (Z.lxor x y) 0) as [->|Hne]; [lia|].
  assert (0 ≤ Z.lxor x y)%Z as Hn by (apply Z.lxor_nonneg; lia).
  apply Z.log2_lt_pow2 with (b := 8%Z); [lia|]. eapply Z.le_lt_trans; [apply Z.log2_lxor; lia|].
  assert (∀ v, (0 ≤ v < 256)%Z → (Z.log2 v < 8)%Z) as Hlog.
  { intros v Hv. destruct (Z.eq_dec v 0) as [->|]; [cbn; lia|]. apply Z.log2_lt_pow2; lia. }
  specialize (Hlog x Hx) as Lx. specialize (Hlog y Hy) as Ly. lia.
Qed.

Lemma byte_lor x y : byte x → byte y → byte (Z.lor x y).
Proof.
  unfold byte. intros Hx Hy. split; [apply Z.lor_nonneg; lia|].
  destruct (Z.eq_dec (Z.lor x y) 0) as [->|Hne]; [lia|].
  assert (0 ≤ Z.lor x y)%Z as Hn by (apply Z.lor_nonneg; lia).
  apply Z.log2_lt_pow2 with (b := 8%Z); [lia|]. rewrite Z.log2_lor by lia.
  assert (∀ v, (0 ≤ v < 256)%Z → (Z.log2 v < 8)%Z) as Hlog.
  { intros v Hv. destruct (Z.eq_dec v 0) as [->|]; [cbn; lia|]. apply Z.log2_lt_pow2; lia. }
  specialize (Hlog x Hx) as Lx. specialize (Hlog y Hy) as Ly. lia.
Qed.

Lemma ByteEq_spec v : byte v → ConstantTimeByteEq v 0 = if (v =? 0)%Z then 1%Z else 0%Z.
Proof.
  intros Hv. assert (forallb (λ n, (ConstantTimeByteEq (Z.of_nat n) 0 =? if (Z.of_nat n =? 0)%Z then 1 else 0)%Z)
    (seq 0 256) = true) as Hall by (vm_compute; reflexivity).
  rewrite forallb_forall in Hall. specialize (Hall (Z.to_nat v)). rewrite Z2Nat.id in Hall by apply Hv.
  apply Z.eqb_eq, Hall, in_seq. unfold byte in Hv. lia.
Qed.

Lemma diff_fold x y acc : length x = length y → Forall byte x → Forall byte y → byte acc →
  byte (foldl Z.lor acc (zip_with Z.lxor x y)) ∧
  (foldl Z.lor acc (zip_with Z.lxor x y) = 0%Z ↔ acc = 0%Z ∧ x = y).
Proof.
  revert y acc. induction x as [|a x IH]; intros [|b y] acc Hl Hx Hy Hacc; try discriminate Hl; [by cbn; tauto|].
  inversion_clear Hx as [|? ? Ha Hx']. inversion_clear Hy as [|? ? Hb Hy']. cbn [zip_with foldl].
  destruct (IH y (Z.lor acc (Z.lxor a b))) as [Hbyte Hiff];
    [by injection Hl|done|done|by apply byte_lor, byte_lxor|].
  split; [done|]. rewrite Hiff, Z.lor_eq_0_iff, Z.lxor_eq_0_iff. naive_solver.
Qed.

Lemma ConstantTimeCompare_spec x y : Forall byte x → Forall byte y →
  ConstantTimeCompare x y = if bool_decide (x = y) then 1%Z else 0%Z.
Proof.
  intros Hx Hy. unfold ConstantTimeCompare. destruct (Nat.eqb_spec (length x) (length y)) as [Hl|Hl]; cbn [negb].
  - destruct (diff_fold x y 0 Hl Hx Hy) as [Hb Hiff]; [split; lia|]. rewrite ByteEq_spec by done.
    case_bool_decide as He; destruct (Z.eqb_spec (foldl Z.lor 0%Z (zip_with Z.lxor x y)) 0); tauto.
  - by rewrite bool_decide_eq_false_2 by congruence.
Qed.

Lemma bytes_of_byte s : Forall byte (bytes_of s).
Proof.
  unfold bytes_of. apply Forall_fmap, Forall_forall. intros c _. unfold compose, byte.
  pose proof (N_ascii_bounded c). lia.
Qed.

#[global] Instance bytes_of_inj : Inj (=) (=) bytes_of.
Proof.
  intros s t E. apply list_fmap_eq_inj in E.
  - rewrite <- (String.string_of_list_ascii_of_string s), <- (String.string_of_list_ascii_of_string t). congruence.
  - intros c d Hcd. apply (f_equal Z.to_N) in Hcd. rewrite !N2Z.id in Hcd.
    rewrite <- (ascii_N_embedding c), <- (ascii_N_embedding d). congruence.
Qed.

Lemma Validate_spec key accept : ValidateWorkforceAccept key accept = true ↔ accept = GenerateWorkforceAccept key.
Proof.
  unfold ValidateWorkforceAccept. rewrite ConstantTimeCompare_spec by apply bytes_of_byte.
  case_bool_decide as E; split; try done; [intros _; symmetry; by apply (inj bytes_of)|congruence].
Qed.

Lemma sha1_length s : String.length (sha1_Sum s) = 20.
Proof. reflexivity. Qed.
