(* ===== verification/Stream.v ===== *)
(** * Frames on a byte stream

    Both ends write lines and payload frames to a connection and read them back
    with netargv's reader, which is an interface here: what is assumed of it is
    how it reads the bytes of plain lines and of headers that announce a payload,
    one frame at a time.  A reader of plain lines with these laws follows. *)
From S2P Require Import Prelude GoStd External Contract WorkerConn Proto.

(** ** What is written *)

(** The header of a frame with a payload, as [Send] and [SendWithPayload] write it. *)
Definition payload_header (header payload : string) : string :=
  header +:+ " -- " +:+ Itoa (Z.of_nat (String.length payload)) +:+ newline.

Definition plain_line (verb : string) (args : list arg) : Prop :=
  flag_name verb = true ∧ Forall (λ a, word_arg a = true) args.

(** ** netargv's reader *)
Class NetArgvReader (FL : Type) `{NetArgv FL} := {
  (** the next frame of a stream and what follows it; [None] at the end *)
  rd_next : string → option (res error (Frame FL) * string);
  rd_next_end : rd_next "" = None;
  rd_next_line verb args fl rest : plain_line verb args → argv_parse (render_line verb args) = Ok (verb, fl) →
    rd_next (render_line verb args +:+ newline +:+ rest) = Some (Ok (MkFrame verb fl ""), rest);
  rd_next_payload verb args fl payload rest : plain_line verb args →
    argv_parse (render_line verb args) = Ok (verb, fl) → in_int64 (Z.of_nat (String.length payload)) →
    rd_next (payload_header (render_line verb args) payload +:+ payload +:+ rest) =
      Some (Ok (MkFrame verb fl payload), rest);
}.

(** What a reader has not consumed of the chunks written so far. *)
Fixpoint str_drop (n : nat) (s : string) : string :=
  match n, s with S n, String _ s => str_drop n s | _, _ => s end.

Fixpoint str_take (n : nat) (s : string) : string :=
  match n, s with S n, String c s => String c (str_take n s) | _, _ => "" end.

Definition unread (n : nat) (chunks : list string) : string := str_drop n (str_concat chunks).

Lemma str_drop_app a b : str_drop (String.length a) (a +:+ b) = b.
Proof. induction a as [|c a IH]; [by destruct b|exact IH]. Qed.

Lemma str_take_app a b : str_take (String.length a) (a +:+ b) = a.
Proof. induction a as [|c a IH]; [by destruct b|exact (f_equal (String c) IH)]. Qed.

Lemma unread_app chunks new : unread (String.length (str_concat chunks)) (chunks ++ new) = str_concat new.
Proof. unfold unread. rewrite str_concat_app. apply str_drop_app. Qed.

(** ** A reader of plain lines *)

(** The words of a line without a payload marker, or those before it and the announced length. *)
Definition cut_marker (ws : list string) : list string * option Z :=
  match reverse ws with
  | n :: dashes :: front =>
      if bool_decide (dashes = "--") then (reverse front, Atoi n) else (ws, None)
  | _ => (ws, None)
  end.

Definition plain_words (ws : list string) : res error (string * list arg) :=
  match ws with
  | verb :: ws => match mapM read_flag ws with Some args => Ok (verb, args) | None => Err (ErrMsg "bad flag") end
  | [] => Err (ErrMsg "empty line")
  end.

Definition plain_next (s : string) : option (res error (Frame (list arg)) * string) :=
  match s with
  | EmptyString => None
  | _ =>
      match cut_at (ascii_of_N 10) s with
      | None => Some (Err (ErrMsg "unexpected EOF"), "")
      | Some (line, rest) =>
          let '(ws, len) := cut_marker (split_words line) in
          let n := Z.to_nat (default 0%Z len) in
          match plain_words ws with
          | Ok (verb, args) => Some (Ok (MkFrame verb args (str_take n rest)), str_drop n rest)
          | Err e => Some (Err e, rest)
          end
      end
  end.

(** Words contain no newline. *)
Lemma cut_at_app line rest : no_char (ascii_of_N 10) line = true →
  cut_at (ascii_of_N 10) (line +:+ newline +:+ rest) = Some (line, rest).
Proof.
  induction line as [|c line IH]; [done|]. cbn [no_char]. intros [Hc Hl]%andb_prop.
  apply negb_true_iff, bool_decide_eq_false in Hc.
  change (cut_at (ascii_of_N 10) (String c (line +:+ newline +:+ rest)) = Some (String c line, rest)).
  cbn [cut_at]. rewrite decide_False by done. by rewrite IH.
Qed.

Lemma word_no_newline s : word s = true → no_char (ascii_of_N 10) s = true.
Proof.
  induction s as [|c s IH]; [done|]. cbn [word no_char]. intros [Hc Hs]%andb_prop. rewrite IH by done.
  rewrite bool_decide_eq_false_2; [done|]. intros ->. discriminate Hc.
Qed.

Lemma verb_word verb : flag_name verb = true → word verb = true.
Proof. intros Hv. by apply name_tail_word, flag_name_tail. Qed.

Lemma args_no_newline args : Forall (λ a, word_arg a = true) args →
  no_char (ascii_of_N 10) (str_concat (render_arg <$> args)) = true.
Proof.
  induction 1 as [|a args Ha _ IH]; [done|]. cbn [fmap list_fmap str_concat foldr].
  change (foldr String.append "" ?l) with (str_concat l). rewrite no_char_app, IH, render_arg_text, no_char_app.
  by rewrite (word_no_newline _ (flag_text_word a Ha)).
Qed.

Lemma line_no_newline verb args : plain_line verb args → no_char (ascii_of_N 10) (render_line verb args) = true.
Proof.
  intros [Hv Ha]. unfold render_line. rewrite no_char_app, args_no_newline by done.
  by rewrite (word_no_newline _ (verb_word _ Hv)).
Qed.

(** The words of a rendered line, with more words behind it. *)
Lemma split_words_line verb args tail ws : plain_line verb args → split_words tail = "" :: ws →
  split_words (render_line verb args +:+ tail) = verb :: (flag_text <$> args) ++ ws.
Proof.
  intros [Hv Ha] Ht. unfold render_line. rewrite str_app_assoc.
  assert (split_words (str_concat (render_arg <$> args) +:+ tail) = "" :: (flag_text <$> args) ++ ws) as E.
  { clear Hv. induction Ha as [|a args Ha _ IH]; [exact Ht|]. cbn [fmap list_fmap str_concat foldr].
    change (foldr String.append "" ?l) with (str_concat l). rewrite render_arg_text, !str_app_assoc.
    change (split_words (" " +:+ ?x)) with ("" :: split_words x).
    rewrite (split_words_app _ _ _ _ (flag_text_word a Ha) IH). by rewrite str_app_nil_r. }
  rewrite (split_words_app _ _ _ _ (verb_word _ Hv) E). by rewrite str_app_nil_r.
Qed.

Lemma plain_words_line verb args : plain_line verb args → plain_words (verb :: (flag_text <$> args)) = Ok (verb, args).
Proof.
  intros [_ Ha]. cbn [plain_words]. assert (mapM read_flag (flag_text <$> args) = Some args) as ->; [|done].
  induction Ha as [|a args Hw _ IH]; [done|]. cbn. by rewrite (read_flag_text a Hw), IH.
Qed.

Lemma flag_text_not_dashes a : word_arg a = true → flag_text a ≠ "--".
Proof. destruct a as [[|c n] [v|]]; unfold word_arg; cbn; discriminate. Qed.

Lemma cut_marker_none verb args : plain_line verb args →
  cut_marker (verb :: (flag_text <$> args)) = (verb :: (flag_text <$> args), None).
Proof.
  intros [Hv Ha]. unfold cut_marker. destruct args as [|a args] using rev_ind; [done|].
  rewrite fmap_app. cbn [fmap list_fmap]. rewrite app_comm_cons, reverse_snoc.
  destruct (reverse (verb :: (flag_text <$> args))) as [|dashes front] eqn:E; [done|].
  rewrite bool_decide_eq_false_2; [done|]. intros ->.
  assert ("--" ∈ verb :: (flag_text <$> args)) as Hin by (rewrite <- elem_of_reverse, E; left).
  apply elem_of_cons in Hin as [<-|(b & Hb & Hin)%list_elem_of_fmap]; [discriminate Hv|].
  apply Forall_app in Ha as [Ha _]. rewrite Forall_forall in Ha. by destruct (flag_text_not_dashes b (Ha b Hin)).
Qed.

Lemma cut_marker_payload (ws : list string) n : in_int64 n → cut_marker (ws ++ ["--"; Itoa n]) = (ws, Some n).
Proof.
  intros Hn. unfold cut_marker. change (reverse (ws ++ ["--"; Itoa n])) with (reverse (ws ++ ["--"] ++ [Itoa n])).
  rewrite app_assoc, !reverse_snoc.
  rewrite bool_decide_eq_true_2 by done. by rewrite reverse_involutive, Atoi_Itoa.
Qed.

Lemma plain_parse_argv verb args fl : plain_line verb args → plain_parse (render_line verb args) = Ok (verb, fl) → fl = args.
Proof. intros [Hv Ha]. rewrite plain_parse_render by done. congruence. Qed.

#[refine] Definition plain_reader : @NetArgvReader (list arg) plain_argv := {| rd_next := plain_next |}.
Proof.
  - done.
  - intros verb args fl rest Hp Hfl. apply (plain_parse_argv _ _ _ Hp) in Hfl as ->.
    unfold plain_next. pose proof Hp as [Hv _].
    destruct (render_line verb args +:+ newline +:+ rest) as [|c s] eqn:E; [by destruct verb|]. rewrite <- E.
    rewrite cut_at_app by by apply line_no_newline.
    rewrite <- (str_app_nil_r (render_line verb args)).
    rewrite (split_words_line _ _ "" [] Hp) by done. rewrite app_nil_r, cut_marker_none by done.
    rewrite plain_words_line by done. cbn. by destruct rest.
  - intros verb args fl payload rest Hp Hfl Hlen. apply (plain_parse_argv _ _ _ Hp) in Hfl as ->.
    unfold plain_next, payload_header. pose proof Hp as [Hv _]. rewrite !str_app_assoc.
    match goal with |- match ?x with EmptyString => _ | _ => _ end = _ =>
      destruct x as [|c s] eqn:E; [by destruct verb|]; rewrite <- E; clear E end.
    set (n := Z.of_nat (String.length payload)) in *.
    rewrite <- (str_app_assoc " -- "), <- (str_app_assoc (render_line verb args)).
    rewrite cut_at_app.
    2: { rewrite !no_char_app, line_no_newline, (word_no_newline _ (word_Itoa n)) by done. done. }
    assert (split_words (" -- " +:+ Itoa n) = ["" ; "--"; Itoa n]) as Hs.
    { change (split_words (" -- " +:+ Itoa n)) with ("" :: split_words ("--" +:+ " " +:+ Itoa n)).
      rewrite (split_words_app "--" (" " +:+ Itoa n) "" [Itoa n]); [done|done|].
      change (split_words (" " +:+ Itoa n)) with ("" :: split_words (Itoa n)).
      rewrite <- (str_app_nil_r (Itoa n)) at 1. by rewrite (split_words_app (Itoa n) "" "" []), str_app_nil_r by (done || apply word_Itoa). }
    rewrite (split_words_line _ _ _ _ Hp Hs), app_comm_cons, cut_marker_payload, plain_words_line by done.
    cbn [default]. unfold id, n. rewrite Nat2Z.id, str_take_app, str_drop_app. done.
Defined.
