(* ===== verification/ConnServer.v ===== *)
(** * Serving worker connections (src/manager/worker_conn_handler.go)

    [ServeHTTP] authenticates the upgrade request, reads the worker's identity
    from its headers and hands the connection to cooper; the connection then
    registers with the pool and [ServeWorkerConnection] reads frames until the
    stream ends.  Every well-formed frame starts a goroutine, so the handlers of
    one connection run in any order and may outlive it: [session_step] has one
    rule for reading, one for a handler that runs, one for the end of the
    connection and one for whatever else the manager does meanwhile.

    verreg, the registry of message factories by protocol version, is an
    interface; the protocol cooper negotiates is one of those it was offered. *)
From S2P Require Import Prelude GoStd External Contract Store MemStore Webhooks Heap PriorityQueue Cache WorkerConn WorkerPool.
From S2P Require Import Proto Config Manager Dispatch Lifecycle Orchestrator JobFlow Registry Window ArtifactCache Worker WorkerWire.
From S2P Require Import Handshake Stream.

(** ** The request *)

(** [strconv.ParseInt(s, 10, bits)]. *)
Definition ParseInt (s : string) (bits : Z) : option Z :=
  v ← Atoi s; if ((- 2 ^ (bits - 1) <=? v) && (v <? 2 ^ (bits - 1)))%Z then Some v else None.

(** [strings.TrimPrefix]. *)
Definition TrimPrefix (prefix s : string) : string :=
  if HasPrefix prefix s then str_drop (String.length prefix) s else s.

(** What a request leads to before the upgrade: 401, an empty response (the handler returns without
    writing one, which net/http answers with 200), or the worker's identity. *)
Inductive admission :=
| Unauthorized (e : error)
| EmptyResponse
| Identified (id os arch : string) (capacity : Z).

Definition ServeHTTP_admit (authFunc : option (string → option error)) (req : Header) : admission :=
  let proceed :=
    match ParseInt (Header_Get req "X-Worker-Capacity") 64 with
    | None => EmptyResponse
    | Some capacity =>
        Identified (Header_Get req "X-Worker-ID") (Header_Get req "X-Worker-OS") (Header_Get req "X-Worker-Arch") capacity
    end in
  match authFunc with
  | None => proceed
  | Some auth =>
      match auth (TrimPrefix "Bearer " (Header_Get req "Authorization")) with
      | Some e => Unauthorized e
      | None => proceed
      end
  end.

(** The protocols offered to cooper. *)
Definition Protocols : list string := ["workforce/0"].

Definition protocol_version (proto : string) : option Z := ParseInt (TrimPrefix "workforce/" proto) 16.

(** lowbit.dev/verreg with the factories [RegisterMessages] registers for version 0. *)
Class Verreg (FL : Type) `{NetArgv FL} `{Parsers} := {
  vr_Resolve : Z → string → option (Frame FL → res error Message);
  vr_Resolve_0 verb : vr_Resolve 0 verb = message_factory verb;
}.

(** The registry that has no other versions. *)
Definition only_version_0 `{NetArgv FL} `{Parsers} : Verreg FL := {|
  vr_Resolve version verb := if (version =? 0)%Z then message_factory verb else None;
  vr_Resolve_0 verb := eq_refl;
|}.

Section server.
Context `{SimpleSet SS} `{Store ST} `{GoRuntime} `{Ulid} `{SerialLanes} `{WebhookEnv} `{WorkerSelector SS}.
Context `{ConsolidateJson} `{argv : NetArgv FL} `{parsers : Parsers} `{verreg : !Verreg FL} (cfg : Config).
Implicit Types (m : Manager SS ST).

(** The upgraded connection: it is closed at once when the pool refuses it. *)
Definition Hijacked m (id os arch : string) (capacity : Z) (conn : Conn) (now : Time) : Manager SS ST * res error nat :=
  match NewWorkerConnection (mg_workers m) id os arch capacity conn (wd_ulids (mg_webhooks m)) now with
  | Err e => (m, Err e)
  | Ok (a, p, ids) => (worker_connected cfg m p ids now, Ok a)
  end.

(** One frame of the read loop: a reply, or the message a goroutine is started for. *)
Definition ServeWorkerConnection_read m (a : nat) (version : Z) (fr : Frame FL) : Manager SS ST * option Message :=
  match vr_Resolve version (fr_Verb fr) with
  | None => (send_error m a "unknown_verb" ("unknown message verb: " +:+ fr_Verb fr), None)
  | Some factory =>
      match factory fr with
      | Err e => (send_error m a "invalid_message" (Error e), None)
      | Ok message => (m, Some message)
      end
  end.

(** After the loop: the connection leaves the pool and its jobs are queued again. *)
Definition Hijacked_end m (a : nat) (now : Time) : Manager SS ST := connection_ended cfg m a now.

(** [WaitForResponse]: the messages published on the connection while it waits, up to the end of the context ([None]); the
    first that matches is the answer. *)
Fixpoint WaitForResponse (matcher : Message → bool) (published : list (option Message)) : option Message :=
  match published with
  | [] | None :: _ => None
  | Some msg :: published => if matcher msg then Some msg else WaitForResponse matcher published
  end.

Context {exact : Prop}.
#[local] Notation manager_ok := (manager_inv exact).

(** ** A session: the address of the connection, its protocol version, the handlers that were started
    and have not run, and whether the read loop still runs *)
Record session := MkSession {
  se_conn : nat;
  se_version : Z;
  se_started : list Message;
  se_reading : bool;
}.

Inductive event := Read (fr : Frame FL) | Handled (msg : Message) | Ended | Other.

Inductive session_step : Manager SS ST * session → event → Manager SS ST * session → Prop :=
| ss_read m a v l fr : session_step (m, MkSession a v l true) (Read fr)
    (let '(m', msg) := ServeWorkerConnection_read m a v fr in (m', MkSession a v (l ++ option_list msg) true))
| ss_handle m a v pre msg post b now m' : handleWorkerMessage cfg m a msg now = Some m' →
    session_step (m, MkSession a v (pre ++ msg :: post) b) (Handled msg) (m', MkSession a v (pre ++ post) b)
| ss_end m a v l w now : wp_conns (mg_workers m) !! a = Some w →
    (exact → wp_workers (mg_workers m) !! wc_workerID w = Some a) →
    session_step (m, MkSession a v l true) Ended (Hijacked_end m a now, MkSession a v l false)
| ss_other m m' s : step (exact := exact) cfg m m' → session_step (m, s) Other (m', s).

Inductive session_run : Manager SS ST * session → list event → Manager SS ST * session → Prop :=
| sr_nil x : session_run x [] x
| sr_cons x e y l z : session_step x e y → session_run y l z → session_run x (e :: l) z.

(** The messages of the frames that were read, and those whose handler ran. *)
Definition read_message (v : Z) (fr : Frame FL) : option Message :=
  match vr_Resolve v (fr_Verb fr) with
  | Some factory => match factory fr with Ok msg => Some msg | Err _ => None end
  | None => None
  end.

Definition messages_read (v : Z) (l : list event) : list Message :=
  omap (λ e, match e with Read fr => read_message v fr | _ => None end) l.

Definition messages_handled (l : list event) : list Message :=
  omap (λ e, match e with Handled msg => Some msg | _ => None end) l.

Lemma read_spec m a v fr : manager_ok m →
  (ServeWorkerConnection_read m a v fr).2 = read_message v fr ∧ manager_ok (ServeWorkerConnection_read m a v fr).1.
Proof.
  intros Hm. unfold ServeWorkerConnection_read, read_message.
  destruct (vr_Resolve v (fr_Verb fr)) as [factory|]; [destruct (factory fr)|]; split; try done; by apply ok_send_error.
Qed.

Lemma session_step_spec m s e m' s' : session_step (m, s) e (m', s') → manager_ok m →
  manager_ok m' ∧ se_conn s' = se_conn s ∧ se_version s' = se_version s ∧
  se_started s ++ messages_read (se_version s) [e] ≡ₚ messages_handled [e] ++ se_started s'.
Proof.
  intros Hs Hm. remember (m, s) as x eqn:Ex. remember (m', s') as y eqn:Ey.
  destruct Hs as [m0 a v l fr|m0 a v pre msg post b now m1 Hh|m0 a v l w now Ha Hw|m0 m1 s0 Hst].
  - simplify_eq. destruct (read_spec m a v fr Hm) as [Hmsg Hok].
    destruct (ServeWorkerConnection_read m a v fr) as [m1 msg]. cbn in Hmsg, Hok. simplify_eq.
    split_and!; [done..|]. unfold messages_read. cbn. by destruct (read_message v fr).
  - simplify_eq. split_and!; [by eapply ok_message|done..|].
    cbn. rewrite app_nil_r. symmetry. apply Permutation_middle.
  - simplify_eq. split_and!; [|done..|by rewrite app_nil_r].
    apply (ok_step cfg m); [|done]. by eapply st_disconnect.
  - simplify_eq. split_and!; [by eapply ok_step|done..|by rewrite app_nil_r].
Qed.

Lemma session_run_spec m s l m' s' : session_run (m, s) l (m', s') → manager_ok m →
  manager_ok m' ∧ se_version s' = se_version s ∧
  se_started s ++ messages_read (se_version s) l ≡ₚ messages_handled l ++ se_started s'.
Proof.
  intros Hr. remember (m, s) as x eqn:Ex. remember (m', s') as y eqn:Ey. revert m s Ex.
  induction Hr as [x|x e [m1 s1] l z Hs _ IH]; intros m s Ex Hm.
  { simplify_eq. by rewrite app_nil_r. }
  subst x. destruct (session_step_spec _ _ _ _ _ Hs Hm) as (Hm1 & _ & Hv & Hp).
  destruct (IH Ey m1 s1 eq_refl Hm1) as (Hm' & Hv' & Hp'). split_and!; [done|congruence|].
  unfold messages_read, messages_handled in *. change (e :: l) with ([e] ++ l). rewrite !omap_app.
  rewrite (assoc (++)), Hp, <- (assoc (++)). rewrite Hv in Hp'. by rewrite Hp', (assoc (++)).
Qed.
End server.

(** ** Admission of a worker *)

(** Where workers are and what they are stays as it was while jobs are queued again. *)
Section requeue.
Context `{SimpleSet SS} `{Store ST} `{GoRuntime} `{Ulid} `{SerialLanes} `{WebhookEnv} `{WorkerSelector SS} (cfg : Config).
Implicit Types (m : Manager SS ST).

Definition same_pool (p p' : WorkerPool SS) : Prop := wp_conns p' = wp_conns p ∧ wp_workers p' = wp_workers p.

Lemma requeue_one_pool now m id : same_pool (mg_workers m) (mg_workers (requeue_one cfg now m id)).
Proof.
  unfold requeue_one. set (m1 := if has_RunStore cfg then _ else _).
  assert (mg_workers m1 = mg_workers m) as Ew.
  { unfold m1. destruct (has_RunStore cfg); [|done]. apply (sc_workers _ _ (core_close_orphans _ _ m id)). }
  destruct (GetJob (ents m1) id) as [job|]; [|by split; rewrite Ew].
  destruct (update_job_spec m1 id (λ j, j <| job_Status := JobStatusPending |>)) as (_ & _ & _ & _ & Hw & _).
  destruct (update_job m1 id _) as [m2 err]. cbn [fst] in Hw. unfold same_pool. cbn. by rewrite Hw, Ew.
Qed.

Lemma OnJobsRequeued_pool ids m now : same_pool (mg_workers m) (mg_workers (OnJobsRequeued cfg m ids now)).
Proof.
  revert m. induction ids as [|id ids IH]; intros m; [done|]. unfold OnJobsRequeued. cbn [foldl].
  destruct (IH (requeue_one cfg now m id)) as [Hc Hw]. destruct (requeue_one_pool now m id) as [Hc1 Hw1].
  split; etrans; [exact Hc|exact Hc1|exact Hw|exact Hw1].
Qed.

(** A worker with an id, a platform and a positive capacity is registered, idle, under its id. *)
Lemma Hijacked_registers m id os arch capacity conn now : manager_ok m → id ≠ "" → os ≠ "" → arch ≠ "" → (1 ≤ capacity)%Z →
  let '(m', r) := Hijacked cfg m id os arch capacity conn now in
  ∃ a, r = Ok a ∧ GetWorker (mg_workers m') id = Some a ∧
    wp_conns (mg_workers m') !! a = Some (NewWorkerConn id os arch capacity conn now).
Proof.
  intros Hm Hid Hos Harch Hcap. unfold Hijacked, NewWorkerConnection.
  rewrite (bool_decide_eq_false_2 (os = "")), (bool_decide_eq_false_2 (arch = "")), (bool_decide_eq_false_2 (id = "")) by done.
  rewrite (proj2 (Z.ltb_ge _ _) Hcap). set (w := NewWorkerConn _ _ _ _ _ _). set (a := wp_next (mg_workers m)).
  set (p1 := _ <| wp_next := _ |>). destruct (register p1 a w) as [p2 ids] eqn:Hr.
  assert (wp_conns p2 !! a = Some w ∧ wp_workers p2 !! id = Some a) as [Hc Hw].
  { unfold register in Hr. change (wp_workers p1) with (wp_workers (mg_workers m)) in Hr.
    change (wc_workerID w) with id in Hr.
    assert (wp_conns p1 !! a = Some w) as Ha by apply lookup_insert_eq.
    destruct (wp_workers (mg_workers m) !! id) as [o|] eqn:Ho.
    - assert (o ≠ a) as Hne.
      { intros ->. destruct (ps_conn _ (mo_pool _ Hm) _ _ Ho) as (old & Hold & _).
        pose proof (ps_fresh _ (mo_pool _ Hm) a (mk_is_Some _ _ Hold)). unfold a in *. lia. }
      destruct (wp_conns p1 !! o) as [old|]; injection Hr as <- <-; cbn; (split; [|apply lookup_insert_eq]); [|exact Ha].
      rewrite lookup_alter_ne by done. exact Ha.
    - injection Hr as <- <-. split; [exact Ha|apply lookup_insert_eq]. }
  exists a. split; [done|]. unfold worker_connected. set (m1 := NotifyDispatcher _).
  destruct (OnJobsRequeued_pool ids m1 now) as [Ec Ew]. unfold GetWorker. rewrite Ec, Ew. by split.
Qed.
End requeue.

Lemma ParseInt_Itoa n : in_int64 n → ParseInt (Itoa n) 64 = Some n.
Proof.
  intros Hn. unfold ParseInt. rewrite Atoi_Itoa by done. cbn [mbind option_bind]. i64.
  change (2 ^ (64 - 1))%Z with 9223372036854775808%Z.
  by rewrite (proj2 (Z.leb_le _ _)), (proj2 (Z.ltb_lt _ _)) by lia.
Qed.

Lemma TrimPrefix_app p s : TrimPrefix p (p +:+ s) = s.
Proof. unfold TrimPrefix. rewrite (proj2 (HasPrefix_spec p (p +:+ s))) by by exists s. apply str_drop_app. Qed.

(** What the manager reads in the headers of a worker's request. *)
Lemma connect_headers_read w key goos goarch : let req := connect_headers w key goos goarch in
  Header_Get req ProtoMagicKeyHeaderName = key ∧ Header_Get req "X-Worker-ID" = wf_WorkerID (w_cfg w) ∧
  Header_Get req "X-Worker-Capacity" = Itoa (wf_Capacity (w_cfg w)) ∧ Header_Get req "X-Worker-OS" = goos ∧
  Header_Get req "X-Worker-Arch" = goarch ∧ TrimPrefix "Bearer " (Header_Get req "Authorization") = wf_AuthToken (w_cfg w).
Proof.
  cbn zeta. split_and!; [reflexivity..|]. unfold connect_headers. case_bool_decide as E; [by rewrite E|].
  change (Header_Get _ "Authorization") with ("Bearer " +:+ wf_AuthToken (w_cfg w)). apply TrimPrefix_app.
Qed.

(** C15: A worker is admitted as what it is. The manager authenticates exactly the configured token
    and reads the worker's id, platform and capacity as they were sent; once admitted, a worker with an
    id and some capacity is in the pool under its id, idle and with its whole capacity; and the worker
    accepts the manager's answer to its handshake key and no other. *)
Theorem worker_admitted `{SimpleSet SS} `{Store ST} `{GoRuntime} `{Ulid} `{SerialLanes} `{WebhookEnv} `{WorkerSelector SS}
    (cfg : Config) (m : Manager SS ST) (w : Worker) (random : option string) (goos goarch : string)
    (auth : string → option error) (conn : Conn) (now : Time) :
  let key := GenerateWorkforceKey random in
  let req := connect_headers w key goos goarch in
  let id := wf_WorkerID (w_cfg w) in let capacity := wf_Capacity (w_cfg w) in
  manager_ok m → id ≠ "" → goos ≠ "" → goarch ≠ "" → (1 ≤ capacity ≤ MaxInt64)%Z →
  ServeHTTP_admit (Some auth) req =
    (match auth (wf_AuthToken (w_cfg w)) with Some e => Unauthorized e | None => Identified id goos goarch capacity end) ∧
  (∃ m' a, Hijacked cfg m id goos goarch capacity conn now = (m', Ok a) ∧ GetWorker (mg_workers m') id = Some a ∧
    wp_conns (mg_workers m') !! a = Some (NewWorkerConn id goos goarch capacity conn now)) ∧
  ProtoResponseValidator key (accept_headers req) = [] ∧
  ∀ resp, ProtoResponseValidator key resp = [] ↔
    Header_Get resp ProtoMagicAcceptHeaderName = GenerateWorkforceAccept key.
Proof.
  cbn zeta. intros Hm Hid Hos Harch Hcap.
  destruct (connect_headers_read w (GenerateWorkforceKey random) goos goarch) as (Hkey & Hi & Hc & Ho & Ha & Ht).
  assert (∀ resp, ProtoResponseValidator (GenerateWorkforceKey random) resp = [] ↔
    Header_Get resp ProtoMagicAcceptHeaderName = GenerateWorkforceAccept (GenerateWorkforceKey random)) as Hval.
  { intros resp. unfold ProtoResponseValidator. rewrite <- Validate_spec.
    destruct (ValidateWorkforceAccept _ _); by split. }
  split_and!.
  - unfold ServeHTTP_admit. rewrite Ht, Hi, Hc, Ho, Ha, ParseInt_Itoa by (i64; lia). done.
  - pose proof (Hijacked_registers cfg m (wf_WorkerID (w_cfg w)) goos goarch (wf_Capacity (w_cfg w)) conn now
      Hm Hid Hos Harch (proj1 Hcap)) as Hh.
    destruct (Hijacked _ _ _ _ _ _ _ _) as [m' r]. destruct Hh as (a & -> & Hg & Hw). by exists m', a.
  - apply Hval. unfold accept_headers. by rewrite Hkey.
  - exact Hval.
Qed.

(** A frame that starts no handler is answered with an error line. *)
Lemma read_replies `{SimpleSet SS} `{Store ST} `{argv : NetArgv FL} `{parsers : Parsers} `{verreg : !Verreg FL}
    (m : Manager SS ST) a v fr w : wp_conns (mg_workers m) !! a = Some w → conn_usable (wc_conn w) = true →
  read_message v fr = None → ∃ line w', HasPrefix "error --code=" line = true ∧
    wp_conns (mg_workers (ServeWorkerConnection_read m a v fr).1) !! a = Some w' ∧
    conn_out (wc_conn w') = conn_out (wc_conn w) ++ [line].
Proof.
  intros Ha Hu Hr.
  assert (∀ code text, ∃ line w', HasPrefix "error --code=" line = true ∧
    wp_conns (mg_workers (send_error m a code text)) !! a = Some w' ∧ conn_out (wc_conn w') = conn_out (wc_conn w) ++ [line]) as Hs.
  { intros code text. unfold send_error, on_worker, on_conn. cbn [mg_workers wp_conns field_set rebuild Manager_rebuild WorkerPool_rebuild].
    rewrite lookup_alter_eq, Ha. cbn [fmap option_fmap option_map].
    unfold SendError, Send, conn_Write. rewrite Hu. eexists _, _. split; [|split; reflexivity].
    apply (proj2 (HasPrefix_spec _ _)). eexists. by rewrite !str_app_assoc. }
  unfold ServeWorkerConnection_read, read_message in *.
  destruct (vr_Resolve v (fr_Verb fr)) as [factory|]; [destruct (factory fr) as [|e]; [discriminate|]|]; apply Hs.
Qed.

(** Every message is handled once. However the handlers of a connection interleave with each
    other, with further reads, with the end of the connection and with anything else the manager does,
    the messages of the well-formed frames are exactly those whose handler returned and those whose
    handler did not yet, and the manager's state stays well-formed throughout. A frame with an unknown
    verb or bad flags starts no handler and is answered, on a working connection, with one error line. *)
Theorem messages_handled_once `{SimpleSet SS} `{Store ST} `{GoRuntime} `{Ulid} `{SerialLanes} `{WebhookEnv}
    `{WorkerSelector SS} `{ConsolidateJson} `{argv : NetArgv FL} `{parsers : Parsers} `{verreg : !Verreg FL} (cfg : Config)
    (exact : Prop) (m m' : Manager SS ST) (a : nat) (version : Z) (s' : session) (trace : list event) :
  manager_inv exact m → session_run (exact := exact) cfg (m, MkSession a version [] true) trace (m', s') →
  manager_inv exact m' ∧ messages_read version trace ≡ₚ messages_handled trace ++ se_started s' ∧
  ∀ (m1 : Manager SS ST) fr w, wp_conns (mg_workers m1) !! a = Some w → conn_usable (wc_conn w) = true →
    read_message version fr = None → ∃ line w', HasPrefix "error --code=" line = true ∧
      wp_conns (mg_workers (ServeWorkerConnection_read m1 a version fr).1) !! a = Some w' ∧
      conn_out (wc_conn w') = conn_out (wc_conn w) ++ [line].
Proof.
  intros Hm Hr. destruct (session_run_spec cfg _ _ _ _ _ Hr Hm) as (Hm' & _ & Hp). split_and!; [done|exact Hp|].
  intros m1 fr w. apply read_replies.
Qed.

(** ** Sample run: a worker connects, greets with an unknown verb and updates its capacity *)
Section samples.
#[local] Existing Instances gset_simple_set canonical_runtime unary_ulid open_lanes sample_env least_loaded tagged_payload.
#[local] Existing Instances plain_argv no_parsers only_version_0.

Definition demo_token (token : string) : option error :=
  if bool_decide (token = wf_AuthToken demo_worker_config) then None else Some (ErrMsg "wrong token").

Definition fresh_manager : Manager (gset string) MemStore := New NewMemStore 0.

Lemma fresh_manager_ok : manager_ok fresh_manager.
Proof. apply New_ok, no_entities_ids. Qed.

Definition demo_conn : Conn := MkConn "10.0.0.7:4711" false false [].

Lemma worker_admitted_witness :
  ServeHTTP_admit (Some demo_token) (connect_headers new_demo (GenerateWorkforceKey (Some "0123456789abcdef")) "linux" "amd64") =
    Identified (wf_WorkerID (w_cfg new_demo)) "linux" "amd64" (wf_Capacity (w_cfg new_demo)) ∧
  ∃ m' a, Hijacked dispatch_config fresh_manager (wf_WorkerID (w_cfg new_demo)) "linux" "amd64" (wf_Capacity (w_cfg new_demo))
    demo_conn 7 = (m', Ok a).
Proof.
  destruct (worker_admitted dispatch_config fresh_manager new_demo (Some "0123456789abcdef") "linux" "amd64" demo_token demo_conn 7
    fresh_manager_ok) as (H1 & (m' & a & H2 & _) & _); [discriminate..|split; vm_compute; discriminate|].
  split; [exact H1|]. exists m', a. exact H2.
Defined.

(** The manager with the demo worker at address 0. *)
Definition with_worker : Manager (gset string) MemStore := (Hijacked dispatch_config fresh_manager "w1" "linux" "amd64" 4 demo_conn 7).1.

Lemma with_worker_ok : manager_ok with_worker.
Proof.
  apply (ok_step dispatch_config fresh_manager); [|apply fresh_manager_ok].
  apply (st_connect dispatch_config fresh_manager "w1" "linux" "amd64" 4 demo_conn 7 0 (mg_workers with_worker) []).
  vm_compute. reflexivity.
Qed.

Definition hello : Frame (list arg) := MkFrame "hello" [] "".
Definition capacity_frame : Frame (list arg) := MkFrame "capacity" [("available", Some "9")] "".

Definition greeted : Manager (gset string) MemStore := (ServeWorkerConnection_read with_worker 0 0 hello).1.
Definition resized : Manager (gset string) MemStore := on_worker greeted 0 (λ w, OverrideCapacity w 9).

Lemma messages_handled_once_witness :
  session_run (exact := True) dispatch_config (with_worker, MkSession 0 0 [] true) [Read hello; Read capacity_frame; Handled (MCapacity 9)]
    (resized, MkSession 0 0 [] true) ∧ manager_ok resized.
Proof.
  assert (session_run (exact := True) dispatch_config (with_worker, MkSession 0 0 [] true) [Read hello; Read capacity_frame; Handled (MCapacity 9)]
    (resized, MkSession 0 0 [] true)) as Hr.
  { eapply sr_cons; [exact (ss_read dispatch_config with_worker 0 0 [] hello)|].
    eapply sr_cons; [exact (ss_read dispatch_config greeted 0 0 [] capacity_frame)|].
    eapply sr_cons; [|apply sr_nil].
    apply (ss_handle dispatch_config greeted 0 0 [] (MCapacity 9) [] true 8 resized). reflexivity. }
  split; [exact Hr|].
  destruct (messages_handled_once dispatch_config True with_worker resized 0 0 (MkSession 0 0 [] true) _ with_worker_ok Hr) as [Hok _].
  exact Hok.
Defined.
End samples.
