(* ===== verification/System.v ===== *)
(** * The whole system: one job from proposal to completion

    A manager and a worker that share a connection.  Each side appends to its
    own output and reads the other's, frame by frame, with netargv's reader; an
    action is one of the events of a job's life (the dispatcher proposes, a side
    reads its next frame, the worker's goroutine starts the task or ends).  The
    theorem composes the wire formats, the manager's handlers and the worker's:
    whatever the job, once it is proposed to a worker that may accept it, the
    messages the two programs exchange carry it to completion. *)
From S2P Require Import Prelude GoStd External Contract Store MemStore Webhooks Heap PriorityQueue Cache WorkerConn WorkerPool.
From S2P Require Import Proto Config Manager Dispatch Lifecycle Orchestrator JobFlow JobProperties.
From S2P Require Import Registry Window ArtifactCache Worker WorkerProps WorkerWire Handshake Stream ConnServer.

(** The two programs, the manager's address of the connection, and how many bytes of the other side's
    output each has read. *)
Record System (SS ST : Type) := MkSystem {
  sy_manager : Manager SS ST;
  sy_worker : Worker;
  sy_conn : nat;
  sy_managerRead : nat;
  sy_workerRead : nat;
}.
Arguments MkSystem {SS ST} _ _ _ _ _.
Arguments sy_manager {SS ST} _.
Arguments sy_worker {SS ST} _.
Arguments sy_conn {SS ST} _.
Arguments sy_managerRead {SS ST} _.
Arguments sy_workerRead {SS ST} _.

(** One event: the dispatcher proposes a job, the worker or the manager reads its next frame, the
    job's goroutine fetches its artifact and starts the process, or the process ended. *)
Inductive action :=
| Propose (job : Job) (task : Task) (art : ArtifactInfo) (now : Time)
| WorkerReads (lookpath : string → bool) (now : Time)
| ManagerReads (now : Time)
| StartTask (i : nat) (fetchTime : Time) (d : Download) (now : Time)
| EndTask (i : nat) (p : process) (now : Time) (duration : Duration).

Section system.
Context `{SimpleSet SS} `{Store ST} `{GoRuntime} `{Ulid} `{SerialLanes} `{WebhookEnv} `{WorkerSelector SS} `{ConsolidateJson}.
Context `{argv : NetArgv FL} `{parsers : Parsers} `{verreg : !Verreg FL} `{reader : !NetArgvReader FL} `{fmt : TimeFormat}.
Context (cfg : Config) (sha256_hex : string → string) (goos : string).
Implicit Types (s : System SS ST) (m : Manager SS ST).

(** What the manager wrote to the worker. *)
Definition manager_out m (a : nat) : list string :=
  match wp_conns (mg_workers m) !! a with Some w => conn_out (wc_conn w) | None => [] end.

Definition for_worker s : string := unread (sy_workerRead s) (manager_out (sy_manager s) (sy_conn s)).
Definition for_manager s : string := unread (sy_managerRead s) (outputs (sy_worker s)).

Definition with_manager s m : System SS ST :=
  MkSystem m (sy_worker s) (sy_conn s) (sy_managerRead s) (sy_workerRead s).
Definition with_worker_ s (w : Worker) : System SS ST :=
  MkSystem (sy_manager s) w (sy_conn s) (sy_managerRead s) (sy_workerRead s).

(** The frame is handled and the reader moves behind it. *)
Definition worker_reads s (lookpath : string → bool) (now : Time) : option (System SS ST) :=
  '(fr, rest) ← rd_next (for_worker s);
  match fr with
  | Err _ => None
  | Ok fr =>
      w ← serve_frame (sy_worker s) lookpath now fr;
      Some (MkSystem (sy_manager s) w (sy_conn s) (sy_managerRead s)
              (sy_workerRead s + (String.length (for_worker s) - String.length rest)))
  end.

(** The read loop starts the handler, which runs at once. *)
Definition manager_reads s (now : Time) : option (System SS ST) :=
  '(fr, rest) ← rd_next (for_manager s);
  match fr with
  | Err _ => None
  | Ok fr =>
      let '(m, msg) := ServeWorkerConnection_read (sy_manager s) (sy_conn s) 0 fr in
      m ← match msg with Some msg => handleWorkerMessage cfg m (sy_conn s) msg now | None => Some m end;
      Some (MkSystem m (sy_worker s) (sy_conn s)
              (sy_managerRead s + (String.length (for_manager s) - String.length rest)) (sy_workerRead s))
  end.

Definition act s (x : action) : option (System SS ST) :=
  match x with
  | Propose job task art now =>
      wc ← wp_conns (mg_workers (sy_manager s)) !! sy_conn s;
      match propose_to (sy_manager s) job task (sy_conn s) wc art now with
      | (m, None) => Some (with_manager s m)
      | (_, Some _) => None
      end
  | WorkerReads lookpath now => worker_reads s lookpath now
  | ManagerReads now => manager_reads s now
  | StartTask i t d now => with_worker_ s <$> runJob_start sha256_hex goos (sy_worker s) i t d None now
  | EndTask i p now duration => with_worker_ s <$> runJob_end (sy_worker s) i p now duration
  end.

Definition acts s (l : list action) : option (System SS ST) := foldl (λ o x, o ≫= λ s, act s x) (Some s) l.

Lemma acts_cons s x s' l : act s x = Some s' → acts s (x :: l) = acts s' l.
Proof. intros E. unfold acts. cbn [foldl mbind option_bind]. by rewrite E. Qed.

(** The connection stays the one it is. *)
Lemma act_conn s x s' : act s x = Some s' → sy_conn s' = sy_conn s.
Proof.
  destruct x; cbn [act]; unfold worker_reads, manager_reads; repeat (intros (? & ? & ?)%bind_Some || case_match); try discriminate;
    try (intros (? & _ & <-)%fmap_Some); try (intros [= <-]); simplify_eq/=; try done.
  all: repeat match goal with E : _ ≫= _ = Some _ |- _ => apply bind_Some in E as (? & ? & ?) end; by simplify_eq/=.
Qed.

Lemma acts_conn s l s' : acts s l = Some s' → sy_conn s' = sy_conn s.
Proof.
  revert s. induction l as [|x l IH]; intros s E; [by injection E as <-|].
  destruct (act s x) as [s1|] eqn:Ex.
  - rewrite (acts_cons _ _ _ _ Ex) in E. rewrite (IH _ E). by eapply act_conn.
  - exfalso. revert E. unfold acts. cbn. rewrite Ex. clear. induction l as [|y l IH]; [done|exact IH].
Qed.

(** ** The streams *)

(** The readers are within what was written, and the bytes still to be read are known. *)
Record streams s (toWorker toManager : string) : Prop := {
  sm_worker : sy_workerRead s ≤ String.length (str_concat (manager_out (sy_manager s) (sy_conn s)));
  sm_manager : sy_managerRead s ≤ String.length (str_concat (outputs (sy_worker s)));
  sm_toWorker : for_worker s = toWorker;
  sm_toManager : for_manager s = toManager;
}.

Lemma str_drop_length n t : n ≤ String.length t → String.length (str_drop n t) = String.length t - n.
Proof.
  revert t. induction n as [|n IH]; intros [|c t] Hn; cbn in *; try lia. apply IH. lia.
Qed.

Lemma str_drop_app_le n t u : n ≤ String.length t → str_drop n (t +:+ u) = str_drop n t +:+ u.
Proof.
  revert t. induction n as [|n IH]; intros [|c t] Hn; try done; cbn in Hn; [lia|].
  change (str_drop n (t +:+ u) = str_drop n t +:+ u). apply IH. lia.
Qed.

Lemma str_drop_plus n k t : str_drop (n + k) t = str_drop k (str_drop n t).
Proof. revert t. induction n as [|n IH]; intros [|c t]; try done; [by destruct k|apply IH]. Qed.

Lemma unread_more n chunks new : n ≤ String.length (str_concat chunks) →
  unread n (chunks ++ new) = unread n chunks +:+ str_concat new.
Proof. intros Hn. unfold unread. rewrite str_concat_app. by apply str_drop_app_le. Qed.

Lemma unread_advance n chunks f rest : unread n chunks = f +:+ rest → n ≤ String.length (str_concat chunks) →
  let n' := n + (String.length (f +:+ rest) - String.length rest) in
  n' ≤ String.length (str_concat chunks) ∧ unread n' chunks = rest.
Proof.
  intros E Hn. cbn zeta. rewrite str_app_length. replace (_ + _ - _) with (String.length f) by lia. split.
  - pose proof (str_drop_length n _ Hn) as L. unfold unread in E. rewrite E, str_app_length in L. lia.
  - unfold unread in *. rewrite str_drop_plus, E. apply str_drop_app.
Qed.

(** A frame the worker reads, with what it writes in answer. *)
Lemma worker_reads_spec s tw tm f rest fr lookpath now w' data : streams s tw tm → tw = f +:+ rest →
  rd_next tw = Some (Ok fr, rest) → serve_frame (sy_worker s) lookpath now fr = Some w' →
  outputs w' = outputs (sy_worker s) ++ data →
  ∃ s', act s (WorkerReads lookpath now) = Some s' ∧ sy_manager s' = sy_manager s ∧ sy_worker s' = w' ∧
    sy_conn s' = sy_conn s ∧ streams s' rest (tm +:+ str_concat data).
Proof.
  intros [W M TW TM] Hf Hr Hs Ho. cbn [act]. unfold worker_reads. rewrite TW, Hr. cbn [mbind option_bind]. rewrite Hs.
  cbn [mbind option_bind]. eexists. split; [done|]. split_and!; [done..|].
  destruct (unread_advance (sy_workerRead s) (manager_out (sy_manager s) (sy_conn s)) f rest) as [Hle Hu];
    [unfold for_worker in TW; congruence|done|].
  rewrite Hf. split; cbn [sy_manager sy_worker sy_conn sy_managerRead sy_workerRead].
  - exact Hle.
  - rewrite Ho, str_concat_app, str_app_length. lia.
  - exact Hu.
  - unfold for_manager, with_worker_. cbn [sy_managerRead sy_worker]. rewrite Ho, unread_more by done. f_equal. exact TM.
Qed.

Lemma manager_reads_spec s tw tm f rest fr msg now m' data : streams s tw tm → tm = f +:+ rest →
  rd_next tm = Some (Ok fr, rest) → (message_factory (fr_Verb fr) ≫= λ g, match g fr with Ok x => Some x | Err _ => None end) = Some msg →
  handleWorkerMessage cfg (sy_manager s) (sy_conn s) msg now = Some m' →
  manager_out m' (sy_conn s) = manager_out (sy_manager s) (sy_conn s) ++ data →
  ∃ s', act s (ManagerReads now) = Some s' ∧ sy_manager s' = m' ∧ sy_worker s' = sy_worker s ∧
    sy_conn s' = sy_conn s ∧ streams s' (tw +:+ str_concat data) rest.
Proof.
  intros [W M TW TM] Hf Hr Hmsg Hh Ho. cbn [act]. unfold manager_reads. rewrite TM, Hr. cbn [mbind option_bind].
  assert (ServeWorkerConnection_read (sy_manager s) (sy_conn s) 0 fr = (sy_manager s, Some msg)) as ->.
  { unfold ServeWorkerConnection_read. rewrite vr_Resolve_0. destruct (message_factory (fr_Verb fr)) as [g|]; [|discriminate].
    cbn in Hmsg. destruct (g fr); [|discriminate]. by injection Hmsg as ->. }
  rewrite Hh. cbn [mbind option_bind]. eexists. split; [done|]. split_and!; [done..|].
  destruct (unread_advance (sy_managerRead s) (outputs (sy_worker s)) f rest) as [Hle Hu];
    [unfold for_manager in TM; congruence|done|].
  rewrite Hf. split; cbn [sy_manager sy_worker sy_conn sy_managerRead sy_workerRead].
  - rewrite Ho, str_concat_app, str_app_length. lia.
  - exact Hle.
  - unfold for_worker, with_manager. cbn [sy_workerRead sy_manager sy_conn]. rewrite Ho, unread_more by done. f_equal. exact TW.
  - exact Hu.
Qed.

(** Steps of one side that only write. *)
Lemma worker_acts s tw tm w' data : streams s tw tm → outputs w' = outputs (sy_worker s) ++ data →
  streams (with_worker_ s w') tw (tm +:+ str_concat data).
Proof.
  intros [W M TW TM] Ho. split; cbn [with_worker_ with_manager sy_manager sy_worker sy_conn sy_managerRead sy_workerRead]; [exact W| |exact TW|].
  - rewrite Ho, str_concat_app, str_app_length. lia.
  - unfold for_manager, with_worker_. cbn [sy_managerRead sy_worker]. rewrite Ho, unread_more by done. f_equal. exact TM.
Qed.

Lemma manager_acts s tw tm m' data : streams s tw tm →
  manager_out m' (sy_conn s) = manager_out (sy_manager s) (sy_conn s) ++ data →
  streams (with_manager s m') (tw +:+ str_concat data) tm.
Proof.
  intros [W M TW TM] Ho. split; cbn [with_worker_ with_manager sy_manager sy_worker sy_conn sy_managerRead sy_workerRead]; [|exact M| |exact TM].
  - rewrite Ho, str_concat_app, str_app_length. lia.
  - unfold for_worker, with_manager. cbn [sy_workerRead sy_manager sy_conn]. rewrite Ho, unread_more by done. f_equal. exact TW.
Qed.
End system.

(** ** What each message does to the manager's view of a job *)
Section manager_stages.
Context `{SimpleSet SS} `{Store ST} `{GoRuntime} `{Ulid} `{SerialLanes} `{WebhookEnv} `{WorkerSelector SS} `{ConsolidateJson}.
Context (cfg : Config).
Implicit Types (m : Manager SS ST) (job : Job).

(** What the messages of a job's life leave alone, on the connection [a] and with at most [k] new identifiers. *)
Record kept (a k : nat) m m' : Prop := {
  kp_queue : mg_queue m' = mg_queue m;
  kp_cancelled : mg_cancelledJobIDs m' = mg_cancelledJobIDs m;
  kp_timers : mg_timers m' = mg_timers m;
  kp_tasks : taskDefs (ents m') = taskDefs (ents m);
  kp_workers : wp_workers (mg_workers m') = wp_workers (mg_workers m);
  kp_platform : wp_platform (mg_workers m') = wp_platform (mg_workers m);
  kp_signal : wp_dispatchSignal (mg_workers m') = wp_dispatchSignal (mg_workers m);
  kp_conns : ∀ b, b ≠ a → wp_conns (mg_workers m') !! b = wp_conns (mg_workers m) !! b;
  kp_ulids : wd_ulids (mg_webhooks m) ≤ wd_ulids (mg_webhooks m') ≤ k + wd_ulids (mg_webhooks m);
}.

Lemma kept_refl a m : kept a 0 m m.
Proof. by split. Qed.

Lemma kept_trans a k1 k2 m1 m2 m3 : kept a k1 m1 m2 → kept a k2 m2 m3 → kept a (k1 + k2) m1 m3.
Proof.
  intros [] []. split; [congruence..| |lia]. intros b Hb. transitivity (wp_conns (mg_workers m2) !! b); auto.
Qed.

Lemma kept_core a k m m' : same_core m m' → wd_ulids (mg_webhooks m) ≤ wd_ulids (mg_webhooks m') ≤ k + wd_ulids (mg_webhooks m) → kept a k m m'.
Proof. intros [Cj Ct Cq Cc Cw Ctm] Hu. split; try done; by rewrite Cw. Qed.

Lemma kept_store a m s : taskDefs (entities s) = taskDefs (ents m) → kept a 0 m (set_store m s).
Proof. intros Ht. by split. Qed.

Lemma kept_update_job a m id f : kept a 0 m (update_job m id f).1.
Proof.
  assert (taskDefs (ents (update_job m id f).1) = taskDefs (ents m)) as Ht.
  { destruct (update_job_spec m id f) as (_ & -> & _). apply UpdateJob_rest. }
  revert Ht. unfold update_job. destruct (st_UpdateJob _ _ _) as [s err]. cbn [fst]. apply kept_store.
Qed.

Lemma kept_update_run a m id f : kept a 0 m (update_run m id f).1.
Proof.
  apply kept_core; [apply core_update_run|]. unfold update_run. by destruct (st_UpdateRun _ _ _).
Qed.

Lemma kept_on_worker m a f : kept a 0 m (on_worker m a f).
Proof. split; try done. intros b Hb. cbn. by rewrite lookup_alter_ne. Qed.

Lemma enqueue_ulids (wd : WebhookDispatcher ST) job ev data now :
  wd_ulids wd ≤ wd_ulids (enqueue wd job ev data now) ≤ 1 + wd_ulids wd.
Proof.
  unfold enqueue. destruct (bool_decide _); [cbn; lia|]. destruct (_ && _); [cbn; lia|]. destruct (marshal_event _); [|cbn; lia]. cbv zeta.
  destruct (st_EnqueueWebhook _ _) as [s [e|]]; cbn; lia.
Qed.

Lemma kept_fire a m job ev data now : kept a 1 m (m <| mg_webhooks := enqueue (mg_webhooks m) job ev data now |>).
Proof. apply kept_core; [apply core_fire|apply enqueue_ulids]. Qed.

Lemma kept_accept m a id now : kept a 1 m (handleAcceptMessage m a id now).
Proof.
  unfold handleAcceptMessage. pose proof (kept_update_job a m id (λ j : Job, j <| job_Status := JobStatusAccepted |> <| job_UpdatedAt := now |>)) as K1.
  destruct (update_job _ _ _) as [m1 [e|]]; cbn [fst] in K1; [by apply (kept_trans a 0 1 m m1); [|split; cbn; try done; lia]|].
  assert (kept a 1 m m1) as K by (destruct K1; split; try done; lia).
  destruct (GetJob _ _) as [job|]; [|done]. destruct (resolveDispatchPayload _ _) as [payload|]; [|done]. cbn zeta.
  apply (kept_trans a 0 1 _ m1); [done|]. apply (kept_trans a 1 0 _ (m1 <| mg_webhooks := (mg_webhooks m1) <| wd_ulids := S (wd_ulids (mg_webhooks m1)) |> |>)).
  { split; cbn; try done. lia. }
  match goal with |- kept _ _ ?x (on_worker (set_store _ (st_CreateRun ?s ?r).1 <| mg_activeRunIDs := _ |>) _ _) =>
    pose proof (ent_CreateRun s r) as Ce; apply (kept_trans a 0 0 _ (set_store x (st_CreateRun s r).1)) end.
  { apply kept_store. by rewrite Ce. }
  eapply (kept_trans a 0 0); [|apply kept_on_worker]. by split.
Qed.

Lemma kept_staged m a id now : kept a 0 m (handleStagedMessage m id now).
Proof. apply kept_update_job. Qed.

Lemma kept_starting m a id runID now : kept a 1 m (handleStartingMessage m a id runID now).
Proof.
  unfold handleStartingMessage. destruct (GetJob _ _) as [job|]; [|by split; cbn; try done; lia].
  pose proof (kept_update_job a m (job_ID job) (λ j : Job, j <| job_Status := JobStatusRunning |> <| job_UpdatedAt := now |>)) as K1.
  destruct (update_job _ _ _) as [m1 e]. cbn [fst] in K1. apply (kept_trans a 0 1 _ m1); [done|]. cbn zeta.
  match goal with |- context [if ?b then ?x else m1] => set (m2 := if b then x else m1) end. assert (kept a 0 m1 m2) as K2 by (unfold m2; destruct (bool_decide _); [apply kept_update_run|apply kept_refl]).
  apply (kept_trans a 0 1 _ m2); [done|]. apply kept_fire.
Qed.

Lemma kept_log m a id runID line : kept a 0 m (handleLogMessage m id runID line).
Proof.
  unfold handleLogMessage. case_bool_decide; [apply kept_refl|]. apply kept_store. by rewrite ent_AppendRunLog.
Qed.

(** The connection with more output. *)
Definition sent (w : WorkerConn SS) (data : list string) : WorkerConn SS :=
  w <| wc_conn := (wc_conn w) <| conn_out := conn_out (wc_conn w) ++ data |> |>.

Lemma Send_usable w line : conn_usable (wc_conn w) = true → Send w line = (sent w [line +:+ newline], None).
Proof. intros Hu. unfold Send, conn_Write. by rewrite Hu. Qed.

Lemma SendWithPayload_usable w header payload : conn_usable (wc_conn w) = true →
  SendWithPayload w header payload = (sent w [payload_header header payload; payload], None).
Proof.
  intros Hu. unfold SendWithPayload, conn_Write. rewrite Hu. cbn.
  match goal with |- context [conn_usable ?c] => assert (conn_usable c = true) as -> by exact Hu end.
  unfold sent. cbn. by rewrite <- (assoc_L (++)).
Qed.

Lemma AssignTask_sent w id cost w1 data : AssignTask w id cost = Ok w1 → AssignTask (sent w data) id cost = Ok (sent w1 data).
Proof. unfold AssignTask. cbn. do 2 (case_match; [done|]). by intros [= <-]. Qed.

(** The queue holds a copy of the stored job that aging and late saves may have left behind. *)
Definition queued_as (q job : Job) : Prop := ∃ u pr, q = job <| job_UpdatedAt := u |> <| job_Priority := pr |>.

Lemma queued_as_refl job : queued_as job job.
Proof. exists (job_UpdatedAt job), (job_Priority job). by destruct job. Qed.

(** The connection while it holds the job: reserved, alive, with output. *)
Lemma propose_stage m q job t a wc wc1 art now : manager_ok m → (∀ ns, lane_error ns = None) → queued_as q job →
  wp_conns (mg_workers m) !! a = Some wc → conn_usable (wc_conn wc) = true → jobs (ents m) !! job_ID job = Some job →
  AssignTask wc (job_ID job) (job_Cost job) = Ok wc1 →
  ∃ m1, propose_to m q t a wc art now = (m1, None) ∧ manager_ok m1 ∧ kept a 1 m m1 ∧
    wp_conns (mg_workers m1) !! a =
      Some (UpdateHeartbeat (sent wc1 [FormulateProposeV0Message job t art +:+ newline]) now) ∧
    jobs (ents m1) !! job_ID job = Some (job <| job_Status := JobStatusProposing |>).
Proof.
  intros Hm Hopen (u & pr & Hq) Ha Hu Hj Has. pose proof (ok_propose_to m q t a wc art now Hm Ha) as Hok. revert Hok.
  assert (job_ID q = job_ID job ∧ job_Cost q = job_Cost job ∧ FormulateProposeV0Message q t art = FormulateProposeV0Message job t art)
    as (Eid & Ec & Em) by by subst q.
  unfold propose_to. rewrite Eid, Ec, Em, Send_usable by done. set (line := FormulateProposeV0Message job t art +:+ newline).
  set (m0 := set_conn m a (sent wc [line])).
  assert (kept a 0 m m0) as K0 by (split; try done; intros b Hb; cbn; by rewrite lookup_insert_ne).
  pose proof (kept_update_job a m0 (job_ID job) (λ j, j <| job_Status := JobStatusProposing |>)) as K1.
  destruct (update_job_spec m0 (job_ID job) (λ j, j <| job_Status := JobStatusProposing |>)) as (Uerr & Ue & _ & _ & Uw & _).
  destruct (update_job m0 _ _) as [m1 err]. cbn [fst snd] in *. unfold UpdateJob in Uerr, Ue.
  change (ents m0) with (ents m) in *. rewrite Hj in Uerr, Ue. cbn [fst snd] in *. subst err.
  assert (wp_conns (mg_workers m1) !! a = Some (sent wc [line])) as Ha1 by (rewrite Uw; apply lookup_insert_eq).
  unfold subtractCapacity, lane_Do. rewrite Ha1, Hopen, (AssignTask_sent _ _ _ _ [line] Has).
  intros Hok. eexists. split; [done|]. split; [exact Hok|]. split; [|split; [apply lookup_insert_eq|]].
  - apply (kept_trans a 0 1 _ m1); [exact (kept_trans a 0 0 _ _ _ K0 K1)|]. eapply (kept_trans a 0 1); [|apply kept_fire].
    split; try done. intros b Hb. cbn. by rewrite lookup_insert_ne.
  - match goal with |- context [FireJobProposing ?wd ?j ?id ?t] =>
      destruct (enqueue_entities wd j eventTaskProposing [("task_name", EvString (job_TaskName q));
        ("cost", EvInt (job_Cost q)); ("worker_id", EvString id)] t) as (Ej & _) end.
    etrans; [exact (f_equal (.!! job_ID job) Ej)|]. change (jobs (ents m1) !! job_ID job = Some (job <| job_Status := JobStatusProposing |>)).
    rewrite Ue. apply lookup_insert_eq.
Qed.

Lemma accept_stage m a wc job now : manager_ok m → wp_conns (mg_workers m) !! a = Some wc →
  conn_usable (wc_conn wc) = true → jobs (ents m) !! job_ID job = Some job → job_Phase job = JobPhaseRun →
  let runID := ulid (wd_ulids (mg_webhooks m)) in
  let job' := job <| job_Status := JobStatusAccepted |> <| job_UpdatedAt := now |> in
  ∃ m1 run, handleWorkerMessage cfg m a (MAccept (job_ID job)) now = Some m1 ∧ manager_ok m1 ∧
    wp_conns (mg_workers m1) !! a =
      Some (sent wc [payload_header (FormulateDispatchV0Message job' runID) (job_Payload job); job_Payload job]) ∧
    jobs (ents m1) !! job_ID job = Some job' ∧ runs (ents m1) !! runID = Some run ∧
    run_JobID run = job_ID job ∧ run_WorkerID run = wc_workerID wc.
Proof.
  intros Hm Ha Hu Hj Hph. cbn zeta. cbn [handleWorkerMessage].
  pose proof (ok_accept m a (job_ID job) now Hm) as Hok. revert Hok. unfold handleAcceptMessage.
  set (f := λ j : Job, j <| job_Status := JobStatusAccepted |> <| job_UpdatedAt := now |>).
  destruct (update_job_spec m (job_ID job) f) as (Uerr & Ue & _ & _ & Uw & _).
  assert (wd_ulids (mg_webhooks (update_job m (job_ID job) f).1) = wd_ulids (mg_webhooks m)) as Uu.
  { unfold update_job. by destruct (st_UpdateJob _ _ _). }
  destruct (update_job m (job_ID job) f) as [m1 err]. cbn [fst snd] in *. unfold UpdateJob in Uerr, Ue.
  rewrite Hj in Uerr, Ue. cbn [fst snd] in *. subst err.
  assert (GetJob (ents m1) (job_ID job) = Ok (f job)) as ->.
  { unfold GetJob. rewrite Ue. cbn [jobs field_set rebuild Entities_rebuild]. by rewrite lookup_insert_eq. }
  assert (resolveDispatchPayload m1 (f job) = Ok (job_Payload job)) as ->.
  { unfold resolveDispatchPayload. change (job_Phase (f job)) with (job_Phase job). rewrite Hph. by rewrite bool_decide_eq_true_2. }
  cbn zeta. repeat match goal with |- context [wp_conns (mg_workers ?x) !! a] => change (mg_workers x) with (mg_workers m1) end.
  rewrite Uu, Uw, Ha. intros Hok.
  set (n := wd_ulids (mg_webhooks m)) in *. set (m2 := m1 <| mg_webhooks := _ |>) in *.
  set (run := MkJobRun _ _ _ _ _ _ _ _ _ _ _ _ _) in *.
  pose proof (ent_CreateRun (mg_store m2) run) as Ce. exists (on_worker (set_store m2 (st_CreateRun (mg_store m2) run).1 <|
    mg_activeRunIDs := <[job_ID (f job) := ulid n]> (mg_activeRunIDs m2) |>) a
    (λ w, (SendWithPayload w (FormulateDispatchV0Message (f job) (ulid n)) (job_Payload job)).1)), run.
  split; [done|]. split; [exact Hok|].
  assert (ents (on_worker (set_store m2 (st_CreateRun (mg_store m2) run).1 <|
    mg_activeRunIDs := <[job_ID (f job) := ulid n]> (mg_activeRunIDs m2) |>) a
    (λ w, (SendWithPayload w (FormulateDispatchV0Message (f job) (ulid n)) (job_Payload job)).1)) = CreateRun (ents m1) run) as Ee by exact Ce.
  split; [|split_and!; try done].
  - cbn [on_worker on_conn mg_workers wp_conns field_set rebuild Manager_rebuild WorkerPool_rebuild set_store].
    rewrite lookup_alter_eq. change (mg_workers m2) with (mg_workers m1). rewrite Uw, Ha. cbn [fmap option_fmap option_map].
    by rewrite SendWithPayload_usable.
  - rewrite Ee. cbn [CreateRun jobs field_set rebuild Entities_rebuild]. rewrite Ue. apply lookup_insert_eq.
  - rewrite Ee. cbn [CreateRun runs field_set rebuild Entities_rebuild]. apply lookup_insert_eq.
Qed.

(** Messages that only move the job along leave the connection as it is. *)
Lemma staged_stage m a job runID now : manager_ok m → jobs (ents m) !! job_ID job = Some job →
  ∃ m1, handleWorkerMessage cfg m a (MStaged (job_ID job) runID) now = Some m1 ∧ manager_ok m1 ∧
    mg_workers m1 = mg_workers m ∧ runs (ents m1) = runs (ents m) ∧
    jobs (ents m1) !! job_ID job = Some (job <| job_Status := JobStatusProvisioning |> <| job_UpdatedAt := now |>).
Proof.
  intros Hm Hj. cbn [handleWorkerMessage]. unfold handleStagedMessage.
  set (f := λ j : Job, j <| job_Status := JobStatusProvisioning |> <| job_UpdatedAt := now |>).
  eexists. split; [done|]. split; [by apply ok_update_job|].
  destruct (update_job_spec m (job_ID job) f) as (_ & Ue & _ & _ & Uw & _). rewrite Ue, Uw.
  unfold UpdateJob. rewrite Hj. split_and!; [done..|]. apply lookup_insert_eq.
Qed.

Lemma starting_stage m a job runID run now : manager_ok m → jobs (ents m) !! job_ID job = Some job → runID ≠ "" →
  runs (ents m) !! runID = Some run →
  ∃ m1, handleWorkerMessage cfg m a (MStarting (job_ID job) runID) now = Some m1 ∧ manager_ok m1 ∧
    mg_workers m1 = mg_workers m ∧
    runs (ents m1) !! runID = Some (run <| run_Status := RunStatusRunning |> <| run_StartedAt := now |>) ∧
    jobs (ents m1) !! job_ID job = Some (job <| job_Status := JobStatusRunning |> <| job_UpdatedAt := now |>).
Proof.
  intros Hm Hj Hne Hr. cbn [handleWorkerMessage]. eexists. split; [done|]. split; [by apply ok_starting|].
  unfold handleStartingMessage, GetJob. rewrite Hj.
  set (f := λ j : Job, j <| job_Status := JobStatusRunning |> <| job_UpdatedAt := now |>).
  set (g := λ r : JobRun, r <| run_Status := RunStatusRunning |> <| run_StartedAt := now |>).
  destruct (update_job_spec m (job_ID job) f) as (_ & Ue & _ & _ & Uw & _).
  destruct (update_job m (job_ID job) f) as [m1 err]. cbn [fst snd] in *. unfold UpdateJob in Ue. rewrite Hj in Ue.
  unfold resolveRunID. rewrite !(bool_decide_eq_true_2 (runID ≠ "")) by done. cbv beta iota.
  unfold update_run. pose proof (ent_UpdateRun (mg_store m1) runID g) as Re.
  destruct (st_UpdateRun (mg_store m1) runID g) as [st err2]. cbn [fst snd] in *. set (m2 := set_store m1 st).
  assert (ents m2 = (UpdateRun (ents m1) runID g).1) as E2 by exact Re. unfold UpdateRun in E2.
  rewrite Ue in E2. cbn [runs field_set rebuild Entities_rebuild fst] in E2. rewrite Hr in E2. cbn [fst] in E2.
  match goal with |- context [FireJobRunning ?wd ?j ?id ?t] =>
    destruct (enqueue_entities wd j eventJobRunning [("worker_id", EvString id)] t) as (Ej & _ & Er) end.
  change (entities (wd_store (mg_webhooks m2))) with (ents m2) in Ej, Er. rewrite E2 in Ej, Er.
  split; [exact Uw|]. split.
  - etrans; [exact (f_equal (.!! runID) Er)|]. apply lookup_insert_eq.
  - etrans; [exact (f_equal (.!! job_ID job) Ej)|]. apply lookup_insert_eq.
Qed.

Lemma log_stage m a id runID line now : manager_ok m →
  ∃ m1, handleWorkerMessage cfg m a (MLog id runID line) now = Some m1 ∧ manager_ok m1 ∧
    mg_workers m1 = mg_workers m ∧ ents m1 = ents m.
Proof.
  intros Hm. eexists. split; [done|]. split; [by apply (ok_message cfg m a (MLog id runID line) now)|].
  unfold handleLogMessage. case_bool_decide; [done|]. split; [done|]. exact (ent_AppendRunLog (mg_store m) _ line).
Qed.

(** A success report completes the job and its run and frees the connection. *)
Lemma result_stage m a wc job runID run d payload now : manager_ok m → (∀ ns, lane_error ns = None) →
  wp_conns (mg_workers m) !! a = Some wc → jobs (ents m) !! job_ID job = Some job → IsTerminal (job_Status job) = false →
  runID ≠ "" → runs (ents m) !! runID = Some run →
  ∃ m1 run', handleWorkerMessage cfg m a
      (MResult (MkResultMessage "" (job_ID job) runID ResultSuccess d "" "" 0 [] payload)) now = Some m1 ∧ manager_ok m1 ∧
    wp_conns (mg_workers m1) !! a = Some (CompleteTask wc (job_ID job) (job_Cost job) now) ∧
    jobs (ents m1) !! job_ID job = Some (complete_job payload now job) ∧
    runs (ents m1) !! runID = Some run' ∧ run_Status run' = RunStatusCompleted ∧ run_OutputPayload run' = payload.
Proof.
  intros Hm Hopen Ha Hj Ht Hne Hr. set (msg := MkResultMessage _ _ _ _ _ _ _ _ _ _).
  destruct (completion_spec cfg m a wc job msg now Hm Hopen Ha Hj Ht eq_refl) as (m1 & Hh & Hw & Hrun & Hcase).
  destruct (Hrun run Hne Hr) as (run' & Hr' & Hs & Ho & _). exists m1, run'.
  split; [exact Hh|]. split; [by eapply ok_message|]. split; [rewrite Hw; apply lookup_insert_eq|].
  split; [|by split_and!]. cbn [rm_JobID rm_Payload msg] in Hcase.
  destruct Hcase as [(parent & (_ & Hp & Hst & _) & -> & _)|(_ & -> & _)]; [|apply lookup_insert_eq].
  destruct (decide (job_ParentJobID job = job_ID job)) as [E|E].
  - rewrite E, lookup_insert_eq in Hp. injection Hp as <-. discriminate Hst.
  - rewrite lookup_insert_ne by done. apply lookup_insert_eq.
Qed.
(** The manager when a failed attempt may be repeated, but for the timer. *)
Definition attempt_failed m (a : nat) job (msg : ResultMessage) (now : Time) : Manager SS ST :=
  let m1 := (restore_capacity m a job now).1 in
  let m2 := closeRun m1 (resolveRunID m1 (rm_JobID msg) (rm_RunID msg)) (rm_JobID msg) RunStatusFailed (rm_Type msg)
              (rm_Reason msg) (rm_Reason msg) (rm_ExitCode msg) now in
  (update_job m2 (job_ID job) (record_attempt (wrap64 (job_Attempts job + 1)) (rm_Reason msg) now)).1.

Lemma kept_closeRun a m runID jobID st rt out reason code now : kept a 0 m (closeRun m runID jobID st rt out reason code now).
Proof.
  apply kept_core; [apply core_closeRun|]. unfold closeRun. case_bool_decide; [done|]. cbn zeta.
  match goal with |- context [update_run ?x ?i ?f] => assert (wd_ulids (mg_webhooks (update_run x i f).1) = wd_ulids (mg_webhooks m)) as E end.
  { unfold update_run. destruct (st_UpdateRun _ _ _). cbn. by destruct (_ && _). }
  destruct (update_run _ _ _) as [m3 err]. cbn in *. by rewrite E.
Qed.

Lemma attempt_failed_kept m a wc job msg now : (∀ ns, lane_error ns = None) → wp_conns (mg_workers m) !! a = Some wc →
  kept a 0 (NotifyDispatcher m) (attempt_failed m a job msg now).
Proof.
  intros Hopen Ha. unfold attempt_failed. cbn zeta. eapply (kept_trans a 0 0); [|apply kept_update_job].
  eapply (kept_trans a 0 0); [|apply kept_closeRun]. unfold restore_capacity, restoreCapacity, lane_Do. rewrite Ha, Hopen. cbn [fst].
  split; try done. intros b Hb. cbn. by rewrite lookup_insert_ne.
Qed.

Lemma handleJobError_retries m a wc job msg now : (∀ ns, lane_error ns = None) → wp_conns (mg_workers m) !! a = Some wc →
  IsTerminal (job_Status job) = false → permanent cfg m job msg = false →
  ∃ timers, handleJobError cfg m a job msg now = attempt_failed m a job msg now <| mg_timers := timers |>.
Proof.
  intros Hopen Ha Ht Hp. pose proof (kp_tasks _ _ _ _ (attempt_failed_kept m a wc job msg now Hopen Ha)) as Hk.
  revert Hk. unfold handleJobError, attempt_failed. rewrite Ht. destruct (restore_capacity m a job now) as [m1 e1]. cbn [fst]. cbn zeta.
  set (m2 := closeRun m1 _ _ _ _ _ _ _ _). set (job1 := job <| job_Attempts := _ |>). change (job_ID job1) with (job_ID job).
  change (λ j, j <| job_Attempts := job_Attempts job1 |> <| job_FailureReason := rm_Reason msg |>
    <| job_UpdatedAt := now |>) with (record_attempt (wrap64 (job_Attempts job + 1)) (rm_Reason msg) now).
  destruct (update_job m2 _ _) as [m3 e3]. cbn [fst]. intros Hk. unfold permanent in Hp. apply orb_false_iff in Hp as [-> Hp].
  assert (effective_policy cfg m3 job1 = effective_policy cfg m job) as ->.
  { unfold effective_policy, GetTask. change (job_TaskName job1) with (job_TaskName job). by rewrite Hk. }
  change (job_Attempts job1) with (wrap64 (job_Attempts job + 1)). rewrite Z.leb_antisym in Hp. apply negb_false_iff in Hp. rewrite Hp. by eexists.
Qed.

(** A failed attempt that may be repeated: the job and its run say why it failed, the connection is free again and a
    timer is set; the dispatcher is notified of the capacity. *)
Lemma error_stage m a wc job runID run d reason code now : manager_ok m → (∀ ns, lane_error ns = None) →
  wp_conns (mg_workers m) !! a = Some wc → jobs (ents m) !! job_ID job = Some job → IsTerminal (job_Status job) = false →
  runID ≠ "" → runs (ents m) !! runID = Some run →
  let msg := MkResultMessage "" (job_ID job) runID ResultError d "" reason code [] "" in
  let attempts := wrap64 (job_Attempts job + 1) in
  permanent cfg m job msg = false →
  ∃ m1 run', handleWorkerMessage cfg m a (MResult msg) now = Some m1 ∧ manager_ok m1 ∧
    wp_conns (mg_workers m1) !! a = Some (CompleteTask wc (job_ID job) (job_Cost job) now) ∧
    jobs (ents m1) !! job_ID job = Some (record_attempt attempts reason now job) ∧
    runs (ents m1) !! runID = Some run' ∧ run_Status run' = RunStatusFailed ∧ run_FailureReason run' = reason ∧
    mg_timers m1 = mg_timers m ++ [MkRetryTimer (now + retryDelay (effective_policy cfg m job) attempts)%Z (job_ID job)] ∧
    kept a 0 (NotifyDispatcher m <| mg_timers := mg_timers m1 |>) m1.
Proof.
  intros Hm Hopen Ha Hj Ht Hne Hr msg attempts Hperm.
  destruct (handleJobError_spec cfg m a wc job msg now Hm Hopen Ha Hj Ht) as (_ & _ & Hw & Hif). rewrite Hperm in Hif. destruct Hif as [Hjs Htm].
  pose proof (attempt_failed_kept m a wc job msg now Hopen Ha) as Hk.
  destruct (handleJobError_retries m a wc job msg now Hopen Ha Ht Hperm) as [timers Heq].
  exists (handleJobError cfg m a job msg now). eexists. split; [by apply result_error|]. split; [by apply ok_error|].
  split; [rewrite Hw; apply lookup_insert_eq|]. split; [rewrite Hjs; apply lookup_insert_eq|]. split; [|split_and!; [| |exact Htm|]].
  - rewrite Heq. change (runs (ents (attempt_failed m a job msg now <| mg_timers := timers |>))) with (runs (ents (attempt_failed m a job msg now))).
    unfold attempt_failed. cbn zeta. destruct (update_job_spec (closeRun (restore_capacity m a job now).1 (resolveRunID (restore_capacity m a job now).1
      (rm_JobID msg) (rm_RunID msg)) (rm_JobID msg) RunStatusFailed (rm_Type msg) (rm_Reason msg) (rm_Reason msg) (rm_ExitCode msg) now) (job_ID job)
      (record_attempt (wrap64 (job_Attempts job + 1)) (rm_Reason msg) now)) as (_ & -> & _).
    rewrite (proj1 (proj2 (UpdateJob_rest _ _ _))). unfold resolveRunID. cbn [rm_RunID msg]. rewrite (bool_decide_eq_true_2 (runID ≠ "")) by done.
    apply closeRun_run; [done|]. by rewrite (proj1 (restore_capacity_frame m a job now)).
  - done.
  - done.
  - rewrite Heq. destruct Hk. by split.
Qed.
End manager_stages.

(** ** What each event does to the worker *)
Section worker_stages.
Context `{GoRuntime} `{fmt : TimeFormat} (sha256_hex : string → string) (goos : string).

(** What the events of a job's life leave alone at the worker. *)
Record worker_kept (w w' : Worker) : Prop := {
  wk_cfg : w_cfg w' = w_cfg w;
  wk_state : w_state w' = w_state w;
  wk_sampler : w_metricsSampler w' = w_metricsSampler w;
  wk_deps : w_depCache w ⊆ w_depCache w';
}.

#[global] Instance worker_kept_preorder : PreOrder worker_kept.
Proof. split; [by split|]. intros w1 w2 w3 [] []. split; [congruence..|by etrans]. Qed.

Lemma may_accept_kept w w' lookpath msg : worker_kept w w' → w_usedCap w' = w_usedCap w →
  may_accept w lookpath msg → may_accept w' lookpath msg.
Proof.
  intros [Ec Es Em Ed] Eu (Hs & Hp & Hd & Hf). unfold may_accept, under_pressure in *. rewrite Ec, Es, Em, Eu.
  split_and!; try done. intros d Hin. destruct (Hd d Hin); [left; by apply Ed|by right].
Qed.

(** The task starts: the worker says so and writes the head of the log. *)
Lemma start_stage w i j t d now : connected w → w_running w !! i = Some j → rj_started j = false →
  (∃ path, (Fetch sha256_hex goos (w_artifactCache w) (pm_ArtifactHash (rj_proposal j)) (pm_ArtifactURL (rj_proposal j)) t d).2 = Ok path) →
  ∃ w', runJob_start sha256_hex goos w i t d None now = Some w' ∧ connected w' ∧
    outputs w' = outputs w ++ (("starting" +:+ job_flags (dm_JobID (rj_dispatch j)) (dm_RunID (rj_dispatch j)) +:+ newline) ::
      framed (log_line_header j) (log_header w j now)) ∧
    w_running w' !! i = Some (j <| rj_started := true |>) ∧ w_tasks w' = w_tasks w ∧ w_usedCap w' = w_usedCap w ∧
    w_state w' = w_state w ∧ w_pendingJobs w' = w_pendingJobs w ∧ w_cfg w' = w_cfg w ∧
    w_running w' = alter (λ j, j <| rj_started := true |>) i (w_running w) ∧ worker_kept w w' ∧
    w_artifactCache w' = (Fetch sha256_hex goos (w_artifactCache w) (pm_ArtifactHash (rj_proposal j)) (pm_ArtifactURL (rj_proposal j)) t d).1.
Proof.
  intros Hc Hj Hs [path Hf]. unfold runJob_start. rewrite Hj. cbn [mbind option_bind]. rewrite Hs.
  destruct (Fetch _ _ _ _ _ _ _) as [cache r]. cbn [snd] in Hf. subst r. set (w0 := w <| w_artifactCache := cache |>).
  assert (connected w0) as Hc0 by exact Hc. rewrite send_connected by done. cbn [mbind option_bind].
  rewrite payload_connected by by apply wrote_connected. cbn [mbind option_bind]. rewrite wrote_wrote.
  eexists. split; [done|].
  change (connected (?x <| w_running := ?r |>)) with (connected x).
  change (outputs (?x <| w_running := ?r |>)) with (outputs x).
  rewrite wrote_outputs by done. split; [by apply wrote_connected|].
  split; [change (outputs w0) with (outputs w); by rewrite str_app_assoc|].
  split_and!; try done. cbn. rewrite list_lookup_alter_eq, Hj. done.
Qed.

(** The task ended: the foot of the log, the result, and the cost is free again. *)
Lemma end_stage w i j task p now d : connected w → w_running w !! i = Some j → rj_started j = true →
  aws_Load (w_state w) = WorkerStateOnline → w_tasks w !! dm_JobID (rj_dispatch j) = Some task →
  let r := RunTask (pm_NoResult (rj_proposal j)) p in
  ∃ w', runJob_end w i p now d = Some w' ∧ connected w' ∧
    outputs w' = outputs w ++ framed (log_line_header j) (log_footer (result_status r) now d (result_message j r d).2) ++
      framed (result_message j r d).1 (result_message j r d).2 ∧
    w_tasks w' = delete (dm_JobID (rj_dispatch j)) (w_tasks w) ∧ w_usedCap w' = (w_usedCap w -! at_cost task)%go ∧
    w_running w' = delete i (w_running w) ∧ w_pendingJobs w' = w_pendingJobs w ∧ worker_kept w w' ∧ w_artifactCache w' = w_artifactCache w.
Proof.
  intros Hc Hj Hs Hon Ht. cbn zeta. unfold runJob_end. rewrite Hj. cbn [mbind option_bind]. rewrite Hs. cbn [negb].
  set (r := RunTask _ p). destruct (result_message j r d) as [header payload]. cbn [fst snd].
  rewrite payload_connected by done. cbn [mbind option_bind].
  rewrite payload_connected by by apply wrote_connected. cbn [mbind option_bind]. rewrite wrote_wrote.
  match goal with |- context [releaseTask (wrote w ?x)] => set (data := x) end.
  unfold releaseTask, aws_Is. change (w_tasks (wrote w data)) with (w_tasks w). rewrite Ht.
  match goal with |- context [w_state ?x] => change (w_state x) with (w_state w) end. rewrite Hon. cbn [orb andb].
  eexists. split; [done|]. split; [exact (wrote_connected w data Hc)|].
  split; [etrans; [exact (wrote_outputs w data Hc)|]; done|]. by split_and!.
Qed.
End worker_stages.

(** ** The lines on the wire *)
Section lines.
Context `{argv : NetArgv FL} `{parsers : Parsers} `{reader : !NetArgvReader FL}.

Lemma propose_plain job task art : propose_words job art → plain_line "propose" (propose_args job task art).
Proof.
  intros (Hid & Htask & Hhash & Hurl & Hdeps). split; [done|]. unfold propose_args. rewrite !Forall_app. split_and!.
  - repeat constructor; unfold word_arg; simpl; rewrite ?Hid, ?Htask, ?Hhash, ?Hurl, ?word_Itoa; done.
  - apply Forall_fmap. eapply Forall_impl; [exact Hdeps|]. intros d Hd. unfold word_arg. simpl. by rewrite Hd.
  - destruct (task_NoResult task); by repeat constructor.
Qed.

Lemma dispatch_plain job runID : word (job_ID job) = true → word runID = true → plain_line "dispatch" (dispatch_args job runID).
Proof.
  intros Hid Hrun. split; [done|]. unfold dispatch_args.
  repeat constructor; unfold word_arg; simpl; rewrite ?Hid, ?Hrun, ?word_Itoa; try done. by destruct (job_Phase job).
Qed.

(** The flags of the messages about a run. *)
Definition run_args (id run : string) : list arg := [("job-id", Some id); ("run-id", Some run)].

Lemma run_render verb id run : verb +:+ job_flags id run = render_line verb (run_args id run).
Proof. unfold render_line, run_args, str_concat, job_flags. cbn. by rewrite str_app_nil_r, ?str_app_assoc. Qed.

Lemma run_plain verb id run : flag_name verb = true → word id = true → word run = true → plain_line verb (run_args id run).
Proof. intros Hv Hid Hrun. split; [done|]. repeat constructor; unfold word_arg; cbn; by rewrite ?Hid, ?Hrun. Qed.

Lemma run_parsed verb id run : flag_name verb = true → word id = true → word run = true →
  ∃ fl, argv_parse (render_line verb (run_args id run)) = Ok (verb, fl) ∧
    fl_Lookup fl "job-id" = Some id ∧ fl_Lookup fl "run-id" = Some run.
Proof.
  intros Hv Hid Hrun. destruct (run_plain verb id run Hv Hid Hrun) as [_ Ha].
  destruct (argv_parse_spec verb (run_args id run) Hv Ha) as (fl & Hp & Hfl). exists fl. split; [exact Hp|].
  split; by apply Hfl.
Qed.

Lemma result_plain `{fmt : TimeFormat} id run typ code d : word id = true → word run = true → word typ = true →
  word (duration_String d) = true → plain_line "result" (result_args id run typ code d).
Proof.
  intros Hid Hrun Htyp Hd. split; [done|]. unfold result_args.
  destruct code as [n|]; repeat constructor; unfold word_arg; cbn; by rewrite ?Hid, ?Hrun, ?Htyp, ?Hd, ?word_Itoa.
Qed.

(** Lines and payload frames at the head of a stream. *)
Lemma line_next verb args fl rest : plain_line verb args → argv_parse (render_line verb args) = Ok (verb, fl) →
  rd_next (str_concat [render_line verb args +:+ newline] +:+ rest) = Some (Ok (MkFrame verb fl ""), rest).
Proof.
  intros Hp Hfl. unfold str_concat. cbn [foldr]. rewrite str_app_nil_r, str_app_assoc. by apply (rd_next_line verb args).
Qed.

Definition text_fits (s : string) : Prop := in_int64 (Z.of_nat (String.length s)).

Lemma payload_next verb args fl payload rest : plain_line verb args → argv_parse (render_line verb args) = Ok (verb, fl) →
  text_fits payload → rd_next (str_concat [payload_header (render_line verb args) payload; payload] +:+ rest) =
    Some (Ok (MkFrame verb fl payload), rest).
Proof.
  intros Hp Hfl Hfit. unfold str_concat. cbn [foldr]. rewrite str_app_nil_r, str_app_assoc. by apply (rd_next_payload verb args).
Qed.
End lines.

Lemma wrap64_undo x y : in_int64 x → ((x +! y) -! y)%go = x.
Proof.
  intros Hx. destruct (wrap64_shift (x + y)) as [k ->].
  replace (x + y + 18446744073709551616 * k - y)%Z with (x + 18446744073709551616 * k)%Z by lia.
  rewrite wrap64_plus. by apply wrap64_id.
Qed.

(** The connection after a job: what was reserved is free again. *)
Lemma job_freed `{SimpleSet SS} (wc wc1 : WorkerConn SS) id cost now0 now1 d1 d2 : AssignTask wc id cost = Ok wc1 → (0 ≤ wc_occupiedCost wc)%Z → in_int64 (wc_occupiedCost wc) →
  let wc' := CompleteTask (sent (UpdateHeartbeat (sent wc1 d1) now0) d2) id cost now1 in
  ss_view (wc_inFlight wc') = ss_view (wc_inFlight wc) ∖ {[id]} ∧ wc_occupiedCost wc' = wc_occupiedCost wc.
Proof.
  intros Hroom Hocc Hr. unfold AssignTask in Hroom. do 2 (case_match; [done|]). injection Hroom as <-. cbn. split.
  - rewrite ss_view_Remove, ss_view_Add. set_solver.
  - rewrite wrap64_undo by done. by rewrite (proj2 (Z.ltb_ge _ _)) by lia.
Qed.

(** ** The life of a job *)
Section life.
Context `{SimpleSet SS} `{Store ST} `{GoRuntime} `{Ulid} `{SerialLanes} `{WebhookEnv} `{WorkerSelector SS} `{ConsolidateJson}.
Context `{argv : NetArgv FL} `{parsers : Parsers} `{verreg : !Verreg FL} `{reader : !NetArgvReader FL} `{fmt : TimeFormat}.
Context (cfg : Config) (sha256_hex : string → string) (goos : string).
Implicit Types (s : System SS ST) (m : Manager SS ST) (job : Job).

Notation act := (act cfg sha256_hex goos).
Notation acts := (acts cfg sha256_hex goos).

(** The system between two events: the job, its connection and its run at the manager, nothing unread. *)
Record stage s job (wc : WorkerConn SS) (runID : string) (run : JobRun) : Prop := {
  sg_ok : manager_ok (sy_manager s);
  sg_job : jobs (ents (sy_manager s)) !! job_ID job = Some job;
  sg_conn : wp_conns (mg_workers (sy_manager s)) !! sy_conn s = Some wc;
  sg_run : runs (ents (sy_manager s)) !! runID = Some run;
  sg_streams : streams s "" "";
}.

Lemma acts_app s l1 l2 s1 : acts s l1 = Some s1 → acts s (l1 ++ l2) = acts s1 l2.
Proof. unfold System.acts. intros E. by rewrite foldl_app, E. Qed.

Lemma manager_out_conn m a wc : wp_conns (mg_workers m) !! a = Some wc → manager_out m a = conn_out (wc_conn wc).
Proof. unfold manager_out. by intros ->. Qed.

Lemma manager_out_same m m' a : mg_workers m' = mg_workers m → manager_out m' a = manager_out m a ++ [].
Proof. unfold manager_out. intros ->. by rewrite app_nil_r. Qed.

(** A message that leaves the connections alone, at the head of the worker's output. *)
Lemma quiet_message s tm f rest fr msg now m' : streams s "" tm → tm = f +:+ rest → rd_next tm = Some (Ok fr, rest) →
  (message_factory (fr_Verb fr) ≫= λ g, match g fr with Ok x => Some x | Err _ => None end) = Some msg →
  handleWorkerMessage cfg (sy_manager s) (sy_conn s) msg now = Some m' → mg_workers m' = mg_workers (sy_manager s) →
  ∃ s', act s (ManagerReads now) = Some s' ∧ sy_manager s' = m' ∧ sy_worker s' = sy_worker s ∧
    sy_conn s' = sy_conn s ∧ streams s' "" rest.
Proof.
  intros Hs Hf Hr Hm Hh Hw.
  destruct (manager_reads_spec cfg sha256_hex goos s "" tm f rest fr msg now m' [] Hs Hf Hr Hm Hh) as (s' & ? & ? & ? & ? & ?);
    [by apply manager_out_same|]. by exists s'.
Qed.

(** Frames about a run as the manager reads them. *)
Lemma staged_frame id run fl : fl_Lookup fl "job-id" = Some id → fl_Lookup fl "run-id" = Some run → id ≠ "" → run ≠ "" →
  (message_factory "staged" ≫= λ g, match g (MkFrame "staged" fl "") with Ok x => Some x | Err _ => None end) = Some (MStaged id run).
Proof.
  intros Hi Hr Hid Hrun. change (message_factory "staged") with (Some (stagedV0Factory (FL := FL))). cbn [mbind option_bind].
  unfold stagedV0Factory. cbn [fr_Flags]. by rewrite (requireFlag_value fl _ _ Hi Hid), (requireFlag_value fl _ _ Hr Hrun).
Qed.

Lemma starting_frame id run fl : fl_Lookup fl "job-id" = Some id → fl_Lookup fl "run-id" = Some run → id ≠ "" → run ≠ "" →
  (message_factory "starting" ≫= λ g, match g (MkFrame "starting" fl "") with Ok x => Some x | Err _ => None end) = Some (MStarting id run).
Proof.
  intros Hi Hr Hid Hrun. change (message_factory "starting") with (Some (startingV0Factory (FL := FL))). cbn [mbind option_bind].
  unfold startingV0Factory. cbn [fr_Flags]. by rewrite (requireFlag_value fl _ _ Hi Hid), (requireFlag_value fl _ _ Hr Hrun).
Qed.

Lemma log_frame id run line fl : fl_Lookup fl "job-id" = Some id → fl_Lookup fl "run-id" = Some run → id ≠ "" → run ≠ "" →
  (message_factory "log" ≫= λ g, match g (MkFrame "log" fl line) with Ok x => Some x | Err _ => None end) = Some (MLog id run line).
Proof.
  intros Hi Hr Hid Hrun. change (message_factory "log") with (Some (logV0Factory (FL := FL))). cbn [mbind option_bind].
  unfold logV0Factory. cbn [fr_Flags fr_Payload]. by rewrite (requireFlag_value fl _ _ Hi Hid), (requireFlag_value fl _ _ Hr Hrun).
Qed.

(** The task starts and the manager learns of it. *)
Lemma start_life s job wc runID run i j ft d (now : nat → Time) : stage s job wc runID run →
  connected (sy_worker s) → w_running (sy_worker s) !! i = Some j → rj_started j = false →
  dm_JobID (rj_dispatch j) = job_ID job → dm_RunID (rj_dispatch j) = runID →
  word (job_ID job) = true → job_ID job ≠ "" → word runID = true → runID ≠ "" →
  (∃ path, (Fetch sha256_hex goos (w_artifactCache (sy_worker s)) (pm_ArtifactHash (rj_proposal j))
     (pm_ArtifactURL (rj_proposal j)) ft d).2 = Ok path) → text_fits (log_header (sy_worker s) j (now 0)) →
  ∃ s', acts s [StartTask i ft d (now 0); ManagerReads (now 1); ManagerReads (now 2)] = Some s' ∧
    stage s' (job <| job_Status := JobStatusRunning |> <| job_UpdatedAt := now 1 |>) wc runID
      (run <| run_Status := RunStatusRunning |> <| run_StartedAt := now 1 |>) ∧
    sy_conn s' = sy_conn s ∧ connected (sy_worker s') ∧
    w_running (sy_worker s') = alter (λ j, j <| rj_started := true |>) i (w_running (sy_worker s)) ∧
    w_tasks (sy_worker s') = w_tasks (sy_worker s) ∧ w_usedCap (sy_worker s') = w_usedCap (sy_worker s) ∧
    worker_kept (sy_worker s) (sy_worker s') ∧
    w_artifactCache (sy_worker s') = (Fetch sha256_hex goos (w_artifactCache (sy_worker s)) (pm_ArtifactHash (rj_proposal j))
      (pm_ArtifactURL (rj_proposal j)) ft d).1 ∧
    kept (sy_conn s) 1 (sy_manager s) (sy_manager s').
Proof.
  intros [Hm Hj Hc Hr Hst] Hcon Hi Hns Hdj Hdr Hid Hidn Hrun Hrunn Hf Hfit.
  destruct (start_stage sha256_hex goos (sy_worker s) i j ft d (now 0) Hcon Hi Hns Hf) as (w1 & Hw1 & Hc1 & Ho1 & _ & T1 & U1 & S1 & _ & _ & R1 & Kw & F1).
  rewrite Hdj, Hdr in Ho1.
  destruct (run_parsed "starting" (job_ID job) runID) as (f1 & P1 & J1 & K1); [done..|].
  destruct (run_parsed "log" (job_ID job) runID) as (f2 & P2 & J2 & K2); [done..|].
  set (head := log_header (sy_worker s) j (now 0)) in *.
  set (line1 := render_line "starting" (run_args (job_ID job) runID)) in *.
  set (line2 := render_line "log" (run_args (job_ID job) runID)) in *.
  assert (outputs w1 = outputs (sy_worker s) ++ [line1 +:+ newline] ++ [payload_header line2 head; head]) as Ho.
  { rewrite Ho1. unfold framed, payload_header, line1, line2, log_line_header. by rewrite <- !run_render, Hdj, Hdr, !str_app_assoc. }
  pose proof (worker_acts s "" "" w1 _ Hst Ho) as Hst1. rewrite str_concat_app in Hst1. change ("" +:+ ?x) with x in Hst1.
  set (s1 := with_worker_ s w1) in *.
  destruct (starting_stage cfg (sy_manager s) (sy_conn s) job runID run (now 1) Hm Hj Hrunn Hr) as (m2 & Hh2 & Hm2 & W2 & R2 & Jb2).
  destruct (quiet_message s1 _ (str_concat [line1 +:+ newline]) (str_concat [payload_header line2 head; head])
    (MkFrame "starting" f1 "") (MStarting (job_ID job) runID) (now 1) m2 Hst1 eq_refl) as (s2 & A2 & M2 & Wk2 & C2 & Hst2);
    [by apply line_next; [apply run_plain|]|by apply starting_frame|exact Hh2|exact W2|].
  destruct (log_stage cfg m2 (sy_conn s) (job_ID job) runID head (now 2) Hm2) as (m3 & Hh3 & Hm3 & W3 & E3).
  destruct (quiet_message s2 _ (str_concat [payload_header line2 head; head]) "" (MkFrame "log" f2 head)
    (MLog (job_ID job) runID head) (now 2) m3 Hst2) as (s3 & A3 & M3 & Wk3 & C3 & Hst3);
    [by rewrite str_app_nil_r| |by apply log_frame|by rewrite M2, C2|by rewrite M2|].
  { rewrite <- (str_app_nil_r (str_concat _)). by apply payload_next; [apply run_plain|..]. }
  exists s3. split.
  { erewrite acts_cons; [|cbn [System.act]; rewrite Hw1; reflexivity]. erewrite acts_cons; [|exact A2]. by erewrite acts_cons; [|exact A3]. }
  rewrite C3, C2, Wk3, Wk2. split; [split; rewrite ?M3, ?C3, ?C2, ?E3, ?W3, ?W2; try done|]. split_and!; try done.
  rewrite M3. injection Hh2 as <-. injection Hh3 as <-.
  apply (kept_trans _ 1 0 _ _ _ (kept_starting (sy_manager s) (sy_conn s) (job_ID job) runID (now 1))), kept_log.
Qed.

(** The task ends: the worker writes the foot of the log and the report, the manager reads the log and has the report
    before it; once that is handled nothing is left unread. *)
Lemma report_life s id runID i j t p dur (now : nat → Time) msg : manager_ok (sy_manager s) → streams s "" "" →
  connected (sy_worker s) → w_running (sy_worker s) !! i = Some j → rj_started j = true →
  aws_Load (w_state (sy_worker s)) = WorkerStateOnline → w_tasks (sy_worker s) !! id = Some t →
  dm_JobID (rj_dispatch j) = id → dm_RunID (rj_dispatch j) = runID →
  word id = true → id ≠ "" → word runID = true → runID ≠ "" → duration_reads dur →
  let r := RunTask (pm_NoResult (rj_proposal j)) p in let body := (result_message j r dur).2 in
  match r with Err (exitError code _) => in_int64 code | _ => True end → reported j r dur = Ok msg →
  text_fits body → text_fits (log_footer (result_status r) (now 0) dur body) →
  ∃ s2, acts s [EndTask i p (now 0) dur; ManagerReads (now 1)] = Some s2 ∧ sy_conn s2 = sy_conn s ∧ manager_ok (sy_manager s2) ∧
    mg_workers (sy_manager s2) = mg_workers (sy_manager s) ∧ ents (sy_manager s2) = ents (sy_manager s) ∧
    kept (sy_conn s) 0 (sy_manager s) (sy_manager s2) ∧ connected (sy_worker s2) ∧
    w_tasks (sy_worker s2) = delete id (w_tasks (sy_worker s)) ∧ w_usedCap (sy_worker s2) = (w_usedCap (sy_worker s) -! at_cost t)%go ∧
    w_running (sy_worker s2) = delete i (w_running (sy_worker s)) ∧ worker_kept (sy_worker s) (sy_worker s2) ∧
    w_artifactCache (sy_worker s2) = w_artifactCache (sy_worker s) ∧
    ∀ m3, handleWorkerMessage cfg (sy_manager s2) (sy_conn s) msg (now 2) = Some m3 →
      manager_out m3 (sy_conn s) = manager_out (sy_manager s2) (sy_conn s) →
      ∃ s3, act s2 (ManagerReads (now 2)) = Some s3 ∧ sy_manager s3 = m3 ∧ sy_worker s3 = sy_worker s2 ∧ sy_conn s3 = sy_conn s ∧ streams s3 "" "".
Proof.
  intros Hm Hst Hcon Hi Hs Hon Ht Hdj Hdr Hid Hidn Hrun Hrunn Hdur r body Hcode Hrep Hfit1 Hfit2.
  rewrite <- Hdj in Ht. destruct (end_stage (sy_worker s) i j t p (now 0) dur Hcon Hi Hs Hon Ht)
    as (w1 & Hw1 & Hc1 & Ho1 & T1 & U1 & R1 & _ & Kw1 & F1). fold r in Ho1. fold body in Ho1. rewrite Hdj in T1.
  pose proof (result_header j r dur) as Hhead. rewrite Hdj, Hdr in Hhead.
  assert (word (result_typ r).1 = true) as Htyp by (destruct r as [[[? ?] ?]|]; cbn; [by case_bool_decide|done]).
  destruct (result_parsed id runID (result_typ r).1 (result_typ r).2 dur) as (f2 & P2 & L1 & L2 & L3 & L4 & L5 & L6 & L7); [done..|apply Hdur|].
  destruct (run_parsed "log" id runID) as (f1 & P1 & J1 & K1); [done..|].
  assert (Hres : resultV0Factory (MkFrame "result" f2 body) = Ok msg).
  { unfold body. rewrite (result_read f2 j r dur); rewrite ?Hdj, ?Hdr; done. }
  rewrite Hhead in Ho1. set (foot := log_footer (result_status r) (now 0) dur body) in *.
  set (line1 := render_line "log" (run_args id runID)) in *.
  set (line2 := render_line "result" (result_args id runID (result_typ r).1 (result_typ r).2 dur)) in *.
  assert (outputs w1 = outputs (sy_worker s) ++ [payload_header line1 foot; foot] ++ [payload_header line2 body; body]) as Ho.
  { rewrite Ho1. unfold framed, payload_header, line1, log_line_header. by rewrite <- !run_render, Hdj, Hdr. }
  pose proof (worker_acts s "" "" w1 _ Hst Ho) as Hst1. rewrite str_concat_app in Hst1. change ("" +:+ ?x) with x in Hst1.
  set (s1 := with_worker_ s w1) in *.
  destruct (log_stage cfg (sy_manager s) (sy_conn s) id runID foot (now 1) Hm) as (m2 & Hh2 & Hm2 & W2 & E2).
  destruct (quiet_message s1 _ (str_concat [payload_header line1 foot; foot]) (str_concat [payload_header line2 body; body])
    (MkFrame "log" f1 foot) (MLog id runID foot) (now 1) m2 Hst1 eq_refl) as (s2 & A2 & M2 & Wk2 & C2 & Hst2);
    [by apply payload_next; [apply run_plain|..]|by apply log_frame|exact Hh2|exact W2|].
  exists s2. split.
  { erewrite acts_cons; [|cbn [System.act]; rewrite Hw1; reflexivity]. by erewrite acts_cons; [|exact A2]. }
  rewrite M2, Wk2, C2. split_and!; try done.
  { injection Hh2 as <-. apply kept_log. }
  intros m3 Hh3 Ho3.
  destruct (manager_reads_spec cfg sha256_hex goos s2 "" _ (str_concat [payload_header line2 body; body]) "" (MkFrame "result" f2 body)
    msg (now 2) m3 [] Hst2) as (s3 & A3 & M3 & Wk3 & C3 & Hst3); [by rewrite str_app_nil_r| | |by rewrite M2, C2|by rewrite M2, C2, app_nil_r|].
  { rewrite <- (str_app_nil_r (str_concat _)). apply payload_next; [apply result_plain; try done; apply Hdur|exact P2|done]. }
  { change (message_factory (fr_Verb (MkFrame "result" f2 body))) with (Some (resultV0Factory (FL := FL))). cbn [mbind option_bind]. by rewrite Hres. }
  exists s3. rewrite C3, C2, Wk3, Wk2. by split_and!.
Qed.

(** The task ends and the manager completes the job. *)
Lemma end_life s job wc runID run i j t p result stderr dur (now : nat → Time) : stage s job wc runID run →
  (∀ ns, lane_error ns = None) → IsTerminal (job_Status job) = false →
  connected (sy_worker s) → w_running (sy_worker s) !! i = Some j → rj_started j = true →
  aws_Load (w_state (sy_worker s)) = WorkerStateOnline → w_tasks (sy_worker s) !! job_ID job = Some t →
  dm_JobID (rj_dispatch j) = job_ID job → dm_RunID (rj_dispatch j) = runID →
  word (job_ID job) = true → job_ID job ≠ "" → word runID = true → runID ≠ "" → duration_reads dur →
  RunTask (pm_NoResult (rj_proposal j)) p = Ok (result, "", stderr) →
  text_fits result → text_fits (log_footer "success" (now 0) dur result) →
  ∃ s' run', acts s [EndTask i p (now 0) dur; ManagerReads (now 1); ManagerReads (now 2)] = Some s' ∧
    stage s' (complete_job result (now 2) job) (CompleteTask wc (job_ID job) (job_Cost job) (now 2)) runID run' ∧
    run_Status run' = RunStatusCompleted ∧ run_OutputPayload run' = result ∧ sy_conn s' = sy_conn s ∧
    w_tasks (sy_worker s') = delete (job_ID job) (w_tasks (sy_worker s)) ∧
    w_usedCap (sy_worker s') = (w_usedCap (sy_worker s) -! at_cost t)%go ∧
    w_running (sy_worker s') = delete i (w_running (sy_worker s)).
Proof.
  intros [Hm Hj Hc Hr Hst] Hopen Hterm Hcon Hi Hs Hon Ht Hdj Hdr Hid Hidn Hrun Hrunn Hdur Hp Hfit1 Hfit2.
  pose proof (report_life s (job_ID job) runID i j t p dur now (MResult (MkResultMessage "" (job_ID job) runID ResultSuccess dur "" "" 0 [] result))
    Hm Hst Hcon Hi Hs Hon Ht Hdj Hdr Hid Hidn Hrun Hrunn Hdur) as HR. cbn zeta in HR. rewrite Hp in HR.
  destruct HR as (s2 & A2 & C2 & Hm2 & W2 & E2 & _ & _ & T2 & U2 & R2 & _ & _ & Hread);
    [done| |done|done|].
  { unfold reported. change (bool_decide ("" ≠ "")) with false. cbv beta iota zeta. by rewrite Hdj, Hdr. }
  destruct (result_stage cfg (sy_manager s2) (sy_conn s) wc job runID run dur result (now 2) Hm2 Hopen)
    as (m3 & run' & Hh3 & Hm3 & Wc3 & Jb3 & R3 & Rs3 & Ro3); [by rewrite W2|by rewrite E2|done|done|by rewrite E2|].
  destruct (Hread m3 Hh3) as (s3 & A3 & M3 & Wk3 & C3 & Hst3); [erewrite !manager_out_conn; [|by rewrite W2|exact Wc3]; done|].
  exists s3, run'. split; [exact (eq_trans (acts_app s [_; _] [_] s2 A2) (acts_cons _ _ _ _ _ _ [] A3))|].
  rewrite C3, Wk3. split; [split; rewrite ?M3, ?C3; done|]. by split_and!.
Qed.

(** What a failed attempt is reported as. *)
Definition fail_code (e : run_error) : Z := match e with exitError code _ => code | otherError _ => 0%Z end.
Definition fail_reason (e : run_error) : string := match e with exitError _ reason => reason | otherError text => text end.

Definition failure_report (id runID : string) (e : run_error) (dur : Duration) : ResultMessage :=
  MkResultMessage "" id runID ResultError dur "" (fail_reason e) (fail_code e) [] "".

(** The task fails and the manager sets a timer for the next attempt. *)
Lemma fail_life s job wc runID run i j t p e dur (now : nat → Time) : stage s job wc runID run →
  (∀ ns, lane_error ns = None) → IsTerminal (job_Status job) = false →
  connected (sy_worker s) → w_running (sy_worker s) !! i = Some j → rj_started j = true →
  aws_Load (w_state (sy_worker s)) = WorkerStateOnline → w_tasks (sy_worker s) !! job_ID job = Some t →
  dm_JobID (rj_dispatch j) = job_ID job → dm_RunID (rj_dispatch j) = runID →
  word (job_ID job) = true → job_ID job ≠ "" → word runID = true → runID ≠ "" → duration_reads dur →
  RunTask (pm_NoResult (rj_proposal j)) p = Err e → in_int64 (fail_code e) →
  text_fits (fail_reason e) → text_fits (log_footer "failed" (now 0) dur (fail_reason e)) →
  permanent cfg (sy_manager s) job (failure_report (job_ID job) runID e dur) = false →
  let attempts := wrap64 (job_Attempts job + 1) in
  ∃ s' run', acts s [EndTask i p (now 0) dur; ManagerReads (now 1); ManagerReads (now 2)] = Some s' ∧
    stage s' (record_attempt attempts (fail_reason e) (now 2) job) (CompleteTask wc (job_ID job) (job_Cost job) (now 2)) runID run' ∧
    run_Status run' = RunStatusFailed ∧ run_FailureReason run' = fail_reason e ∧ sy_conn s' = sy_conn s ∧ connected (sy_worker s') ∧
    w_tasks (sy_worker s') = delete (job_ID job) (w_tasks (sy_worker s)) ∧
    w_usedCap (sy_worker s') = (w_usedCap (sy_worker s) -! at_cost t)%go ∧
    w_running (sy_worker s') = delete i (w_running (sy_worker s)) ∧ worker_kept (sy_worker s) (sy_worker s') ∧
    w_artifactCache (sy_worker s') = w_artifactCache (sy_worker s) ∧
    let timers := mg_timers (sy_manager s) ++
      [MkRetryTimer (now 2%nat + retryDelay (effective_policy cfg (sy_manager s) job) attempts)%Z (job_ID job)] in
    mg_timers (sy_manager s') = timers ∧ kept (sy_conn s) 0 (NotifyDispatcher (sy_manager s) <| mg_timers := timers |>) (sy_manager s').
Proof.
  intros [Hm Hj Hc Hr Hst] Hopen Hterm Hcon Hi Hs Hon Ht Hdj Hdr Hid Hidn Hrun Hrunn Hdur Hp Hcode Hfit1 Hfit2 Hperm attempts.
  pose proof (report_life s (job_ID job) runID i j t p dur now (MResult (failure_report (job_ID job) runID e dur))
    Hm Hst Hcon Hi Hs Hon Ht Hdj Hdr Hid Hidn Hrun Hrunn Hdur) as HR. cbn zeta in HR. rewrite Hp in HR.
  assert ((result_message j (Err e) dur).2 = fail_reason e) as Hbody by by destruct e. rewrite Hbody in HR.
  destruct HR as (s2 & A2 & C2 & Hm2 & W2 & E2 & K2 & Co2 & T2 & U2 & R2 & Kw2 & F2 & Hread); [by destruct e| |done|done|].
  { unfold reported. destruct e; cbn zeta; by rewrite Hdj, Hdr. }
  assert (∀ x, effective_policy cfg (sy_manager s2) x = effective_policy cfg (sy_manager s) x) as Hpol
    by (intros x; unfold effective_policy; by rewrite E2).
  destruct (error_stage cfg (sy_manager s2) (sy_conn s) wc job runID run dur (fail_reason e) (fail_code e) (now 2) Hm2 Hopen)
    as (m3 & run' & Hh3 & Hm3 & Wc3 & Jb3 & R3 & Rs3 & Ro3 & Tm3 & K3); [by rewrite W2|by rewrite E2|done|done|by rewrite E2| |].
  { revert Hperm. unfold permanent, failure_report. cbn [rm_ExitCode]. by rewrite Hpol. }
  destruct (Hread m3 Hh3) as (s3 & A3 & M3 & Wk3 & C3 & Hst3); [erewrite !manager_out_conn; [|by rewrite W2|exact Wc3]; done|].
  rewrite Hpol, (kp_timers _ _ _ _ K2) in Tm3.
  exists s3, run'. split; [exact (eq_trans (acts_app s [_; _] [_] s2 A2) (acts_cons _ _ _ _ _ _ [] A3))|].
  rewrite C3, Wk3. split; [split; rewrite ?M3, ?C3; done|]. split_and!; try done. cbn zeta. rewrite M3. split; [exact Tm3|].
  rewrite Tm3 in K3. eapply (kept_trans _ 0 0); [|exact K3]. destruct K2 as [Kq Kc Kt Kd _ _ _ _ Ku]. split; cbn; rewrite ?W2; done.
Qed.

(** The manager reads the worker's acceptance and answers with the dispatch. *)
Lemma accept_life s job wc (now : Time) : manager_ok (sy_manager s) →
  wp_conns (mg_workers (sy_manager s)) !! sy_conn s = Some wc → conn_usable (wc_conn wc) = true →
  jobs (ents (sy_manager s)) !! job_ID job = Some job → job_Phase job = JobPhaseRun → word (job_ID job) = true → job_ID job ≠ "" →
  streams s "" (str_concat ["accept --job-id=" +:+ job_ID job +:+ newline]) →
  let runID := ulid (wd_ulids (mg_webhooks (sy_manager s))) in
  let job' := job <| job_Status := JobStatusAccepted |> <| job_UpdatedAt := now |> in
  let data := [payload_header (FormulateDispatchV0Message job' runID) (job_Payload job); job_Payload job] in
  ∃ s' run, act s (ManagerReads now) = Some s' ∧ manager_ok (sy_manager s') ∧
    wp_conns (mg_workers (sy_manager s')) !! sy_conn s = Some (sent wc data) ∧ jobs (ents (sy_manager s')) !! job_ID job = Some job' ∧
    runs (ents (sy_manager s')) !! runID = Some run ∧ sy_worker s' = sy_worker s ∧ sy_conn s' = sy_conn s ∧
    streams s' (str_concat data) "" ∧ kept (sy_conn s) 1 (sy_manager s) (sy_manager s').
Proof.
  intros Hm Hc Hu Hj Hph Hidw Hid Hst runID job' data. destruct (accept_read (job_ID job) Hidw Hid) as (fa & Ha & Hacc).
  assert ("accept --job-id=" +:+ job_ID job = render_line "accept" [("job-id", Some (job_ID job))]) as Hline
    by (unfold render_line, str_concat; cbn; by rewrite str_app_nil_r).
  destruct (accept_stage cfg (sy_manager s) (sy_conn s) wc job now Hm Hc Hu Hj Hph) as (m1 & run & Hh1 & Hm1 & C1 & J1 & R1 & _).
  fold runID job' data in C1, J1, R1.
  destruct (manager_reads_spec cfg sha256_hex goos s "" _ (str_concat ["accept --job-id=" +:+ job_ID job +:+ newline]) ""
    (MkFrame "accept" fa "") (MAccept (job_ID job)) now m1 data Hst) as (s1 & A1 & M1 & Wk1 & Cn1 & Hst1).
  { by rewrite str_app_nil_r. }
  { rewrite <- (str_app_nil_r (str_concat _)), <- (str_app_assoc "accept --job-id="), Hline. rewrite Hline in Ha. apply line_next; [|exact Ha].
    split; [done|]. apply Forall_singleton. unfold word_arg. cbn. by rewrite Hidw. }
  { change (message_factory (fr_Verb (MkFrame "accept" fa ""))) with (Some (acceptV0Factory (FL := FL))). cbn [mbind option_bind].
    by rewrite Hacc. }
  { exact Hh1. }
  { by erewrite !manager_out_conn; [|exact Hc|exact C1]. }
  exists s1, run. rewrite M1. split_and!; try done. injection Hh1 as <-. apply kept_accept.
Qed.

(** The worker's acceptance leads to a dispatch, and the dispatch to a staged run. *)
Lemma dispatch_life s job wc p lookpath (now : nat → Time) : manager_ok (sy_manager s) →
  wp_conns (mg_workers (sy_manager s)) !! sy_conn s = Some wc → conn_usable (wc_conn wc) = true →
  jobs (ents (sy_manager s)) !! job_ID job = Some job → job_Phase job = JobPhaseRun →
  word (job_ID job) = true → job_ID job ≠ "" → in_int64 (job_Attempts job) → text_fits (job_Payload job) →
  (∀ n, word (ulid n) = true) → connected (sy_worker s) → w_pendingJobs (sy_worker s) !! job_ID job = Some p →
  streams s "" (str_concat ["accept --job-id=" +:+ job_ID job +:+ newline]) →
  let runID := ulid (wd_ulids (mg_webhooks (sy_manager s))) in
  ∃ s' run data, acts s [ManagerReads (now 0); WorkerReads lookpath (now 1); ManagerReads (now 2)] = Some s' ∧
    stage s' (job <| job_Status := JobStatusProvisioning |> <| job_UpdatedAt := now 2 |>) (sent wc data) runID run ∧
    sy_conn s' = sy_conn s ∧
    sy_worker s' = (wrote (dispatched (sy_worker s) (dispatch_of job runID (job_Payload job)) p)
      ["staged --job-id=" +:+ job_ID job +:+ " --run-id=" +:+ runID +:+ newline])
      <| w_running := w_running (sy_worker s) ++ [MkRunningJob p (dispatch_of job runID (job_Payload job)) "" false] |> ∧
    kept (sy_conn s) 1 (sy_manager s) (sy_manager s').
Proof.
  intros Hm Hc Hu Hj Hph Hidw Hid Hatt Hpay Hul Hcon Hpend Hst runID.
  assert (runID ≠ "" ∧ word runID = true) as [Hrunn Hrun] by (split; [apply ulid_nonempty|apply Hul]).
  destruct (accept_life s job wc (now 0) Hm Hc Hu Hj Hph Hidw Hid Hst) as (s1 & run & A1 & Hm1 & C1 & J1 & R1 & Wk1 & Cn1 & Hst1 & Hk1).
  set (job' := job <| job_Status := JobStatusAccepted |> <| job_UpdatedAt := now 0 |>) in *. fold runID in C1, R1, Hst1.
  set (header := FormulateDispatchV0Message job' runID) in *.
  destruct (dispatch_parsed job' runID Hidw Hrun) as (fd & Hd & D1 & D2 & D3 & D4 & D5).
  pose proof (handleDispatch_starts (sy_worker s) (dispatch_of job runID (job_Payload job)) p Hcon Hpend) as Hds.
  match type of Hds with _ = Some ?x => set (w2 := x) in Hds end.
  set (line3 := render_line "staged" (run_args (job_ID job) runID)).
  destruct (worker_reads_spec cfg sha256_hex goos s1 _ "" (str_concat [payload_header header (job_Payload job); job_Payload job]) ""
    (MkFrame "dispatch" fd (job_Payload job)) lookpath (now 1) w2 [line3 +:+ newline] Hst1) as (s2 & A2 & M2 & Wk2 & Cn2 & Hst2).
  { by rewrite str_app_nil_r. }
  { rewrite <- (str_app_nil_r (str_concat _)). unfold header. rewrite FormulateDispatch_render.
    apply payload_next; [by apply dispatch_plain|by rewrite <- FormulateDispatch_render|done]. }
  { rewrite Wk1. unfold serve_frame. cbn [fr_Verb]. change (message_factory "dispatch") with (Some (dispatchV0Factory (FL := FL))). cbv beta iota.
    rewrite (dispatch_read fd job' runID (job_Payload job)) by done. exact Hds. }
  { rewrite Wk1. unfold w2. change (outputs (?x <| w_running := ?r |>)) with (outputs x). rewrite wrote_outputs by exact Hcon.
    unfold line3. rewrite <- run_render. unfold job_flags. by rewrite !str_app_assoc. }
  change ("" +:+ ?x) with x in Hst2.
  destruct (staged_stage cfg (sy_manager s1) (sy_conn s) job' runID (now 2) Hm1 J1) as (m3 & Hh3 & Hm3 & W3 & R3 & J3).
  destruct (run_parsed "staged" (job_ID job) runID) as (f3 & P3 & L3 & K3); [done..|].
  destruct (quiet_message s2 _ (str_concat [line3 +:+ newline]) "" (MkFrame "staged" f3 "") (MStaged (job_ID job) runID) (now 2) m3 Hst2)
    as (s3 & A3 & M3 & Wk3 & C3 & Hst3).
  { by rewrite str_app_nil_r. }
  { rewrite <- (str_app_nil_r (str_concat _)). by apply line_next; [apply run_plain|]. }
  { by apply staged_frame. }
  { rewrite M2, Cn2, Cn1. exact Hh3. }
  { by rewrite M2. }
  exists s3, run, [payload_header header (job_Payload job); job_Payload job]. split.
  { erewrite acts_cons; [|exact A1]. erewrite acts_cons; [|exact A2]. by erewrite acts_cons; [|exact A3]. }
  rewrite C3, Cn2, Cn1, Wk3, Wk2. split; [split; rewrite ?M3, ?C3, ?Cn2, ?Cn1, ?W3, ?R3; try done|]. split_and!; try done.
  rewrite M3. injection Hh3 as <-. apply (kept_trans _ 1 0 _ _ _ Hk1), kept_staged.
Qed.

(** What it takes to run a job on a worker: the manager holds the job and a connection with the room
    for it, the worker may accept it, and what is written is made of plain words and sizes that fit. *)
Record proposable s job (task : Task) (art : ArtifactInfo) (lookpath : string → bool) (wc wc1 : WorkerConn SS) : Prop := {
  pr_ok : manager_ok (sy_manager s);
  pr_lanes : ∀ ns, lane_error ns = None;
  pr_conn : wp_conns (mg_workers (sy_manager s)) !! sy_conn s = Some wc;
  pr_usable : conn_usable (wc_conn wc) = true;
  pr_room : AssignTask wc (job_ID job) (job_Cost job) = Ok wc1;
  pr_job : jobs (ents (sy_manager s)) !! job_ID job = Some job;
  pr_phase : job_Phase job = JobPhaseRun;
  pr_words : propose_words job art;
  pr_named : job_ID job ≠ "" ∧ job_TaskName job ≠ "" ∧ ai_Hash art ≠ "" ∧ ai_URL art ≠ "";
  pr_sizes : in_int64 (job_Cost job) ∧ in_int64 (job_Attempts job) ∧ text_fits (job_Payload job);
  pr_ulids : ∀ n, word (ulid n) = true;
  pr_connected : connected (sy_worker s);
  pr_accepts : may_accept (sy_worker s) lookpath (proposal_of job task art);
  pr_streams : streams s "" "";
}.

(** The job is proposed, accepted, dispatched and staged. *)
Lemma propose_life s q job task art lookpath wc wc1 (now : nat → Time) : proposable s job task art lookpath wc wc1 → queued_as q job →
  let runID := ulid (wd_ulids (mg_webhooks (propose_to (sy_manager s) q task (sy_conn s) wc art (now 0)).1)) in
  ∃ s' run d1 d2, let wc' := sent (UpdateHeartbeat (sent wc1 d1) (now 0)) d2 in
    acts s [Propose q task art (now 0); WorkerReads lookpath (now 1); ManagerReads (now 2);
      WorkerReads lookpath (now 3); ManagerReads (now 4)] = Some s' ∧
    stage s' (job <| job_Status := JobStatusProvisioning |> <| job_UpdatedAt := now 4 |>) wc' runID run ∧
    sy_conn s' = sy_conn s ∧ connected (sy_worker s') ∧
    w_running (sy_worker s') = w_running (sy_worker s) ++
      [MkRunningJob (proposal_of job task art) (dispatch_of job runID (job_Payload job)) "" false] ∧
    w_tasks (sy_worker s') = <[job_ID job := MkActiveTask false (job_Cost job) runID]> (w_tasks (sy_worker s)) ∧
    w_usedCap (sy_worker s') = (w_usedCap (sy_worker s) +! job_Cost job)%go ∧
    worker_kept (sy_worker s) (sy_worker s') ∧ w_artifactCache (sy_worker s') = w_artifactCache (sy_worker s) ∧
    kept (sy_conn s) 2 (sy_manager s) (sy_manager s').
Proof.
  intros [Hm Hopen Hc Hu Hroom Hj Hph Hw (Hid & Htask & Hhash & Hurl) (Hcost & Hatt & Hpay) Hul Hcon Hacc Hst] Hq.
  pose proof Hw as (Hidw & _).
  destruct (propose_stage (sy_manager s) q job task (sy_conn s) wc wc1 art (now 0) Hm Hopen Hq Hc Hu Hj Hroom) as (m1 & Hp1 & Hm1 & Kp1 & C1 & J1).
  assert (conn_usable (wc_conn wc1) = true ∧ conn_out (wc_conn wc1) = conn_out (wc_conn wc)) as [Hu1 Hout1].
  { revert Hroom. unfold AssignTask. do 2 (case_match; [done|]). by intros [= <-]. }
  set (line1 := FormulateProposeV0Message job task art) in *.
  pose proof (manager_acts s "" "" m1 [line1 +:+ newline] Hst) as Hst1. change ("" +:+ ?x) with x in Hst1.
  specialize (Hst1 ltac:(erewrite !manager_out_conn; [|exact Hc|exact C1]; cbn; by rewrite Hout1)).
  set (s1 := with_manager s m1) in *.
  assert (act s (Propose q task art (now 0)) = Some s1) as A1 by (cbn [System.act]; rewrite Hc; cbn [mbind option_bind]; by rewrite Hp1).
  destruct (propose_parsed job task art Hw) as (fp & Hp & L1 & L2 & L3 & L4 & L5 & L6 & L7 & L8).
  destruct (handlePropose_accepts (sy_worker s) lookpath (proposal_of job task art) Hcon Hacc) as (known & Hk & Hdeps).
  set (w2 := after_accept (sy_worker s) known (proposal_of job task art)) in *.
  destruct (accept_read (job_ID job) Hidw Hid) as (fa & Ha & Hacc2).
  set (line2 := "accept --job-id=" +:+ job_ID job) in *.
  destruct (worker_reads_spec cfg sha256_hex goos s1 _ "" (str_concat [line1 +:+ newline]) "" (MkFrame "propose" fp "") lookpath (now 1) w2
    [line2 +:+ newline] Hst1) as (s2 & A2 & M2 & Wk2 & Cn2 & Hst2).
  { by rewrite str_app_nil_r. }
  { rewrite <- (str_app_nil_r (str_concat _)). unfold line1. rewrite FormulatePropose_render.
    apply line_next; [by apply propose_plain|by rewrite <- FormulatePropose_render]. }
  { unfold serve_frame. cbn [fr_Verb]. change (message_factory "propose") with (Some (proposeV0Factory (FL := FL))). cbv beta iota.
    rewrite (propose_read fp job art (task_NoResult task) "") by assumption. exact Hk. }
  { unfold w2, after_accept. rewrite wrote_outputs by exact Hcon. unfold line2. by rewrite str_app_assoc. }
  assert (connected w2) as Hc2 by (unfold w2, after_accept; by apply wrote_connected).
  destruct (dispatch_life s2 (job <| job_Status := JobStatusProposing |>) (UpdateHeartbeat (sent wc1 [line1 +:+ newline]) (now 0))
    (proposal_of job task art) lookpath (λ k, now (2 + k))) as (s5 & run & data & A5 & St5 & Cn5 & Wk5 & Kp5);
    rewrite ?M2, ?Cn2, ?Wk2; try done; [apply lookup_insert_eq|].
  rewrite M2 in St5, Wk5, Kp5. rewrite Cn2 in Kp5. rewrite Hp1. cbn [fst]. exists s5, run, [line1 +:+ newline], data.
  split; [by rewrite (acts_cons _ _ _ _ _ _ _ A1), (acts_cons _ _ _ _ _ _ _ A2)|].
  split; [exact St5|]. rewrite Wk5, Wk2, Cn5, Cn2. split_and!; try done.
  - by apply wrote_connected.
  - exact (kept_trans _ 1 1 _ _ _ Kp1 Kp5).
Qed.

(** The events of the job's life after the proposal, and with it, in order. *)
Definition rest_of_life (lookpath : string → bool) (i : nat) (ft : Time) (d : Download) (p : process) (dur : Duration)
    (now : nat → Time) : list action :=
  [WorkerReads lookpath (now 1); ManagerReads (now 2); WorkerReads lookpath (now 3); ManagerReads (now 4)] ++
  [StartTask i ft d (now 5); ManagerReads (now 6); ManagerReads (now 7)] ++
  [EndTask i p (now 8) dur; ManagerReads (now 9); ManagerReads (now 10)].

Definition life_of job (task : Task) (art : ArtifactInfo) (lookpath : string → bool) (i : nat) (ft : Time) (d : Download)
    (p : process) (dur : Duration) (now : nat → Time) : list action :=
  Propose job task art (now 0) :: rest_of_life lookpath i ft d p dur now.

(** The job runs: proposed, accepted, dispatched, staged and started. *)
Lemma running_life s q job task art lookpath wc wc1 ft d (now : nat → Time) : proposable s job task art lookpath wc wc1 → queued_as q job →
  (∃ path, (Fetch sha256_hex goos (w_artifactCache (sy_worker s)) (ai_Hash art) (ai_URL art) ft d).2 = Ok path) →
  let runID := ulid (wd_ulids (mg_webhooks (propose_to (sy_manager s) q task (sy_conn s) wc art (now 0)).1)) in
  let running := MkRunningJob (proposal_of job task art) (dispatch_of job runID (job_Payload job)) "" false in
  let i := length (w_running (sy_worker s)) in
  text_fits (log_header (sy_worker s) running (now 5)) →
  ∃ s' run d1 d2, let wc' := sent (UpdateHeartbeat (sent wc1 d1) (now 0)) d2 in
    acts s (Propose q task art (now 0) :: [WorkerReads lookpath (now 1); ManagerReads (now 2); WorkerReads lookpath (now 3);
      ManagerReads (now 4)] ++ [StartTask i ft d (now 5); ManagerReads (now 6); ManagerReads (now 7)]) = Some s' ∧
    stage s' (job <| job_Status := JobStatusRunning |> <| job_UpdatedAt := now 6 |>) wc' runID run ∧
    sy_conn s' = sy_conn s ∧ connected (sy_worker s') ∧
    w_running (sy_worker s') = w_running (sy_worker s) ++ [running <| rj_started := true |>] ∧
    w_tasks (sy_worker s') = <[job_ID job := MkActiveTask false (job_Cost job) runID]> (w_tasks (sy_worker s)) ∧
    w_usedCap (sy_worker s') = (w_usedCap (sy_worker s) +! job_Cost job)%go ∧ worker_kept (sy_worker s) (sy_worker s') ∧
    w_artifactCache (sy_worker s') = (Fetch sha256_hex goos (w_artifactCache (sy_worker s)) (ai_Hash art) (ai_URL art) ft d).1 ∧
    kept (sy_conn s) 3 (sy_manager s) (sy_manager s').
Proof.
  intros Hp Hq Hfetch runID running i Hfit.
  destruct (propose_life s q job task art lookpath wc wc1 now Hp Hq)
    as (s1 & run1 & d1 & d2 & A1 & St1 & Cn1 & Co1 & Rn1 & Tk1 & Us1 & Wk1 & Ca1 & K1).
  fold runID in St1, Rn1, Tk1. set (wc2 := sent (UpdateHeartbeat (sent wc1 d1) (now 0)) d2) in *.
  assert (w_running (sy_worker s1) !! i = Some running) as Hi by (rewrite Rn1; apply list_lookup_middle; done).
  destruct (pr_words _ _ _ _ _ _ _ Hp) as (Hidw & _). destruct (pr_named _ _ _ _ _ _ _ Hp) as (Hid & _).
  assert (log_header (sy_worker s1) running (now 5) = log_header (sy_worker s) running (now 5)) as Hlh
    by (unfold log_header; by rewrite (wk_cfg _ _ Wk1)).
  destruct (start_life s1 _ wc2 runID run1 i running ft d (λ k, now (5 + k)) St1 Co1 Hi)
    as (s2 & A2 & St2 & Cn2 & Co2 & Rn2 & Tk2 & Us2 & Wk2 & Ca2 & K2);
    [reflexivity|reflexivity|reflexivity|exact Hidw|exact Hid|apply (pr_ulids _ _ _ _ _ _ _ Hp)|apply ulid_nonempty|rewrite Ca1; exact Hfetch|
     rewrite <- Hlh in Hfit; exact Hfit|].
  eexists s2, _, d1, d2. split; [|split; [exact St2|]].
  { rewrite app_comm_cons. erewrite acts_app; [exact A2|exact A1]. }
  rewrite Cn2, Cn1, Tk2, Tk1, Us2, Us1, Ca2, Ca1. split_and!; try done.
  - rewrite Rn2, Rn1. unfold i. rewrite <- (Nat.add_0_r (length _)) at 1. by rewrite alter_app_r.
  - by etrans.
  - rewrite Cn1 in K2. exact (kept_trans _ 2 1 _ _ _ K1 K2).
Qed.

(** The whole life, as one lemma for the systems built on this one. *)
Lemma life_completes (s : System SS ST) (q job : Job) (task : Task) (art : ArtifactInfo) lookpath wc wc1 ft d p dur result stderr (now : nat → Time) :
  proposable s job task art lookpath wc wc1 → queued_as q job →
  (0 ≤ wc_occupiedCost wc)%Z → in_int64 (wc_occupiedCost wc) → in_int64 (w_usedCap (sy_worker s)) →
  (∃ path, (Fetch sha256_hex goos (w_artifactCache (sy_worker s)) (ai_Hash art) (ai_URL art) ft d).2 = Ok path) →
  RunTask (task_NoResult task) p = Ok (result, "", stderr) → duration_reads dur →
  let runID := ulid (wd_ulids (mg_webhooks (propose_to (sy_manager s) q task (sy_conn s) wc art (now 0)).1)) in
  let running := MkRunningJob (proposal_of job task art) (dispatch_of job runID (job_Payload job)) "" false in
  text_fits (log_header (sy_worker s) running (now 5)) → text_fits (log_footer "success" (now 8) dur result) → text_fits result →
  ∃ s' job' run' wc',
    acts s (Propose q task art (now 0) :: rest_of_life lookpath (length (w_running (sy_worker s))) ft d p dur now) = Some s' ∧
    stage s' job' wc' runID run' ∧
    job_ID job' = job_ID job ∧ job_Status job' = JobStatusCompleted ∧ job_Result job' = result ∧
    run_Status run' = RunStatusCompleted ∧ run_OutputPayload run' = result ∧
    ss_view (wc_inFlight wc') = ss_view (wc_inFlight wc) ∖ {[job_ID job]} ∧ wc_occupiedCost wc' = wc_occupiedCost wc ∧
    w_tasks (sy_worker s') = delete (job_ID job) (w_tasks (sy_worker s)) ∧
    w_usedCap (sy_worker s') = w_usedCap (sy_worker s) ∧ w_running (sy_worker s') = w_running (sy_worker s).
Proof.
  intros Hp Hq Hocc0 Hocc Hused Hfetch Hrun Hdur runID running Hfit1 Hfit2 Hfit3. set (i := length (w_running (sy_worker s))).
  destruct (running_life s q job task art lookpath wc wc1 ft d now Hp Hq Hfetch Hfit1)
    as (s2 & run2 & d1 & d2 & A2 & St2 & Cn2 & Co2 & Rn2 & Tk2 & Us2 & Wk2 & _).
  fold runID running in St2, Rn2, Tk2. fold i in A2. set (wc2 := sent (UpdateHeartbeat (sent wc1 d1) (now 0)) d2) in *.
  destruct (pr_words _ _ _ _ _ _ _ Hp) as (Hidw & _). destruct (pr_named _ _ _ _ _ _ _ Hp) as (Hid & _).
  destruct (pr_accepts _ _ _ _ _ _ _ Hp) as (Hon & _).
  destruct (end_life s2 _ wc2 runID _ i (running <| rj_started := true |>)
    (MkActiveTask false (job_Cost job) runID) p result stderr dur (λ k, now (8 + k)) St2 (pr_lanes _ _ _ _ _ _ _ Hp))
    as (s3 & run3 & A3 & St3 & Rs3 & Ro3 & Cn3 & Tk3 & Us3 & Rn3);
    [reflexivity|exact Co2| |reflexivity| | |reflexivity|reflexivity|exact Hidw|exact Hid|apply (pr_ulids _ _ _ _ _ _ _ Hp)|apply ulid_nonempty|
     exact Hdur|exact Hrun|exact Hfit3|exact Hfit2|].
  { rewrite Rn2. by apply list_lookup_middle. }
  { by rewrite (wk_state _ _ Wk2). }
  { rewrite Tk2. apply lookup_insert_eq. }
  destruct (job_freed wc wc1 (job_ID job) (job_Cost job) (now 0) (now 10) d1 d2 (pr_room _ _ _ _ _ _ _ Hp) Hocc0 Hocc) as [Hif Hoc].
  eexists s3, _, run3, _. split; [|split; [exact St3|]; do 3 (split; [reflexivity|]); split; [exact Rs3|]; split; [exact Ro3|]].
  { unfold rest_of_life. rewrite app_assoc, app_comm_cons. erewrite acts_app; [exact A3|exact A2]. }
  split; [exact Hif|]. split; [exact Hoc|]. rewrite Tk3, Tk2, Us3, Us2, Rn3, Rn2. split_and!.
  - cbn. apply delete_insert_eq.
  - by rewrite wrap64_undo.
  - unfold i. by rewrite delete_middle, app_nil_r.
Qed.

Lemma kept_notify a k m m' timers : kept a k m m' →
  kept a k (NotifyDispatcher m <| mg_timers := timers |>) (NotifyDispatcher m' <| mg_timers := timers |>).
Proof. intros [Kq Kc Kt Kd Kw Kp Ks Kn Ku]. split; try done. cbn. by rewrite Ks. Qed.

(** The same life with a process that fails: the attempt is recorded and a timer set for the next. *)
Lemma life_fails s q job task art lookpath wc wc1 ft d p dur e (now : nat → Time) :
  proposable s job task art lookpath wc wc1 → queued_as q job → in_int64 (w_usedCap (sy_worker s)) →
  (∃ path, (Fetch sha256_hex goos (w_artifactCache (sy_worker s)) (ai_Hash art) (ai_URL art) ft d).2 = Ok path) →
  RunTask (task_NoResult task) p = Err e → in_int64 (fail_code e) → duration_reads dur →
  let runID := ulid (wd_ulids (mg_webhooks (propose_to (sy_manager s) q task (sy_conn s) wc art (now 0)).1)) in
  let running := MkRunningJob (proposal_of job task art) (dispatch_of job runID (job_Payload job)) "" false in
  text_fits (log_header (sy_worker s) running (now 5)) → text_fits (log_footer "failed" (now 8) dur (fail_reason e)) → text_fits (fail_reason e) →
  permanent cfg (sy_manager s) job (failure_report (job_ID job) runID e dur) = false →
  let attempts := wrap64 (job_Attempts job + 1) in
  let timers := mg_timers (sy_manager s) ++
    [MkRetryTimer (now 10%nat + retryDelay (effective_policy cfg (sy_manager s) job) attempts)%Z (job_ID job)] in
  ∃ s' run' d1 d2,
    acts s (Propose q task art (now 0) :: rest_of_life lookpath (length (w_running (sy_worker s))) ft d p dur now) = Some s' ∧
    stage s' (record_attempt attempts (fail_reason e) (now 10) (job <| job_Status := JobStatusRunning |> <| job_UpdatedAt := now 6 |>))
      (CompleteTask (sent (UpdateHeartbeat (sent wc1 d1) (now 0)) d2) (job_ID job) (job_Cost job) (now 10)) runID run' ∧
    run_Status run' = RunStatusFailed ∧ run_FailureReason run' = fail_reason e ∧
    sy_conn s' = sy_conn s ∧ connected (sy_worker s') ∧
    w_tasks (sy_worker s') = delete (job_ID job) (w_tasks (sy_worker s)) ∧
    w_usedCap (sy_worker s') = w_usedCap (sy_worker s) ∧ w_running (sy_worker s') = w_running (sy_worker s) ∧
    worker_kept (sy_worker s) (sy_worker s') ∧
    w_artifactCache (sy_worker s') = (Fetch sha256_hex goos (w_artifactCache (sy_worker s)) (ai_Hash art) (ai_URL art) ft d).1 ∧
    mg_timers (sy_manager s') = timers ∧ kept (sy_conn s) 3 (NotifyDispatcher (sy_manager s) <| mg_timers := timers |>) (sy_manager s').
Proof.
  intros Hp Hq Hused Hfetch Hrun Hcode Hdur runID running Hfit1 Hfit2 Hfit3 Hperm attempts timers. set (i := length (w_running (sy_worker s))).
  destruct (running_life s q job task art lookpath wc wc1 ft d now Hp Hq Hfetch Hfit1)
    as (s2 & run2 & d1 & d2 & A2 & St2 & Cn2 & Co2 & Rn2 & Tk2 & Us2 & Wk2 & F2 & K2).
  fold runID running in St2, Rn2, Tk2. fold i in A2. set (wc2 := sent (UpdateHeartbeat (sent wc1 d1) (now 0)) d2) in *.
  destruct (pr_words _ _ _ _ _ _ _ Hp) as (Hidw & _). destruct (pr_named _ _ _ _ _ _ _ Hp) as (Hid & _).
  destruct (pr_accepts _ _ _ _ _ _ _ Hp) as (Hon & _).
  assert (effective_policy cfg (sy_manager s2) job = effective_policy cfg (sy_manager s) job) as Hpol
    by (unfold effective_policy, GetTask; by rewrite (kp_tasks _ _ _ _ K2)).
  destruct (fail_life s2 _ wc2 runID _ i (running <| rj_started := true |>)
    (MkActiveTask false (job_Cost job) runID) p e dur (λ k, now (8 + k)) St2 (pr_lanes _ _ _ _ _ _ _ Hp))
    as (s3 & run3 & A3 & St3 & Rs3 & Ro3 & Cn3 & Co3 & Tk3 & Us3 & Rn3 & Wk3 & F3 & Tm3 & K3);
    [reflexivity|exact Co2| |reflexivity| | |reflexivity|reflexivity|exact Hidw|exact Hid|apply (pr_ulids _ _ _ _ _ _ _ Hp)|apply ulid_nonempty|
     exact Hdur|exact Hrun|exact Hcode|exact Hfit3|exact Hfit2| |].
  { rewrite Rn2. by apply list_lookup_middle. }
  { by rewrite (wk_state _ _ Wk2). }
  { rewrite Tk2. apply lookup_insert_eq. }
  { revert Hperm. unfold permanent. change (effective_policy cfg (sy_manager s2) (job <| job_Status := JobStatusRunning |> <| job_UpdatedAt := now 6 |>))
      with (effective_policy cfg (sy_manager s2) job). by rewrite Hpol. }
  change (effective_policy cfg (sy_manager s2) (job <| job_Status := JobStatusRunning |> <| job_UpdatedAt := now 6 |>))
    with (effective_policy cfg (sy_manager s2) job) in Tm3, K3.
  cbn zeta in Tm3, K3. rewrite Hpol, (kp_timers _ _ _ _ K2) in Tm3, K3. fold attempts in Tm3, K3.
  exists s3, run3, d1, d2. split.
  { unfold rest_of_life. rewrite app_assoc, app_comm_cons. erewrite acts_app; [exact A3|exact A2]. }
  split; [exact St3|]. rewrite Cn3, Cn2, Tk3, Tk2, Us3, Us2, Rn3, Rn2, F3, F2. split_and!; try done.
  - cbn. apply delete_insert_eq.
  - by rewrite wrap64_undo.
  - unfold i. by rewrite delete_middle, app_nil_r.
  - by etrans.
  - rewrite Cn2 in K3. exact (kept_trans _ 3 0 _ _ _ (kept_notify _ _ _ _ timers K2) K3).
Qed.
End life.

(** C6: Once proposed, a job runs to completion. For every job a manager holds and every worker that
    has the room for it and may accept it, the messages the two programs write and read, from the
    proposal over the dispatch, the start and the logs to the result, end with the job completed
    with exactly the data its process wrote and its run closed; both sides have their capacity back,
    the worker no longer holds the job, nothing is left unread and the manager's state is well-formed. *)
Theorem job_runs_to_completion `{SimpleSet SS} `{Store ST} `{GoRuntime} `{Ulid} `{SerialLanes} `{WebhookEnv}
    `{WorkerSelector SS} `{ConsolidateJson} `{argv : NetArgv FL} `{parsers : Parsers} `{verreg : !Verreg FL}
    `{reader : !NetArgvReader FL} `{fmt : TimeFormat} (cfg : Config) (sha256_hex : string → string) (goos : string)
    (s : System SS ST) (job : Job) (task : Task) (art : ArtifactInfo) lookpath wc wc1 ft d p dur result stderr (now : nat → Time) :
  proposable s job task art lookpath wc wc1 →
  (0 ≤ wc_occupiedCost wc)%Z → in_int64 (wc_occupiedCost wc) → in_int64 (w_usedCap (sy_worker s)) →
  (∃ path, (Fetch sha256_hex goos (w_artifactCache (sy_worker s)) (ai_Hash art) (ai_URL art) ft d).2 = Ok path) →
  RunTask (task_NoResult task) p = Ok (result, "", stderr) → duration_reads dur →
  let runID := ulid (wd_ulids (mg_webhooks (propose_to (sy_manager s) job task (sy_conn s) wc art (now 0)).1)) in
  let running := MkRunningJob (proposal_of job task art) (dispatch_of job runID (job_Payload job)) "" false in
  text_fits (log_header (sy_worker s) running (now 5)) → text_fits (log_footer "success" (now 8) dur result) → text_fits result →
  ∃ s' job' run' wc',
    acts cfg sha256_hex goos s
      (life_of job task art lookpath (length (w_running (sy_worker s))) ft d p dur now) = Some s' ∧
    stage s' job' wc' runID run' ∧
    job_ID job' = job_ID job ∧ job_Status job' = JobStatusCompleted ∧ job_Result job' = result ∧
    run_Status run' = RunStatusCompleted ∧ run_OutputPayload run' = result ∧
    ss_view (wc_inFlight wc') = ss_view (wc_inFlight wc) ∖ {[job_ID job]} ∧ wc_occupiedCost wc' = wc_occupiedCost wc ∧
    w_tasks (sy_worker s') = delete (job_ID job) (w_tasks (sy_worker s)) ∧
    w_usedCap (sy_worker s') = w_usedCap (sy_worker s) ∧ w_running (sy_worker s') = w_running (sy_worker s).
Proof. intros Hp. exact (life_completes cfg sha256_hex goos s job job task art lookpath wc wc1 ft d p dur result stderr now Hp (queued_as_refl job)). Qed.

(** ** Sample run: the demo worker runs the first job a client submits *)
Section samples.
#[local] Existing Instances gset_simple_set canonical_runtime unary_ulid open_lanes sample_env least_loaded tagged_payload.
#[local] Existing Instances plain_argv demo_parsers only_version_0 plain_reader demo_format.

Definition demo_manager : Manager (gset string) MemStore :=
  let m := set_store with_worker (st_SaveTask (mg_store with_worker) wire_task).1 in
  (handleSubmitJob m (MkSubmitJobRequest "resize" "{}" None) 9).1.

Lemma demo_manager_ok : manager_ok demo_manager.
Proof.
  apply (ok_step dispatch_config (set_store with_worker (st_SaveTask (mg_store with_worker) wire_task).1)); [apply st_submit|].
  apply (ok_step dispatch_config with_worker); [apply st_task|apply with_worker_ok].
Qed.

Definition demo_job : Job :=
  zero_job <| job_ID := "xu" |> <| job_TaskName := "resize" |> <| job_Status := JobStatusPending |> <| job_Phase := JobPhaseRun |>
    <| job_Cost := 2%Z |> <| job_Payload := "{}" |> <| job_CreatedAt := 9%Z |> <| job_UpdatedAt := 9%Z |>.

Definition demo_system : System (gset string) MemStore := MkSystem demo_manager online_demo 0 0 0.

Definition demo_wc : WorkerConn (gset string) := NewWorkerConn "w1" "linux" "amd64" 4 demo_conn 7.
Definition demo_wc1 : WorkerConn (gset string) :=
  match AssignTask demo_wc "xu" 2 with Ok w => w | Err _ => demo_wc end.

Lemma unary_word n : word (unary n) = true.
Proof. by induction n as [|n IH]. Qed.

Lemma demo_proposable : proposable demo_system demo_job wire_task demo_artifact (λ _, true) demo_wc demo_wc1.
Proof.
  split.
  - exact demo_manager_ok.
  - reflexivity.
  - vm_compute. reflexivity.
  - reflexivity.
  - vm_compute. reflexivity.
  - vm_compute. reflexivity.
  - reflexivity.
  - split_and!; try reflexivity. apply Forall_singleton. reflexivity.
  - split_and!; discriminate.
  - repeat split; vm_compute; discriminate.
  - exact unary_word.
  - exact online_demo_connected.
  - split_and!; [vm_compute; reflexivity..|by right|vm_compute; discriminate].
  - split; vm_compute; reflexivity.
Qed.

Definition demo_clock (n : nat) : Time := (demo_instant + Z.of_nat n)%Z.

Lemma job_runs_to_completion_witness : ∃ s' job',
  acts dispatch_config demo_sha "linux" demo_system
    (life_of demo_job wire_task demo_artifact (λ _, true) 0 25 (demo_download "a") (Exited None "done" "" "") 5 demo_clock) = Some s' ∧
  jobs (ents (sy_manager s')) !! "xu" = Some job' ∧ job_Status job' = JobStatusCompleted ∧ job_Result job' = "done".
Proof.
  destruct (job_runs_to_completion dispatch_config demo_sha "linux" demo_system demo_job wire_task demo_artifact (λ _, true)
    demo_wc demo_wc1 25 (demo_download "a") (Exited None "done" "" "") 5 "done" "" demo_clock demo_proposable)
    as (s' & job' & run' & wc' & Ha & Hs & Hid & Hst & Hr & _).
  - vm_compute. discriminate.
  - split; vm_compute; discriminate.
  - split; vm_compute; discriminate.
  - exists ["c"; "h1"]. vm_compute. reflexivity.
  - reflexivity.
  - split_and!; [reflexivity|discriminate|reflexivity].
  - split; vm_compute; discriminate.
  - split; vm_compute; discriminate.
  - split; vm_compute; discriminate.
  - exists s', job'. split; [exact Ha|]. destruct Hs as [_ Hj _ _ _]. rewrite Hid in Hj. exact (conj Hj (conj Hst Hr)).
Defined.
End samples.
