(* ===== verification/StoreTest.v ===== *)
(** * The compliance suite of the stores (src/manager/store/storetest/storetest.go)

    The suite is a client of the store interfaces: each subtest makes a store,
    drives it and reports what it did not expect.  It is written here against
    the interface [Store] (and [LogRunStore] for logs), so that its verdict can
    be proved for every implementation, whatever the clock and the order in
    which maps are ranged over, instead of being observed on one run. *)
From S2P Require Import Prelude GoStd External Contract Store MemStore FsStore FsRecovery.

(** ** testing.T: [Errorf] records a failure, [Fatalf] also ends the subtest *)
Definition TestM (A : Type) : Type := list string * option A.

#[export] Instance TestM_ret : MRet TestM := λ A a, ([], Some a).
#[export] Instance TestM_bind : MBind TestM := λ A B k m,
  match m with
  | (errs, Some a) => let '(errs', b) := k a in (errs ++ errs', b)
  | (errs, None) => (errs, None)
  end.

Definition Errorf (msg : string) : TestM unit := ([msg], Some tt).
Definition Fatalf {A} (msg : string) : TestM A := ([msg], None).

(** [if err != nil { t.Fatalf(...) }], and the same where an error is expected. *)
Definition noError (err : option error) (msg : string) : TestM unit := match err with Some _ => Fatalf msg | None => mret () end.
Definition value {A} (r : res error A) (msg : string) : TestM A := match r with Ok a => mret a | Err _ => Fatalf msg end.
Definition wantError {A} (r : res error A) (msg : string) : TestM unit := match r with Ok _ => Fatalf msg | Err _ => mret () end.
Definition expect (b : bool) (msg : string) : TestM unit := if b then mret () else Errorf msg.
Definition require (b : bool) (msg : string) : TestM unit := if b then mret () else Fatalf msg.

(** A call that panics fails the subtest. *)
Definition no_panic {A} (o : option A) : TestM A := match o with Some a => mret a | None => Fatalf "panic" end.

Definition passed (t : TestM unit) : Prop := t = mret ().

(** ** Fixtures; [clock k] is the [k]-th reading of the clock in a subtest *)
Section fixtures.
Context (clock : nat → Time).

Definition newTestJob (id : string) (k : nat) : Job :=
  zero_job <| job_ID := id |> <| job_TaskName := "test-task" |> <| job_Status := JobStatusPending |>
    <| job_Phase := JobPhaseRun |> <| job_CreatedAt := clock k |> <| job_UpdatedAt := clock (S k) |>.

Definition newTestTaskDef (name : string) : Task := MkTask name (MkLimitations 0 0 0) (MkRetryPolicy 0 0 0) false 0.
End fixtures.

(** ** Jobs *)
Section job_tests.
Context `{Store ST} (rts : nat → GoRuntime) (clock : nat → Time) (factory : ST).

Definition save (s : ST) (j : Job) : ST := (st_SaveJob s j).1.

Definition SaveAndGetJob : TestM unit :=
  let s := factory in
  let job := newTestJob clock "job-1" 0 in
  let '(s, err) := st_SaveJob s job in
  _ ← noError err "SaveJob";
  got ← value (GetJob (entities s) (job_ID job)) "GetJob";
  _ ← expect (bool_decide (job_ID got = job_ID job)) "ID";
  expect (bool_decide (job_TaskName got = job_TaskName job)) "TaskName".

Definition GetJobNotFound : TestM unit :=
  wantError (GetJob (entities factory) "nonexistent") "expected error for nonexistent job, got nil".

Definition UpdateJobTest : TestM unit :=
  let job := newTestJob clock "job-2" 0 in
  let s := save factory job in
  let '(s, err) := st_UpdateJob s (job_ID job) (λ j, j <| job_Status := JobStatusRunning |>) in
  _ ← noError err "UpdateJob";
  got ← value (GetJob (entities s) (job_ID job)) "GetJob";
  expect (bool_decide (job_Status got = JobStatusRunning)) "Status".

(** ["pagejob-" + string(rune('a'+i))], created [i] milliseconds after the clock reading. *)
Definition page_job (i : nat) : Job :=
  newTestJob clock ("pagejob-" +:+ String (ascii_of_nat (97 + i)) "") (3 * i)
    <| job_CreatedAt := time_Add (clock (3 * i + 2)) (Z.of_nat i * Millisecond) |>.

Definition ListJobs_Pagination : TestM unit :=
  let s := foldl (λ s i, save s (page_job i)) factory (seq 0 5) in
  '(page1, cursor) ← no_panic (@ListJobs (rts 0) (entities s) "" 3);
  _ ← require (bool_decide (length page1 = 3)) "page1 len";
  _ ← require (bool_decide (cursor ≠ "")) "expected non-empty cursor after first page";
  '(page2, cursor2) ← no_panic (@ListJobs (rts 1) (entities s) cursor 3);
  _ ← require (bool_decide (length page2 = 2)) "page2 len";
  require (bool_decide (cursor2 = "")) "expected empty cursor at last page".

Definition ListPendingJobsTest : TestM unit :=
  let pending := newTestJob clock "pending-1" 0 <| job_Status := JobStatusPending |> in
  let running := newTestJob clock "running-1" 2 <| job_Status := JobStatusRunning |> in
  let s := save (save factory pending) running in
  let jobs := @ListPendingJobs (rts 0) (entities s) in
  expect (bool_decide (length jobs = 1) && bool_decide (job_ID <$> head jobs = Some "pending-1")) "expected 1 pending job".

Definition ListRecoverableJobsTest : TestM unit :=
  let s := foldl (λ s '(k, status), save s (newTestJob clock ("recoverable-" +:+ JobStatus_string status) k <| job_Status := status |>))
             factory [(0, JobStatusProposing); (2, JobStatusProvisioning); (4, JobStatusRunning)] in
  let pending := newTestJob clock "should-not-appear" 6 <| job_Status := JobStatusPending |> in
  let s := save s pending in
  expect (bool_decide (length (@ListRecoverableJobs (rts 0) (entities s)) = 3)) "expected 3 recoverable jobs".

Definition ListChildJobsTest : TestM unit :=
  let parent := newTestJob clock "parent-1" 0 in
  let s := save factory parent in
  let child1 := newTestJob clock "child-1" 2 <| job_ParentJobID := "parent-1" |> in
  let child2 := newTestJob clock "child-2" 4 <| job_ParentJobID := "parent-1" |> in
  let unrelated := newTestJob clock "unrelated-1" 6 in
  let s := save (save (save s child1) child2) unrelated in
  expect (bool_decide (length (@ListChildJobs (rts 0) (entities s) "parent-1") = 2)) "expected 2 children".

Definition RunJobStoreTests : list (TestM unit) :=
  [SaveAndGetJob; GetJobNotFound; UpdateJobTest; ListJobs_Pagination; ListPendingJobsTest; ListRecoverableJobsTest; ListChildJobsTest].

(** ** Task definitions *)
Definition SaveAndGetTask : TestM unit :=
  let task := newTestTaskDef "echo" in
  let '(s, err) := st_SaveTask factory task in
  _ ← noError err "SaveTask";
  got ← value (GetTask (entities s) (task_Name task)) "GetTask";
  expect (bool_decide (task_Name got = task_Name task)) "Name".

Definition save_task (s : ST) (t : Task) : ST := (st_SaveTask s t).1.

Definition ListTasksTest : TestM unit :=
  let s := save_task (save_task factory (newTestTaskDef "task-a")) (newTestTaskDef "task-b") in
  expect (bool_decide (length (@ListTasks (rts 0) (entities s)) = 2)) "expected 2 tasks".

Definition UpdateTaskTest : TestM unit :=
  let task := newTestTaskDef "task-upd" in
  let s := save_task factory task in
  let '(s, err) := st_UpdateTask s (task_Name task) (λ tk, tk <| task_Cost := 5%Z |>) in
  _ ← noError err "UpdateTask";
  got ← value (GetTask (entities s) (task_Name task)) "GetTask";
  expect (bool_decide (task_Cost got = 5%Z)) "cost".

Definition DeleteTaskTest : TestM unit :=
  let task := newTestTaskDef "task-del" in
  let s := (st_DeleteTask (save_task factory task) (task_Name task)).1 in
  wantError (GetTask (entities s) (task_Name task)) "expected error after delete, got nil".

Definition RunTaskStoreTests : list (TestM unit) := [SaveAndGetTask; ListTasksTest; UpdateTaskTest; DeleteTaskTest].

(** ** Webhooks *)
Definition hook (id : string) (next : Time) : WebhookEntry := MkWebhookEntry id "" "" "" "" ∅ 0 next time_zero.

Definition dequeue (s : ST) (now : Time) : list WebhookEntry := @DequeueWebhooks (rts 0) (entities s) now.

Definition EnqueueAndDequeue : TestM unit :=
  let entry := MkWebhookEntry "wh-1" "job-1" "" "https://example.com/hook" "{}" ∅ 0 (time_Add (clock 0) (- Second)) time_zero in
  let '(s, err) := st_EnqueueWebhook factory entry in
  _ ← noError err "EnqueueWebhook";
  let entries := dequeue s (clock 1) in
  require (bool_decide (length entries = 1) && bool_decide (wh_ID <$> head entries = Some "wh-1")) "expected 1 entry".

Definition FutureEntryNotDequeued : TestM unit :=
  let s := (st_EnqueueWebhook factory (hook "wh-future" (time_Add (clock 0) Hour))).1 in
  require (bool_decide (length (dequeue s (clock 1)) = 0)) "expected 0 entries".

Definition AckRemovesEntry : TestM unit :=
  let s := (st_EnqueueWebhook factory (hook "wh-ack" (time_Add (clock 0) (- Second)))).1 in
  let s := (st_AckWebhook s "wh-ack").1 in
  require (bool_decide (length (dequeue s (clock 1)) = 0)) "expected 0 after ack".

Definition NackUpdatesRetry : TestM unit :=
  let s := (st_EnqueueWebhook factory (hook "wh-nack" (time_Add (clock 0) (- Second)))).1 in
  let nextTime := time_Add (clock 1) (5 * Second) in
  let '(s, err) := st_NackWebhook s "wh-nack" 2 nextTime in
  _ ← noError err "NackWebhook";
  require (bool_decide (length (dequeue s (clock 2)) = 0)) "expected 0 after nack".

Definition RunWebhookStoreTests : list (TestM unit) :=
  [EnqueueAndDequeue; FutureEntryNotDequeued; AckRemovesEntry; NackUpdatesRetry].
End job_tests.

(** ** Every store passes *)

(** The clock does not go back, and a step of the suite takes less than a second. *)
Definition steady (clock : nat → Time) : Prop := ∀ n, (clock n ≤ clock (S n) < clock n + Second)%Z.

Lemma range_values_perm `{GoRuntime} {V} (m : gmap string V) : range_values m ≡ₚ (map_to_list m).*2.
Proof. unfold range_values. by rewrite range_map_perm. Qed.

Section passes.
Context `{Store ST} (rts : nat → GoRuntime) (clock : nat → Time) (factory : ST).
Hypothesis Hnew : entities factory = no_entities.
Hypothesis Hclock : steady clock.

(** Each operation leaves a store with the entities the interface promises. *)
Ltac entities :=
  repeat match goal with
  | |- context [entities (st_SaveJob ?s ?j).1] => rewrite (ent_SaveJob s j)
  | |- context [entities (st_SaveTask ?s ?t).1] => rewrite (ent_SaveTask s t)
  | |- context [entities (st_DeleteTask ?s ?n).1] => rewrite (ent_DeleteTask s n)
  | |- context [entities (st_EnqueueWebhook ?s ?w).1] => rewrite (ent_EnqueueWebhook s w)
  | |- context [entities (st_AckWebhook ?s ?i).1] => rewrite (ent_AckWebhook s i)
  end; rewrite ?Hnew.

Lemma SaveAndGetJob_passes : passed (SaveAndGetJob clock factory).
Proof.
  unfold SaveAndGetJob. pose proof (ent_SaveJob factory (newTestJob clock "job-1" 0)) as He.
  pose proof (err_SaveJob factory (newTestJob clock "job-1" 0)) as Hr. destruct (st_SaveJob _ _) as [s err]. cbn [fst snd] in *.
  subst err. rewrite He, Hnew. vm_compute. reflexivity.
Qed.

Lemma GetJobNotFound_passes : passed (GetJobNotFound factory).
Proof. unfold GetJobNotFound. rewrite Hnew. vm_compute. reflexivity. Qed.

Lemma UpdateJob_passes : passed (UpdateJobTest clock factory).
Proof.
  unfold UpdateJobTest, save. set (j := newTestJob clock "job-2" 0). set (s1 := (st_SaveJob factory j).1).
  assert (entities s1 = SaveJob no_entities j) as E1 by (unfold s1; by entities).
  match goal with |- context [st_UpdateJob s1 ?i ?f] =>
    pose proof (ent_UpdateJob s1 i f) as He; pose proof (err_UpdateJob s1 i f) as Hr; destruct (st_UpdateJob s1 i f) as [s err] end.
  cbn [fst snd] in *. rewrite E1 in He, Hr. rewrite He. subst err. vm_compute. reflexivity.
Qed.

(** The jobs of the pagination subtest, and their listing in any order of ranging and sorting. *)
Definition paged : Entities := foldl (λ e i, SaveJob e (page_job clock i)) no_entities (seq 0 5).

Lemma paged_lookup id j : jobs paged !! id = Some j → ∃ i, i < 5 ∧ j = page_job clock i ∧ id = job_ID j.
Proof.
  unfold paged. cbn [foldl seq SaveJob jobs field_set rebuild Entities_rebuild no_entities].
  repeat (intros [[<- <-]|[_ Hx]]%lookup_insert_Some; [eexists; split; [|split; reflexivity]; lia|]; revert Hx).
  rewrite lookup_empty. discriminate.
Qed.

Lemma page_created i k : i < k → (job_CreatedAt (page_job clock i) < job_CreatedAt (page_job clock k))%Z.
Proof.
  intros Hik. cbn. unfold time_Add, Millisecond.
  assert (∀ n d, (clock n ≤ clock (n + d))%Z) as Hmono.
  { intros n d. induction d as [|d IH]; [by rewrite Nat.add_0_r|]. rewrite Nat.add_succ_r. pose proof (Hclock (n + d)). lia. }
  pose proof (Hmono (3 * i + 2) (3 * (k - i))) as Hm. replace (3 * i + 2 + 3 * (k - i)) with (3 * k + 2) in Hm by lia.
  change (i + (i + (i + 0)) + 2) with (3 * i + 2). change (k + (k + (k + 0)) + 2) with (3 * k + 2). lia.
Qed.

Lemma paged_ages : distinct_ages paged.
Proof.
  intros id1 id2 j1 j2 (i & _ & -> & ->)%paged_lookup (k & _ & -> & ->)%paged_lookup Ht.
  destruct (Nat.lt_trichotomy i k) as [Hlt|[->|Hlt]]; [|done|]; pose proof (page_created _ _ Hlt); lia.
Qed.

Lemma paged_ids : ids_ok paged.
Proof.
  split.
  2-4: intros id x Hx; exfalso; exact (lookup_empty_Some id x Hx).
  intros id j (i & _ & -> & ->)%paged_lookup. done.
Qed.

Lemma pages_listed (rt rt' : GoRuntime) : @root_jobs rt paged = @root_jobs rt' paged ∧ length (@root_jobs rt paged) = 5 ∧
  NoDup (job_ID <$> @root_jobs rt paged).
Proof.
  split; [apply root_jobs_unique, paged_ages|]. split; [|apply root_jobs_NoDup, paged_ids].
  unfold root_jobs. rewrite sort_slice_perm, range_values_perm. vm_compute. reflexivity.
Qed.

(** Three of five jobs, and the rest behind the cursor. *)
Lemma first_page (rt : GoRuntime) e a b c d f : @root_jobs rt e = [a; b; c; d; f] →
  @ListJobs rt e "" 3 = Some ([a; b; c], job_ID c).
Proof. intros E. unfold ListJobs. rewrite E. vm_compute. reflexivity. Qed.

Lemma second_page (rt : GoRuntime) e a b c d f : @root_jobs rt e = [a; b; c; d; f] → NoDup (job_ID <$> [a; b; c; d; f]) →
  job_ID c ≠ "" → @ListJobs rt e (job_ID c) 3 = Some ([d; f], "").
Proof.
  intros E Hnd Hc. unfold ListJobs. rewrite E, (bool_decide_eq_false_2 (job_ID c = "")) by done.
  rewrite (list_find_id [a; b; c; d; f] 2 c) by done. vm_compute. reflexivity.
Qed.

Lemma Pagination_passes : passed (ListJobs_Pagination rts clock factory).
Proof.
  unfold ListJobs_Pagination, save. cbn [foldl seq]. entities. change (SaveJob _ (page_job clock 4)) with paged.
  destruct (pages_listed (rts 1) (rts 0)) as (E1 & _). destruct (pages_listed (rts 0) (rts 0)) as (_ & Hl & Hnd).
  assert (∀ j, j ∈ @root_jobs (rts 0) paged → job_ID j ≠ "") as Hne.
  { intros j [[id (i & _ & -> & _)%paged_lookup] _]%elem_of_root_jobs. done. }
  destruct (@root_jobs (rts 0) paged) as [|a [|b [|c [|d [|e [|]]]]]] eqn:E0; try discriminate Hl.
  specialize (Hne c ltac:(set_solver)).
  rewrite (first_page (rts 0) paged a b c d e E0). cbn [no_panic mret TestM_ret mbind TestM_bind require]. unfold require.
  rewrite (bool_decide_eq_true_2 (length [a; b; c] = 3)), (bool_decide_eq_true_2 (job_ID c ≠ "")) by done.
  rewrite (second_page (rts 1) paged a b c d e E1 Hnd Hne). vm_compute. reflexivity.
Qed.

(** A listing with one element. *)
Lemma one_of {A} (l : list A) x : l ≡ₚ [x] → l = [x].
Proof. intros Hp. by apply Permutation_singleton_r. Qed.

Lemma Pending_passes : passed (ListPendingJobsTest rts clock factory).
Proof.
  unfold ListPendingJobsTest, save. entities. unfold ListPendingJobs.
  match goal with |- context [sort_slice higher_first ?l] => assert (sort_slice higher_first l = [newTestJob clock "pending-1" 0]) as -> end.
  { apply one_of. rewrite sort_slice_perm, range_values_perm. vm_compute. reflexivity. }
  vm_compute. reflexivity.
Qed.

Lemma Recoverable_passes : passed (ListRecoverableJobsTest rts clock factory).
Proof.
  unfold ListRecoverableJobsTest, save. cbn [foldl]. entities. unfold ListRecoverableJobs.
  rewrite bool_decide_eq_true_2; [done|]. rewrite range_values_perm. vm_compute. reflexivity.
Qed.

Lemma Child_passes : passed (ListChildJobsTest rts clock factory).
Proof.
  unfold ListChildJobsTest, save. entities. unfold ListChildJobs.
  rewrite bool_decide_eq_true_2; [done|]. rewrite sort_slice_perm, range_values_perm. vm_compute. reflexivity.
Qed.

Lemma SaveAndGetTask_passes : passed (SaveAndGetTask factory).
Proof.
  unfold SaveAndGetTask. pose proof (ent_SaveTask factory (newTestTaskDef "echo")) as He.
  pose proof (err_SaveTask factory (newTestTaskDef "echo")) as Hr. destruct (st_SaveTask _ _) as [s err]. cbn [fst snd] in *.
  subst err. rewrite He, Hnew. vm_compute. reflexivity.
Qed.

Lemma ListTasks_passes : passed (ListTasksTest rts factory).
Proof.
  unfold ListTasksTest, save_task. entities. unfold ListTasks.
  rewrite bool_decide_eq_true_2; [done|]. rewrite sort_slice_perm, range_values_perm. vm_compute. reflexivity.
Qed.

Lemma UpdateTask_passes : passed (UpdateTaskTest factory).
Proof.
  unfold UpdateTaskTest, save_task. set (t := newTestTaskDef "task-upd"). set (s1 := (st_SaveTask factory t).1).
  assert (entities s1 = SaveTask no_entities t) as E1 by (unfold s1; by entities).
  match goal with |- context [st_UpdateTask s1 ?i ?f] =>
    pose proof (ent_UpdateTask s1 i f) as He; pose proof (err_UpdateTask s1 i f) as Hr; destruct (st_UpdateTask s1 i f) as [s err] end.
  cbn [fst snd] in *. rewrite E1 in He, Hr. rewrite He. subst err. vm_compute. reflexivity.
Qed.

Lemma DeleteTask_passes : passed (DeleteTaskTest factory).
Proof. unfold DeleteTaskTest, save_task. entities. vm_compute. reflexivity. Qed.

(** What is due of a queue with one entry. *)
Lemma dequeue_one (s : ST) e w now : entities s = EnqueueWebhook e w → webhooks e = ∅ →
  dequeue rts s now = if After (wh_NextAttemptAt w) now then [] else [w].
Proof.
  intros Hs He. unfold dequeue, DequeueWebhooks. rewrite Hs. cbn [EnqueueWebhook webhooks field_set rebuild Entities_rebuild]. rewrite He.
  assert (@range_values (rts 0) _ ({[wh_ID w := w]} : gmap string WebhookEntry) = [w]) as Hr.
  { apply one_of. rewrite range_values_perm, map_to_list_singleton. done. }
  change (<[wh_ID w := w]> ∅) with ({[wh_ID w := w]} : gmap string WebhookEntry). rewrite Hr.
  destruct (After (wh_NextAttemptAt w) now) eqn:E; [by rewrite filter_cons_False by congruence|by rewrite filter_cons_True].
Qed.

Lemma Enqueue_passes : passed (EnqueueAndDequeue rts clock factory).
Proof.
  unfold EnqueueAndDequeue. set (w := MkWebhookEntry _ _ _ _ _ _ _ _ _). pose proof (ent_EnqueueWebhook factory w) as He.
  pose proof (err_EnqueueWebhook factory w) as Hr. destruct (st_EnqueueWebhook factory w) as [s err]. cbn [fst snd] in *. subst err.
  rewrite Hnew in He. rewrite (dequeue_one s no_entities w (clock 1) He eq_refl).
  assert (After (wh_NextAttemptAt w) (clock 1) = false) as ->.
  { apply Z.ltb_ge. cbn. unfold time_Add. pose proof (Hclock 0). unfold Second in *. lia. }
  reflexivity.
Qed.

Lemma Future_passes : passed (FutureEntryNotDequeued rts clock factory).
Proof.
  unfold FutureEntryNotDequeued. set (w := hook _ _). rewrite (dequeue_one _ no_entities w); [|by entities|done].
  assert (After (wh_NextAttemptAt w) (clock 1) = true) as ->; [|reflexivity].
  apply Z.ltb_lt. cbn. unfold time_Add. pose proof (Hclock 0). unfold Second, Hour in *. lia.
Qed.

Lemma Ack_passes : passed (AckRemovesEntry rts clock factory).
Proof.
  unfold AckRemovesEntry, dequeue, DequeueWebhooks. entities. rewrite bool_decide_eq_true_2; [done|].
  rewrite range_values_perm. vm_compute. reflexivity.
Qed.

Lemma Nack_passes : passed (NackUpdatesRetry rts clock factory).
Proof.
  unfold NackUpdatesRetry. set (w := hook _ _). set (s1 := (st_EnqueueWebhook factory w).1).
  assert (entities s1 = EnqueueWebhook no_entities w) as E1 by (unfold s1; by entities).
  match goal with |- context [st_NackWebhook s1 ?i ?n ?t] =>
    pose proof (ent_NackWebhook s1 i n t) as He; pose proof (err_NackWebhook s1 i n t) as Hr; destruct (st_NackWebhook s1 i n t) as [s err] end.
  cbn [fst snd] in *. rewrite E1 in He, Hr. unfold NackWebhook in He, Hr. cbn in He, Hr. subst err. cbn [noError mbind TestM_bind mret TestM_ret].
  rewrite (dequeue_one s no_entities (nack 2 (time_Add (clock 1) (5 * Second)) w)); [|by rewrite He|done].
  assert (After (wh_NextAttemptAt (nack 2 (time_Add (clock 1) (5 * Second)) w)) (clock 2) = true) as ->; [|reflexivity].
  apply Z.ltb_lt. cbn. unfold time_Add. pose proof (Hclock 1). unfold Second in *. lia.
Qed.
End passes.

(** ** Logs: a store that keeps runs and their logs *)
Class LogRunStore (ST : Type) := {
  lg_CreateRun : ST → JobRun → ST;
  lg_AppendRunLog : ST → string → string → ST;
  lg_GetRunLogReader : ST → string → string;
  lg_GetJobLogReader : ST → string → string;
  lg_SubscribeRunLogs : ST → string → option (nat * ST);
  lg_receive : ST → nat → option string;
}.

#[export] Instance MemStore_logs `{GoRuntime} : LogRunStore MemStore := {|
  lg_CreateRun s r := (st_CreateRun s r).1;
  lg_AppendRunLog s id data := (st_AppendRunLog s id data).1;
  lg_GetRunLogReader s id := GetRunLogReader (mem_logs s) id;
  lg_GetJobLogReader s id := GetJobLogReader (mem_entities s) (mem_logs s) id;
  lg_SubscribeRunLogs s id := '(ch, l) ← SubscribeRunLogs (mem_logs s) id; Some (ch, s <| mem_logs := l |>);
  lg_receive s ch := (receive (mem_logs s) ch).1;
|}.

Definition FSStore_logs `{GoRuntime} `{StoreCodec} `{FsEnv} (ts : Time) (legacy : string → option string) : LogRunStore FSStore := {|
  lg_CreateRun s r := (fs_CreateRun ts s r).1;
  lg_AppendRunLog s id data := (fs_AppendRunLog s id data).1;
  lg_GetRunLogReader s id := fs_GetRunLogReader s id;
  lg_GetJobLogReader s id := fs_GetJobLogReader legacy s id;
  lg_SubscribeRunLogs s id := fs_SubscribeRunLogs s id;
  lg_receive s ch := (receive (fs_logs s) ch).1;
|}.

(** [strings.ReplaceAll(s, "\n", "")] and [bytes.Contains]. *)
Fixpoint strip_newlines (s : string) : string :=
  match s with
  | EmptyString => ""
  | String c s => if bool_decide (c = ascii_of_N 10) then strip_newlines s else String c (strip_newlines s)
  end.

Fixpoint contains (sub s : string) : bool :=
  HasPrefix sub s || match s with EmptyString => false | String _ s => contains sub s end.

Section log_tests.
Context `{LogRunStore ST} (factory : ST).

Definition test_run (id jobID : string) (status : RunStatus) : JobRun :=
  MkJobRun id jobID JobPhaseRun 0 "" status "" "" "" 0 None time_zero time_zero.

Definition AppendAndRead : TestM unit :=
  let s := lg_CreateRun factory (test_run "run-log-1" "job-log-1" RunStatusRunning) in
  let s := lg_AppendRunLog s "run-log-1" "hello " in
  let s := lg_AppendRunLog s "run-log-1" "world" in
  let got := lg_GetRunLogReader s "run-log-1" in
  expect (bool_decide (strip_newlines got = "hello world")) "log content".

Definition GetJobLogReaderComposesRuns : TestM unit :=
  let s := lg_CreateRun factory (test_run "run-a" "job-multi" RunStatusFailed) in
  let s := lg_CreateRun s (test_run "run-b" "job-multi" RunStatusCompleted) in
  let s := lg_AppendRunLog s "run-a" "attempt1" in
  let s := lg_AppendRunLog s "run-b" "attempt2" in
  let got := lg_GetJobLogReader s "job-multi" in
  expect (contains "attempt1" got && contains "attempt2" got) "expected both run logs".

Definition EmptyLog : TestM unit :=
  expect (bool_decide (String.length (lg_GetRunLogReader factory "nonexistent-run") = 0)) "expected empty reader".

(** The chunk is in the channel when the test receives; without one it would wait for the timeout. *)
Definition Subscribe : TestM unit :=
  let s := lg_CreateRun factory (test_run "run-sub-1" "job-sub-1" RunStatusRunning) in
  '(ch, s) ← no_panic (lg_SubscribeRunLogs s "run-sub-1");
  let s := lg_AppendRunLog s "run-sub-1" "chunk" in
  match lg_receive s ch with
  | None => Fatalf "timeout waiting for log chunk"
  | Some data => expect (contains "chunk" data) "expected 'chunk' in received data"
  end.

Definition RunLogStoreTests : list (TestM unit) := [AppendAndRead; GetJobLogReaderComposesRuns; EmptyLog; Subscribe].
End log_tests.

(** The runs of the composition subtest, in one of the two orders. *)
Lemma two_runs `{GoRuntime} (e : Entities) a b : run_ID a ≠ run_ID b → run_JobID a = "job-multi" → run_JobID b = "job-multi" →
  runs e = <[run_ID b := b]> {[run_ID a := a]} → ListJobRuns e "job-multi" = [a; b] ∨ ListJobRuns e "job-multi" = [b; a].
Proof.
  intros Hne Ha Hb He. unfold ListJobRuns. assert (range_values (runs e) ≡ₚ [b; a]) as Hr.
  { rewrite He, range_values_perm, map_to_list_insert, map_to_list_singleton; [done|]. by rewrite lookup_singleton_ne. }
  match goal with |- ?l = _ ∨ _ => assert (l ≡ₚ [b; a]) as Hl end.
  { rewrite sort_slice_perm, Hr. by rewrite !filter_cons_True. }
  symmetry in Hl. apply Permutation_length_2_inv in Hl. tauto.
Qed.

Lemma MemStore_logs_pass `{GoRuntime} : Forall passed (RunLogStoreTests NewMemStore).
Proof.
  repeat apply Forall_cons_2; [vm_compute; reflexivity| |vm_compute; reflexivity..|apply Forall_nil_2].
  unfold GetJobLogReaderComposesRuns. cbn [lg_GetJobLogReader MemStore_logs]. unfold GetJobLogReader, run_logs_of.
  set (s := lg_AppendRunLog _ _ _).
  destruct (two_runs (mem_entities s) (test_run "run-a" "job-multi" RunStatusFailed) (test_run "run-b" "job-multi" RunStatusCompleted))
    as [-> | ->]; [discriminate|done..|vm_compute; reflexivity|vm_compute; reflexivity].
Qed.

Lemma FSStore_logs_pass `{GoRuntime} `{StoreCodec} (env : FsEnv) ts legacy cfg s : (∀ id, log_open_error id = None) → (∀ id, log_write_error id = None) →
  OpenFSStore cfg empty_disk ∅ CompactOk = Ok s → Forall passed (@RunLogStoreTests _ (FSStore_logs ts legacy) s).
Proof.
  intros Ho Hw Hopen. assert (fs_mem s = no_entities ∧ fs_logFiles s = ∅ ∧ fs_logs s = no_logs) as (Em & Ef & El).
  { revert Hopen. unfold OpenFSStore. cbn. case_match; [|done]. intros [= <-]. done. }
  destruct s as [c m l files ch buf n d]. cbn in Em, Ef, El. subst m l files.
  assert (∀ s id data, (fs_AppendRunLog s id data).1 =
    s <| fs_logFiles := <[id := default "" (fs_logFiles s !! id) +:+ (data +:+ String (ascii_of_N 10) "")]> (fs_logFiles s) |>
      <| fs_logs := AppendRunLog (fs_mem s) (fs_logs s) id (data +:+ String (ascii_of_N 10) "") |>) as Happ.
  { intros s id data. unfold fs_AppendRunLog. by rewrite Ho, Hw. }
  repeat apply Forall_cons_2; [..|apply Forall_nil_2];
    unfold AppendAndRead, GetJobLogReaderComposesRuns, EmptyLog, Subscribe; cbv zeta;
    cbn [lg_CreateRun lg_AppendRunLog lg_GetRunLogReader lg_GetJobLogReader lg_SubscribeRunLogs lg_receive FSStore_logs].
  - rewrite !Happ. vm_compute. reflexivity.
  - rewrite !Happ. unfold fs_GetJobLogReader. set (s := _ <| fs_logs := _ |>).
    destruct (two_runs (fs_mem s) (test_run "run-a" "job-multi" RunStatusFailed) (test_run "run-b" "job-multi" RunStatusCompleted))
      as [-> | ->]; [discriminate|done..|vm_compute; reflexivity|vm_compute; reflexivity].
  - vm_compute. reflexivity.
  - unfold fs_SubscribeRunLogs. set (s0 := (fs_CreateRun _ _ _).1).
    match goal with |- context [SubscribeRunLogs ?a ?b] => destruct (SubscribeRunLogs a b) as [[k l]|] eqn:E end; [|discriminate E].
    cbn [mbind option_bind no_panic mret TestM_ret TestM_bind]. rewrite Happ.
    vm_compute in E. injection E as <- <-. vm_compute. reflexivity.
Qed.

(** Every store passes the compliance suite. Whatever the implementation, as long as it keeps the
    promises of the interface and starts empty, whatever the order in which maps are ranged over and
    equal elements sorted, and however the clock advances by less than a second per step, every subtest
    for jobs, tasks and webhooks passes; both stores pass those for logs, the journalled one when its log
    files can be written. *)
Theorem compliance_suite_passes `{Store ST} `{GoRuntime} `{StoreCodec} `{FsEnv} (rts : nat → GoRuntime) (clock : nat → Time)
    (factory : ST) (ts : Time) (legacy : string → option string) (cfg : FSStoreConfig) (fs : FSStore) :
  entities factory = no_entities → steady clock →
  (∀ id, log_open_error id = None) → (∀ id, log_write_error id = None) → OpenFSStore cfg empty_disk ∅ CompactOk = Ok fs →
  Forall passed (RunJobStoreTests rts clock factory ++ RunTaskStoreTests rts factory ++ RunWebhookStoreTests rts clock factory) ∧
  Forall passed (RunLogStoreTests NewMemStore) ∧ Forall passed (@RunLogStoreTests _ (FSStore_logs ts legacy) fs).
Proof.
  intros Hnew Hclock Ho Hw Hfs. split; [|split; [apply MemStore_logs_pass|by eapply FSStore_logs_pass]].
  unfold RunJobStoreTests, RunTaskStoreTests, RunWebhookStoreTests. cbn [app].
  repeat apply Forall_cons_2; [by apply SaveAndGetJob_passes|by apply GetJobNotFound_passes|by apply UpdateJob_passes|
    by apply Pagination_passes|by apply Pending_passes|by apply Recoverable_passes|by apply Child_passes|
    by apply SaveAndGetTask_passes|by apply ListTasks_passes|by apply UpdateTask_passes|by apply DeleteTask_passes|
    by apply Enqueue_passes|by apply Future_passes|by apply Ack_passes|by apply Nack_passes|apply Forall_nil_2].
Qed.

#[local] Existing Instance canonical_runtime.

(** The in-memory store on a stopped clock, beside a journalled store over a new directory. *)
Lemma compliance_suite_passes_witness :
  Forall passed (RunJobStoreTests (λ _, canonical_runtime) (λ _, 0%Z) NewMemStore ++ RunTaskStoreTests (λ _, canonical_runtime) NewMemStore ++
    RunWebhookStoreTests (λ _, canonical_runtime) (λ _, 0%Z) NewMemStore) ∧
  Forall passed (@RunLogStoreTests _ (@MemStore_logs canonical_runtime) NewMemStore) ∧
  Forall passed (@RunLogStoreTests _ (@FSStore_logs canonical_runtime numbering_codec
    {| log_open_error _ := None; log_write_error _ := None |} 0 (λ _, None)) sample_store).
Proof.
  exact (@compliance_suite_passes MemStore MemStore_Store canonical_runtime numbering_codec {| log_open_error _ := None; log_write_error _ := None |}
    (λ _, canonical_runtime) (λ _, 0%Z) NewMemStore 0 (λ _, None) sample_cfg sample_store eq_refl (λ _, conj (Z.le_refl 0) eq_refl)
    (λ _, eq_refl) (λ _, eq_refl) sample_open).
Defined.
