(* ===== verification/Server.v ===== *)
(** * The manager's HTTP server ([buildMux] of src/manager/routes.go)

    The routing table with its patterns, the middleware around each route and
    the handlers of [Routes], [Lifecycle] and [ConnServer] put together into one
    function on the state of the server: the manager, the artifact registry and
    the three collections of rate limiters.

    lowbit.dev/muxx is an interface ([Muxx]): it finds a pattern that matches a
    request, as [net/http] documents it, and applies every middleware of a chain
    once, in an order of its own. *)
From S2P Require Import Prelude GoStd External Contract Store MemStore Webhooks Heap PriorityQueue Cache WorkerConn WorkerPool.
From S2P Require Import Proto Config Registry RegistryProps Window Manager Dispatch Lifecycle Orchestrator Routes RateLimiter Handshake ConnServer.

(** ** Patterns: [METHOD /literal/{wildcard}] *)
Inductive segment := Lit (s : string) | Wild (name : string).

Record pattern := MkPattern { pt_method : string; pt_path : list segment }.

Definition parse_segment (s : string) : segment :=
  match s with
  | String "{" rest => match cut_at "}" rest with Some (name, "") => Wild name | _ => Lit s end
  | _ => Lit s
  end.

(** The segments of a path that starts with a slash. *)
Definition path_segments (path : string) : option (list string) :=
  match strings_Split "/" path with "" :: segs => Some segs | _ => None end.

Definition parse_pattern (s : string) : option pattern :=
  '(meth, path) ← cut_at " " s; segs ← path_segments path; Some (MkPattern meth (parse_segment <$> segs)).

(** A wildcard takes one non-empty segment. *)
Fixpoint match_path (ps : list segment) (segs : list string) : option (gmap string string) :=
  match ps, segs with
  | [], [] => Some ∅
  | Lit l :: ps, s :: segs => if bool_decide (l = s) then match_path ps segs else None
  | Wild name :: ps, s :: segs => if bool_decide (s = "") then None else <[name := s]> <$> match_path ps segs
  | _, _ => None
  end.

(** A pattern for GET also takes HEAD. *)
Definition method_matches (pattern_method meth : string) : bool :=
  bool_decide (pattern_method = meth) || (bool_decide (pattern_method = "GET") && bool_decide (meth = "HEAD")).

Definition pattern_match (p : pattern) (meth : string) (segs : list string) : option (gmap string string) :=
  if method_matches (pt_method p) meth then match_path (pt_path p) segs else None.

Class Muxx := {
  mux_find : list pattern → string → list string → option (nat * gmap string string);
  mux_find_some ps meth segs i vals : mux_find ps meth segs = Some (i, vals) →
    ∃ p, ps !! i = Some p ∧ pattern_match p meth segs = Some vals;
  mux_find_none ps meth segs : mux_find ps meth segs = None → Forall (λ p, pattern_match p meth segs = None) ps;
  chain_order {A} : list A → list A;
  chain_order_perm {A} (l : list A) : chain_order l ≡ₚ l;
  use_order {A} : list A → list A;
  use_order_perm {A} (l : list A) : use_order l ≡ₚ l;
}.

(** ** Routes *)
Inductive route :=
| R_health | R_connect
| R_managerLog | R_managerLogStream
| R_ListWorkers | R_GetWorker | R_DrainWorker | R_DisconnectWorker
| R_Cluster | R_ClusterQueue | R_ClusterMetrics
| R_ListJobs | R_SubmitJob | R_GetJob | R_CancelJob | R_JobLogs | R_JobLogsStream
| R_ListJobRuns | R_RunLogs | R_RunLogsStream | R_ListChildJobs
| R_ListTaskDefs | R_CreateTaskDef | R_GetTaskDef | R_UpdateTaskDef | R_DeleteTaskDef
| R_TaskArtifactUpload | R_TaskListArtifactVersions | R_TaskArtifactLatest | R_TaskArtifactDownload.

#[export] Instance route_eq_dec : EqDecision route.
Proof. solve_decision. Defined.

Definition mux_table (workerConnectPath : string) : list (string * route) :=
  [("GET /health", R_health);
   ("POST " +:+ workerConnectPath, R_connect);
   ("GET /manager/log", R_managerLog);
   ("GET /manager/log/stream", R_managerLogStream);
   ("GET /workers", R_ListWorkers);
   ("GET /workers/{id}", R_GetWorker);
   ("POST /workers/{id}/drain", R_DrainWorker);
   ("DELETE /workers/{id}", R_DisconnectWorker);
   ("GET /cluster", R_Cluster);
   ("GET /cluster/queue", R_ClusterQueue);
   ("GET /cluster/metrics", R_ClusterMetrics);
   ("GET /jobs", R_ListJobs);
   ("POST /jobs", R_SubmitJob);
   ("GET /jobs/{id}", R_GetJob);
   ("DELETE /jobs/{id}", R_CancelJob);
   ("GET /jobs/{id}/logs", R_JobLogs);
   ("GET /jobs/{id}/logs/stream", R_JobLogsStream);
   ("GET /jobs/{id}/runs", R_ListJobRuns);
   ("GET /jobs/{id}/runs/{runID}/logs", R_RunLogs);
   ("GET /jobs/{id}/runs/{runID}/logs/stream", R_RunLogsStream);
   ("GET /jobs/{id}/children", R_ListChildJobs);
   ("GET /tasks", R_ListTaskDefs);
   ("POST /tasks", R_CreateTaskDef);
   ("GET /tasks/{name}", R_GetTaskDef);
   ("PUT /tasks/{name}", R_UpdateTaskDef);
   ("DELETE /tasks/{name}", R_DeleteTaskDef);
   ("POST /tasks/{name}/artifacts", R_TaskArtifactUpload);
   ("GET /tasks/{name}/artifacts", R_TaskListArtifactVersions);
   ("GET /tasks/{name}/artifacts/latest", R_TaskArtifactLatest);
   ("GET /tasks/{name}/artifacts/{version}/{os}/{arch}", R_TaskArtifactDownload)].

(** A pattern that does not parse panics at registration: [None]. *)
Definition buildMux (cfg : Config) : option (list (pattern * route)) :=
  mapM (λ '(s, r), p ← parse_pattern s; Some (p, r)) (mux_table (WorkerConnectPath cfg)).

(** The routes registered on the group with [clientAuth]. *)
Definition client_route (r : route) : bool :=
  match r with R_health | R_connect | R_TaskArtifactDownload => false | _ => true end.

(** ** Requests and answers *)

(** The body as each handler decodes it; [rq_upgraded] is the connection cooper hands on once the handshake of a worker's
    request succeeded. *)
Record request := MkRequest {
  rq_Method : string;
  rq_Path : list string;
  rq_URL : string;
  rq_RemoteAddr : string;
  rq_Header : Header;
  rq_cursor : string;
  rq_limit : string;
  rq_submit : res error submitJobRequest;
  rq_task : res error Task;
  rq_form : res error upload_form;
  rq_upgraded : option Conn;
}.

Inductive body :=
| B_text (s : string) | B_workers (l : list workerInfo) | B_worker (w : workerDetailInfo) | B_cluster (c : clusterSummaryResponse)
| B_queue (q : queueSnapshot) | B_metrics (c : clusterMetrics) | B_jobs (l : list Job) (next : string) | B_job (j : Job)
| B_children (l : list Job) | B_runs (l : list JobRun) | B_stream (s : stream) | B_tasks (l : list Task) | B_task (t : option Task)
| B_versions (l : list ArtifactVersion) | B_version (v : ArtifactVersion) | B_file (path : list string).

Definition in_body {A} (f : A → body) (r : response A) : response body :=
  match r with Reply st b => Reply st (f b) | Problem st d => Problem st d | NoBody st => NoBody st end.

Definition no_body (r : response unit) : response body := in_body (λ _, B_text "") r.

(** What a handler does with the response: it writes one, panics, waits forever, or hands the connection to cooper, which
    answers the handshake; [registered] is the address of the worker's connection in the pool. *)
Inductive reply := Replied (r : response body) | Panicked | Waits | Upgrade (registered : option nat).

Record http_answer := MkAnswer { an_headers : list (string * string); an_reply : reply }.

Definition answer_status (a : http_answer) : option Z :=
  match an_reply a with
  | Replied (Reply st _) | Replied (Problem st _) | Replied (NoBody st) => Some st
  | _ => None
  end.

(** The bodies of the handlers that write none. *)
Definition submit_answer (req : submitJobRequest) (r : res Z Job) : response body :=
  match r with
  | Ok job => Reply 202 (B_job job)
  | Err st => Problem st (if (st =? 400)%Z then "task name is required"
                          else if (st =? 404)%Z then "unknown task: " +:+ sjr_Task req else "failed to save job")
  end.

Definition cancel_answer (st : Z) (job : res error Job) : response body :=
  if (st =? 202)%Z then NoBody 202
  else if (st =? 404)%Z then Problem 404 "job not found"
  else Problem st ("job is already in a terminal state: " +:+ match job with Ok j => JobStatus_string (job_Status j) | Err _ => "" end).

(** ** The server *)
Section server.
Context `{SimpleSet SS} `{Store ST} `{GoRuntime} `{Ulid} `{SerialLanes} `{WebhookEnv} `{WorkerSelector SS} `{ConsolidateJson}.
Context `{RegistryCodec} `{Muxx} (cfg : Config).

(** The authentication functions, the signer of the configured key, the domain, and the log store's readers. *)
Context (clientAuthFunc : option (request → option error)) (workerAuthFunc : option (string → option error)).
Context (signer : option (string → option urlsign_error)) (domain : string).
Context (rootJobLog runLog : ST → string → res error string) (reads : string → list string).

(** [sv_cancels] are the jobs [cancelJobByID] was started for in a goroutine. *)
Record Server := MkServer {
  sv_manager : Manager SS ST;
  sv_registry : option FsRegistry;
  sv_cancels : list string;
  sv_healthRL : limiters;
  sv_workerConnectRL : limiters;
  sv_clientRL : limiters;
}.

#[global] Instance Server_rebuild : Rebuild Server := λ s,
  MkServer (sv_manager s) (sv_registry s) (sv_cancels s) (sv_healthRL s) (sv_workerConnectRL s) (sv_clientRL s).

Definition handler : Type := Server → request → gmap string string → Time → Server * http_answer.

(** *** Middleware *)
Definition tooMany (headers : list (string * string)) : http_answer :=
  MkAnswer headers (Replied (Reply 429 (B_text ("429 Too Many Requests" +:+ newline)))).

Definition bucket (rate capacity : Z) (now : Time) : Limiter := NewLimiter (f64_of_Z rate) (f64_of_Z capacity) now.

(** [Middleware] of a collection: the headers are set before the next handler runs. *)
Definition limited (rate capacity : Z) (get : Server → limiters) (put : limiters → Server → Server) (next : handler) : handler :=
  λ s req vals now,
    let '(c, (headers, allowed)) := Collection_Middleware (bucket rate capacity) (get s) (RemoteAddrKey (rq_RemoteAddr req)) now in
    let s := put c s in
    if allowed then let '(s, a) := next s req vals now in (s, MkAnswer (headers ++ an_headers a) (an_reply a))
    else (s, tooMany headers).

Definition healthRL : handler → handler := limited 2 20 sv_healthRL (λ c s, s <| sv_healthRL := c |>).
Definition workerConnectRL : handler → handler := limited 1 10 sv_workerConnectRL (λ c s, s <| sv_workerConnectRL := c |>).
Definition clientRL : handler → handler := limited 10 30 sv_clientRL (λ c s, s <| sv_clientRL := c |>).

Definition unauthorized (s : Server) (detail : string) : Server * http_answer := (s, MkAnswer [] (Replied (Problem 401 detail))).

Definition authenticated (next : handler) : handler :=
  λ s req vals now, clientAuth clientAuthFunc (unauthorized s) (λ req, next s req vals now) req.

Definition signed (next : handler) : handler :=
  λ s req vals now, signedArtifactMiddleware signer domain (rq_URL req) (unauthorized s) (next s req vals now).

(** [muxx.Chain] and [Group.Use]. *)
Definition wrap (mws : list (handler → handler)) (h : handler) : handler := foldr (λ mw h, mw h) h mws.
Definition Chain (h : handler) (mws : list (handler → handler)) : handler := wrap (chain_order mws) h.
Definition Use (h : handler) (mws : list (handler → handler)) : handler := wrap (use_order mws) h.

(** *** Handlers *)
Definition replied (s : Server) (r : response body) : Server * http_answer := (s, MkAnswer [] (Replied r)).
Definition with_manager (s : Server) (m : Manager SS ST) : Server := s <| sv_manager := m |>.

Definition streamed (s : Server) (r : option (Manager SS ST * response stream)) : Server * http_answer :=
  match r with
  | None => (s, MkAnswer [] Waits)
  | Some (m, a) => replied (with_manager s m) (in_body B_stream a)
  end.

Definition handle (r : route) : handler := λ s req vals now,
  let m := sv_manager s in
  let value := PathValue vals in
  let chunks (reader : string → res error string) id := match reader id with Ok text => Some (reads text) | Err _ => None end in
  match r with
  | R_health => replied s (Reply 200 (B_text ("{" +:+ Quote "status" +:+ ": true}")))
  | R_connect =>
      match ServeHTTP_admit workerAuthFunc (rq_Header req) with
      | Unauthorized e => replied s (Problem 401 (Error e))
      | EmptyResponse => replied s (NoBody 200)
      | Identified id os arch capacity =>
          match rq_upgraded req with
          | None => (s, MkAnswer [] (Upgrade None))
          | Some conn =>
              let '(m, r) := Hijacked cfg m id os arch capacity conn now in
              (with_manager s m, MkAnswer [] (Upgrade (match r with Ok a => Some a | Err _ => None end)))
          end
      end
  | R_managerLog | R_managerLogStream => replied s (NoBody 200)
  | R_ListWorkers => replied s (in_body B_workers (handleListWorkers m))
  | R_GetWorker => replied s (in_body B_worker (handleGetWorker m (value "id")))
  | R_DrainWorker => let '(m, a) := handleDrainWorker m (value "id") in replied (with_manager s m) (no_body a)
  | R_DisconnectWorker => let '(m, a) := handleDisconnectWorker m (value "id") in replied (with_manager s m) (no_body a)
  | R_Cluster => replied s (in_body B_cluster (handleCluster m))
  | R_ClusterQueue => replied s (in_body B_queue (handleClusterQueue cfg m))
  | R_ClusterMetrics => replied s (in_body B_metrics (handleClusterMetrics m))
  | R_ListJobs =>
      match handleListJobs m (rq_cursor req) (rq_limit req) with
      | None => (s, MkAnswer [] Panicked)
      | Some a => replied s (in_body (λ '(l, next), B_jobs l next) a)
      end
  | R_SubmitJob =>
      match rq_submit req with
      | Err e => replied s (Problem 400 (Error e))
      | Ok body => let '(m, a) := handleSubmitJob m body now in replied (with_manager s m) (submit_answer body a)
      end
  | R_GetJob => replied s (in_body B_job (handleGetJob m (value "id")))
  | R_CancelJob =>
      let '(st, started) := handleCancelJob m (value "id") in
      replied (s <| sv_cancels := sv_cancels s ++ option_list started |>) (cancel_answer st (GetJob (ents m) (value "id")))
  | R_JobLogs => replied s (in_body B_text (handleJobLogs m (rootJobLog (mg_store m)) (value "id")))
  | R_JobLogsStream => streamed s (handleJobLogsStream m (chunks (rootJobLog (mg_store m))) (value "id"))
  | R_ListJobRuns => replied s (in_body B_runs (handleListJobRuns m (value "id")))
  | R_RunLogs => replied s (in_body B_text (handleRunLogs (runLog (mg_store m)) (value "runID")))
  | R_RunLogsStream => streamed s (handleRunLogsStream m (chunks (runLog (mg_store m))) (value "runID"))
  | R_ListChildJobs => replied s (in_body B_children (handleListChildJobs m (value "id")))
  | R_ListTaskDefs => replied s (in_body B_tasks (handleListTaskDefs m))
  | R_CreateTaskDef => let '(m, a) := handleCreateTaskDef m (rq_task req) in replied (with_manager s m) (in_body (B_task ∘ Some) a)
  | R_GetTaskDef => replied s (in_body (B_task ∘ Some) (handleGetTaskDef m (value "name")))
  | R_UpdateTaskDef => let '(m, a) := handleUpdateTaskDef m (value "name") (rq_task req) in replied (with_manager s m) (in_body B_task a)
  | R_DeleteTaskDef =>
      let '(m, reg, a) := handleDeleteTaskDef m (sv_registry s) (value "name") in
      replied (with_manager s m <| sv_registry := reg |>) (no_body a)
  | R_TaskArtifactUpload =>
      let '(m, reg, a) := handleTaskArtifactUpload m (sv_registry s) vals (rq_form req) now in
      replied (with_manager s m <| sv_registry := reg |>) (no_body a)
  | R_TaskListArtifactVersions =>
      let '(reg, a) := handleTaskListArtifactVersions (sv_registry s) vals in
      replied (s <| sv_registry := reg |>) (in_body B_versions a)
  | R_TaskArtifactLatest =>
      let '(reg, a) := handleTaskArtifactLatest (sv_registry s) vals in replied (s <| sv_registry := reg |>) (in_body B_version a)
  | R_TaskArtifactDownload =>
      replied s (in_body B_file (handleTaskArtifactDownload (sv_registry s) vals))
  end.

(** The handler registered for a route. *)
Definition route_handler (r : route) : handler :=
  match r with
  | R_health => healthRL (handle r)
  | R_connect => Chain (handle r) [workerConnectRL]
  | R_TaskArtifactDownload => Chain (handle r) [signed; clientRL]
  | _ => Use (handle r) [authenticated; clientRL]
  end.

(** [None]: no pattern matches, and the router answers by itself. *)
Definition ServeHTTP (t : list (pattern * route)) (s : Server) (req : request) (now : Time) : Server * option http_answer :=
  match mux_find t.*1 (rq_Method req) (rq_Path req) with
  | None => (s, None)
  | Some (i, vals) =>
      match t !! i with
      | Some (_, r) => let '(s, a) := route_handler r s req vals now in (s, Some a)
      | None => (s, None)
      end
  end.
End server.

(** ** Routing *)

(** No request matches both. *)
Definition methods_clash (a b : string) : bool :=
  bool_decide (a ≠ b) && negb (bool_decide (a = "GET") && bool_decide (b = "HEAD")) &&
  negb (bool_decide (b = "GET") && bool_decide (a = "HEAD")).

Fixpoint paths_clash (ps qs : list segment) : bool :=
  match ps, qs with
  | [], [] => false
  | Lit a :: ps, Lit b :: qs => bool_decide (a ≠ b) || paths_clash ps qs
  | _ :: ps, _ :: qs => paths_clash ps qs
  | _, _ => true
  end.

Definition disjoint_patterns (p q : pattern) : bool := methods_clash (pt_method p) (pt_method q) || paths_clash (pt_path p) (pt_path q).

Fixpoint all_disjoint (ps : list pattern) : bool :=
  match ps with [] => true | p :: ps => forallb (disjoint_patterns p) ps && all_disjoint ps end.

Lemma if_same {A} (b : bool) (x : A) : (if b then x else x) = x.
Proof. by destruct b. Qed.

Lemma paths_clash_sound ps qs segs : paths_clash ps qs = true → is_Some (match_path ps segs) → match_path qs segs = None.
Proof.
  revert qs segs. induction ps as [|[l|n] ps IH]; intros [|[l'|n'] qs] [|s segs] Hc [v Hv]; simpl in *; try discriminate; try done.
  - apply orb_true_iff in Hc as [Hc%bool_decide_eq_true|Hc].
    + case_bool_decide; [subst l|done]. by rewrite bool_decide_eq_false_2.
    + case_bool_decide; [|done]. rewrite (IH _ segs Hc) by eauto; apply if_same.
  - case_bool_decide; [|done]. rewrite (IH _ segs Hc) by eauto; apply if_same.
  - case_bool_decide; [done|]. apply fmap_Some in Hv as (v' & Hv' & _). rewrite (IH _ segs Hc) by eauto; apply if_same.
  - case_bool_decide; [done|]. apply fmap_Some in Hv as (v' & Hv' & _). rewrite (IH _ segs Hc) by eauto; done.
Qed.

Lemma methods_clash_sound a b meth : methods_clash a b = true → method_matches a meth = true → method_matches b meth = false.
Proof.
  unfold methods_clash, method_matches. intros Hc Ha. repeat case_bool_decide; simpl in *; congruence || naive_solver.
Qed.

Lemma disjoint_sound p q meth segs : disjoint_patterns p q = true → is_Some (pattern_match p meth segs) → pattern_match q meth segs = None.
Proof.
  unfold disjoint_patterns, pattern_match. intros [Hc|Hc]%orb_true_iff.
  - destruct (method_matches (pt_method p) meth) eqn:E; [|by intros []]. intros _. by rewrite (methods_clash_sound _ _ _ Hc E).
  - destruct (method_matches (pt_method p) meth); [|by intros []]. intros Hp.
    by rewrite (paths_clash_sound _ _ _ Hc Hp), if_same.
Qed.

Lemma all_disjoint_unique ps i j p q meth segs : all_disjoint ps = true → ps !! i = Some p → ps !! j = Some q →
  is_Some (pattern_match p meth segs) → is_Some (pattern_match q meth segs) → i = j.
Proof.
  revert i j. induction ps as [|x ps IH]; intros i j Hd Hi Hj Hp Hq; [done|].
  simpl in Hd. apply andb_true_iff in Hd as [Hx Hd]. rewrite forallb_forall in Hx.
  assert (∀ y, y ∈ ps → is_Some (pattern_match x meth segs) → ¬ is_Some (pattern_match y meth segs)) as Hn.
  { intros y Hy Hmx [v Hv]. rewrite (disjoint_sound x y meth segs) in Hv; [done| |done]. by apply Hx, list_elem_of_In. }
  destruct i as [|i], j as [|j]; simplify_eq/=; [done| | |f_equal; by eapply IH].
  - destruct (Hn q); [by eapply list_elem_of_lookup_2|done..].
  - destruct (Hn p); [by eapply list_elem_of_lookup_2|done..].
Qed.

(** The path for worker connections collides with no other route. *)
Definition connect_path_free (path : string) : bool :=
  match parse_pattern ("POST " +:+ path) with
  | None => false
  | Some p => forallb (λ '(s, r), bool_decide (r = R_connect) ||
                match parse_pattern s with Some q => disjoint_patterns p q && disjoint_patterns q p | None => false end) (mux_table path)
  end.

(** The table is that of the source, with the pattern of the connect path in it. *)
Definition fixed_routes : list (pattern * route) :=
  omap (λ '(s, r), p ← parse_pattern s; if decide (r = R_connect) then None else Some (p, r)) (mux_table "").

Lemma buildMux_some cfg t : buildMux cfg = Some t → ∃ p h rest, parse_pattern ("POST " +:+ WorkerConnectPath cfg) = Some p ∧
  fixed_routes = h :: rest ∧ t = h :: (p, R_connect) :: rest.
Proof.
  unfold buildMux. generalize (WorkerConnectPath cfg) as path. intros path. cbn [mux_table mapM].
  remember (parse_pattern ("POST " +:+ path)) as q eqn:Hq. clear Hq. destruct q as [p|]; [|discriminate].
  vm_compute. intros [= <-]. eexists p, _, _. split_and!; [done|reflexivity|reflexivity].
Qed.

(** Every pattern of the table is registered. *)
Lemma buildMux_in cfg t pat p r : buildMux cfg = Some t → (pat, r) ∈ mux_table (WorkerConnectPath cfg) →
  parse_pattern pat = Some p → (p, r) ∈ t.
Proof.
  unfold buildMux. rewrite mapM_Some. intros Ht%Forall2_flip Hpat Hp.
  destruct (list_elem_of_lookup_1 _ _ Hpat) as [i Hi].
  destruct (Forall2_lookup_r _ _ _ _ _ Ht Hi) as ([p' r'] & Hi' & E). unfold flip in E. rewrite Hp in E. cbn in E. simplify_eq.
  by eapply list_elem_of_lookup_2.
Qed.

Lemma connect_free_spec path p q r : connect_path_free path = true → parse_pattern ("POST " +:+ path) = Some p → (q, r) ∈ fixed_routes →
  disjoint_patterns p q = true ∧ disjoint_patterns q p = true.
Proof.
  unfold connect_path_free. intros Hf Hp. rewrite Hp in Hf. rewrite forallb_forall in Hf.
  unfold fixed_routes. intros ([s r'] & Hin & Hq)%list_elem_of_omap.
  apply bind_Some in Hq as (q' & Hq & Hr). case_decide as Hne; [done|]. simplify_eq.
  assert ((s, r) ∈ mux_table path) as Hin'.
  { apply elem_of_cons in Hin as [->|[Hin|Hin]%elem_of_cons]; [left| |do 2 right; exact Hin]. congruence. }
  specialize (Hf (s, r)). cbv beta iota in Hf. rewrite Hq, bool_decide_eq_false_2 in Hf by done.
  apply andb_true_iff. apply Hf. by apply list_elem_of_In.
Qed.

Lemma fixed_disjoint : all_disjoint fixed_routes.*1 = true.
Proof. vm_compute. reflexivity. Qed.

Lemma mux_disjoint cfg t : buildMux cfg = Some t → connect_path_free (WorkerConnectPath cfg) = true → all_disjoint t.*1 = true.
Proof.
  intros (p & h & rest & Hp & Hfix & ->)%buildMux_some Hfree. pose proof fixed_disjoint as Hd.
  assert (∀ q r, (q, r) ∈ fixed_routes → disjoint_patterns p q = true ∧ disjoint_patterns q p = true) as Hc by (by intros; eapply connect_free_spec).
  rewrite Hfix in Hd, Hc. cbn [fmap list_fmap all_disjoint forallb fst] in *. apply andb_true_iff in Hd as [Hd1 Hd2].
  rewrite Hd1, Hd2. destruct h as [q r]. cbn [fst] in *. rewrite (proj2 (Hc q r ltac:(left))). cbn. rewrite andb_true_r.
  apply forallb_forall. intros x ([x' r'] & -> & Hx)%list_elem_of_In%list_elem_of_fmap. eapply Hc. by right.
Qed.

Section properties.
Context `{SimpleSet SS} `{Store ST} `{GoRuntime} `{Ulid} `{SerialLanes} `{WebhookEnv} `{WorkerSelector SS} `{ConsolidateJson}.
Context `{RegistryCodec} `{mux : Muxx} (cfg : Config).
Context (clientAuthFunc : option (request → option error)) (workerAuthFunc : option (string → option error)).
Context (signer : option (string → option urlsign_error)) (domain : string).
Context (rootJobLog runLog : ST → string → res error string) (reads : string → list string).
Implicit Types (s : @Server SS ST).

Notation route_handler := (route_handler cfg clientAuthFunc workerAuthFunc signer domain rootJobLog runLog reads).
Notation ServeHTTP := (ServeHTTP cfg clientAuthFunc workerAuthFunc signer domain rootJobLog runLog reads).
Notation handle := (handle cfg workerAuthFunc rootJobLog runLog reads).

(** A request is handled by the route whose pattern it matches. *)
Lemma ServeHTTP_route t s req now p r vals : all_disjoint t.*1 = true → (p, r) ∈ t →
  pattern_match p (rq_Method req) (rq_Path req) = Some vals →
  ServeHTTP t s req now = (let '(s, a) := route_handler r s req vals now in (s, Some a)).
Proof.
  intros Hd [k Hk]%list_elem_of_lookup Hp. unfold Server.ServeHTTP.
  assert (t.*1 !! k = Some p) as Hk1 by by rewrite list_lookup_fmap, Hk.
  destruct (mux_find _ _ _) as [[i vals']|] eqn:E.
  - destruct (mux_find_some _ _ _ _ _ E) as (q & Hi & Hq).
    assert (i = k) as -> by (eapply all_disjoint_unique; eauto). rewrite Hk. rewrite Hk1 in Hi. simplify_eq. done.
  - apply mux_find_none in E. rewrite Forall_forall in E. rewrite (E p) in Hp; [done|]. by eapply list_elem_of_lookup_2.
Qed.

(** What a refused request leaves alone. *)
Definition untouched s s' : Prop :=
  sv_manager s' = sv_manager s ∧ sv_registry s' = sv_registry s ∧ sv_cancels s' = sv_cancels s.

Lemma two_orders {A} (l : list A) a b : l ≡ₚ [a; b] → l = [a; b] ∨ l = [b; a].
Proof. intros Hp. symmetry in Hp. apply Permutation_length_2_inv in Hp. tauto. Qed.

(** The guard of the client API, whichever of its two checks comes first. *)
Lemma client_guard r s req vals now : client_route r = true →
  let key := RemoteAddrKey (rq_RemoteAddr req) in
  let '(c, (headers, allowed)) := Collection_Middleware (bucket 10 30) (sv_clientRL s) key now in
  let refused := clientAuthFunc ≫= λ check, check req in
  let '(s', a) := route_handler r s req vals now in
  (refused ≠ None ∨ allowed = false → untouched s s' ∧ (answer_status a = Some 401%Z ∨ answer_status a = Some 429%Z)) ∧
  (refused = None → allowed = true →
     let '(s1, a1) := handle r (s <| sv_clientRL := c |>) req vals now in
     s' = s1 ∧ a = MkAnswer (headers ++ an_headers a1) (an_reply a1)).
Proof.
  intros Hr. cbv zeta. assert (route_handler r = Use (handle r) [authenticated clientAuthFunc; clientRL]) as ->
    by (destruct r; first [discriminate Hr|reflexivity]).
  generalize (handle r) as h. intros h. unfold Use.
  match goal with |- context [use_order ?l] => destruct (two_orders (use_order l) _ _ (use_order_perm l)) as [-> | ->] end;
    cbn [wrap foldr]; unfold authenticated, clientRL, limited, clientAuth;
    destruct (Collection_Middleware _ _ _ _) as [c [headers allowed]];
    destruct clientAuthFunc as [check|]; cbn [mbind option_bind]; try destruct (check req) as [e|]; destruct allowed;
    repeat match goal with |- context [h ?s ?r ?v ?n] => destruct (h s r v n) end;
    (split; [intros [?|?]|intros ? ?]); try congruence; repeat split; auto.
Qed.

(** *** What requests do to the orchestrator's state: a relation every middleware carries through *)
Definition view s : Manager SS ST * list string := (sv_manager s, sv_cancels s).

Section carried.
Context (R : relation (Manager SS ST * list string)) `{!Reflexive R}.

Definition respects (h : handler (SS := SS) (ST := ST)) : Prop := ∀ s req vals now, R (view s) (view (h s req vals now).1).

Lemma limited_respects rate cap get put h : (∀ c s, view (put c s) = view s) → respects h → respects (limited rate cap get put h).
Proof.
  intros Hput Hh s req vals now. unfold limited. destruct (Collection_Middleware _ _ _ _) as [c [headers []]]; [|by rewrite <- (Hput c s)].
  specialize (Hh (put c s) req vals now). destruct (h _ _ _ _) as [s' a]. by rewrite Hput in Hh.
Qed.

Lemma authenticated_respects h : respects h → respects (authenticated clientAuthFunc h).
Proof.
  intros Hh s req vals now. unfold authenticated, clientAuth. destruct clientAuthFunc as [check|]; [|apply Hh].
  destruct (check req); [done|apply Hh].
Qed.

Lemma signed_respects h : respects h → respects (signed signer domain h).
Proof.
  intros Hh s req vals now. unfold signed, signedArtifactMiddleware. destruct signer as [verify|]; [|apply Hh].
  destruct (verify _) as [[]|]; [done..|apply Hh].
Qed.

Lemma wrap_respects mws h : Forall (λ mw, ∀ h, respects h → respects (mw h)) mws → respects h → respects (wrap mws h).
Proof. intros Hm Hh. induction Hm as [|mw mws Hmw _ IH]; [done|]. by apply Hmw. Qed.

Lemma route_respects r : respects (handle r) → respects (route_handler r).
Proof.
  intros Hr.
  assert (∀ rate cap get put, (∀ c s, view (put c s) = view s) → ∀ h, respects h → respects (limited rate cap get put h)) as Hl
    by (intros; by apply limited_respects).
  assert (respects (wrap (use_order [authenticated clientAuthFunc; clientRL]) (handle r))) as Huse.
  { apply wrap_respects; [|done]. rewrite use_order_perm.
    repeat apply Forall_cons_2; [apply authenticated_respects|by apply Hl|apply Forall_nil_2]. }
  destruct r; try exact Huse.
  - by apply Hl.
  - apply wrap_respects; [|done]. rewrite chain_order_perm. repeat apply Forall_cons_2; [by apply Hl|apply Forall_nil_2].
  - apply wrap_respects; [|done]. rewrite chain_order_perm.
    repeat apply Forall_cons_2; [apply signed_respects|by apply Hl|apply Forall_nil_2].
Qed.

Lemma ServeHTTP_respects t s req now :
  (∀ p r, (p, r) ∈ t → is_Some (pattern_match p (rq_Method req) (rq_Path req)) → respects (handle r)) →
  R (view s) (view (ServeHTTP t s req now).1).
Proof.
  intros Hr. unfold Server.ServeHTTP. destruct (mux_find _ _ _) as [[i vals]|] eqn:E; [|done].
  destruct (mux_find_some _ _ _ _ _ E) as (q & Hq & Hm). destruct (t !! i) as [[p r]|] eqn:Hi; [|done].
  rewrite list_lookup_fmap, Hi in Hq. injection Hq as ->.
  pose proof (route_respects r (Hr q r (list_elem_of_lookup_2 _ _ _ Hi) (mk_is_Some _ _ Hm)) s req vals now) as Hv.
  by destruct (Server.route_handler _ _ _ _ _ _ _ _ _ _ _ _ _).
Qed.
End carried.

(** No step of the orchestrator, or one. *)
Context {exact : Prop}.

Definition at_most_a_step (x y : Manager SS ST * list string) : Prop := y.1 = x.1 ∨ step (exact := exact) cfg x.1 y.1.

#[global] Instance at_most_refl : Reflexive at_most_a_step.
Proof. by left. Qed.

(** The handlers that only read; following a log adds a channel to the log store, which is not among the entities. *)
Definition reading (r : route) : bool :=
  match r with
  | R_connect | R_DrainWorker | R_DisconnectWorker | R_SubmitJob | R_CancelJob | R_CreateTaskDef | R_UpdateTaskDef | R_DeleteTaskDef
  | R_TaskArtifactUpload => false
  | _ => true
  end.

Definition only_follows (m m' : Manager SS ST) : Prop := ∃ st, entities st = ents m ∧ m' = set_store m st.

Definition reads_only (x y : Manager SS ST * list string) : Prop := only_follows x.1 y.1 ∧ y.2 = x.2.

Lemma set_store_same (m : Manager SS ST) : set_store m (mg_store m) = m.
Proof. by destruct m as [? ? ? ? [] ? ? ? ?]. Qed.

#[global] Instance reads_only_refl : Reflexive reads_only.
Proof. intros [m l]. split; [|done]. exists (mg_store m). split; [done|]. symmetry. apply set_store_same. Qed.

(** A subscription, as a step and as what it leaves alone. *)
Lemma streamed_spec s r (P : Manager SS ST → Prop) : P (sv_manager s) → (∀ m a, r = Some (m, a) → P m) →
  P (sv_manager (streamed s r).1) ∧ sv_cancels (streamed s r).1 = sv_cancels s.
Proof. intros Hs Hr. destruct r as [[m a]|]; [|done]. split; [by eapply Hr|done]. Qed.

Lemma job_stream_cases (m : Manager SS ST) chunks id m' a : handleJobLogsStream m chunks id = Some (m', a) →
  m' = m ∨ ∃ ch st, st_SubscribeJobLogs (mg_store m) id = Some (ch, st) ∧ m' = set_store m st.
Proof.
  unfold handleJobLogsStream. destruct (GetJob _ _); [destruct (IsTerminal _)|]; [by intros [= <- <-]; left| |by intros [= <- <-]; left].
  unfold subscribed. intros ([ch st] & E & [= <- <-])%bind_Some. right. eauto.
Qed.

Lemma run_stream_cases (m : Manager SS ST) chunks id m' a : handleRunLogsStream m chunks id = Some (m', a) →
  m' = m ∨ ∃ ch st, st_SubscribeRunLogs (mg_store m) id = Some (ch, st) ∧ m' = set_store m st.
Proof.
  unfold handleRunLogsStream. destruct (GetRun _ _); [destruct (_ || _)|]; [by intros [= <- <-]; left| |by intros [= <- <-]; left].
  unfold subscribed. intros ([ch st] & E & [= <- <-])%bind_Some. right. eauto.
Qed.

Lemma reading_respects r : reading r = true → respects reads_only (handle r).
Proof.
  intros Hr s req vals now. destruct r; try discriminate Hr; try reflexivity; unfold Server.handle; cbv zeta.
  - by destruct (handleListJobs _ _ _).
  - apply (streamed_spec s _ (only_follows (sv_manager s))); [apply (reads_only_refl (sv_manager s, []))|].
    intros m a [->|(ch & st & E & ->)]%job_stream_cases; [apply (reads_only_refl (sv_manager s, []))|].
    exists st. split; [by eapply ent_SubscribeJob|done].
  - apply (streamed_spec s _ (only_follows (sv_manager s))); [apply (reads_only_refl (sv_manager s, []))|].
    intros m a [->|(ch & st & E & ->)]%run_stream_cases; [apply (reads_only_refl (sv_manager s, []))|].
    exists st. split; [by eapply ent_SubscribeRun|done].
  - by destruct (handleTaskListArtifactVersions _ _).
  - by destruct (handleTaskArtifactLatest _ _).
Qed.

Lemma publish_moves m reg name form now : let m' := (publishArtifact m reg name form now).1.1 in m' = m ∨ step (exact := exact) cfg m m'.
Proof.
  unfold publishArtifact. destruct reg as [r|]; [|by left]. destruct form as [f|]; [|by left]. cbv zeta.
  case_bool_decide; [by left|]. destruct (collect_binaries _ _) as [b|]; [|by left]. case_bool_decide; [by left|].
  destruct (Publish _ _ _ _) as [r' [[]|]]; try (by left). right. constructor.
Qed.

Lemma handle_moves r : respects at_most_a_step (handle r).
Proof.
  intros s req vals now. destruct r; try (by left).
  all: unfold Server.handle, at_most_a_step; cbv zeta; cbn [view fst].
  - destruct (ServeHTTP_admit _ _) as [e| |id os arch cap]; [by left|by left|]. destruct (rq_upgraded req) as [conn|]; [|by left].
    unfold Hijacked. destruct (NewWorkerConnection _ _ _ _ _ _ _ _) as [[[a p] ids]|] eqn:E; [|by left]. right. by eapply st_connect.
  - right. unfold handleDrainWorker. pose proof (st_drain (exact := exact) cfg (sv_manager s) (PathValue vals "id")) as Hs.
    by destruct (DrainWorker _ _) as [m [e|]].
  - right. unfold handleDisconnectWorker. pose proof (st_kick (exact := exact) cfg (sv_manager s) (PathValue vals "id")) as Hs.
    by destruct (DisconnectWorker _ _) as [m [e|]].
  - destruct (handleListJobs _ _ _) as [a|]; by left.
  - destruct (rq_submit req) as [b|]; [|by left]. right. pose proof (st_submit (exact := exact) cfg (sv_manager s) b now) as Hs.
    by destruct (handleSubmitJob _ _ _) as [m a].
  - destruct (handleCancelJob _ _) as [st started]. by left.
  - destruct (streamed_spec s (handleJobLogsStream (sv_manager s)
      (λ id, match rootJobLog (mg_store (sv_manager s)) id with Ok text => Some (reads text) | Err _ => None end) (PathValue vals "id"))
      (λ m, m = sv_manager s ∨ step (exact := exact) cfg (sv_manager s) m)) as [Hs _]; [by left| |exact Hs].
    intros m a [->|(ch & st & E & ->)]%job_stream_cases; [by left|]. right. by eapply st_follow_job.
  - destruct (streamed_spec s (handleRunLogsStream (sv_manager s)
      (λ id, match runLog (mg_store (sv_manager s)) id with Ok text => Some (reads text) | Err _ => None end) (PathValue vals "runID"))
      (λ m, m = sv_manager s ∨ step (exact := exact) cfg (sv_manager s) m)) as [Hs _]; [by left| |exact Hs].
    intros m a [->|(ch & st & E & ->)]%run_stream_cases; [by left|]. right. by eapply st_follow_run.
  - unfold handleCreateTaskDef. destruct (rq_task req) as [t|]; [|by left]. case_bool_decide; [by left|]. right.
    pose proof (st_task (exact := exact) cfg (sv_manager s) t) as Hs. by destruct (st_SaveTask _ _) as [st [e|]].
  - unfold handleUpdateTaskDef. destruct (rq_task req) as [t|]; [|by left]. right.
    pose proof (st_edit_task (exact := exact) cfg (sv_manager s) (PathValue vals "name") (update_task t)) as Hs.
    destruct (st_UpdateTask _ _ _) as [st [e|]]; apply Hs; intros t'; unfold update_task; by destruct (task_Cost t =? 0)%Z.
  - unfold handleDeleteTaskDef. right. pose proof (st_drop_task (exact := exact) cfg (sv_manager s) (PathValue vals "name")) as Hs.
    by destruct (st_DeleteTask _ _) as [st [e|]].
  - pose proof (publish_moves (sv_manager s) (sv_registry s) (PathValue vals "name") (rq_form req) now) as Hp.
    unfold handleTaskArtifactUpload. by destruct (publishArtifact _ _ _ _ _) as [[m reg] a].
  - destruct (handleTaskListArtifactVersions _ _). by left.
  - destruct (handleTaskArtifactLatest _ _). by left.
Qed.

(** The routes of the table that take GET requests only read. *)
Lemma mux_reading t p r meth segs : buildMux cfg = Some t → (p, r) ∈ t → meth = "GET" ∨ meth = "HEAD" →
  is_Some (pattern_match p meth segs) → reading r = true.
Proof.
  intros (q & h & rest & Hq & Hfix & ->)%buildMux_some Hin Hmeth [v Hv].
  assert (forallb (λ '(p, r), negb (method_matches (pt_method p) "GET" || method_matches (pt_method p) "HEAD") || reading r) fixed_routes = true)
    as Hall by (vm_compute; reflexivity).
  unfold pattern_match in Hv. destruct (method_matches (pt_method p) meth) eqn:Em; [|done].
  rewrite forallb_forall in Hall. setoid_rewrite <- list_elem_of_In in Hall. rewrite Hfix in Hall.
  assert ((p, r) = (q, R_connect) ∨ (p, r) ∈ h :: rest) as [Hc|Hr] by (revert Hin; rewrite !elem_of_cons; tauto).
  - injection Hc as -> ->. apply bind_Some in Hq as ([meth' path'] & Hcut & Hq). apply bind_Some in Hq as (segs' & _ & [= <-]).
    assert (meth' = "POST") as -> by (cbn in Hcut; by injection Hcut as <- _). by destruct Hmeth as [-> | ->].
  - specialize (Hall _ Hr). cbv beta iota in Hall. destruct Hmeth as [-> | ->]; rewrite Em, ?orb_true_r in Hall; exact Hall.
Qed.
End properties.

(** ** Properties *)

(** C27: Every request reaches the handler of its route. Whatever path is configured for worker connections, as
    long as it collides with no other route, a request that matches a pattern of the table is handled by
    exactly the handler registered for it, with the path values the pattern binds: no other pattern matches
    it, in whatever order the router looks. *)
Theorem requests_routed `{SimpleSet SS} `{Store ST} `{GoRuntime} `{Ulid} `{SerialLanes} `{WebhookEnv} `{WorkerSelector SS}
    `{RegistryCodec} `{mux : Muxx} (cfg : Config) clientAuthFunc workerAuthFunc signer domain
    (rootJobLog runLog : ST → string → res error string) reads t (s : @Server SS ST) req now pat p r vals :
  buildMux cfg = Some t → connect_path_free (WorkerConnectPath cfg) = true →
  (pat, r) ∈ mux_table (WorkerConnectPath cfg) → parse_pattern pat = Some p →
  pattern_match p (rq_Method req) (rq_Path req) = Some vals →
  ServeHTTP cfg clientAuthFunc workerAuthFunc signer domain rootJobLog runLog reads t s req now =
    (let '(s, a) := route_handler cfg clientAuthFunc workerAuthFunc signer domain rootJobLog runLog reads r s req vals now in (s, Some a)).
Proof.
  intros Ht Hfree Hpat Hp Hm. apply (ServeHTTP_route _ _ _ _ _ _ _ _ t s req now p r vals (mux_disjoint cfg t Ht Hfree)); [|done].
  by eapply buildMux_in.
Qed.

(** C9: Nothing of the client API runs unchecked. For every route of the authenticated group, a request the
    configured function refuses or whose client has no token left changes neither the manager nor the
    registry nor starts a cancellation, and is answered 401 or 429; any other is given to its handler, which
    sees everything as it was but for the client's bucket, and its answer is sent with the rate headers.
    In whichever order the two checks are made. *)
Theorem client_api_guarded `{SimpleSet SS} `{Store ST} `{GoRuntime} `{Ulid} `{SerialLanes} `{WebhookEnv} `{WorkerSelector SS}
    `{RegistryCodec} `{mux : Muxx} (cfg : Config) clientAuthFunc workerAuthFunc signer domain
    (rootJobLog runLog : ST → string → res error string) reads (r : route) (s : @Server SS ST) req vals now :
  client_route r = true →
  let key := RemoteAddrKey (rq_RemoteAddr req) in
  let '(c, (headers, allowed)) := Collection_Middleware (bucket 10 30) (sv_clientRL s) key now in
  let refused := clientAuthFunc ≫= λ check, check req in
  let '(s', a) := route_handler cfg clientAuthFunc workerAuthFunc signer domain rootJobLog runLog reads r s req vals now in
  (refused ≠ None ∨ allowed = false → untouched s s' ∧ (answer_status a = Some 401%Z ∨ answer_status a = Some 429%Z)) ∧
  (refused = None → allowed = true →
     let '(s1, a1) := handle cfg workerAuthFunc rootJobLog runLog reads r (s <| sv_clientRL := c |>) req vals now in
     s' = s1 ∧ a = MkAnswer (headers ++ an_headers a1) (an_reply a1)).
Proof. apply client_guard. Qed.


(** ** Samples: a router that takes the first match, clients with one token *)
Definition find_first (ps : list pattern) (meth : string) (segs : list string) : option (nat * gmap string string) :=
  '(i, p) ← list_find (λ p, is_Some (pattern_match p meth segs)) ps; vals ← pattern_match p meth segs; Some (i, vals).

#[refine] Definition first_match : Muxx := {|
  mux_find := find_first;
  chain_order _ l := l;
  use_order _ l := reverse l;
|}.
Proof.
  - intros ps meth segs i vals. unfold find_first. intros ([j p] & (Hi & _ & _)%list_find_Some & Hv)%bind_Some.
    apply bind_Some in Hv as (v & Hv & [= <- <-]). eauto.
  - intros ps meth segs. unfold find_first. destruct (list_find _ ps) as [[i p]|] eqn:E.
    + apply list_find_Some in E as (_ & [v Hv] & _). cbn. by rewrite Hv.
    + intros _. apply list_find_None in E. eapply Forall_impl; [exact E|]. intros p Hp. by apply eq_None_not_Some.
  - done.
  - intros A l. apply reverse_Permutation.
Defined.

Section samples.
#[local] Existing Instances gset_simple_set canonical_runtime unary_ulid open_lanes sample_env least_loaded tagged_payload bit_codec first_match.

Definition demo_auth (req : request) : option error :=
  if bool_decide (Header_Get (rq_Header req) "Authorization" = "Bearer client") then None else Some (ErrMsg "unknown client").

Definition demo_server : Server :=
  MkServer (set_store with_worker (st_SaveTask (mg_store with_worker) wire_task).1) None [] ∅ ∅ ∅.

Definition anonymous : request :=
  MkRequest "POST" ["jobs"] "/jobs" "10.0.0.7:4711" [] "" "" (Ok (MkSubmitJobRequest "resize" "{}" None)) (Err (ErrMsg "eof")) (Err (ErrMsg "eof")) None.

Definition of_client (meth : string) (path : list string) : request :=
  MkRequest meth path "" "10.0.0.7:4711" [("Authorization", "Bearer client")] "" ""
    (Ok (MkSubmitJobRequest "resize" "{}" None)) (Err (ErrMsg "eof")) (Err (ErrMsg "eof")) None.

Definition demo_serve (t : list (pattern * route)) (req : request) : Server * option http_answer :=
  ServeHTTP dispatch_config (Some demo_auth) None None "" (λ _ _, Ok "") (λ _ _, Ok "") (λ s, [s]) t demo_server req 5%Z.

Lemma requests_routed_witness : ∃ t vals, buildMux dispatch_config = Some t ∧
  answer_status <$> (demo_serve t (of_client "GET" ["jobs"; "j1"; "runs"; "r1"; "logs"])).2 = Some (Some 200%Z) ∧
  demo_serve t (of_client "GET" ["jobs"; "j1"; "runs"; "r1"; "logs"]) =
    (let '(s, a) := route_handler dispatch_config (Some demo_auth) None None "" (λ _ _, Ok "") (λ _ _, Ok "") (λ s, [s]) R_RunLogs
       demo_server (of_client "GET" ["jobs"; "j1"; "runs"; "r1"; "logs"]) vals 5%Z in (s, Some a)).
Proof.
  destruct (buildMux dispatch_config) as [t|] eqn:Ht; [|discriminate Ht].
  exists t, {["id" := "j1"; "runID" := "r1"]}. split; [reflexivity|]. split; [injection Ht as <-; vm_compute; reflexivity|].
  apply (requests_routed dispatch_config (Some demo_auth) None None "" (λ _ _, Ok "") (λ _ _, Ok "") (λ s, [s]) t demo_server _ 5%Z
    "GET /jobs/{id}/runs/{runID}/logs" (MkPattern "GET" [Lit "jobs"; Wild "id"; Lit "runs"; Wild "runID"; Lit "logs"]) R_RunLogs).
  - exact Ht.
  - vm_compute. reflexivity.
  - do 18 right. left.
  - reflexivity.
  - vm_compute. reflexivity.
Defined.

Lemma client_api_guarded_witness :
  let '(s', a) := route_handler dispatch_config (Some demo_auth) None None "" (λ _ _, Ok "") (λ _ _, Ok "") (λ s, [s]) R_SubmitJob
    demo_server anonymous ∅ 5%Z in
  untouched demo_server s' ∧ (answer_status a = Some 401%Z ∨ answer_status a = Some 429%Z).
Proof.
  pose proof (client_api_guarded dispatch_config (Some demo_auth) None None "" (λ _ _, Ok "") (λ _ _, Ok "") (λ s, [s]) R_SubmitJob
    demo_server anonymous ∅ 5%Z eq_refl) as Hg. cbv zeta in Hg.
  destruct (Collection_Middleware _ _ _ _) as [c [headers allowed]]. destruct (route_handler _ _ _ _ _ _ _ _ _ _ _ _ _) as [s' a].
  apply Hg. left. discriminate.
Defined.

Lemma demo_server_ok : manager_ok (sv_manager demo_server).
Proof. apply (ok_step dispatch_config with_worker); [apply st_task|apply with_worker_ok]. Qed.

End samples.
