(* ===== verification/Bench.v ===== *)
(** * The worker benchmark (src/worker/bench/bench.go)

    The measurements are loops around readings of the clock: [clock k] is the
    [k]-th reading, whatever the machine makes of it.  The scores are computed
    in binary64 ([SpecFloat]).  The hashing and the memory traffic that is timed
    has no result; the memory block is kept to show that no access leaves it.
    [PrintTable] works on what [reflect] shows of a struct. *)
From S2P Require Import Prelude GoStd External Window RateLimiter.
From Stdlib Require Import Floats.SpecFloat.

Record BenchConfig := MkBenchConfig {
  BaselineCPUOpsPerSec : Z;
  BaselineMemBandwidth : Z;
  BaselineDiskBandwidth : Z;
  BenchDuration : Duration;
  CPUWeight : spec_float;
  MemWeight : spec_float;
  DiskWeight : spec_float;
}.

#[export] Instance BenchConfig_rebuild : Rebuild BenchConfig := λ c,
  MkBenchConfig (BaselineCPUOpsPerSec c) (BaselineMemBandwidth c) (BaselineDiskBandwidth c) (BenchDuration c) (CPUWeight c)
    (MemWeight c) (DiskWeight c).

Record Result := MkResult {
  Cores : Z;
  RawOpsPerSec : Z;
  RawMemBandwidth : Z;
  CPUMultiplier : spec_float;
  MemMultiplier : spec_float;
  DiskMultiplier : spec_float;
  RawDiskBandwidth : Z;
  TotalWUs : Z;
}.

(** ** CPU *)
Section benchmarks.
Context (clock : nat → Time).
Local Open Scope go_scope.

(** [for time.Since(start) < duration { ...; count++ }] from reading [k] on: the count and the readings made;
    [None] is a loop that still runs after [fuel] rounds. *)
Fixpoint cpu_loop (fuel : nat) (start : Time) (duration : Duration) (k : nat) (count : Z) : option (Z * nat) :=
  match fuel with
  | O => None
  | S fuel =>
      if (time_Sub (clock k) start <? duration)%Z then cpu_loop fuel start duration (S k) (count +! 1) else Some (count, S k)
  end.

(** The rate and the readings made. *)
Definition benchmarkCPU (fuel : nat) (duration : Duration) : option (Z * nat) :=
  let start := clock 0 in
  '(count, k) ← cpu_loop fuel start duration 1 0;
  let elapsed := duration_Seconds (time_Sub (clock k) start) in
  Some (f64_to_int (f64_div (f64_of_Z count) elapsed), S k).

(** ** Memory: a block of [size] bytes, 128 MB in the program; [None] is an index out of range *)
Definition set_byte (block : list Z) (i : nat) (v : Z) : option (list Z) :=
  if decide (i < length block) then Some (<[i := v]> block) else None.

(** [for i := 0; i < sizeBytes; i += 4096 { block[i] = 1 }]. *)
Fixpoint warm_up (fuel size i : nat) (block : list Z) : option (list Z) :=
  if decide (size ≤ i) then Some block
  else match fuel with
       | O => None
       | S fuel => block ← set_byte block i 1; warm_up fuel size (i + 4096) block
       end.

Definition sequential_write (size : nat) (block : list Z) : option (list Z) :=
  foldl (λ b i, b ≫= λ block, set_byte block i (Z.of_nat i `mod` 256)) (Some block) (seq 0 size).

Definition sequential_read (size : nat) (block : list Z) : option Z :=
  foldl (λ s i, s ≫= λ sum, v ← block !! i; Some ((sum + v) `mod` 256)%Z) (Some 0%Z) (seq 0 size).

Definition benchmarkMemory (size : nat) (k : nat) : option (Z * nat) :=
  block ← warm_up size size 0 (replicate size 0%Z);
  let start := clock k in
  block ← sequential_write size block;
  _ ← sequential_read size block;
  let elapsed := duration_Seconds (time_Sub (clock (S k)) start) in
  let totalMB := f64_mul (f64_of_Z 128) (f64_of_Z 2) in
  Some (f64_to_int (f64_div totalMB elapsed), S (S k)).

(** ** Disk: the temporary directory as megabytes by file *)
Record disk_env := MkDiskEnv {
  create_temp : option string;
  write_fails : nat → bool;
  sync_fails : bool;
}.

Fixpoint write_chunks (env : disk_env) (n i : nat) (name : string) (dir : gmap string nat) : gmap string nat * bool :=
  match n with
  | O => (dir, true)
  | S n => if write_fails env i then (dir, false)
           else write_chunks env n (S i) name (<[name := S (default 0 (dir !! name))]> dir)
  end.

(** The file is removed and closed whatever happens ([defer]). *)
Definition benchmarkDisk (env : disk_env) (dir : gmap string nat) (k : nat) : gmap string nat * (Z * nat) :=
  match create_temp env with
  | None => (dir, (0%Z, k))
  | Some name =>
      let start := clock k in
      let '(dir, written) := write_chunks env 64 0 name (<[name := 0]> dir) in
      let remove := delete name dir in
      if negb written || sync_fails env then (remove, (0%Z, S k))
      else
        let elapsed := duration_Seconds (time_Sub (clock (S k)) start) in
        let mbWritten := f64_div (f64_of_Z (64 * 1024 * 1024)) (f64_of_Z (1024 * 1024)) in
        (remove, (f64_to_int (f64_div mbWritten elapsed), S (S k)))
  end.

(** ** The score *)
Definition f64_eq0 (x : spec_float) : bool := match x with S754_zero _ => true | _ => false end.
Definition hundred : spec_float := f64_of_Z 100.

(** The defaults of [Run]; 0.60, 0.25 and 0.15 as the compiler rounds them. *)
Definition with_defaults (cfg : BenchConfig) : BenchConfig :=
  let cfg := if (BenchDuration cfg =? 0)%Z then cfg <| BenchDuration := (2 * Second)%Z |> else cfg in
  if f64_eq0 (CPUWeight cfg) && f64_eq0 (MemWeight cfg) && f64_eq0 (DiskWeight cfg)
  then cfg <| CPUWeight := f64_div (f64_of_Z 60) hundred |> <| MemWeight := f64_div (f64_of_Z 25) hundred |>
           <| DiskWeight := f64_div (f64_of_Z 15) hundred |>
  else cfg.

Definition multiplier (raw baseline : Z) : spec_float :=
  if (0 <? baseline)%Z then f64_div (f64_of_Z raw) (f64_of_Z baseline) else f64_zero.

Definition score (cfg : BenchConfig) (cores rawOps rawMem rawDisk : Z) : Result :=
  let cpu := multiplier rawOps (BaselineCPUOpsPerSec cfg) in
  let mem := multiplier rawMem (BaselineMemBandwidth cfg) in
  let disk := multiplier rawDisk (BaselineDiskBandwidth cfg) in
  let totalWUs :=
    if ((0 <? BaselineCPUOpsPerSec cfg) && (0 <? BaselineMemBandwidth cfg) && (0 <? BaselineDiskBandwidth cfg))%Z then
      let cpuPart := f64_mul (f64_mul (f64_of_Z cores) cpu) (f64_mul (CPUWeight cfg) hundred) in
      let memPart := f64_mul mem (f64_mul (MemWeight cfg) hundred) in
      let diskPart := f64_mul disk (f64_mul (DiskWeight cfg) hundred) in
      f64_to_int (f64_add (f64_add cpuPart memPart) diskPart)
    else 100%Z in
  MkResult cores rawOps rawMem cpu mem disk rawDisk totalWUs.

Definition bench_Run (fuel size : nat) (env : disk_env) (dir : gmap string nat) (cores : Z) (cfg : BenchConfig) : option (gmap string nat * Result) :=
  let cfg := with_defaults cfg in
  '(rawOps, k) ← benchmarkCPU fuel (BenchDuration cfg);
  '(rawMem, k) ← benchmarkMemory size k;
  let '(dir, (rawDisk, _)) := benchmarkDisk env dir k in
  Some (dir, score cfg cores rawOps rawMem rawDisk).
End benchmarks.

(** [int(math.Floor(x))]. *)
Definition f64_floor (x : spec_float) : Z :=
  match x with
  | S754_finite s m e =>
      let n := if s then (- Z.pos m)%Z else Z.pos m in
      let c := if (0 <=? e)%Z then (n * 2 ^ e)%Z else (n / 2 ^ (- e))%Z in
      if ((MinInt64 <=? c) && (c <=? MaxInt64))%Z then c else MinInt64
  | S754_zero _ => 0%Z
  | _ => MinInt64
  end.

Definition ScaleWUs (totalWUs : Z) (mult : spec_float) : Z := f64_floor (f64_mul (f64_of_Z totalWUs) mult).

(** ** PrintTable: text as runes *)
Notation text := (list Z) (only parsing).

Fixpoint runes (s : string) : text := match s with "" => [] | String c s => Z.of_N (N_of_ascii c) :: runes s end.

(** [len(s)]: the bytes of the UTF-8 encoding. *)
Definition rune_len (r : Z) : nat :=
  if (r <? 128)%Z then 1 else if (r <? 2048)%Z then 2 else if (r <? 65536)%Z then 3 else 4.
Definition text_len (t : text) : nat := foldr (λ r n, rune_len r + n) 0 t.

(** What [reflect] shows of a field and of the argument; [R_pointer None] is a nil pointer to a struct with fields. *)
Inductive field_value := F_int (n : Z) | F_duration (d : Duration) | F_float (x : spec_float).

Record struct_field := MkField { fd_Name : text; fd_unit : text; fd_value : field_value }.

Inductive reflected :=
| R_struct (name : text) (fields : list struct_field)
| R_pointer (elem : option reflected)
| R_other.

(** [Duration.String]: digits of a fraction without trailing zeros, and the rest. *)
Definition digit_rune (d : Z) : Z := (48 + d)%Z.

Fixpoint fmtFrac (prec : nat) (v : Z) (print : bool) (acc : text) : text * Z :=
  match prec with
  | O => (if print then 46%Z :: acc else acc, v)
  | S prec =>
      let digit := (v `mod` 10)%Z in
      let print := print || negb (digit =? 0)%Z in
      fmtFrac prec (v / 10) print (if print then digit_rune digit :: acc else acc)
  end.

Definition fmtInt (n : Z) : text := runes (Itoa n).

Definition duration_String (d : Duration) : text :=
  let u := Z.abs d in
  let sign := if (d <? 0)%Z then [45%Z] else [] in
  let body :=
    if (u <? Second)%Z then
      if (u =? 0)%Z then runes "0s"
      else let '(prec, unit) := if (u <? 1000)%Z then (0, runes "ns")
                                else if (u <? Millisecond)%Z then (3, [181; 115]%Z) else (6, runes "ms") in
           let '(frac, v) := fmtFrac prec u false [] in fmtInt v ++ frac ++ unit
    else
      let '(frac, v) := fmtFrac 9 u false [] in
      let secs := fmtInt (v `mod` 60) ++ frac ++ runes "s" in
      let v := (v / 60)%Z in
      if (v =? 0)%Z then secs
      else
        let mins := fmtInt (v `mod` 60) ++ runes "m" ++ secs in
        let v := (v / 60)%Z in
        if (v =? 0)%Z then mins else fmtInt v ++ runes "h" ++ mins in
  sign ++ body.

(** [fmt.Sprintf("%.2f", x)]: to the nearest hundredth, ties to even. *)
Definition hundredths (m : positive) (e : Z) : Z :=
  let n := (Z.pos m * 100)%Z in
  if (0 <=? e)%Z then (n * 2 ^ e)%Z
  else
    let d := (2 ^ (- e))%Z in
    let q := (n / d)%Z in
    match (2 * (n `mod` d) ?= d)%Z with
    | Lt => q
    | Gt => q + 1
    | Eq => if Z.even q then q else q + 1
    end%Z.

Definition two_decimals (n : Z) : text :=
  fmtInt (n / 100) ++ [46%Z; digit_rune ((n / 10) `mod` 10); digit_rune (n `mod` 10)].

Definition float_String (x : spec_float) : text :=
  match x with
  | S754_nan => runes "NaN"
  | S754_infinity s => runes (if s then "-Inf" else "+Inf")
  | S754_zero s => (if s then [45%Z] else []) ++ runes "0.00"
  | S754_finite s m e => (if s then [45%Z] else []) ++ two_decimals (hundredths m e)
  end.

Definition valStr (v : field_value) : text :=
  match v with F_int n => fmtInt n | F_duration d => duration_String d | F_float x => float_String x end.

(** [fmt.Sprintf("%-*s", width, s)] pads by runes. *)
Definition pad_right (width : nat) (s : text) : text := s ++ replicate (width - length s) 32%Z.

(** [strings.Repeat] panics on a negative count. *)
Definition Repeat (r : Z) (count : Z) : option text := if (count <? 0)%Z then None else Some (replicate (Z.to_nat count) r).

Definition max_of (f : struct_field → nat) (l : list struct_field) : nat :=
  foldl (λ n x, if n <? f x then f x else n) 0 l.

Definition unitColWidth (fields : list struct_field) : nat :=
  let maxUnitLen := max_of (text_len ∘ fd_unit) fields in if 0 <? maxUnitLen then maxUnitLen + 2 else 0.

Definition totalWidth (name : text) (fields : list struct_field) : nat :=
  let maxFieldLen := max_of (text_len ∘ fd_Name) fields in
  let rowPrefixLen := if 0 <? unitColWidth fields then 3 + maxFieldLen + 2 + unitColWidth fields + 5 else 3 + maxFieldLen + 5 in
  let total := rowPrefixLen + max_of (text_len ∘ valStr ∘ fd_value) fields in
  if total <? 3 + text_len name then 3 + text_len name + 5 else total.

Definition table_row (fields : list struct_field) (f : struct_field) : text :=
  let maxFieldLen := max_of (text_len ∘ fd_Name) fields in
  let unitPart := if bool_decide (fd_unit f = []) then [] else runes "(" ++ fd_unit f ++ runes ")" in
  if 0 <? unitColWidth fields
  then [9474%Z] ++ runes "  " ++ pad_right maxFieldLen (fd_Name f) ++ runes "  " ++ pad_right (unitColWidth fields) unitPart
         ++ runes "  =  " ++ valStr (fd_value f)
  else [9474%Z] ++ runes "  " ++ pad_right maxFieldLen (fd_Name f) ++ runes "  =  " ++ valStr (fd_value f).

(** The lines logged at level info, or the refusal ([inl]) logged as an error; [None] is a panic. *)
Definition print_struct (name : text) (fields : list struct_field) : option (list text) :=
  let w := Z.of_nat (totalWidth name fields) in
  top ← Repeat 9472 (w - 3 - Z.of_nat (text_len name));
  bottom ← Repeat 9472 (w - 1);
  Some (([9484%Z] ++ runes " " ++ name ++ runes " " ++ top) :: (table_row fields <$> fields) ++ [[9492%Z] ++ bottom]).

Definition PrintTable (data : reflected) : option (string + list text) :=
  let refused := Some (inl "PrintTable: provided data is not a struct or a pointer to a struct") in
  match data with
  | R_struct name fields | R_pointer (Some (R_struct name fields)) => inr <$> print_struct name fields
  | R_pointer None => None
  | _ => refused
  end.

(** The structs of the package with their tags. *)
Definition reflect_Config (c : BenchConfig) : reflected :=
  R_struct (runes "Config")
    [MkField (runes "BaselineCPUOpsPerSec") (runes "ops/sec") (F_int (BaselineCPUOpsPerSec c));
     MkField (runes "BaselineMemBandwidth") (runes "MB/s") (F_int (BaselineMemBandwidth c));
     MkField (runes "BaselineDiskBandwidth") (runes "MB/s") (F_int (BaselineDiskBandwidth c));
     MkField (runes "BenchDuration") (runes "duration") (F_duration (BenchDuration c));
     MkField (runes "CPUWeight") (runes "weight") (F_float (CPUWeight c));
     MkField (runes "MemWeight") (runes "weight") (F_float (MemWeight c));
     MkField (runes "DiskWeight") (runes "weight") (F_float (DiskWeight c))].

Definition reflect_Result (r : Result) : reflected :=
  R_struct (runes "Result")
    [MkField (runes "Cores") (runes "cores") (F_int (Cores r));
     MkField (runes "RawOpsPerSec") (runes "ops/sec") (F_int (RawOpsPerSec r));
     MkField (runes "RawMemBandwidth") (runes "MB/s") (F_int (RawMemBandwidth r));
     MkField (runes "CPUMultiplier") (runes "x") (F_float (CPUMultiplier r));
     MkField (runes "MemMultiplier") (runes "x") (F_float (MemMultiplier r));
     MkField (runes "DiskMultiplier") (runes "x") (F_float (DiskMultiplier r));
     MkField (runes "RawDiskBandwidth") (runes "MB/s") (F_int (RawDiskBandwidth r));
     MkField (runes "TotalWUs") (runes "WUs") (F_int (TotalWUs r))].

(** ** Properties *)
Section loops.
Context (clock : nat → Time).
Implicit Types (start : Time) (duration : Duration).

(** The loop stops at the first reading that is late enough. *)
Lemma cpu_loop_ends start duration d k c : (duration ≤ time_Sub (clock (k + d)) start)%Z → ∃ m, m ≤ d ∧
  (duration ≤ time_Sub (clock (k + m)) start)%Z ∧ (∀ i, k ≤ i < k + m → (time_Sub (clock i) start < duration)%Z) ∧
  ∀ fuel, d < fuel → cpu_loop clock fuel start duration k c = Some (foldr (λ _ c, wrap64 (c + 1)) c (seq 0 m), S (k + m)).
Proof.
  revert k c. induction d as [|d IH]; intros k c Hd.
  - exists 0. split_and!; [done|done|lia|]. intros [|fuel] Hf; [lia|]. simpl. rewrite Nat.add_0_r in *.
    by rewrite (proj2 (Z.ltb_ge _ _) Hd).
  - destruct (Z_lt_ge_dec (time_Sub (clock k) start) duration) as [Hlt|Hge].
    + destruct (IH (S k) (wrap64 (c + 1))) as (m & Hm & Hs & Hb & Hl); [by rewrite Nat.add_succ_comm|].
      exists (S m). split_and!; [lia|by rewrite <- Nat.add_succ_comm| |].
      { intros i Hi. destruct (decide (i = k)) as [->|]; [done|]. apply Hb. lia. }
      intros [|fuel] Hf; [lia|]. simpl. rewrite (proj2 (Z.ltb_lt _ _) Hlt), Hl by lia. f_equal. f_equal; [|lia].
      clear. rewrite <- seq_shift. generalize (seq 0 m) as l. intros l. induction l as [|x l IH]; [done|]. simpl. by rewrite IH.
    + exists 0. rewrite Nat.add_0_r. split_and!; [lia|lia|lia|]. intros [|fuel] Hf; [lia|]. simpl.
      by rewrite (proj2 (Z.ltb_ge _ _)) by lia.
Qed.

Lemma counted m c : (0 ≤ c)%Z → (c + Z.of_nat m ≤ MaxInt64)%Z → foldr (λ _ c, wrap64 (c + 1)) c (seq 0 m) = (c + Z.of_nat m)%Z.
Proof.
  intros Hc Hm. assert (∀ l : list nat, (c + Z.of_nat (length l) ≤ MaxInt64)%Z → foldr (λ _ c, wrap64 (c + 1)) c l = (c + Z.of_nat (length l))%Z) as H.
  { induction l as [|x l IH]; simpl; intros Hl; [lia|]. rewrite IH by lia. rewrite wrap64_id; [lia|]. unfold in_int64, MinInt64, MaxInt64 in *. lia. }
  rewrite <- (length_seq m 0) at 2. apply H. by rewrite length_seq.
Qed.

(** No access leaves the block. *)
Lemma set_byte_some block i v : i < length block → ∃ block', set_byte block i v = Some block' ∧ length block' = length block.
Proof. intros Hi. unfold set_byte. rewrite decide_True by done. eexists. split; [done|]. by rewrite length_insert. Qed.

Lemma warm_up_some fuel size i block : length block = size → size ≤ i + fuel → ∃ block', warm_up fuel size i block = Some block' ∧ length block' = size.
Proof.
  revert i block. induction fuel as [|fuel IH]; intros i block Hl Hi; simpl.
  { rewrite decide_True by lia. eauto. }
  case_decide; [eauto|]. destruct (set_byte_some block i 1) as (b & -> & Hb); [lia|]. simpl. apply IH; lia.
Qed.

Lemma write_some size block : length block = size → ∃ block', sequential_write size block = Some block' ∧ length block' = size.
Proof.
  intros Hl. unfold sequential_write. assert (∀ l b, length b = size → Forall (λ i, i < size) l → ∃ b',
    foldl (λ b i, b ≫= λ block, set_byte block i (Z.of_nat i `mod` 256)) (Some b) l = Some b' ∧ length b' = size) as H.
  { induction l as [|i l IH]; intros b Hb Hf; simpl; [eauto|]. apply Forall_cons in Hf as [Hi Hf].
    destruct (set_byte_some b i (Z.of_nat i `mod` 256)) as (b' & -> & Hb'); [lia|]. apply IH; [lia|done]. }
  apply H; [done|]. apply Forall_forall. intros i Hi%elem_of_seq. lia.
Qed.

Lemma read_some size block : length block = size → is_Some (sequential_read size block).
Proof.
  intros Hl. unfold sequential_read. assert (∀ l s, Forall (λ i, i < size) l →
    is_Some (foldl (λ s i, s ≫= λ sum, v ← block !! i; Some ((sum + v) `mod` 256)%Z) (Some s) l)) as H.
  { induction l as [|i l IH]; intros s Hf; simpl; [eauto|]. apply Forall_cons in Hf as [Hi Hf].
    destruct (lookup_lt_is_Some_2 block i) as [v ->]; [lia|]. by apply IH. }
  apply H. apply Forall_forall. intros i Hi%elem_of_seq. lia.
Qed.

Lemma memory_some size k : ∃ rate, benchmarkMemory clock size k = Some (rate, S (S k)).
Proof.
  unfold benchmarkMemory. destruct (warm_up_some size size 0 (replicate size 0%Z)) as (b & -> & Hb); [by rewrite length_replicate|lia|]. simpl.
  destruct (write_some size b Hb) as (b' & -> & Hb'). simpl. destruct (read_some size b' Hb') as [s ->]. simpl. eauto.
Qed.

Lemma write_chunks_other env n i name dir : delete name (write_chunks env n i name dir).1 = delete name dir.
Proof.
  revert i dir. induction n as [|n IH]; intros i dir; simpl; [done|]. destruct (write_fails env i); [done|]. rewrite IH. apply delete_insert_eq.
Qed.

Lemma write_chunks_fails env n i name dir : (∃ j, i ≤ j < i + n ∧ write_fails env j = true) → (write_chunks env n i name dir).2 = false.
Proof.
  revert i dir. induction n as [|n IH]; intros i dir (j & Hj & Hf); [lia|]. simpl. destruct (write_fails env i) eqn:E; [done|].
  apply IH. exists j. split; [|done]. destruct (decide (j = i)); [congruence|lia].
Qed.

(** The temporary file is gone afterwards, and a failure counts as no bandwidth. *)
Lemma disk_spec env dir k : (∀ name, create_temp env = Some name → dir !! name = None) →
  (benchmarkDisk clock env dir k).1 = dir ∧
  (create_temp env = None ∨ (∃ j, j < 64 ∧ write_fails env j = true) ∨ sync_fails env = true → (benchmarkDisk clock env dir k).2.1 = 0%Z).
Proof.
  intros Hfresh. unfold benchmarkDisk. destruct (create_temp env) as [name|]; [|done].
  pose proof (write_chunks_other env 64 0 name (<[name := 0]> dir)) as Hd.
  pose proof (write_chunks_fails env 64 0 name (<[name := 0]> dir)) as Hw.
  destruct (write_chunks _ _ _ _ _) as [dir' written]. cbn [fst snd] in *. rewrite delete_insert_eq, (delete_id dir name) in Hd by (by apply Hfresh).
  split; [by destruct (_ || _)|]. intros [?|[(j & Hj & Hf)|Hs]]; [done| |].
  - rewrite Hw; [done|]. exists j. split; [lia|done].
  - by rewrite Hs, orb_true_r.
Qed.
End loops.

(** C30: The benchmark returns. Once the clock ever reads the benchmark's duration past its start, [Run] ends, whatever
    else the machine does: the hash rounds counted are exactly the readings before the first one that late, no access leaves the
    memory block, the temporary file is gone, and a failure of the disk counts as no bandwidth. Without all
    three baselines the score is 100. *)
Theorem benchmark_returns (clock : nat → Time) (size : nat) (env : disk_env) (dir : gmap string nat) (cores : Z) (cfg : BenchConfig) (n : nat) :
  (BenchDuration (with_defaults cfg) ≤ time_Sub (clock (S n)) (clock 0%nat))%Z →
  (∀ name, create_temp env = Some name → dir !! name = None) →
  ∃ count r, count ≤ n ∧ (∀ i, 1 ≤ i ≤ count → (time_Sub (clock i) (clock 0%nat) < BenchDuration (with_defaults cfg))%Z) ∧
    (BenchDuration (with_defaults cfg) ≤ time_Sub (clock (S count)) (clock 0%nat))%Z ∧
    (∀ fuel, n < fuel → bench_Run clock fuel size env dir cores cfg = Some (dir, r)) ∧
    ((Z.of_nat count ≤ MaxInt64)%Z → RawOpsPerSec r =
       f64_to_int (f64_div (f64_of_Z (Z.of_nat count)) (duration_Seconds (time_Sub (clock (S (S count))) (clock 0%nat))))) ∧
    (create_temp env = None ∨ (∃ j, j < 64 ∧ write_fails env j = true) ∨ sync_fails env = true → RawDiskBandwidth r = 0%Z) ∧
    ((BaselineCPUOpsPerSec cfg ≤ 0 ∨ BaselineMemBandwidth cfg ≤ 0 ∨ BaselineDiskBandwidth cfg ≤ 0)%Z → TotalWUs r = 100%Z).
Proof.
  intros Hn Hfresh. destruct (cpu_loop_ends clock (clock 0) _ n 1 0 Hn) as (m & Hm & Hlate & Hb & Hl).
  destruct (memory_some clock size (S (S (S m)))) as [mem Hmem].
  destruct (disk_spec clock env dir (S (S (S (S (S m))))) Hfresh) as [Hdir Hdisk].
  destruct (benchmarkDisk clock env dir (S (S (S (S (S m)))))) as [dir' [disk k]] eqn:Ed. cbn [fst snd] in Hdir, Hdisk. subst dir'.
  eexists m, _. split; [done|]. split; [intros i Hi; apply Hb; lia|]. split; [exact Hlate|]. split.
  { intros fuel Hf. unfold bench_Run, benchmarkCPU. rewrite Hl by done. cbn [mbind option_bind Nat.add]. rewrite Hmem. cbn [mbind option_bind]. by rewrite Ed. }
  cbn [score RawOpsPerSec RawDiskBandwidth TotalWUs]. split; [intros Hc; by rewrite counted|]. split; [done|].
  intros Hbase. assert (∀ c, BaselineCPUOpsPerSec (with_defaults c) = BaselineCPUOpsPerSec c ∧ BaselineMemBandwidth (with_defaults c) = BaselineMemBandwidth c ∧
    BaselineDiskBandwidth (with_defaults c) = BaselineDiskBandwidth c) as Hkeep.
  { intros c. unfold with_defaults. by destruct (BenchDuration c =? 0)%Z; destruct (_ && _). }
  destruct (Hkeep cfg) as (-> & -> & ->).
  destruct (Z.ltb_spec 0 (BaselineCPUOpsPerSec cfg)), (Z.ltb_spec 0 (BaselineMemBandwidth cfg)), (Z.ltb_spec 0 (BaselineDiskBandwidth cfg)); cbn; lia.
Qed.

(** A clock of a reading per second; the disk fails at the last chunk. *)
Lemma benchmark_returns_witness : ∃ r,
  bench_Run (λ k, Z.of_nat k * Second)%Z 3 8 (MkDiskEnv (Some "nodebench-disk-1") (λ i, i =? 63) false) ∅ 4 (MkBenchConfig 0 0 0 0 f64_zero f64_zero f64_zero) =
    Some (∅, r) ∧ RawDiskBandwidth r = 0%Z ∧ TotalWUs r = 100%Z.
Proof.
  destruct (benchmark_returns (λ k, Z.of_nat k * Second)%Z 8 (MkDiskEnv (Some "nodebench-disk-1") (λ i, i =? 63) false) ∅ 4
    (MkBenchConfig 0 0 0 0 f64_zero f64_zero f64_zero) 1) as (count & r & _ & _ & _ & Hr & _ & Hd & Hw).
  - vm_compute. discriminate.
  - intros name _. apply lookup_empty.
  - exists r. split; [apply Hr; lia|]. split; [apply Hd; right; left; exists 63; split; [lia|reflexivity]|apply Hw; left; reflexivity].
Defined.

(** *** Scores *)
Definition f64_finite (x : spec_float) : bool := match x with S754_finite _ _ _ => true | _ => false end.

(** A finite number divided by itself is one. *)
Lemma f64_div_self x : f64_finite x = true → f64_div x x = f64_one.
Proof.
  destruct x as [| | |s m e]; try discriminate. intros _. unfold f64_div, SFdiv, SFdiv_core_binary. rewrite Z.sub_diag.
  rewrite (Z.sub_diag (Zdigits2 (Z.pos m) + e)). change (fexp 53 1024 0 `min` 0)%Z with (-53)%Z. change (0 - -53)%Z with 53%Z. cbv iota.
  assert (Z.div_eucl (Z.shiftl (Z.pos m) 53) (Z.pos m) = (2 ^ 53, 0)%Z) as E.
  { rewrite Z.shiftl_mul_pow2 by done. pose proof (Z.div_mul (2 ^ 53) (Z.pos m)) as Hq. pose proof (Z.mod_mul (2 ^ 53) (Z.pos m)) as Hm.
    rewrite Z.mul_comm. unfold Z.div, Z.modulo in *. destruct (Z.div_eucl _ _). rewrite Hq, Hm by done. done. }
  rewrite E. rewrite xorb_nilpotent. unfold new_location, new_location_even, new_location_odd. destruct (Z.even (Z.pos m)); vm_compute; reflexivity.
Qed.

(** A machine that measures as the baseline does scores 60 units per core and 40 for memory and disk, up to 1024 cores. *)
Theorem baseline_score (cpu mem disk : Z) (d : Duration) (cores : nat) :
  (0 < cpu)%Z → (0 < mem)%Z → (0 < disk)%Z → Forall (λ b, f64_finite (f64_of_Z b) = true) [cpu; mem; disk] → 1 ≤ cores ≤ 1024 →
  TotalWUs (score (with_defaults (MkBenchConfig cpu mem disk d f64_zero f64_zero f64_zero)) (Z.of_nat cores) cpu mem disk) = (60 * Z.of_nat cores + 40)%Z.
Proof.
  intros Hc Hm Hd Hf Hcores. rewrite !Forall_cons in Hf. destruct Hf as (Fc & Fm & Fd & _).
  assert (∀ d, with_defaults (MkBenchConfig cpu mem disk d f64_zero f64_zero f64_zero) =
    MkBenchConfig cpu mem disk (if (d =? 0)%Z then (2 * Second)%Z else d) (f64_div (f64_of_Z 60) hundred) (f64_div (f64_of_Z 25) hundred) (f64_div (f64_of_Z 15) hundred))
    as -> by (intros d'; unfold with_defaults; cbn [BenchDuration]; by destruct (d' =? 0)%Z).
  cbn [score TotalWUs BaselineCPUOpsPerSec BaselineMemBandwidth BaselineDiskBandwidth CPUWeight MemWeight DiskWeight].
  unfold multiplier. rewrite !(proj2 (Z.ltb_lt 0 _)), !f64_div_self by done. cbn [andb].
  assert (forallb (λ n, f64_to_int (f64_add (f64_add (f64_mul (f64_mul (f64_of_Z (Z.of_nat n)) f64_one) (f64_mul (f64_div (f64_of_Z 60) hundred) hundred))
    (f64_mul f64_one (f64_mul (f64_div (f64_of_Z 25) hundred) hundred))) (f64_mul f64_one (f64_mul (f64_div (f64_of_Z 15) hundred) hundred)))
    =? 60 * Z.of_nat n + 40)%Z (seq 1 1024) = true) as Hall by (vm_compute; reflexivity).
  rewrite forallb_forall in Hall. apply Z.eqb_eq, Hall, in_seq. lia.
Qed.

(** *** Tables *)
Lemma text_len_runes t : length t ≤ text_len t.
Proof. induction t as [|r t IH]; simpl; [done|]. unfold rune_len at 1. repeat case_match; lia. Qed.

Lemma max_of_ge f l x : x ∈ l → f x ≤ max_of f l.
Proof.
  unfold max_of. assert (∀ l n, n ≤ foldl (λ n x, if n <? f x then f x else n) n l) as Hmono.
  { induction l0 as [|y l0 IH]; intros n; simpl; [done|]. etransitivity; [|apply IH]. destruct (Nat.ltb_spec n (f y)); lia. }
  generalize 0 as n. induction l as [|y l IH]; intros n Hx; [by apply not_elem_of_nil in Hx|].
  apply elem_of_cons in Hx as [->|Hx]; simpl; [|by apply IH]. etransitivity; [|apply Hmono]. destruct (Nat.ltb_spec n (f y)); lia.
Qed.

Lemma length_pad_right w s : length s ≤ w → length (pad_right w s) = w.
Proof. intros Hs. unfold pad_right. rewrite length_app, length_replicate. lia. Qed.

Lemma row_fits name fields f : f ∈ fields → length (table_row fields f) ≤ totalWidth name fields.
Proof.
  intros Hf. pose proof (max_of_ge (text_len ∘ fd_Name) fields f Hf) as Hn. pose proof (max_of_ge (text_len ∘ fd_unit) fields f Hf) as Hu.
  pose proof (max_of_ge (text_len ∘ valStr ∘ fd_value) fields f Hf) as Hv. simpl in Hn, Hu, Hv.
  pose proof (text_len_runes (fd_Name f)) as Ln. pose proof (text_len_runes (fd_unit f)) as Lu. pose proof (text_len_runes (valStr (fd_value f))) as Lv.
  assert (unitColWidth fields ≠ 0 → length (if bool_decide (fd_unit f = []) then [] else runes "(" ++ fd_unit f ++ runes ")") ≤ unitColWidth fields) as Hunit.
  { intros Hne. case_bool_decide as E; [simpl; lia|]. revert Hne. unfold unitColWidth. destruct (Nat.ltb_spec 0 (max_of (text_len ∘ fd_unit) fields)); [|done].
    rewrite !length_app. simpl. lia. }
  unfold totalWidth, table_row. set (w := unitColWidth fields) in *.
  destruct (Nat.ltb_spec 0 w); cbv zeta; rewrite !length_app, ?(length_pad_right _ (fd_Name f)), ?(length_pad_right w) by (lia || apply Hunit; lia); simpl;
    match goal with |- context [if ?a <? ?b then _ else _] => destruct (Nat.ltb_spec a b) end; lia.
Qed.

(** A table is printed whatever the struct, and fits its frame: no repetition count is negative, no line is wider than
    the frame, the bottom line is exactly as wide, and so is the top line when the type's name is ASCII. *)
Theorem table_fits (name : list Z) (fields : list struct_field) : ∃ top rows bottom,
  PrintTable (R_struct name fields) = Some (inr (top :: rows ++ [bottom])) ∧ length rows = length fields ∧
  Forall (λ line, length line ≤ totalWidth name fields) (top :: rows ++ [bottom]) ∧ length bottom = totalWidth name fields ∧
  (Forall (λ r, r < 128)%Z name → length top = totalWidth name fields).
Proof.
  assert (3 + text_len name ≤ totalWidth name fields) as Hw.
  { unfold totalWidth. match goal with |- context [if ?a <? ?b then _ else _] => destruct (Nat.ltb_spec a b) end; lia. }
  pose proof (text_len_runes name) as Hl. cbn [PrintTable]. unfold print_struct, Repeat.
  rewrite !(proj2 (Z.ltb_ge _ 0)) by lia. cbn [mbind option_bind fmap option_fmap option_map].
  assert (length (9484%Z :: 32%Z :: name ++ [32%Z] ++ replicate (Z.to_nat (Z.of_nat (totalWidth name fields) - 3 - Z.of_nat (text_len name))) 9472%Z) =
    totalWidth name fields - (text_len name - length name)) as Htop by (cbn [length]; rewrite !length_app, length_replicate; cbn [length]; lia).
  eexists _, _, _. split; [reflexivity|]. split; [by rewrite length_fmap|].
  assert (length (9492%Z :: replicate (Z.to_nat (Z.of_nat (totalWidth name fields) - 1)) 9472%Z) = totalWidth name fields) as Hbot
    by (cbn [length]; rewrite length_replicate; lia).
  split; [|split; [exact Hbot|]].
  - apply Forall_cons. split; [etransitivity; [apply Nat.eq_le_incl; exact Htop|lia]|]. apply Forall_app. split.
    + apply Forall_forall. intros row (f & -> & Hf)%list_elem_of_fmap. by apply row_fits.
    + apply Forall_singleton. apply Nat.eq_le_incl. exact Hbot.
  - intros Ha. etransitivity; [exact Htop|]. assert (text_len name = length name) as ->; [|lia].
    clear -Ha. induction Ha as [|r t Hr _ IH]; [done|]. simpl. unfold rune_len. by rewrite (proj2 (Z.ltb_lt _ _) Hr), IH.
Qed.

Example durations_print : duration_String (2 * Second) = runes "2s" ∧ duration_String (90 * Minute + Second / 2) = runes "1h30m0.5s" ∧
  duration_String (-1500000) = runes "-1.5ms" ∧ duration_String 2500 = [50; 46; 53; 181; 115]%Z.
Proof. vm_compute. done. Qed.

Example floats_print : float_String (f64_div (f64_of_Z 60) hundred) = runes "0.60" ∧ float_String (f64_div (f64_of_Z 1) (f64_of_Z 8)) = runes "0.12" ∧
  float_String (f64_div (f64_of_Z 3) (f64_of_Z 8)) = runes "0.38" ∧ float_String (f64_of_Z 1234) = runes "1234.00".
Proof. vm_compute. done. Qed.

(** ** A sample table *)
Example table_prints :
  PrintTable (reflect_Result (score (MkBenchConfig 10 10 10 0 (f64_of_Z 1) f64_zero f64_zero) 2 5 0 0)) ≫= (λ r, match r with inr l => l !! 4 | inl _ => None end) =
    Some ([9474%Z] ++ runes "  CPUMultiplier     (x)        =  0.50").
Proof. vm_compute. reflexivity. Qed.
