(* ===== verification/Services.v ===== *)
(** * The manager's services ([Run], [Stop] and [ForceStop] of src/manager/manager.go, [DispatcherRoutine]
    of src/manager/dispatcher.go, [Run] of src/manager/webhooks/dispatcher.go)

    [Run] hands four services to lowbit.dev/rungroup: the dispatcher, the webhook
    dispatcher, the sweep for idle workers and a backstop that wakes the
    dispatcher.  Each is a loop that blocks; a turn of a loop is a function on the
    state of all of them ([Running]), and [service_step] interleaves the turns
    with everything else the manager does ([Orchestrator.step]). *)
From S2P Require Import Prelude GoStd External Contract Store MemStore Webhooks Heap PriorityQueue Cache WorkerConn WorkerPool.
From S2P Require Import Proto Config Manager Dispatch Lifecycle Orchestrator.

(** Where a loop is: before its [select], blocked in it, or past it with work to do. *)
Inductive phase := P_select | P_blocked | P_work.

#[export] Instance phase_eq_dec : EqDecision phase.
Proof. solve_decision. Defined.

Record Running (SS ST : Type) := MkRunning {
  ru_manager : Manager SS ST;
  ru_dispatcher : phase;
  ru_webhooks : phase;
  (** when the timer of the webhook loop fires *)
  ru_timer : Time;
}.
Arguments MkRunning {SS ST} _ _ _ _.
Arguments ru_manager {SS ST} _.
Arguments ru_dispatcher {SS ST} _.
Arguments ru_webhooks {SS ST} _.
Arguments ru_timer {SS ST} _.

#[export] Instance Running_rebuild {SS ST} : Rebuild (Running SS ST) := λ r,
  MkRunning (ru_manager r) (ru_dispatcher r) (ru_webhooks r) (ru_timer r).

(** A loop at its [select] on a signal: it takes a buffered value or blocks. *)
Definition enter_select (c : SigChan) : SigChan * phase :=
  match try_recv c with
  | (c, true) => (c, P_work)
  | (c, false) => (MkSigChan (sc_cap c) (sc_len c) true, P_blocked)
  end.

(** A blocked loop goes on when a sender handed it a value. *)
Definition leave_select (c : SigChan) : phase := if sc_waiting c then P_blocked else P_work.

Section services.
Context `{SimpleSet SS} `{Store ST} `{GoRuntime} `{Ulid} `{SerialLanes} `{WebhookEnv} `{WorkerSelector SS} `{ConsolidateJson}.
Context (cfg : Config).
Local Open Scope go_scope.
Implicit Types (m : Manager SS ST) (r : Running SS ST).

Definition set_signal m (c : SigChan) : Manager SS ST := m <| mg_workers := (mg_workers m) <| wp_dispatchSignal := c |> |>.
Definition set_wake m (c : SigChan) : Manager SS ST := m <| mg_webhooks := (mg_webhooks m) <| wd_wakeCh := c |> |>.

(** ** The dispatcher *)
Definition DispatcherRoutine r (now : Time) : Running SS ST :=
  let m := ru_manager r in
  match ru_dispatcher r with
  | P_select =>
      let '(c, ph) := enter_select (wp_dispatchSignal (mg_workers m)) in
      r <| ru_manager := set_signal m c |> <| ru_dispatcher := ph |>
  | P_blocked => r <| ru_dispatcher := leave_select (wp_dispatchSignal (mg_workers m)) |>
  | P_work => r <| ru_manager := (ProcessQueue cfg (drainDispatchSignals m) now).1.1 |> <| ru_dispatcher := P_select |>
  end.

(** The backstop: [uint64] seconds since the last pass began. *)
Definition periodic_trigger m (now : Time) : Manager SS ST :=
  if Size (mg_queue m) <? 1 then m
  else
    let delta := ((Unix now - mg_lastDispatchRun m) `mod` 2 ^ 64)%Z in
    if (delta <? 60)%Z then m else NotifyDispatcher m.

(** ** Webhooks: the loop works before it selects *)
Definition WebhookDispatcher_Run r (now : Time) : Running SS ST :=
  let m := ru_manager r in
  let w := mg_webhooks m in
  match ru_webhooks r with
  | P_work =>
      let '(w, sleep) := processPending (cfg_Webhook cfg) w now in
      r <| ru_manager := m <| mg_webhooks := w |> |> <| ru_timer := time_Add now sleep |> <| ru_webhooks := P_select |>
  | P_select =>
      let '(c, ph) := enter_select (wd_wakeCh w) in
      r <| ru_manager := set_wake m c |> <| ru_webhooks := ph |>
  | P_blocked =>
      if Before now (ru_timer r) then r <| ru_webhooks := leave_select (wd_wakeCh w) |>
      else r <| ru_manager := set_wake m (MkSigChan (sc_cap (wd_wakeCh w)) (sc_len (wd_wakeCh w)) false) |> <| ru_webhooks := P_work |>
  end.

(** ** The services of [Run], and their turns *)
Inductive service := JobDispatcherRoutine | WebhooksDispatcherRoutine | StaleWorkerMonitoringService | PeriodicTriggerRoutine.

Definition turn (s : service) r (now : Time) : Running SS ST :=
  let m := ru_manager r in
  match s with
  | JobDispatcherRoutine => DispatcherRoutine r now
  | WebhooksDispatcherRoutine => WebhookDispatcher_Run r now
  | StaleWorkerMonitoringService =>
      r <| ru_manager := m <| mg_workers := (StaleWorkerMonitoring (has_OnIdleWorker cfg) (IdleWorkerThreshold cfg) (ScaleDownCooldown cfg)
                                               (Some (HasPendingForPlatform cfg m)) (mg_workers m) now).1 |> |>
  | PeriodicTriggerRoutine => r <| ru_manager := periodic_trigger m now |>
  end.

(** The webhook loop starts with a wake-up. *)
Definition Manager_Run m : Running SS ST := MkRunning (m <| mg_webhooks := wake (mg_webhooks m) |>) P_select P_work time_zero.

Inductive service_step r : Running SS ST → Prop :=
| sv_turn s now : service_step r (turn s r now)
| sv_other m : step (exact := False) cfg (ru_manager r) m → service_step r (r <| ru_manager := m |>).

(** ** Shutting down: the polls see the manager as it is by then; [None] is the end of the context *)
Definition jobs_in_flight m : Z :=
  foldl (λ n w, n +! Z.of_nat (ss_Size (wc_inFlight w))) 0%Z (omap (λ a, wp_conns (mg_workers m) !! a) (allWorkers (mg_workers m))).

Fixpoint Stop_poll (polls : list (option (Manager SS ST))) : option (option error) :=
  match polls with
  | [] => None
  | None :: _ => Some (Some (ErrMsg "context canceled"))
  | Some m :: polls => if (jobs_in_flight m =? 0)%Z then Some None else Stop_poll polls
  end.

Definition Stop m (polls : list (option (Manager SS ST))) : Manager SS ST * option (option error) := (drainWorkers m, Stop_poll polls).

Definition ForceStop m : Manager SS ST * option error := (closeAllWorkers m, None).

Fixpoint wait_disconnect (polls : list (option (Manager SS ST))) (workerID : string) : option (option error) :=
  match polls with
  | [] => None
  | None :: _ => Some (Some (ErrMsg "context canceled"))
  | Some m :: polls => if waitForWorkerDisconnect_poll (mg_workers m) workerID then Some None else wait_disconnect polls workerID
  end.

Definition DrainWorkerAndWait m (workerID : string) (polls : list (option (Manager SS ST))) : Manager SS ST * option (option error) :=
  match DrainWorker m workerID with
  | (m, Some e) => (m, Some (Some e))
  | (m, None) => (m, wait_disconnect polls workerID)
  end.

(** ** Invariants *)
Context {exact : Prop}.
#[local] Notation manager_ok := (manager_inv exact).

Lemma ok_set_signal m c : manager_ok m → manager_ok (set_signal m c).
Proof. intros Hm. apply ok_pool; [done|]. intros [A B C D F G]. by split. Qed.

Lemma ok_set_wake m c : manager_ok m → manager_ok (set_wake m c).
Proof. intros Hm. by apply (ok_same m). Qed.

Lemma ok_step_of m m' : manager_ok m → step (exact := exact) cfg m m' → manager_ok m'.
Proof. intros Hm Hs. by eapply ok_step. Qed.

Lemma turn_ok s r now : manager_ok (ru_manager r) → manager_ok (ru_manager (turn s r now)).
Proof.
  intros Hm. destruct s; cbn [turn].
  - unfold DispatcherRoutine. destruct (ru_dispatcher r).
    + destruct (enter_select _) as [c ph]. by apply ok_set_signal.
    + done.
    + eapply ok_step_of; [|apply st_dispatch]. apply (ok_set_signal _ _ Hm).
  - unfold WebhookDispatcher_Run. destruct (ru_webhooks r).
    + destruct (enter_select _) as [c ph]. by apply ok_set_wake.
    + destruct (Before _ _); [done|]. by apply ok_set_wake.
    + pose proof (ok_step_of _ _ Hm (st_webhooks cfg (ru_manager r) (cfg_Webhook cfg) now)) as Hp.
      by destruct (processPending _ _ _).
  - unfold StaleWorkerMonitoring. destruct (has_OnIdleWorker cfg).
    + eapply ok_step_of; [exact Hm|]. apply (st_idle_sweep cfg _ _ _ _ now).
    + by apply (ok_same (ru_manager r)).
  - cbn. unfold periodic_trigger. destruct (_ <? _); [done|]. cbv zeta. destruct (_ <? _)%Z; [done|]. by apply ok_notify.
Qed.

(** ** Signals *)

(** A notification that finds the dispatcher at work is dropped: the channel has no buffer. *)
Lemma signal_dropped m : sc_cap (wp_dispatchSignal (mg_workers m)) = 0 → sc_waiting (wp_dispatchSignal (mg_workers m)) = false →
  NotifyDispatcher m = m.
Proof.
  intros Hc Hw. unfold NotifyDispatcher, pool_notifyDispatcher, try_send. rewrite Hw, Hc. cbn [Nat.ltb Nat.leb].
  destruct m as [[] ? ? ? ? ? ? ? ?]. reflexivity.
Qed.

Lemma leave_notified (c : SigChan) : sc_waiting c = true → leave_select (try_send c) = P_work.
Proof. intros Hw. unfold try_send. by rewrite Hw. Qed.

Lemma trigger_late m now : 1 ≤ Size (mg_queue m) → (60 ≤ (Unix now - mg_lastDispatchRun m) `mod` 2 ^ 64)%Z →
  periodic_trigger m now = NotifyDispatcher m.
Proof.
  intros Hq Hd. unfold periodic_trigger. rewrite (proj2 (Nat.ltb_ge _ _) Hq). cbv zeta. by rewrite (proj2 (Z.ltb_ge _ _) Hd).
Qed.

(** The wake channel of the webhook loop. *)
Definition wake_ok r : Prop :=
  let c := wd_wakeCh (mg_webhooks (ru_manager r)) in
  sc_cap c = 1 ∧ sc_len c ≤ 1 ∧ (ru_webhooks r ≠ P_blocked → sc_waiting c = false) ∧ (sc_waiting c = true → sc_len c = 0).

Lemma Manager_Run_wake_ok store n : wake_ok (Manager_Run (New store n)).
Proof. done. Qed.

Lemma process_wake w now e nw : wd_wakeCh (process_entry (cfg_Webhook cfg) now (w, nw) e).1 = wd_wakeCh w.
Proof.
  unfold process_entry. assert (wd_wakeCh (deliver w e).1 = wd_wakeCh w) as Hd.
  { unfold deliver. destruct (http_post _ _ _) as [code|]; [|done]. destruct (negb _); [done|]. by destruct (st_AckWebhook _ _). }
  destruct (deliver w e) as [w1 [err|]]; [|done]. cbn [fst] in Hd. rewrite <- Hd.
  assert (wd_wakeCh (scheduleRetry (cfg_Webhook cfg) w1 e now).1 = wd_wakeCh w1) as Hs.
  { unfold scheduleRetry. cbv zeta. by destruct (_ && _). }
  destruct (scheduleRetry _ _ _ _) as [w2 next]. cbn [fst] in Hs. by destruct (negb _ && _).
Qed.

Lemma pending_wake w now : wd_wakeCh (processPending (cfg_Webhook cfg) w now).1 = wd_wakeCh w.
Proof.
  unfold processPending. generalize (DequeueWebhooks (entities (wd_store w)) now) as l. intros l.
  assert (∀ st, wd_wakeCh (foldl (process_entry (cfg_Webhook cfg) now) st l).1 = wd_wakeCh st.1) as Hf.
  { induction l as [|e l IH]; intros [w' nw]; [done|]. cbn [foldl]. rewrite IH. apply process_wake. }
  specialize (Hf (w, time_zero)). destruct (foldl _ _ _) as [w' nw]. by destruct (IsZero nw).
Qed.

Lemma turn_wake_ok r now : wake_ok r → wake_ok (WebhookDispatcher_Run r now).
Proof.
  destruct r as [m d ph t]. unfold wake_ok, WebhookDispatcher_Run. cbn. intros (Hc & Hl & Hw & Hz). destruct ph.
  - unfold enter_select, try_recv. destruct (wd_wakeCh (mg_webhooks m)) as [cap [|len] wt]; cbn in *; [split_and!; naive_solver|].
    split_and!; [done|lia|by intros _; apply Hw|]. intros ->. specialize (Hw ltac:(done)). done.
  - destruct (Before now t); cbn.
    + unfold leave_select. split_and!; [done..| |done]. by destruct (sc_waiting _).
    + by split_and!.
  - pose proof (pending_wake (mg_webhooks m) now) as Hp. destruct (processPending _ _ _) as [w sleep]. cbn in *. rewrite Hp. split_and!; try done.
    intros _. by apply Hw.
Qed.

(** What was queued is seen: after an enqueue the loop is at work, or is after its next turn, with the store as it was left. *)
Lemma woken_works r w now : wake_ok r → wd_wakeCh w = try_send (wd_wakeCh (mg_webhooks (ru_manager r))) →
  let r1 := r <| ru_manager := ru_manager r <| mg_webhooks := w |> |> in
  ru_webhooks r1 = P_work ∨
  (ru_webhooks (WebhookDispatcher_Run r1 now) = P_work ∧
   wd_store (mg_webhooks (ru_manager (WebhookDispatcher_Run r1 now))) = wd_store w).
Proof.
  destruct r as [m d ph t]. intros (Hc & Hl & Hw & Hz) Hwake. cbn in *. unfold WebhookDispatcher_Run. cbn. rewrite Hwake.
  destruct ph; [right|right|by left].
  - specialize (Hw ltac:(done)). unfold try_send. rewrite Hw, Hc. unfold enter_select, try_recv.
    destruct (wd_wakeCh (mg_webhooks m)) as [cap [|[|len]] wt]; cbn in *; [done|done|lia].
  - destruct (Before now t); cbn; [|done]. split; [|done].
    destruct (sc_waiting (wd_wakeCh (mg_webhooks m))) eqn:E; [by apply leave_notified|].
    unfold leave_select, try_send. rewrite E. destruct (_ <? _); cbn; by rewrite ?E.
Qed.
End services.

(** ** Properties *)

(** C25: A queued job is not forgotten. Notifications may be dropped while a pass runs, but at any tick of the
    backstop at least a minute after an earlier one, if no pass has begun since that one, jobs are queued
    and the dispatcher is blocked, the next two turns of the dispatcher run a pass over the whole queue. *)
Theorem backstop_wakes_dispatcher `{SimpleSet SS} `{Store ST} `{GoRuntime} `{Ulid} `{SerialLanes} `{WebhookEnv} `{WorkerSelector SS}
    (cfg : Config) (r : Running SS ST) (earlier tick now1 now2 : Time) :
  let m := ru_manager r in
  1 ≤ Size (mg_queue m) → ru_dispatcher r = P_blocked → sc_waiting (wp_dispatchSignal (mg_workers m)) = true →
  (0 ≤ mg_lastDispatchRun m ≤ Unix earlier)%Z → (Unix earlier + 60 ≤ Unix tick)%Z →
  let woken := turn cfg JobDispatcherRoutine (turn cfg PeriodicTriggerRoutine r tick) now1 in
  let passed := turn cfg JobDispatcherRoutine woken now2 in
  let m' := drainDispatchSignals (NotifyDispatcher m) in
  ru_manager passed = (ProcessQueue cfg m' now2).1.1 ∧ ru_dispatcher passed = P_select ∧
  mg_queue m' = mg_queue m ∧ ents m' = ents m ∧ wp_conns (mg_workers m') = wp_conns (mg_workers m).
Proof.
  intros m Hq Hph Hw Hlast Htick woken passed m'. subst m.
  set (m := ru_manager r) in *.
  assert (periodic_trigger m tick = NotifyDispatcher m) as Ht.
  { apply trigger_late; [done|]. pose proof (wrap64_range ((tick - unix_epoch) / 1000000000)) as Hr. fold (Unix tick) in Hr.
    unfold in_int64, MinInt64, MaxInt64 in Hr. rewrite Z.mod_small; lia. }
  assert (turn cfg JobDispatcherRoutine (turn cfg PeriodicTriggerRoutine r tick) now1 =
    MkRunning (NotifyDispatcher m) P_work (ru_webhooks r) (ru_timer r)) as E.
  { cbn [turn]. fold m. rewrite Ht. unfold DispatcherRoutine. cbn [ru_dispatcher field_set rebuild Running_rebuild]. rewrite Hph.
    transitivity (MkRunning (NotifyDispatcher m) (leave_select (try_send (wp_dispatchSignal (mg_workers m)))) (ru_webhooks r) (ru_timer r)); [reflexivity|].
    by rewrite leave_notified. }
  subst passed woken m'. by rewrite E.
Qed.

(** C29: No webhook waits unseen. Whatever the loop is doing, once an event was queued the loop is at work, or is at
    its next turn, with the entry in its store: the next pass sees it. Turns of the loop keep the channel as
    this needs it. *)
Theorem queued_webhook_is_seen `{SimpleSet SS} `{Store ST} `{GoRuntime} `{Ulid} `{SerialLanes} `{WebhookEnv}
    (cfg : Config) (r : Running SS ST) (job : Job) (event : string) (data : list (string * EventValue)) (now later : Time) :
  wake_ok r →
  let w := mg_webhooks (ru_manager r) in
  let w1 := enqueue w job event data now in
  let r1 := r <| ru_manager := ru_manager r <| mg_webhooks := w1 |> |> in
  wake_ok (WebhookDispatcher_Run cfg r now) ∧
  (webhooks (entities (wd_store w1)) ≠ webhooks (entities (wd_store w)) →
   ru_webhooks r1 = P_work ∨
   (ru_webhooks (WebhookDispatcher_Run cfg r1 later) = P_work ∧
    wd_store (mg_webhooks (ru_manager (WebhookDispatcher_Run cfg r1 later))) = wd_store w1)).
Proof.
  intros Hr w w1 r1. split; [by apply turn_wake_ok|]. intros Hne.
  destruct (woken_works cfg r w1 later Hr) as [Hp|[Hp Hs]]; [|by left|by right].
  revert Hne. subst w1. unfold enqueue. destruct (bool_decide (job_WebhookURL job = "")); [done|].
  destruct (_ && _); [done|]. destruct (marshal_event _) as [payload|]; [|done]. cbv zeta.
  match goal with |- context [st_EnqueueWebhook ?s ?e] =>
    pose proof (err_EnqueueWebhook s e) as He; destruct (st_EnqueueWebhook s e) as [store err] end.
  cbn in He. by subst err.
Qed.

(** The services never break the orchestrator's invariants: in every interleaving of their turns with everything else
    the manager does, its state stays well-formed. *)
Theorem services_keep_invariant `{SimpleSet SS} `{Store ST} `{GoRuntime} `{Ulid} `{SerialLanes} `{WebhookEnv} `{WorkerSelector SS}
    `{ConsolidateJson} (cfg : Config) (r r' : Running SS ST) :
  manager_inv False (ru_manager r) → rtc (service_step cfg) r r' → manager_inv False (ru_manager r').
Proof.
  intros Hm Hs. induction Hs as [|r1 r2 r3 Hs _ IH]; [done|]. apply IH. destruct Hs as [s now|m Hstep]; [by apply turn_ok|].
  by eapply ok_step.
Qed.

(** A graceful stop reports success only when a poll found no worker with a job in flight. *)
Theorem stop_waits_for_jobs `{SimpleSet SS} `{Store ST} `{GoRuntime} (polls : list (option (Manager SS ST))) :
  (∀ m : Manager SS ST, Some m ∈ polls → (Z.of_nat (list_sum ((λ w, ss_Size (wc_inFlight w)) <$> omap (λ a, wp_conns (mg_workers m) !! a) (allWorkers (mg_workers m)))) ≤ MaxInt64)%Z) →
  Stop_poll polls = Some None →
  ∃ m, Some m ∈ polls ∧ ∀ a w, a ∈ allWorkers (mg_workers m) → wp_conns (mg_workers m) !! a = Some w → ss_view (wc_inFlight w) = ∅.
Proof.
  induction polls as [|[m|] polls IH]; intros Hb Hp; try discriminate. cbn [Stop_poll] in Hp.
  destruct (Z.eqb_spec (jobs_in_flight m) 0) as [Hz|Hz].
  - exists m. split; [left|]. intros a w Ha Hw.
    specialize (Hb m ltac:(left)). unfold jobs_in_flight in Hz.
    assert (w ∈ omap (λ a, wp_conns (mg_workers m) !! a) (allWorkers (mg_workers m))) as Hin by (apply list_elem_of_omap; eauto).
    revert Hb Hz Hin. generalize (omap (λ a, wp_conns (mg_workers m) !! a) (allWorkers (mg_workers m))) as l. intros l.
    assert (∀ l n, (0 ≤ n)%Z → (n + Z.of_nat (list_sum ((λ w, ss_Size (wc_inFlight w)) <$> l)) ≤ MaxInt64)%Z →
      foldl (λ n w, wrap64 (n + Z.of_nat (ss_Size (wc_inFlight w)))) n l = (n + Z.of_nat (list_sum ((λ w, ss_Size (wc_inFlight w)) <$> l)))%Z) as Hf.
    { induction l0 as [|x l0 IHl]; intros n Hn Hle; [cbn; lia|]. rewrite fmap_cons in *. cbn [foldl].
      assert (∀ a b, list_sum (a :: b) = a + list_sum b) as Hcons by done. rewrite Hcons in *. rewrite wrap64_id by (unfold in_int64, MinInt64, MaxInt64 in *; lia).
      rewrite IHl by lia. lia. }
    intros Hb Hz Hin. rewrite (Hf l 0%Z) in Hz by lia.
    assert (ss_Size (wc_inFlight w) = 0) as Hsz.
    { clear -Hz Hin. assert (list_sum ((λ w, ss_Size (wc_inFlight w)) <$> l) = 0) as Hs by lia. clear Hz.
      induction l as [|x l IHl]; [by apply not_elem_of_nil in Hin|]. 
      change (ss_Size (wc_inFlight x) + list_sum ((λ w, ss_Size (wc_inFlight w)) <$> l) = 0) in Hs.
      apply elem_of_cons in Hin as [->|Hin]; [lia|]. apply IHl; [done|lia]. }
    rewrite ss_Size_spec in Hsz. by apply size_empty_iff, leibniz_equiv in Hsz.
  - destruct (IH (λ m' Hm', Hb m' ltac:(by right)) Hp) as (m' & Hm' & Hall). exists m'. split; [by right|done].
Qed.

Section samples.
#[local] Existing Instances gset_simple_set canonical_runtime unary_ulid open_lanes sample_env least_loaded tagged_payload.

(** The sample queue, with the dispatcher blocked on its channel. *)
Definition blocked : Running (gset string) MemStore :=
  MkRunning (set_signal sample_manager (MkSigChan 0 0 true)) P_blocked P_select 0.

Definition at_second (n : Z) : Time := (unix_epoch + n * Second)%Z.

Lemma backstop_wakes_dispatcher_witness :
  ids_of (ProcessQueue dispatch_config (drainDispatchSignals (NotifyDispatcher (ru_manager blocked))) (at_second 121)).1.2 = (["fits"], ["lost"], ["large"]) ∧
  ru_manager (turn dispatch_config JobDispatcherRoutine (turn dispatch_config JobDispatcherRoutine
    (turn dispatch_config PeriodicTriggerRoutine blocked (at_second 120)) (at_second 121)) (at_second 121)) =
  (ProcessQueue dispatch_config (drainDispatchSignals (NotifyDispatcher (ru_manager blocked))) (at_second 121)).1.1.
Proof.
  split; [vm_compute; reflexivity|].
  refine (proj1 (backstop_wakes_dispatcher dispatch_config blocked (at_second 60) (at_second 120) (at_second 121) (at_second 121) _ _ _ _ _)).
  - vm_compute. lia.
  - reflexivity.
  - reflexivity.
  - vm_compute. split; discriminate.
  - vm_compute. discriminate.
Defined.

(** The loop sleeps for an hour; a job with a webhook ends. *)
Definition asleep : Running (gset string) MemStore := MkRunning (set_wake sample_manager (MkSigChan 1 0 true)) P_select P_blocked Hour.
Definition hooked : Job := zero_job <| job_ID := "j" |> <| job_WebhookURL := "http://client/hook" |>.

Lemma queued_webhook_is_seen_witness :
  let r1 := asleep <| ru_manager := ru_manager asleep <| mg_webhooks := enqueue (mg_webhooks (ru_manager asleep)) hooked "job.completed" [] 5%Z |> |> in
  ru_webhooks r1 = P_blocked ∧ ru_webhooks (WebhookDispatcher_Run dispatch_config r1 6%Z) = P_work.
Proof.
  split; [reflexivity|].
  destruct (queued_webhook_is_seen dispatch_config asleep hooked "job.completed" [] 5%Z 6%Z) as [_ Hseen].
  - split_and!; [reflexivity|vm_compute; lia|intros Hne; by destruct Hne|intros _; reflexivity].
  - destruct Hseen as [Hp|[Hp _]]; [|discriminate Hp|exact Hp]. intros Heq. apply (f_equal size) in Heq. vm_compute in Heq. discriminate Heq.
Defined.
End samples.
