(* ===== verification/MuMap.v ===== *)
(** * The locked map (src/manager/mu_map.go)

    A map behind a read-write lock.  The lock matters where a callback runs under
    it: [Range] holds the read lock while it calls, so a callback that writes
    waits for itself, while [Iterator] walks a snapshot and holds nothing.  The
    readers inside the lock are counted; [None] is a call that never returns.
    The order of ranging over the map is a parameter. *)
From S2P Require Import Prelude.

Section mu_map.
Context {K V : Type} `{Countable K}.

(** How the runtime orders a map. *)
Context (ranging : gmap K V → list (K * V)).

Record MuMap := MkMuMap { mm_m : gmap K V; mm_readers : nat }.

Definition NewMuMap (capacity : Z) : MuMap := MkMuMap ∅ 0.

Definition Load (m : MuMap) (key : K) : option V := mm_m m !! key.
Definition Has (m : MuMap) (key : K) : bool := bool_decide (is_Some (mm_m m !! key)).
Definition Len (m : MuMap) : nat := size (mm_m m).

(** A writer waits until no reader is left. *)
Definition locked (m : MuMap) (f : gmap K V → gmap K V) : option MuMap :=
  if bool_decide (mm_readers m = 0) then Some (MkMuMap (f (mm_m m)) 0) else None.

Definition mu_Store (m : MuMap) (key : K) (value : V) : option MuMap := locked m (insert key value).
Definition mu_Delete (m : MuMap) (key : K) : option MuMap := locked m (delete key).

(** A callback: what it does to the map, and whether it wants more. *)
Definition callback : Type := MuMap → K → V → option (MuMap * bool).

Fixpoint each (l : list (K * V)) (f : callback) (m : MuMap) : option MuMap :=
  match l with
  | [] => Some m
  | (k, v) :: l => '(m, more) ← f m k v; if (more : bool) then each l f m else Some m
  end.

Definition Range (m : MuMap) (f : callback) : option MuMap :=
  m ← each (ranging (mm_m m)) f (MkMuMap (mm_m m) (S (mm_readers m)));
  Some (MkMuMap (mm_m m) (pred (mm_readers m))).

Definition mu_Snapshot (m : MuMap) : gmap K V := foldl (λ s '(k, v), <[k := v]> s) ∅ (ranging (mm_m m)).

Definition Iterator (m : MuMap) (yield : callback) : option MuMap := each (ranging (mu_Snapshot m)) yield m.

(** ** Properties *)
Hypothesis ranging_perm : ∀ g : gmap K V, ranging g ≡ₚ map_to_list g.

Lemma mu_Snapshot_copies m : mu_Snapshot m = mm_m m.
Proof.
  unfold mu_Snapshot. assert (NoDup (ranging (mm_m m)).*1) as Hnd by (rewrite ranging_perm; apply NoDup_fst_map_to_list).
  assert (∀ l (g : gmap K V), NoDup l.*1 → (∀ k, k ∈ l.*1 → g !! k = None) → foldl (λ s '(k, v), <[k := v]> s) g l = list_to_map l ∪ g) as Hf.
  { induction l as [|[k v] l IH]; intros g Hn Hd; [cbn; by rewrite (left_id_L ∅ (∪))|]. cbn in *. apply NoDup_cons in Hn as [Hk Hn].
    rewrite IH; [|done|].
    - rewrite <- insert_union_r, insert_union_l; [done|]. by apply not_elem_of_list_to_map_1.
    - intros k' Hk'. rewrite lookup_insert_ne by (intros ->; done). apply Hd. by right. }
  rewrite Hf, (right_id_L ∅ (∪)) by (done || (intros; apply lookup_empty)).
  rewrite (list_to_map_proper _ _ Hnd (ranging_perm _)). apply list_to_map_to_list.
Qed.

(** A body that writes whenever it runs: deletes some keys, stores others. *)
Definition writes (edits : K → V → gmap K (option V)) (more : K → V → bool) : callback := λ m k v,
  m ← map_fold (λ k' (w : option V) acc, m ← acc; match w with Some x => mu_Store m k' x | None => mu_Delete m k' end) (Some m) (edits k v);
  Some (m, more k v).

Lemma edits_run (e : gmap K (option V)) (m : MuMap) : mm_readers m = 0 → ∃ m',
  map_fold (λ k' (w : option V) acc, m ← acc; match w with Some x => mu_Store m k' x | None => mu_Delete m k' end) (Some m) e = Some m' ∧ mm_readers m' = 0.
Proof.
  intros Hm. induction e as [|k w e Hk Hfst IH] using map_first_key_ind; [rewrite map_fold_empty; eauto|].
  rewrite map_fold_insert_first_key by done. destruct IH as (m' & -> & Hm'). cbn. unfold mu_Store, mu_Delete, locked.
  destruct w; rewrite (bool_decide_eq_true_2 (mm_readers m' = 0)) by done; eauto.
Qed.

(** An iteration never waits for itself: whatever the body stores and deletes while it runs, the loop visits the entries the
    map had when it began, in some order, until the body stops it; no lock is held afterwards. *)
Theorem iterator_may_write (m : MuMap) edits more : mm_readers m = 0 →
  (∃ m', Iterator m (writes edits more) = Some m' ∧ mm_readers m' = 0) ∧
  ranging (mu_Snapshot m) ≡ₚ map_to_list (mm_m m).
Proof.
  intros Hm. split; [|by rewrite mu_Snapshot_copies, ranging_perm]. unfold Iterator. generalize (ranging (mu_Snapshot m)) as l. intros l.
  revert m Hm. induction l as [|[k v] l IH]; intros m Hm; [eauto|]. cbn [each].
  destruct (edits_run (edits k v) m Hm) as (m' & E & Hm').
  assert (writes edits more m k v = Some (m', more k v)) as -> by (unfold writes; by rewrite E). cbn. destruct (more k v); [by apply IH|eauto].
Qed.

(** The same body under [Range] waits for its own lock as soon as it writes. *)
Theorem range_write_deadlocks (m : MuMap) (key : K) (value : V) : mm_m m ≠ ∅ →
  Range m (λ m k v, m ← mu_Store m key value; Some (m, true)) = None.
Proof.
  intros Hne. unfold Range. destruct (ranging (mm_m m)) as [|[k v] l] eqn:E; [|done].
  pose proof (ranging_perm (mm_m m)) as Hp. rewrite E in Hp. apply Permutation_nil_l in Hp. symmetry in Hp. by apply map_to_list_empty_iff in Hp.
Qed.
End mu_map.
