(* ===== verification/MuWindow.v ===== *)
(** * The locked window (src/worker/window/mu_window.go)

    The sampler keeps its readings in a [Window] behind a read-write lock.  As for
    the locked map, the readers inside the lock are counted, and [None] is a call
    that never returns, or a panic of the window: [Each] calls back under the lock,
    so a callback may read the window but not push. *)
From S2P Require Import Prelude Window.

Record MuWindow (T : Type) := MkMuWindow { mw_w : Window T; mw_readers : nat }.
Arguments MkMuWindow {T} _ _.
Arguments mw_w {T} _.
Arguments mw_readers {T} _.

Section mu_window.
Context {T : Type} (zero : T).
Implicit Types (mw : MuWindow T) (v : T).

Definition NewMu (capacity : Z) : option (MuWindow T) := w ← New_window zero capacity; Some (MkMuWindow w 0).

(** A writer waits until no reader is left. *)
Definition mw_Push mw v : option (MuWindow T) :=
  if bool_decide (mw_readers mw = 0) then w ← Push_window (mw_w mw) v; Some (MkMuWindow w 0) else None.

(** The callback runs under the read lock; it may use the window itself. *)
Definition mw_Each mw (fn : MuWindow T → T → option (MuWindow T)) : option (MuWindow T) :=
  s ← Each_window (mw_w mw) (λ s v, s ≫= λ mw, fn mw v) (Some (MkMuWindow (mw_w mw) (S (mw_readers mw))));
  mw ← s; Some (MkMuWindow (mw_w mw) (pred (mw_readers mw))).

Definition mw_Average mw (add : T → T → T) (divide : T → nat → T) : option T := Average_window zero (mw_w mw) add divide.
Definition mw_Count mw : nat := Count_window (mw_w mw).

(** A callback that pushes waits for the lock its own iteration holds. *)
Lemma each_push_deadlocks n mw l (f : T → T) : window_rel n (mw_w mw) l → l ≠ [] → mw_Each mw (λ mw v, mw_Push mw (f v)) = None.
Proof.
  intros Hw Hl. unfold mw_Each. rewrite (Each_window_rel n _ l) by done. cbn [mbind option_bind].
  assert (last_n n l ≠ []) as Hne.
  { intros E. apply (f_equal length) in E. rewrite last_n_length in E. pose proof (wr_pos _ _ _ Hw). destruct l; [done|cbn in E; lia]. }
  destruct (last_n n l) as [|v k]; [done|]. cbn. unfold mw_Push at 2. rewrite bool_decide_eq_false_2 by done. clear. by induction k.
Qed.

(** One that only reads leaves the window as it was, with no lock held. *)
Lemma each_read_returns n mw l (fn : MuWindow T → T → option (MuWindow T)) : window_rel n (mw_w mw) l →
  (∀ mw' v, fn mw' v = Some mw') → mw_Each mw fn = Some mw.
Proof.
  intros Hw Hfn. unfold mw_Each. rewrite (Each_window_rel n _ l) by done. cbn [mbind option_bind].
  assert (∀ k s, foldl (λ s v, s ≫= λ mw, fn mw v) (Some s) k = Some s) as -> by (induction k as [|v k IH]; intros s; [done|]; cbn; by rewrite Hfn, IH).
  by destruct mw.
Qed.
End mu_window.
