(* ===== verification/Legacy.v ===== *)
(** * Declared but unused: older worker states and the host profile
      (src/worker/state.go, src/manager/worker_conn.go, src/contract/host.go)

    The worker and the manager once had a state type each; both now use that of
    the contract, and the lemmas say where the older ones differ from it.  The
    profile of a host is data only. *)
From S2P Require Import Prelude GoStd External Contract.
From Stdlib Require Import Floats.SpecFloat.

(** ** The worker's own state type *)
Definition legacy_state : Type := Z.
Definition stateOnline : legacy_state := 0%Z.
Definition statePressure : legacy_state := 1%Z.
Definition stateDraining : legacy_state := 2%Z.
Definition stateOffline : legacy_state := 3%Z.
Definition stateShuttingDown : legacy_state := 4%Z.

Definition state_String (s : legacy_state) : string :=
  if (s =? stateOnline)%Z then "online"
  else if (s =? stateDraining)%Z then "draining"
  else if (s =? stateShuttingDown)%Z then "shuttingDown"
  else if (s =? stateOffline)%Z then "offline"
  else "unknown".

Record atomicState := MkAtomicState { as_v : legacy_state }.

Definition state_load (a : atomicState) : legacy_state := as_v a.
Definition state_store (a : atomicState) (s : legacy_state) : atomicState := MkAtomicState s.
Definition state_transition (a : atomicState) (from to : legacy_state) : atomicState * bool :=
  if (as_v a =? from)%Z then (MkAtomicState to, true) else (a, false).

Ltac by_state := repeat match goal with |- context [(?a =? ?b)%Z] => destruct (Z.eqb_spec a b) end; subst; done || lia.

(** It is the contract's type but for the name of the pressed state, which it has none for. *)
Lemma state_String_agrees s : s ≠ statePressure → state_String s = WorkerState_String s.
Proof.
  intros Hs. unfold state_String, WorkerState_String. unfold stateOnline, stateDraining, stateShuttingDown, stateOffline, statePressure,
    WorkerStateOnline, WorkerStatePressure, WorkerStateDraining, WorkerStateShuttingDown, WorkerStateOffline in *. by_state.
Qed.

Lemma pressure_has_no_name : state_String statePressure = "unknown" ∧ WorkerState_String WorkerStatePressure = "pressured".
Proof. done. Qed.

(** Of any transitions out of one state, in any order, at most one succeeds until the state is entered again. *)
Lemma transition_once a from (tos : list legacy_state) : from ∉ tos →
  let run := foldl (λ '(a, n) to, let '(a, ok) := state_transition a from to in (a, if (ok : bool) then S n else n)) (a, 0) tos in
  run.2 = if bool_decide (state_load a = from ∧ tos ≠ []) then 1 else 0.
Proof.
  intros Hf. cbn zeta.
  assert (∀ l b n, as_v b ≠ from → from ∉ l →
    foldl (λ '(a, n) to, let '(a, ok) := state_transition a from to in (a, if (ok : bool) then S n else n)) (b, n) l = (b, n)) as Hstay.
  { induction l as [|t l IH]; intros b n Hb Hl; [done|]. cbn. unfold state_transition. rewrite (proj2 (Z.eqb_neq _ _) Hb). apply IH; set_solver. }
  destruct tos as [|t tos]; [by rewrite bool_decide_eq_false_2 by tauto|]. cbn. unfold state_transition at 2, state_load.
  destruct (Z.eqb_spec (as_v a) from) as [E|E].
  - rewrite Hstay by set_solver. by rewrite bool_decide_eq_true_2.
  - rewrite Hstay by set_solver. by rewrite bool_decide_eq_false_2 by tauto.
Qed.

(** ** The manager's view of it *)
Definition workerState_String (s : Z) : string :=
  if (s =? 0)%Z then "online"
  else if (s =? 1)%Z then "pressure"
  else if (s =? 2)%Z then "draining"
  else if (s =? 3)%Z then "offline"
  else "unknown(" +:+ Itoa s +:+ ")".

(** Online, draining and offline are all it shares with the contract. *)
Lemma workerState_String_agrees s : (0 ≤ s ≤ 4)%Z →
  workerState_String s = WorkerState_String s ↔ s = WorkerStateOnline ∨ s = WorkerStateDraining ∨ s = WorkerStateOffline.
Proof.
  intros Hs. assert (s = 0 ∨ s = 1 ∨ s = 2 ∨ s = 3 ∨ s = 4)%Z as Hc by lia.
  destruct Hc as [-> | [-> | [-> | [-> | ->]]]]; vm_compute; split; intros; try done; tauto || (repeat match goal with H : _ ∨ _ |- _ => destruct H end; done).
Qed.

(** ** The profile of a host *)
Record Platform := MkPlatform { pf_os : string; pf_arch : string }.

Definition Platform_String (p : Platform) : string := pf_os p +:+ "/" +:+ pf_arch p.

Record CPUProfile := MkCPUProfile {
  cpu_Vendor : string;
  cpu_Model : string;
  cpu_Family : string;
  cpu_Flags : string;
  cpu_Mhz : spec_float;
  cpu_Cores : Z;
}.

Record StorageMediumProfile := MkStorageMediumProfile { smp_Capacity : Z; smp_Available : Z }.

Record HostProfile := MkHostProfile {
  hp_Name : string;
  hp_Platform : Platform;
  hp_OsFamily : string;
  hp_OsVersion : string;
  hp_VirtualizationSystem : string;
  hp_VirtualizationRole : string;
  hp_CPU : CPUProfile;
  hp_MemoryCapacity : Z;
  hp_Storage : list StorageMediumProfile;
}.

(** A platform is known by its name, operating systems having no slash in theirs. *)
Lemma Platform_String_inj p q : no_char "/" (pf_os p) = true → no_char "/" (pf_os q) = true →
  Platform_String p = Platform_String q → p = q.
Proof.
  destruct p as [os arch], q as [os' arch']. unfold Platform_String. cbn [pf_os pf_arch]. revert os'.
  induction os as [|c os IH]; intros [|c' os'] Hp Hq E; cbn in *.
  - injection E as E. change (arch = arch') in E. by subst.
  - injection E as <- _. discriminate Hq.
  - injection E as -> _. discriminate Hp.
  - injection E as -> E. apply andb_prop in Hp as [_ Hp], Hq as [_ Hq]. specialize (IH os' Hp Hq E). by injection IH as -> ->.
Qed.
