(* ===== verification/Runner.v ===== *)
(** * Running a task binary (src/worker/runner.go)

    [Worker.RunTask] says what the outcome of a process means; this file has what
    happens around the process: the two pipes, the working directory, the command
    and its time limit.  Descriptors and directories are resources of the state
    [os_state], so that what every path leaves behind can be stated.  What the
    machine does is the environment [proc_env]: which calls fail, how the process
    ends by itself and when the last process that holds a writing end is gone. *)
From S2P Require Import Prelude GoStd External Contract WorkerConn Proto Registry Window ArtifactCache Worker WorkerWire.

Record ProcConfig := MkProcConfig { pc_RootDir : string; pc_Env : list string }.

Record RunLimits := MkRunLimits { rl_MaxExecutionTime : Duration; rl_MaxMemoryBytes : Z; rl_MaxCPUCores : float64 }.

Record taskExec := MkTaskExec {
  te_JobID : string;
  te_TaskName : string;
  te_ParentJobID : string;
  te_Phase : string;
  te_Attempt : Z;
  te_BinaryPath : string;
  te_Payload : string;
  te_Limits : RunLimits;
  te_Proc : ProcConfig;
  te_NoResult : bool;
}.

(** ** Resources *)
Record os_state := MkOs { os_fds : gset nat; os_dirs : gset string }.

#[export] Instance os_state_rebuild : Rebuild os_state := λ s, MkOs (os_fds s) (os_dirs s).

Definition fd_open (s : os_state) (fd : nat) : os_state := s <| os_fds := {[fd]} ∪ os_fds s |>.

(** Closing a closed descriptor is an error nobody looks at. *)
Definition fd_close (s : os_state) (fd : nat) : os_state := s <| os_fds := os_fds s ∖ {[fd]} |>.

(** [os.Pipe] uses descriptors that are not open. *)
Definition os_Pipe (err : option error) (s : os_state) : res error (nat * nat * os_state) :=
  match err with
  | Some e => Err e
  | None => let r := fresh (os_fds s) in let s := fd_open s r in let w := fresh (os_fds s) in Ok (r, w, fd_open s w)
  end.

(** ** The process *)
Record proc_env := MkProcEnv {
  pe_pipe_error : option error;
  pe_pipe2_error : option error;
  pe_temp : res error string;
  pe_start_error : option error;
  (** how the process would end by itself, and how long after its start *)
  pe_end : option wait_error;
  pe_runtime : Duration;
  (** how long after its start no process holds a writing end of its pipes, output and errors included, any more;
      [None] if one keeps it for good *)
  pe_writers_gone : option Duration;
  pe_result : string;
  pe_childJobs : string;
  pe_stderr : string;
  pe_windows : bool;
}.

Record command := MkCommand {
  cmd_Path : string;
  cmd_Stdin : string;
  cmd_Dir : string;
  cmd_ExtraFiles : list nat;
  cmd_Env : list string;
}.

Definition build_command (tmpStorageDir : string) (t : taskExec) (rootDir : string) (windows : bool) (resultW childJobsW : nat) : command :=
  MkCommand (te_BinaryPath t) (te_Payload t) rootDir (if windows then [] else [resultW; childJobsW])
    (pc_Env (te_Proc t) ++
     ["WORKFORCE_PHASE=" +:+ te_Phase t; "WORKFORCE_JOB_ID=" +:+ te_JobID t; "WORKFORCE_TASK_TYPE=" +:+ te_TaskName t;
      "WORKFORCE_PARENT_JOB_ID=" +:+ te_ParentJobID t; "WORKFORCE_ATTEMPT=" +:+ Itoa (te_Attempt t);
      "WORKFORCE_TMP_STORAGE_DIRECTORY=" +:+ tmpStorageDir; "WORKFORCE_TASK_STORAGE_DIRECTORY=" +:+ rootDir]).

(** [cmd.Wait] under [exec.CommandContext]: at the limit, if there is one, or when the context of the worker ends, the process is killed. *)
Definition deadline (limit : Duration) (cancelled : option Duration) : option Duration :=
  match (if (0 <? limit)%Z then Some limit else None), cancelled with
  | Some a, Some b => Some (Z.min a b)
  | Some a, None => Some a
  | None, c => c
  end.

(** How a killed process ends: by a signal, or on Windows by [TerminateProcess] with exit code 1. *)
Definition killed (windows : bool) : wait_error :=
  if windows then ExitError 1 "exit status 1" else ExitError (-1) "signal: killed".

Definition cmd_Wait (env : proc_env) (dl : option Duration) : option wait_error * Duration :=
  match dl with
  | Some d => if (d <? pe_runtime env)%Z then (Some (killed (pe_windows env)), d) else (pe_end env, pe_runtime env)
  | None => (pe_end env, pe_runtime env)
  end.

(** What a call leaves: the resources, the command that was started if any, and the outcome with the time it took;
    [None] is a call that never returns. *)
Definition RunTask_io (tmpStorageDir : string) (t : taskExec) (cancelled : option Duration) (env : proc_env) (s : os_state)
  : os_state * option command * option (res run_error (string * string * string) * Duration) :=
  let returns (p : process) (d : Duration) := Some (RunTask (te_NoResult t) p, d) in
  match os_Pipe (pe_pipe_error env) s with
  | Err e => (s, None, returns (PipeFailed "result" e) 0%Z)
  | Ok (resultR, resultW, s) =>
      match os_Pipe (pe_pipe2_error env) s with
      | Err e =>
          let s := fd_close (fd_close s resultR) resultW in
          (fd_close s resultR, None, returns (PipeFailed "child jobs" e) 0%Z)
      | Ok (childJobsR, childJobsW, s) =>
          let temp := if bool_decide (pc_RootDir (te_Proc t) = "") then pe_temp env else Ok (pc_RootDir (te_Proc t)) in
          match temp with
          | Err e =>
              let s := foldl fd_close s [resultR; resultW; childJobsR; childJobsW] in
              (foldl fd_close s [childJobsR; resultR], None, returns (TempRootFailed e) 0%Z)
          | Ok rootDir =>
              let made := bool_decide (pc_RootDir (te_Proc t) = "") in
              let s := if made then s <| os_dirs := {[rootDir]} ∪ os_dirs s |> else s in
              let cmd := build_command tmpStorageDir t rootDir (pe_windows env) resultW childJobsW in
              (** the deferred calls, last first *)
              let leave (s : os_state) :=
                let s := if made then s <| os_dirs := os_dirs s ∖ {[rootDir]} |> else s in
                foldl fd_close s [childJobsR; resultR] in
              let s := foldl fd_close s [resultW; childJobsW] in
              match pe_start_error env with
              | Some e => (leave s, None, returns (StartFailed e) 0%Z)
              | None =>
                  let '(waitErr, took) := cmd_Wait env (deadline (rl_MaxExecutionTime (te_Limits t)) cancelled) in
                  match pe_writers_gone env with
                  | None => (s, Some cmd, None)
                  | Some gone =>
                      (leave s, Some cmd,
                       returns (Exited waitErr (if pe_windows env then "" else pe_result env) (if pe_windows env then "" else pe_childJobs env) (pe_stderr env))
                         (Z.max took gone))
                  end
              end
          end
      end
  end.

(** The execution [runJob] asks for. *)
Definition exec_of (w : Worker) (environ : list (string * string)) (j : runningJob) (binaryPath : string) : taskExec :=
  let d := rj_dispatch j in
  MkTaskExec (dm_JobID d) (pm_Task (rj_proposal j)) (pm_ParentJobID (rj_proposal j)) (dm_Phase d) (dm_Attempt d) binaryPath (dm_Payload d)
    (MkRunLimits (dm_MaxExecTime d) (dm_MaxMemoryBytes d) (dm_MaxCPUCores d))
    (MkProcConfig (taskTmpDir w (dm_JobID d)) (SystemEnv environ ++ EnvWithPrefix environ (wf_InheritableENVPrefix (w_cfg w))))
    (pm_NoResult (rj_proposal j)).

(** ** Properties *)

(** Two new descriptors. *)
Lemma os_Pipe_spec err s r w s' : os_Pipe err s = Ok (r, w, s') →
  err = None ∧ r ∉ os_fds s ∧ w ∉ os_fds s ∧ r ≠ w ∧ os_fds s' = {[w]} ∪ ({[r]} ∪ os_fds s) ∧ os_dirs s' = os_dirs s.
Proof.
  unfold os_Pipe. destruct err; [done|]. intros [= <- <- <-]. cbn.
  pose proof (is_fresh (os_fds s)) as H1. pose proof (is_fresh ({[fresh (os_fds s)]} ∪ os_fds s)) as H2. set_solver.
Qed.

Lemma fds_closed s l : os_fds (foldl fd_close s l) = os_fds s ∖ list_to_set l ∧ os_dirs (foldl fd_close s l) = os_dirs s.
Proof. revert s. induction l as [|fd l IH]; intros s; cbn; [set_solver|]. destruct (IH (fd_close s fd)) as [-> ->]. cbn. set_solver. Qed.

Section resources.
Context (tmpStorageDir : string) (t : taskExec) (cancelled : option Duration) (env : proc_env).
Notation run := (RunTask_io tmpStorageDir t cancelled env).

(** Whenever the call returns, its pipes are closed and its directory is removed. *)
Lemma resources_released s r : (∀ dir, pe_temp env = Ok dir → dir ∉ os_dirs s) → (run s).2 = Some r →
  os_fds (run s).1.1 = os_fds s ∧ os_dirs (run s).1.1 = os_dirs s.
Proof.
  intros Hfresh. unfold RunTask_io. destruct (os_Pipe (pe_pipe_error env) s) as [[[r1 w1] s1]|e] eqn:E1; [|done].
  apply os_Pipe_spec in E1 as (_ & R1 & W1 & N1 & F1 & D1).
  destruct (os_Pipe (pe_pipe2_error env) s1) as [[[r2 w2] s2]|e] eqn:E2.
  2: { intros _. cbn. rewrite F1. split; [|done]. set_solver. }
  apply os_Pipe_spec in E2 as (_ & R2 & W2 & N2 & F2 & D2). rewrite F1 in *.
  destruct (if bool_decide _ then _ else _) as [rootDir|e] eqn:Et.
  2: { intros _. cbn [fst]. destruct (fds_closed (foldl fd_close s2 [r1; w1; r2; w2]) [r2; r1]) as [-> ->].
       destruct (fds_closed s2 [r1; w1; r2; w2]) as [-> ->]. rewrite F2. split; [|congruence]. cbn. set_solver. }
  cbv zeta. set (made := bool_decide (pc_RootDir (te_Proc t) = "")) in *.
  set (s3 := if made then s2 <| os_dirs := {[rootDir]} ∪ os_dirs s2 |> else s2).
  set (s4 := foldl fd_close s3 [w1; w2]).
  assert (os_fds s4 = {[r2]} ∪ ({[r1]} ∪ os_fds s)) as F4.
  { unfold s4. destruct (fds_closed s3 [w1; w2]) as [-> _]. assert (os_fds s3 = os_fds s2) as -> by by unfold s3; destruct made. rewrite F2. cbn. set_solver. }
  assert (os_dirs s4 = if made then {[rootDir]} ∪ os_dirs s else os_dirs s) as D4.
  { unfold s4. destruct (fds_closed s3 [w1; w2]) as [_ ->]. unfold s3. destruct made; cbn; congruence. }
  clearbody s4. set (leave := λ s : os_state, foldl fd_close (if made then s <| os_dirs := os_dirs s ∖ {[rootDir]} |> else s) [r2; r1]).
  assert (os_fds (leave s4) = os_fds s ∧ os_dirs (leave s4) = os_dirs s) as Hleave.
  { unfold leave. destruct (fds_closed (if made then s4 <| os_dirs := os_dirs s4 ∖ {[rootDir]} |> else s4) [r2; r1]) as [-> ->].
    split; [assert (os_fds (if made then s4 <| os_dirs := os_dirs s4 ∖ {[rootDir]} |> else s4) = os_fds s4) as -> by by destruct made|].
    - rewrite F4. cbn. set_solver.
    - destruct made; [|done]. cbn. rewrite D4. specialize (Hfresh rootDir Et). set_solver. }
  destruct (pe_start_error env) as [e|]; [intros _; exact Hleave|].
  destruct (cmd_Wait _ _) as [waitErr took]. destruct (pe_writers_gone env) as [gone|]; [intros _; exact Hleave|discriminate].
Qed.
End resources.

(** The process was started, and when the call is over. *)
Lemma run_started tmpStorageDir t cancelled env s : pe_start_error env = None → pe_pipe_error env = None → pe_pipe2_error env = None →
  (pc_RootDir (te_Proc t) ≠ "" ∨ ∃ dir, pe_temp env = Ok dir) →
  ∃ cmd, (RunTask_io tmpStorageDir t cancelled env s).1.2 = Some cmd ∧
    (pc_RootDir (te_Proc t) ≠ "" → ∃ a b, cmd = build_command tmpStorageDir t (pc_RootDir (te_Proc t)) (pe_windows env) a b) ∧
    let '(waitErr, took) := cmd_Wait env (deadline (rl_MaxExecutionTime (te_Limits t)) cancelled) in
    (RunTask_io tmpStorageDir t cancelled env s).2 =
      gone ← pe_writers_gone env;
      Some (RunTask (te_NoResult t) (Exited waitErr (if pe_windows env then "" else pe_result env) (if pe_windows env then "" else pe_childJobs env)
        (pe_stderr env)), Z.max took gone).
Proof.
  intros Hs Hp1 Hp2 Hroot. unfold RunTask_io, os_Pipe. rewrite Hp1, Hp2, Hs. cbv zeta.
  case_bool_decide as Hr.
  - destruct Hroot as [?|[dir Hd]]; [done|]. rewrite Hd. destruct (cmd_Wait _ _) as [waitErr took].
    destruct (pe_writers_gone env); cbn; (eexists; split; [reflexivity|]; split; [done|reflexivity]).
  - destruct (cmd_Wait _ _) as [waitErr took].
    destruct (pe_writers_gone env); cbn; (eexists; split; [reflexivity|]; split; [intros _; by eexists _, _|reflexivity]).
Qed.

(** C18: Running a task leaves nothing behind and keeps its limit. On every path on which [RunTask] returns, whichever
    call fails and however the process ends, the four pipe ends are closed and the directory it made is
    removed. The process started for a job gets the environment of that job and its payload; one that
    runs past its limit is killed and, provided that by the limit no process is left that holds its pipes,
    reported at the latest when the limit is reached, with exit code -1, or 1 on Windows. *)
Theorem task_run_is_contained (w : Worker) (environ : list (string * string)) (j : runningJob) (binaryPath : string)
    (cancelled : option Duration) (env : proc_env) (s : os_state) :
  (∀ dir, pe_temp env = Ok dir → dir ∉ os_dirs s) → taskTmpDir w (dm_JobID (rj_dispatch j)) ≠ "" →
  (∀ t, let out := RunTask_io (wf_TmpStorageDir (w_cfg w)) t cancelled env s in
     out.2 ≠ None → os_fds out.1.1 = os_fds s ∧ os_dirs out.1.1 = os_dirs s) ∧
  let out := RunTask_io (wf_TmpStorageDir (w_cfg w)) (exec_of w environ j binaryPath) cancelled env s in
  let limit := dm_MaxExecTime (rj_dispatch j) in
  (pe_start_error env = None → pe_pipe_error env = None → pe_pipe2_error env = None →
   (∃ cmd, out.1.2 = Some cmd ∧ cmd_Env cmd = task_env w environ j ∧ cmd_Stdin cmd = dm_Payload (rj_dispatch j)) ∧
   ((0 < limit < pe_runtime env)%Z → ∀ gone, pe_writers_gone env = Some gone → (gone ≤ limit)%Z →
    ∃ reason took, out.2 = Some (Err (exitError (if pe_windows env then 1 else -1) reason), took) ∧ (took ≤ limit)%Z)).
Proof.
  intros Hfresh Hdir. split.
  { intros t out Hret. destruct out.2 as [r|] eqn:E; [|done]. by eapply resources_released. }
  intros out limit Hs H1 H2.
  destruct (run_started (wf_TmpStorageDir (w_cfg w)) (exec_of w environ j binaryPath) cancelled env s Hs H1 H2 (or_introl Hdir))
    as (cmd & Hcmd & Hb & Hout). fold out in Hcmd, Hout. split.
  - exists cmd. split; [exact Hcmd|]. destruct (Hb Hdir) as (a & b & ->). cbn. unfold task_env. by rewrite <- app_assoc.
  - intros Hlim gone Hgone Hle. rewrite Hgone in Hout. revert Hout. cbn [te_Limits exec_of rl_MaxExecutionTime]. fold limit. unfold cmd_Wait, deadline.
    rewrite (proj2 (Z.ltb_lt 0 limit)) by lia.
    destruct cancelled as [c|]; (rewrite (proj2 (Z.ltb_lt _ (pe_runtime env))) by lia); cbn [mbind option_bind];
      intros ->; unfold killed; destruct (pe_windows env); eexists _, _; (split; [reflexivity|lia]).
Qed.

(** A process that outlives the task and holds one of its pipes keeps the call from returning, whatever the limit. *)
Lemma orphan_blocks_runner tmpStorageDir t cancelled env s : pe_start_error env = None → pe_pipe_error env = None → pe_pipe2_error env = None →
  (pc_RootDir (te_Proc t) ≠ "" ∨ ∃ dir, pe_temp env = Ok dir) → pe_writers_gone env = None →
  (RunTask_io tmpStorageDir t cancelled env s).2 = None.
Proof.
  intros Hs H1 H2 Hr Hg. destruct (run_started tmpStorageDir t cancelled env s Hs H1 H2 Hr) as (cmd & _ & _ & Hout).
  destruct (cmd_Wait _ _). by rewrite Hg in Hout.
Qed.

(** A task that is killed at its limit of two seconds. *)
Definition limited_run : runningJob :=
  let d := dispatch_of wire_job "r1" "{}" in
  MkRunningJob (proposal_of wire_job wire_task demo_artifact)
    (MkDispatchMessage (dm_JobID d) (dm_RunID d) (dm_Phase d) (dm_Attempt d) (2 * Second)%Z (dm_MaxMemoryBytes d) (dm_MaxCPUCores d) (dm_Payload d)) "" true.

Definition slow_process : proc_env :=
  MkProcEnv None None (Ok "/tmp/t") None None (5 * Second)%Z (Some (2 * Second)%Z) "" "" "" false.

Lemma task_run_is_contained_witness : ∃ reason took,
  (RunTask_io (wf_TmpStorageDir (w_cfg online_demo)) (exec_of online_demo [] limited_run "/bin/task") None slow_process (MkOs {[1; 2]} ∅)).2 =
    Some (Err (exitError (-1) reason), took) ∧ (took ≤ 2 * Second)%Z.
Proof.
  destruct (task_run_is_contained online_demo [] limited_run "/bin/task" None slow_process (MkOs {[1; 2]} ∅)) as [_ Hrun].
  - intros dir _. apply not_elem_of_empty.
  - vm_compute. discriminate.
  - destruct (Hrun eq_refl eq_refl eq_refl) as [_ Hkill].
    apply (Hkill ltac:(split; reflexivity) (2 * Second)%Z eq_refl). vm_compute. discriminate.
Defined.
