(* ===== verification/EndToEnd.v ===== *)
(** * The service as its client sees it

    The HTTP server, the dispatcher's loop and a worker, as one state: the server
    holds the manager, the loop is where it is, and the worker shares a connection
    with the manager.  An event is a client's request, a turn of the dispatcher's
    loop, a timer that fires, or one of the events of the two programs on the
    connection.  What the files before prove of each is put in terms of events
    here: a pass over one queued job, a submission and a request for a job through
    the whole server, the turns of the loop. *)
From S2P Require Import Prelude GoStd External Contract Store MemStore Webhooks Heap PriorityQueue Cache WorkerConn WorkerPool.
From S2P Require Import Proto Config Manager Dispatch Lifecycle Orchestrator JobFlow JobProperties.
From S2P Require Import Registry RegistryProps Window Routes ArtifactCache Worker WorkerProps WorkerWire RateLimiter Handshake Stream ConnServer System.
From S2P Require Import Server Services.

(** ** A pass over one queued job *)
Section one_job.
Context `{SimpleSet SS} `{Store ST} `{GoRuntime} `{Ulid} `{SerialLanes} `{WebhookEnv} `{WorkerSelector SS} `{ConsolidateJson}.
Context (cfg : Config).
Implicit Types (m : Manager SS ST) (job : Job) (p : WorkerPool SS).

(** Aging may raise the job's priority, in the queue alone. *)
Lemma age_queue_one (q : PriorityQueue Job) now x job : pq_inv job_higher q → Values q ≡ₚ [x] → queued_as x job →
  ∃ x', Values (age_queue cfg q now) = [x'] ∧ queued_as x' job.
Proof.
  intros Hq Hv Hx. apply Permutation_singleton_r in Hv.
  destruct (decide (StarvationTimeout cfg ≤ 0)%Z) as [Ht|Ht].
  - exists x. unfold age_queue. by rewrite (proj2 (Z.leb_le _ 0)) by done.
  - destruct (age_queue_spec cfg q now Hq ltac:(lia)) as [_ Hp]. rewrite Hv in Hp. apply Permutation_singleton_r in Hp as ->.
    eexists. split; [reflexivity|]. destruct Hx as (u & pr & ->). unfold aged. destruct (starved _ _ _ _); by eexists _, _.
Qed.

Lemma pop_only_job m job : pq_inv job_higher (mg_queue m) → Values (mg_queue m) ≡ₚ [job] →
  job_ID job ∉ ss_view (mg_cancelledJobIDs m) →
  ∃ m', PopNextJobFromQueue m = (Some job, m') ∧ only_queue m m' ∧ Values (mg_queue m') = [] ∧
    ss_view (mg_cancelledJobIDs m') = ss_view (mg_cancelledJobIDs m).
Proof.
  intros Hq Hv Hc. destruct (PopNextJobFromQueue_spec m Hq) as (dropped & [F I V E G D L M]).
  destruct (PopNextJobFromQueue m) as [r m']. cbn [fst snd] in *. rewrite Hv in V. symmetry in V. apply Permutation_singleton_r in V.
  destruct dropped as [|x dropped].
  - destruct r as [j|]; [|by rewrite E in V]. cbn in V. injection V as -> V. exists m'. split_and!; try done.
    rewrite G. cbn. set_solver.
  - exfalso. injection V as -> V. inversion D. done.
Qed.

Lemma pop_empty m : Values (mg_queue m) = [] → PopNextJobFromQueue m = (None, m).
Proof.
  intros Hv. assert (Size (mg_queue m) = 0) as Hs by (unfold Size; by rewrite <- Values_length, Hv).
  unfold PopNextJobFromQueue. rewrite Hs. cbn [pop_next]. by rewrite Hs.
Qed.

(** ** Where the job may go *)

(** [keys] are the platforms the job's artifact is published for; none without a registry. *)
Definition published job (keys : list string) : Prop :=
  match cfg_ArtifactsRegistry cfg with
  | None => keys = []
  | Some reg => ∃ platforms, ListPlatforms reg (job_TaskName job) (job_ArtifactVersion job) = Ok platforms ∧
      keys = platform_keys platforms ∧ keys ≠ []
  end.

(** The worker at [a] is the only one the job may go to, at any time. *)
Record only_choice p job (keys : list string) (a : nat) : Prop := {
  oc_candidate : a ∈ candidates p keys;
  oc_eligible : ∀ now, eligible p (job_Cost job) (job_ID job) now a = true;
  oc_only : ∀ now b, b ∈ candidates p keys → eligible p (job_Cost job) (job_ID job) now b = true → b = a;
}.

Lemma only_choice_as p x job keys a : queued_as x job → only_choice p job keys a → only_choice p x keys a.
Proof. intros (u & pr & ->) [A B C]. by split. Qed.

Lemma online_keys_spec p key : key ∈ onlinePlatformKeys p ↔
  ∃ ws, wp_platform p !! key = Some ws ∧ existsb (is_online p) ws = true.
Proof.
  transitivity (∃ ws, (key, ws) ∈ range_map (wp_platform p) ∧ existsb (is_online p) ws = true); [|by setoid_rewrite elem_of_range_map].
  unfold onlinePlatformKeys.
  generalize (range_map (wp_platform p)) as l. intros l.
  match goal with |- context [foldl ?f _ l] =>
    enough (∀ acc, key ∈ foldl f acc l ↔ key ∈ acc ∨ ∃ ws, (key, ws) ∈ l ∧ existsb (is_online p) ws = true) as Hgen
      by (rewrite Hgen; set_solver) end.
  induction l as [|[k ws] l IH]; intros acc; cbn [foldl]; [set_solver|]. rewrite IH. destruct (existsb (is_online p) ws) eqn:E.
  - split.
    + intros [[->%elem_of_singleton|Hin]%elem_of_union|(ws' & Hin & Hon)]; [right; exists ws; split; [left|done]|by left|].
      right. exists ws'. split; [by right|done].
    + intros [Hin|(ws' & [[= -> ->]|Hin]%elem_of_cons & Hon)]; [set_solver|set_solver|right; eauto].
  - split.
    + intros [Hin|(ws' & Hin & Hon)]; [by left|]. right. exists ws'. split; [by right|done].
    + intros [Hin|(ws' & [[= -> ->]|Hin]%elem_of_cons & Hon)]; [by left|congruence|right; eauto].
Qed.

Lemma only_choice_eligible p job keys a now : only_choice p job keys a → (0 ≤ job_Cost job)%Z →
  let r := eligibleWorkers p keys (job_Cost job) (job_ID job) now in
  pool_like p r.1 ∧ r.2 ≠ [] ∧ ∀ b, b ∈ r.2 → b = a.
Proof.
  intros [Hin He Ho] Hc. destruct (eligibleWorkers_spec p keys (job_Cost job) (job_ID job) now Hc) as [Hl Hws]. cbn zeta.
  split; [exact Hl|]. rewrite Hws. split.
  - intros E. assert (a ∈ filter (λ a, eligible p (job_Cost job) (job_ID job) now a = true) (candidates p keys)) as Hin'
      by (apply list_elem_of_filter; split; [apply He|done]). rewrite E in Hin'. by apply not_elem_of_nil in Hin'.
  - intros b [Hb Hin']%list_elem_of_filter. by apply (Ho now).
Qed.

(** The platform of an eligible candidate counts as online. *)
Lemma choice_online p job keys a : only_choice p job keys a → keys ≠ [] →
  existsb (λ k, bool_decide (k ∈ onlinePlatformKeys p)) keys = true.
Proof.
  intros [Hin He _] Hk. destruct keys as [|k0 ks]; [done|]. unfold candidates in Hin.
  apply list_elem_of_bind in Hin as (key & Ha & Hkey).
  apply existsb_exists. exists key. split; [by apply list_elem_of_In|]. apply bool_decide_eq_true, online_keys_spec.
  destruct (wp_platform p !! key) as [ws|]; [|by apply not_elem_of_nil in Ha]. exists ws. split; [done|].
  apply existsb_exists. exists a. split; [by apply list_elem_of_In|]. specialize (He 0%Z). unfold is_online, eligible in *.
  destruct (wp_conns p !! a); [|done]. by destruct (IsInState _ _).
Qed.

Lemma keys_for_dispatch m job task keys a : taskDefs (ents m) !! job_TaskName job = Some task → published job keys →
  only_choice (mg_workers m) job keys a →
  ∃ c, jobPlatformKeysForDispatch cfg m job (onlinePlatformKeys (mg_workers m)) (MkPassCaches ∅ ∅) = (keys, None, c).
Proof.
  unfold published, jobPlatformKeysForDispatch, GetTask. intros -> Hp Hc. rewrite bool_decide_eq_false_2 by set_solver.
  destruct (cfg_ArtifactsRegistry cfg) as [reg|]; [|subst keys; by eexists].
  destruct Hp as (platforms & -> & -> & Hne). cbn -[lookup]. rewrite lookup_empty, bool_decide_eq_false_2 by done.
  rewrite (choice_online _ _ _ _ Hc Hne). by eexists.
Qed.

(** The job is proposed to the worker at [a], from a state [m0] that differs from [m] only in the queue, the caches of
    the rejections and the count of selections. *)
Lemma tryPropose_only m job task keys a w art now : taskDefs (ents m) !! job_TaskName job = Some task →
  published job keys → only_choice (mg_workers m) job keys a → (0 ≤ job_Cost job)%Z →
  wp_conns (mg_workers m) !! a = Some w → artifact_info cfg task job w = Ok art →
  ∃ p w', pool_like (mg_workers m) p ∧ wp_conns p !! a = Some w' ∧ conn_like w w' ∧
    tryProposeJob cfg m job keys now =
      propose_to (m <| mg_workers := p |> <| mg_selections := S (mg_selections m) |>) job task a w' art now.
Proof.
  intros Ht Hp Hc Hcost Ha Hart. destruct (only_choice_eligible _ _ _ _ now Hc Hcost) as (Hl & Hne & Ho).
  unfold tryProposeJob, GetTask. rewrite Ht.
  assert (bool_decide (cfg_ArtifactsRegistry cfg ≠ None) && bool_decide (keys = []) = false) as ->.
  { unfold published in Hp. destruct (cfg_ArtifactsRegistry cfg); [|by rewrite bool_decide_eq_false_2 by tauto].
    destruct Hp as (? & _ & _ & Hk). by rewrite (bool_decide_eq_false_2 _ Hk), andb_false_r. }
  destruct (eligibleWorkers _ _ _ _ _) as [p ws]. cbn [fst snd] in *. rewrite bool_decide_eq_false_2 by done.
  assert (sel_Select (mg_selections m) p ws = a) as Hsel by by apply Ho, sel_Select_in.
  pose proof (pl_conns _ _ Hl a) as Hw. rewrite Ha in Hw. destruct (wp_conns p !! a) as [w'|] eqn:Ea; [|by inversion Hw].
  assert (conn_like w w') as Hlike by by inversion Hw. exists p, w'. split_and!; [done..|]. cbn. rewrite Hsel, Ea.
  assert (artifact_info cfg task job w' = artifact_info cfg task job w) as ->; [|by rewrite Hart].
  destruct Hlike as [-> _]. reflexivity.
Qed.

(** A pass over a queue with this one job proposes it and ends; [m0] is the manager the proposal starts from. *)
Record pass_from m job (keys : list string) (a : nat) (w : WorkerConn SS) m0 (w0 : WorkerConn SS) : Prop := {
  pf_ok : manager_ok m0;
  pf_webhooks : mg_webhooks m0 = mg_webhooks m;
  pf_queue : Values (mg_queue m0) = [];
  pf_cancelled : ss_view (mg_cancelledJobIDs m0) = ss_view (mg_cancelledJobIDs m);
  pf_timers : mg_timers m0 = mg_timers m;
  pf_pool : pool_like (mg_workers m) (mg_workers m0);
  pf_conn : wp_conns (mg_workers m0) !! a = Some w0;
  pf_like : conn_like w w0;
}.

Lemma pass_of_one m x job task keys a w art now : manager_ok m → Values (mg_queue m) ≡ₚ [x] → queued_as x job →
  job_ID job ∉ ss_view (mg_cancelledJobIDs m) →
  taskDefs (ents m) !! job_TaskName job = Some task → published job keys → only_choice (mg_workers m) job keys a →
  (0 ≤ job_Cost job)%Z → wp_conns (mg_workers m) !! a = Some w → artifact_info cfg task job w = Ok art →
  ∃ m0 w0 x', pass_from m job keys a w m0 w0 ∧ queued_as x' job ∧
    ∀ m1, propose_to m0 x' task a w0 art now = (m1, None) →
      ProcessQueue cfg m now = (m1, MkPassResult [x'] [] [] false, None).
Proof.
  intros Hm Hv Hx Hcan Ht Hpub Hc Hcost Ha Hart.
  set (ma := m <| mg_lastDispatchRun := Unix now |>). set (mb := applyStarvationAging cfg ma now).
  assert (manager_ok ma) as Hma by by apply (ok_same m).
  destruct (age_queue_one (mg_queue m) now x job (mo_queue _ Hm) Hv Hx) as (x' & Hvb & Hx').
  assert (pq_inv job_higher (mg_queue mb)) as Hqb by apply (age_queue_perm cfg (mg_queue m) now (mo_queue _ Hm)).
  assert (manager_ok mb) as Hmb by (destruct Hma; by split).
  pose proof (only_choice_as _ _ _ _ _ Hx' Hc) as Hc'.
  assert (job_ID x' = job_ID job ∧ job_TaskName x' = job_TaskName job ∧ job_Cost x' = job_Cost job ∧ published x' keys ∧
    artifact_info cfg task x' w = Ok art) as (Eid & Etn & Eco & Hpub' & Hart') by (destruct Hx' as (u & pr & ->); done).
  destruct (pop_only_job mb x' Hqb) as (mc & Hpop & Hoc & Hvc & Hcc); [by rewrite <- Hvb|by rewrite Eid|].
  assert (manager_ok mc) as Hmc by (pose proof (ok_pop mb Hmb) as Hok; by rewrite Hpop in Hok).
  assert (mg_workers mc = mg_workers m ∧ mg_webhooks mc = mg_webhooks m ∧ mg_timers mc = mg_timers m) as (Hwc & Hwhc & Htc) by (rewrite Hoc; done).
  assert (taskDefs (ents mc) !! job_TaskName x' = Some task) as Htk by (unfold ents, mg_store; by rewrite Hwhc, Etn).
  destruct (tryPropose_only mc x' task keys a w art now) as (p & w' & Hl & Hw' & Hlike & Htry); rewrite ?Hwc, ?Eco; try done.
  rewrite Hwc in Hl. set (m0 := mc <| mg_workers := p |> <| mg_selections := S (mg_selections mc) |>) in *.
  exists m0, w', x'. split; [split; try done|split; [done|]].
  { apply (ok_same (mc <| mg_workers := p |>)); [|done..]. apply (ok_pool_like mc p Hmc). by rewrite Hwc. }
  intros m1 Hp1. assert (mg_queue m1 = mg_queue m0) as Hq1.
  { destruct (propose_to_spec cfg m0 x' task a w' art now Hw') as [[Hq _ _ _ _ _] _]; [by eexists|..|by rewrite Hp1 in Hq].
    intros Hpos. pose proof (oc_eligible _ _ _ _ Hc' now) as He. unfold eligible in He. rewrite Ha in He.
    apply andb_true_iff in He as [_ He]. rewrite (proj2 (Z.eqb_neq _ 0)) in He by lia. apply Z.leb_le in He.
    by destruct Hlike as [-> _]. }
  unfold ProcessQueue. fold ma. fold mb. assert (mg_queue ma = mg_queue m) as -> by done.
  assert (Size (mg_queue m) = 1 ∧ Size (mg_queue mb) = 1) as [-> ->].
  { unfold Size. rewrite <- !Values_length. change (mg_queue mb) with (age_queue cfg (mg_queue m) now).
    by rewrite Hvb, Hv. }
  cbn [bool_decide decide]. cbn -[PopNextJobFromQueue dispatch_one]. rewrite Hpop.
  destruct (keys_for_dispatch mc x' task keys a Htk Hpub') as [c Hk]; [by rewrite Hwc|].
  rewrite Hwc in Hk. unfold dispatch_one. change (mg_workers mb) with (mg_workers m). rewrite Hk, Htry, Hp1.
  rewrite pop_empty by by rewrite Hq1. reflexivity.
Qed.
End one_job.

(** ** Submission *)
Section submission.
Context `{SimpleSet SS} `{Store ST} `{GoRuntime} `{Ulid} `{SerialLanes} `{WebhookEnv} `{WorkerSelector SS} `{ConsolidateJson}.
Context (cfg : Config).
Implicit Types (m : Manager SS ST) (job : Job).

(** The job [handleSubmitJob] makes of a request for a known task, with the [n]-th identifier. *)
Definition submitted_job (n : nat) (body : submitJobRequest) (task : Task) (now : Time) : Job :=
  let job := zero_job <| job_ID := ulid n |> <| job_TaskName := sjr_Task body |>
    <| job_Status := JobStatusPending |> <| job_Phase := JobPhaseRun |> <| job_Cost := task_Cost task |>
    <| job_Payload := sjr_Payload body |> <| job_CreatedAt := now |> <| job_UpdatedAt := now |> in
  match sjr_Webhook body with
  | Some wc =>
      if bool_decide (wcfg_URL wc ≠ "") then
        job <| job_WebhookURL := wcfg_URL wc |> <| job_WebhookEvents := wcfg_Events wc |>
            <| job_WebhookHeaders := sanitizeWebhookHeaders (wcfg_Headers wc) |>
      else job
  | None => job
  end.

Lemma submitted_fields n body task now : let job := submitted_job n body task now in
  job_ID job = ulid n ∧ job_TaskName job = sjr_Task body ∧ job_Phase job = JobPhaseRun ∧ job_CreatedAt job = now ∧
  job_Attempts job = 0%Z.
Proof. unfold submitted_job. destruct (sjr_Webhook body) as [wc|]; [|done]. by destruct (bool_decide _). Qed.

(** What a valid submission does: the job is stored and queued and the dispatcher notified, and that is all. *)
Record accepted_submission m job m' : Prop := {
  as_ok : manager_ok m → manager_ok m';
  as_workers : mg_workers m' = pool_notifyDispatcher (mg_workers m);
  as_queue : pq_inv job_higher (mg_queue m) → Values (mg_queue m') ≡ₚ job :: Values (mg_queue m);
  as_cancelled : mg_cancelledJobIDs m' = mg_cancelledJobIDs m;
  as_tasks : taskDefs (ents m') = taskDefs (ents m);
  as_jobs : jobs (ents m') = <[job_ID job := job]> (jobs (ents m));
  as_ulids : wd_ulids (mg_webhooks m') = S (wd_ulids (mg_webhooks m));
  as_timers : mg_timers m' = mg_timers m;
}.

Lemma submit_spec m body task now : sjr_Task body ≠ "" → taskDefs (ents m) !! sjr_Task body = Some task →
  let job := submitted_job (wd_ulids (mg_webhooks m)) body task now in
  ∃ m', handleSubmitJob m body now = (m', Ok job) ∧ accepted_submission m job m'.
Proof.
  intros Hne Ht job. pose proof (ok_submit (exact := True) m body now) as Hok. revert Hok.
  unfold handleSubmitJob, GetTask. rewrite bool_decide_eq_false_2, Ht by done. cbn zeta.
  fold (submitted_job (wd_ulids (mg_webhooks m)) body task now). fold job.
  match goal with |- context [st_SaveJob ?s job] =>
    pose proof (err_SaveJob s job) as He; pose proof (ent_SaveJob s job) as Hs; destruct (st_SaveJob s job) as [s1 err] end.
  cbn [fst snd] in *. subst err. cbn [fst]. intros Hok. eexists. split; [done|].
  split; [exact Hok|done| |done|..].
  - intros Hq. exact (PushItem_values job_higher (mg_queue m) job Hq).
  - change (taskDefs (entities s1) = taskDefs (ents m)). by rewrite Hs.
  - change (jobs (entities s1) = <[job_ID job := job]> (jobs (ents m))). by rewrite Hs.
  - done.
  - done.
Qed.

End submission.

(** ** The service *)

(** The HTTP server with its manager, where the dispatcher's loop is, and a worker on the connection [cl_conn]; how much
    each side has read of the other's output. *)
Record Cluster (SS ST : Type) := MkCluster {
  cl_server : @Server SS ST;
  cl_dispatcher : phase;
  cl_worker : Worker;
  cl_conn : nat;
  cl_managerRead : nat;
  cl_workerRead : nat;
}.
Arguments MkCluster {SS ST} _ _ _ _ _ _.
Arguments cl_server {SS ST} _.
Arguments cl_dispatcher {SS ST} _.
Arguments cl_worker {SS ST} _.
Arguments cl_conn {SS ST} _.
Arguments cl_managerRead {SS ST} _.
Arguments cl_workerRead {SS ST} _.

Inductive event :=
| Request (req : request) (now : Time)
| DispatcherTurn (now : Time)
| TimerFires (i : nat) (now : Time)
| OnConnection (x : action).

Section cluster.
Context `{SimpleSet SS} `{Store ST} `{GoRuntime} `{Ulid} `{SerialLanes} `{WebhookEnv} `{WorkerSelector SS} `{ConsolidateJson}.
Context `{argv : NetArgv FL} `{parsers : Parsers} `{verreg : !Verreg FL} `{reader : !NetArgvReader FL} `{fmt : TimeFormat}.
Context `{RegistryCodec} `{mux : Muxx} (cfg : Config) (sha256_hex : string → string) (goos : string).
Context (clientAuthFunc : option (request → option error)) (workerAuthFunc : option (string → option error)).
Context (signer : option (string → option urlsign_error)) (domain : string).
Context (rootJobLog runLog : ST → string → res error string) (reads : string → list string) (t : list (pattern * route)).
Implicit Types (c : Cluster SS ST) (s : @Server SS ST) (m : Manager SS ST) (job : Job).

Notation act := (act cfg sha256_hex goos).
Notation acts := (acts cfg sha256_hex goos).
Notation ServeHTTP := (ServeHTTP cfg clientAuthFunc workerAuthFunc signer domain rootJobLog runLog reads t).
Notation handle := (handle cfg workerAuthFunc rootJobLog runLog reads).

Definition cl_manager c : Manager SS ST := sv_manager (cl_server c).

Definition serving c s : Cluster SS ST :=
  MkCluster s (cl_dispatcher c) (cl_worker c) (cl_conn c) (cl_managerRead c) (cl_workerRead c).

(** The manager and the worker on the connection, and the service with a later state of these. *)
Definition pair_of c : System SS ST :=
  MkSystem (cl_manager c) (cl_worker c) (cl_conn c) (cl_managerRead c) (cl_workerRead c).
Definition with_pair c (x : System SS ST) : Cluster SS ST :=
  MkCluster (Server.with_manager (cl_server c) (sy_manager x)) (cl_dispatcher c) (sy_worker x) (sy_conn x) (sy_managerRead x) (sy_workerRead x).

Definition dispatcher_turn c (now : Time) : Cluster SS ST :=
  let r := turn cfg JobDispatcherRoutine (MkRunning (cl_manager c) (cl_dispatcher c) P_select time_zero) now in
  MkCluster (Server.with_manager (cl_server c) (ru_manager r)) (ru_dispatcher r) (cl_worker c) (cl_conn c) (cl_managerRead c) (cl_workerRead c).

(** One event, with the answer it is given when it is a request. A timer fires once it is due; jobs are proposed by the
    dispatcher alone. *)
Definition cluster_step c (e : event) : option (Cluster SS ST * list http_answer) :=
  match e with
  | Request req now => let '(s, a) := ServeHTTP (cl_server c) req now in Some (serving c s, option_list a)
  | DispatcherTurn now => Some (dispatcher_turn c now, [])
  | TimerFires i now =>
      let m := cl_manager c in
      timer ← mg_timers m !! i;
      if (rt_due timer <=? now)%Z
      then Some (serving c (Server.with_manager (cl_server c) (retry_timer_fired (m <| mg_timers := delete i (mg_timers m) |>) timer now)), [])
      else None
  | OnConnection (Propose _ _ _ _) => None
  | OnConnection x => x ← act (pair_of c) x; Some (with_pair c x, [])
  end.

Fixpoint cluster_run c (es : list event) : option (Cluster SS ST * list http_answer) :=
  match es with
  | [] => Some (c, [])
  | e :: es => '(c, a) ← cluster_step c e; '(c, l) ← cluster_run c es; Some (c, a ++ l)
  end.

Lemma run_cons c e es c1 a c2 l : cluster_step c e = Some (c1, a) → cluster_run c1 es = Some (c2, l) →
  cluster_run c (e :: es) = Some (c2, a ++ l).
Proof. intros E1 E2. cbn. rewrite E1. cbn. by rewrite E2. Qed.

Lemma run_app c es1 es2 c1 l1 c2 l2 : cluster_run c es1 = Some (c1, l1) → cluster_run c1 es2 = Some (c2, l2) →
  cluster_run c (es1 ++ es2) = Some (c2, l1 ++ l2).
Proof.
  revert c l1. induction es1 as [|e es1 IH]; intros c l1 E1 E2; cbn in *; [by simplify_eq/=|].
  destruct (cluster_step c e) as [[c0 a]|]; [|done]. cbn in *. destruct (cluster_run c0 es1) as [[c0' l]|] eqn:E; [|done]. cbn in E1.
  injection E1 as -> <-. rewrite (IH c0 l E E2). cbn. by rewrite (assoc_L (++)).
Qed.

(** The events on the connection are those of the two programs. *)
Definition is_propose (x : action) : bool := match x with Propose _ _ _ _ => true | _ => false end.

Lemma with_pair_pair c x : pair_of (with_pair c x) = x.
Proof. by destruct x. Qed.

Lemma run_connection c l x : Forall (λ y, is_propose y = false) l → acts (pair_of c) l = Some x → l ≠ [] →
  cluster_run c (OnConnection <$> l) = Some (with_pair c x, []).
Proof.
  revert c. induction l as [|y l IH]; intros c Hl Hx Hne; [done|]. inversion Hl as [|? ? Hy Hl']. subst.
  assert (∃ x1, act (pair_of c) y = Some x1) as [x1 Hx1].
  { unfold System.acts in Hx. cbn in Hx. destruct (act (pair_of c) y) as [x1|]; [by eexists|].
    exfalso. clear -Hx. induction l as [|z l IH]; [done|]. by apply IH. }
  erewrite acts_cons in Hx by exact Hx1.
  assert (cluster_step c (OnConnection y) = Some (with_pair c x1, [])) as Hs.
  { cbn. destruct y; try discriminate Hy; by rewrite Hx1. }
  destruct l as [|z l]; [injection Hx as <-; exact (run_cons c _ [] _ [] _ [] Hs eq_refl)|].
  rewrite fmap_cons. change (@nil http_answer) with (@nil http_answer ++ []). eapply run_cons; [exact Hs|].
  rewrite (IH (with_pair c x1) Hl'); [done| |done]. by rewrite with_pair_pair.
Qed.

(** *** Requests that are let in *)
Definition let_in (l : limiters) (req : request) (now : Time) : Prop :=
  (clientAuthFunc ≫= λ check, check req) = None ∧
  (Collection_Middleware (bucket 10 30) l (RemoteAddrKey (rq_RemoteAddr req)) now).2.2 = true.

Definition used (l : limiters) (req : request) (now : Time) : limiters :=
  (Collection_Middleware (bucket 10 30) l (RemoteAddrKey (rq_RemoteAddr req)) now).1.

Lemma serve_let_in s req now pat p r vals : buildMux cfg = Some t → connect_path_free (WorkerConnectPath cfg) = true →
  (pat, r) ∈ mux_table (WorkerConnectPath cfg) → parse_pattern pat = Some p → client_route r = true →
  pattern_match p (rq_Method req) (rq_Path req) = Some vals → let_in (sv_clientRL s) req now →
  ∃ headers, let '(s1, a1) := handle r (s <| sv_clientRL := used (sv_clientRL s) req now |>) req vals now in
    ServeHTTP s req now = (s1, Some (MkAnswer (headers ++ an_headers a1) (an_reply a1))).
Proof.
  intros Ht Hfree Hpat Hp Hr Hm [Hauth Hok].
  rewrite (ServeHTTP_route _ _ _ _ _ _ _ _ t s req now p r vals (mux_disjoint cfg t Ht Hfree) (buildMux_in _ _ _ _ _ Ht Hpat Hp) Hm).
  pose proof (client_guard cfg clientAuthFunc workerAuthFunc signer domain rootJobLog runLog reads r s req vals now Hr) as Hg. cbv zeta in Hg.
  unfold used. destruct (Collection_Middleware _ _ _ _) as [l [headers allowed]]. cbn [fst snd] in *.
  destruct (route_handler _ _ _ _ _ _ _ _ r s req vals now) as [s' a]. destruct Hg as [_ Hg]. specialize (Hg Hauth Hok).
  exists headers. destruct (handle r _ req vals now) as [s1 a1]. by destruct Hg as [-> ->].
Qed.

Lemma submit_served c req body task now : buildMux cfg = Some t → connect_path_free (WorkerConnectPath cfg) = true →
  rq_Method req = "POST" → rq_Path req = ["jobs"] → rq_submit req = Ok body → sjr_Task body ≠ "" →
  taskDefs (ents (cl_manager c)) !! sjr_Task body = Some task → let_in (sv_clientRL (cl_server c)) req now →
  let job := submitted_job (wd_ulids (mg_webhooks (cl_manager c))) body task now in
  ∃ m1 a, accepted_submission (cl_manager c) job m1 ∧ an_reply a = Replied (Reply 202 (B_job job)) ∧
    cluster_step c (Request req now) =
      Some (serving c (Server.with_manager (cl_server c <| sv_clientRL := used (sv_clientRL (cl_server c)) req now |>) m1), [a]).
Proof.
  intros Ht Hfree Hmeth Hpath Hbody Hne Htask Hin job.
  destruct (submit_spec (cl_manager c) body task now Hne Htask) as (m1 & Hs & Hspec).
  destruct (serve_let_in (cl_server c) req now "POST /jobs" (MkPattern "POST" [Lit "jobs"]) R_SubmitJob ∅ Ht Hfree) as [headers Hh];
    [do 12 right; left|reflexivity|reflexivity|by rewrite Hmeth, Hpath|done|].
  exists m1. eexists. split; [exact Hspec|]. cbn [cluster_step]. cbn [handle] in Hh. unfold Server.handle in Hh. rewrite Hbody in Hh.
  change (sv_manager (cl_server c <| sv_clientRL := used (sv_clientRL (cl_server c)) req now |>)) with (cl_manager c) in Hh.
  rewrite Hs in Hh. cbn in Hh. rewrite Hh. cbn [option_list]. split; [|reflexivity]. reflexivity.
Qed.

Lemma poll_served c req id job now : buildMux cfg = Some t → connect_path_free (WorkerConnectPath cfg) = true →
  rq_Method req = "GET" → rq_Path req = ["jobs"; id] → id ≠ "" → jobs (ents (cl_manager c)) !! id = Some job →
  let_in (sv_clientRL (cl_server c)) req now →
  ∃ s' a, sv_manager s' = cl_manager c ∧ an_reply a = Replied (Reply 200 (B_job job)) ∧
    cluster_step c (Request req now) = Some (serving c s', [a]).
Proof.
  intros Ht Hfree Hmeth Hpath Hid Hj Hin.
  destruct (serve_let_in (cl_server c) req now "GET /jobs/{id}" (MkPattern "GET" [Lit "jobs"; Wild "id"]) R_GetJob {["id" := id]} Ht Hfree)
    as [headers Hh]; [do 13 right; left|reflexivity|reflexivity| |done|].
  { rewrite Hmeth, Hpath. transitivity (match_path [Wild "id"] [id]); [reflexivity|]. cbn [match_path].
    by rewrite bool_decide_eq_false_2. }
  unfold Server.handle, PathValue in Hh. rewrite lookup_singleton_eq in Hh. cbn [default from_option Datatypes.id] in Hh.
  unfold handleGetJob, GetJob in Hh.
  change (sv_manager (cl_server c <| sv_clientRL := used (sv_clientRL (cl_server c)) req now |>)) with (cl_manager c) in Hh.
  rewrite Hj in Hh. cbn in Hh. eexists _, (MkAnswer (headers ++ []) _). cbn [cluster_step]. rewrite Hh.
  split; [|split; reflexivity]. done.
Qed.

(** *** The dispatcher's loop *)

(** The loop that was handed a signal while it was blocked takes two turns to the pass. *)
Lemma woken_pass c now1 now2 : cl_dispatcher c = P_blocked → wp_dispatchSignal (mg_workers (cl_manager c)) = MkSigChan 0 0 false →
  dispatcher_turn (dispatcher_turn c now1) now2 =
    MkCluster (Server.with_manager (cl_server c) (ProcessQueue cfg (cl_manager c) now2).1.1) P_select
      (cl_worker c) (cl_conn c) (cl_managerRead c) (cl_workerRead c).
Proof.
  intros Hb Hw.
  assert (dispatcher_turn c now1 = MkCluster (cl_server c) P_work (cl_worker c) (cl_conn c) (cl_managerRead c) (cl_workerRead c)) as ->.
  { unfold dispatcher_turn. cbn [turn]. unfold DispatcherRoutine. cbn [ru_dispatcher ru_manager]. rewrite Hb. cbn. rewrite Hw. cbn.
    unfold cl_manager, Server.with_manager. by destruct (cl_server c). }
  assert (drainDispatchSignals (cl_manager c) = cl_manager c) as Hd.
  { unfold drainDispatchSignals. cbn zeta. rewrite Hw. cbn. rewrite <- Hw. by destruct (cl_manager c) as [[] ? ? ? ? ? ? ? ?]. }
  transitivity (MkCluster (Server.with_manager (cl_server c) (ProcessQueue cfg (drainDispatchSignals (cl_manager c)) now2).1.1) P_select
    (cl_worker c) (cl_conn c) (cl_managerRead c) (cl_workerRead c)); [reflexivity|by rewrite Hd].
Qed.

(** A loop that finds no signal blocks. *)
Lemma blocking_turn c now : cl_dispatcher c = P_select → wp_dispatchSignal (mg_workers (cl_manager c)) = MkSigChan 0 0 false →
  dispatcher_turn c now = MkCluster (Server.with_manager (cl_server c) (set_signal (cl_manager c) (MkSigChan 0 0 true))) P_blocked
    (cl_worker c) (cl_conn c) (cl_managerRead c) (cl_workerRead c).
Proof.
  intros Hs Hw. unfold dispatcher_turn. cbn [turn]. unfold DispatcherRoutine. cbn [ru_dispatcher ru_manager]. rewrite Hs, Hw. reflexivity.
Qed.
End cluster.
