(* ===== verification/Delivery.v ===== *)
(** * A submitted job is delivered, whatever fails on the way

    Built on the service of [EndToEnd]: one attempt at a job, from the dispatcher's
    wake-up to the report, once for a process that exits with a result and once for
    one that fails and is retried when its timer fires; then any number of failed
    attempts the retry policy allows, followed by one that succeeds. *)
From S2P Require Import Prelude GoStd External Contract Store MemStore Webhooks Heap PriorityQueue Cache WorkerConn WorkerPool.
From S2P Require Import Proto Config Manager Dispatch Lifecycle Orchestrator JobFlow JobProperties.
From S2P Require Import Registry RegistryProps Window Routes ArtifactCache Worker WorkerProps WorkerWire RateLimiter Handshake Stream ConnServer System.
From S2P Require Import Server Services EndToEnd.

(** An attempt: its clock, when its artifact is fetched and what the download is, and what becomes of the process. *)
Record Try := MkTry {
  tr_now : nat → Time;
  tr_fetch : Time;
  tr_download : Download;
  tr_process : process;
  tr_duration : Duration;
}.

Section attempts.
Context `{SimpleSet SS} `{Store ST} `{GoRuntime} `{Ulid} `{SerialLanes} `{WebhookEnv} `{WorkerSelector SS} `{ConsolidateJson}.
Context `{argv : NetArgv FL} `{parsers : Parsers} `{verreg : !Verreg FL} `{reader : !NetArgvReader FL} `{fmt : TimeFormat}.
Context `{RegistryCodec} `{mux : Muxx} (cfg : Config) (sha256_hex : string → string) (goos : string).
Context (clientAuthFunc : option (request → option error)) (workerAuthFunc : option (string → option error)).
Context (signer : option (string → option urlsign_error)) (domain : string).
Context (rootJobLog runLog : ST → string → res error string) (reads : string → list string) (t : list (pattern * route)).
Implicit Types (c : Cluster SS ST) (m : Manager SS ST) (job : Job) (p : WorkerPool SS).

Notation act := (act cfg sha256_hex goos).
Notation acts := (acts cfg sha256_hex goos).
Notation cluster_step := (cluster_step cfg sha256_hex goos clientAuthFunc workerAuthFunc signer domain rootJobLog runLog reads t).
Notation cluster_run := (cluster_run cfg sha256_hex goos clientAuthFunc workerAuthFunc signer domain rootJobLog runLog reads t).

(** The events of an attempt: the loop wakes up and dispatches, then the two programs talk; after a failure the loop
    blocks again and the timer, the [n]-th, fires. *)
Definition attempt_events (lookpath : string → bool) (i : nat) (x : Try) : list event :=
  [DispatcherTurn (tr_now x 0); DispatcherTurn (tr_now x 0)] ++
  (OnConnection <$> rest_of_life lookpath i (tr_fetch x) (tr_download x) (tr_process x) (tr_duration x) (tr_now x)).

Definition retry_events (lookpath : string → bool) (i n : nat) (x : Try) : list event :=
  attempt_events lookpath i x ++ [DispatcherTurn (tr_now x 11); TimerFires n (tr_now x 12)].

(** A service that can run the job on the worker of its connection, the only one the job may go to: the worker is
    connected and may accept it, both sides have the room, and what is written is made of plain words and sizes that fit. *)
Record capable c job (task : Task) (art : ArtifactInfo) (keys : list string) (lookpath : string → bool) (w : WorkerConn SS) : Prop := {
  ca_ok : manager_ok (cl_manager c);
  ca_lanes : ∀ ns, lane_error ns = None;
  ca_alive : job_ID job ∉ ss_view (mg_cancelledJobIDs (cl_manager c));
  ca_task : taskDefs (ents (cl_manager c)) !! job_TaskName job = Some task;
  ca_phase : job_Phase job = JobPhaseRun;
  ca_published : published cfg job keys;
  ca_choice : only_choice (mg_workers (cl_manager c)) job keys (cl_conn c);
  ca_conn : wp_conns (mg_workers (cl_manager c)) !! cl_conn c = Some w;
  ca_usable : conn_usable (wc_conn w) = true;
  ca_room : ∃ w1, AssignTask w (job_ID job) (job_Cost job) = Ok w1;
  ca_occupied : (0 ≤ wc_occupiedCost w)%Z ∧ in_int64 (wc_occupiedCost w) ∧ in_int64 (w_usedCap (cl_worker c));
  ca_artifact : artifact_info cfg task job w = Ok art;
  ca_words : propose_words job art;
  ca_named : job_ID job ≠ "" ∧ job_TaskName job ≠ "" ∧ ai_Hash art ≠ "" ∧ ai_URL art ≠ "";
  ca_sizes : (0 ≤ job_Cost job)%Z ∧ in_int64 (job_Cost job) ∧ in_int64 (job_Attempts job) ∧ text_fits (job_Payload job);
  ca_ulids : ∀ n, word (ulid n) = true;
  ca_connected : connected (cl_worker c);
  ca_accepts : may_accept (cl_worker c) lookpath (proposal_of job task art);
  ca_streams : streams (pair_of c) "" "";
}.

(** The job is stored, its copy alone in the queue, and the loop was handed the signal. *)
Record ready c (x job : Job) (task : Task) (art : ArtifactInfo) (keys : list string) (lookpath : string → bool) (w : WorkerConn SS) : Prop := {
  rd_can : capable c job task art keys lookpath w;
  rd_blocked : cl_dispatcher c = P_blocked;
  rd_signal : wp_dispatchSignal (mg_workers (cl_manager c)) = MkSigChan 0 0 false;
  rd_queue : Values (mg_queue (cl_manager c)) ≡ₚ [x];
  rd_copy : queued_as x job;
  rd_stored : jobs (ents (cl_manager c)) !! job_ID job = Some job;
}.

Lemma AssignTask_like (w w' w1 : WorkerConn SS) id cost : conn_like w w' → AssignTask w id cost = Ok w1 →
  ∃ w1', AssignTask w' id cost = Ok w1'.
Proof. intros [-> _]. unfold AssignTask. cbn. do 2 (case_match; [done|]). intros _. by eexists. Qed.

(** The manager and the worker when the proposal starts. *)
Definition pair_at c m : System SS ST := MkSystem m (cl_worker c) (cl_conn c) (cl_managerRead c) (cl_workerRead c).

Definition dispatched_cluster c m : Cluster SS ST :=
  MkCluster (Server.with_manager (cl_server c) m) P_select (cl_worker c) (cl_conn c) (cl_managerRead c) (cl_workerRead c).

(** The dispatcher proposes the job: the pair of programs is where [Propose] leaves them. *)
Lemma attempt_dispatched c x job task art keys lookpath w now1 now2 : ready c x job task art keys lookpath w →
  ∃ m0 w0 w1 x' m2, pass_from (cl_manager c) job keys (cl_conn c) w m0 w0 ∧ queued_as x' job ∧
    proposable (pair_at c m0) job task art lookpath w0 w1 ∧
    propose_to m0 x' task (cl_conn c) w0 art now2 = (m2, None) ∧ kept (cl_conn c) 1 m0 m2 ∧
    dispatcher_turn cfg (dispatcher_turn cfg c now1) now2 = dispatched_cluster c m2.
Proof.
  intros [[Hm Hl Ha Ht Hph Hpub Hc Hco Hu [w1 Hr] _ Hart Hwords Hnamed [Hcost Hsz] Hul Hcon Hacc Hst] Hb Hs Hq Hx Hj].
  destruct (pass_of_one cfg (cl_manager c) x job task keys (cl_conn c) w art now2 Hm Hq Hx Ha Ht Hpub Hc Hcost Hco Hart)
    as (m0 & w0 & x' & Hpf & Hx' & Hpass). pose proof Hpf as [Hm0 Hwh Hq0 Hc0 Ht0 Hpl Hw0 Hlike].
  destruct (AssignTask_like w w0 w1 _ _ Hlike Hr) as [w10 Hr0].
  assert (conn_usable (wc_conn w0) = true ∧ conn_out (wc_conn w0) = conn_out (wc_conn w)) as [Hu0 Hout] by by destruct Hlike as [-> _].
  assert (jobs (ents m0) !! job_ID job = Some job) as Hj0 by (unfold ents, mg_store; by rewrite Hwh).
  destruct (propose_stage m0 x' job task (cl_conn c) w0 w10 art now2 Hm0 Hl Hx' Hw0 Hu0 Hj0 Hr0) as (m2 & Hp2 & _ & Hk & _).
  exists m0, w0, w10, x', m2. split; [done|]. split; [done|]. split; [|split; [done|]; split; [done|]].
  - split; cbn [pair_at sy_manager sy_conn sy_worker]; try done. revert Hst. unfold pair_of, pair_at. intros [A B C D].
    assert (manager_out m0 (cl_conn c) = manager_out (cl_manager c) (cl_conn c)) as E by (unfold manager_out; by rewrite Hw0, Hco).
    split; unfold for_worker, for_manager in *; cbn [sy_manager sy_conn sy_worker sy_managerRead sy_workerRead] in *; by rewrite ?E.
  - rewrite woken_pass by done. by rewrite (Hpass m2 Hp2).
Qed.

(** The head of the log fits, with any of the identifiers a run may be given. *)
Definition header_fits (worker : Worker) job (task : Task) (art : ArtifactInfo) (n : nat) : Prop := ∀ k now, k ≤ n →
  text_fits (log_header worker (MkRunningJob (proposal_of job task art) (dispatch_of job (ulid k) (job_Payload job)) "" false) now).

(** The process exits with [result], and what is reported fits. *)
Definition succeeds (task : Task) (y : Try) (result : string) : Prop :=
  (∃ stderr, RunTask (task_NoResult task) (tr_process y) = Ok (result, "", stderr)) ∧ duration_reads (tr_duration y) ∧
  text_fits (log_footer "success" (tr_now y 8) (tr_duration y) result) ∧ text_fits result.

Definition fetch (cache : ArtifactCache) (art : ArtifactInfo) (y : Try) : ArtifactCache * res error (list string) :=
  Fetch sha256_hex goos cache (ai_Hash art) (ai_URL art) (tr_fetch y) (tr_download y).

(** The artifact is there for every attempt, in the cache as the attempts before left it. *)
Fixpoint fetchable (cache : ArtifactCache) (art : ArtifactInfo) (l : list Try) : Prop :=
  match l with
  | [] => True
  | y :: l => (∃ path, (fetch cache art y).2 = Ok path) ∧ fetchable (fetch cache art y).1 art l
  end.

(** The connection between the attempts at a job: nothing is reserved for it. *)
Definition freed (id : string) (w w' : WorkerConn SS) : Prop :=
  ss_view (wc_inFlight w') = ss_view (wc_inFlight w) ∖ {[id]} ∧ wc_occupiedCost w' = wc_occupiedCost w.

Lemma freed_trans id w1 w2 w3 : freed id w1 w2 → freed id w2 w3 → freed id w1 w3.
Proof. intros [A1 B1] [A2 B2]. split; [rewrite A2, A1; set_solver|congruence]. Qed.

Lemma rest_not_propose lookpath i ft d pr dur now : Forall (λ y, is_propose y = false) (rest_of_life lookpath i ft d pr dur now).
Proof. repeat constructor. Qed.

Lemma attempt_run c lookpath i y m x : dispatcher_turn cfg (dispatcher_turn cfg c (tr_now y 0)) (tr_now y 0) = dispatched_cluster c m →
  acts (pair_at c m) (rest_of_life lookpath i (tr_fetch y) (tr_download y) (tr_process y) (tr_duration y) (tr_now y)) = Some x →
  cluster_run c (attempt_events lookpath i y) = Some (with_pair (dispatched_cluster c m) x, []).
Proof.
  intros Hturn Hx. change (@nil http_answer) with (@nil http_answer ++ []). apply (run_app _ _ _ _ _ _ _ _ _ _ _ _ _ _ (dispatched_cluster c m)).
  - rewrite <- Hturn. reflexivity.
  - apply run_connection; [apply rest_not_propose|exact Hx|done].
Qed.

(** An attempt whose process exits with a result completes the job. *)
Lemma attempt_succeeds c x job task art keys lookpath w y result : ready c x job task art keys lookpath w → succeeds task y result →
  (∃ path, (fetch (w_artifactCache (cl_worker c)) art y).2 = Ok path) →
  header_fits (cl_worker c) job task art (1 + wd_ulids (mg_webhooks (cl_manager c))) →
  ∃ m' pair' job' w', let c' := with_pair (dispatched_cluster c m') pair' in
    cluster_run c (attempt_events lookpath (length (w_running (cl_worker c))) y) = Some (c', []) ∧
    manager_ok (cl_manager c') ∧ jobs (ents (cl_manager c')) !! job_ID job = Some job' ∧
    job_ID job' = job_ID job ∧ job_Status job' = JobStatusCompleted ∧ job_Result job' = result ∧
    wp_conns (mg_workers (cl_manager c')) !! cl_conn c = Some w' ∧ freed (job_ID job) w w' ∧
    w_tasks (cl_worker c') = delete (job_ID job) (w_tasks (cl_worker c)) ∧ w_usedCap (cl_worker c') = w_usedCap (cl_worker c).
Proof.
  intros Hrd [[stderr Hrun] (Hdur & Hfit2 & Hfit3)] Hfetch Hhead. pose proof (rd_can _ _ _ _ _ _ _ _ Hrd) as Hcan.
  destruct (ca_occupied _ _ _ _ _ _ _ Hcan) as (Hocc0 & Hocc & Hused).
  destruct (attempt_dispatched c x job task art keys lookpath w (tr_now y 0) (tr_now y 0) Hrd)
    as (m0 & w0 & w1 & x' & m2 & Hpf & Hx' & Hprop & Hpt & Hk & Hturn).
  assert (wc_occupiedCost w0 = wc_occupiedCost w ∧ wc_inFlight w0 = wc_inFlight w) as [Eo Ei] by (rewrite (proj1 (pf_like _ _ _ _ _ _ _ Hpf)); done).
  destruct (life_completes cfg sha256_hex goos (pair_at c m0) x' job task art lookpath w0 w1 (tr_fetch y) (tr_download y) (tr_process y)
    (tr_duration y) result stderr (tr_now y) Hprop Hx')
    as (s & job' & run' & w' & Hacts & [Hok Hj Hc' _ _] & Jid & Jst & Jr & _ & _ & Wif & Wocc & Wt & Wu & _);
    [by rewrite Eo|by rewrite Eo|done|done|done|done| |done|done|].
  { cbn [pair_at sy_manager sy_conn sy_worker]. rewrite Hpt. apply Hhead. cbn [fst].
    pose proof (kp_ulids _ _ _ _ Hk). rewrite (pf_webhooks _ _ _ _ _ _ _ Hpf) in *. lia. }
  pose proof (pr_conn _ _ _ _ _ _ _ Hprop) as Hc0. cbn in Hc0.
  erewrite acts_cons in Hacts; [|cbn [System.act pair_at sy_manager sy_conn]; rewrite Hc0; cbn [mbind option_bind]; by rewrite Hpt].
  exists m2, s, job', w'. split; [by apply attempt_run|]. pose proof (acts_conn _ _ _ _ _ _ Hacts) as Ex.
  change (sy_conn (System.with_manager (pair_at c m0) m2)) with (cl_conn c) in Ex.
  unfold cl_manager, with_pair. cbn [cl_server cl_worker sv_manager Server.with_manager field_set rebuild Server_rebuild]. rewrite Jid in Hj. rewrite Ex in Hc'.
  unfold freed. rewrite <- Ei, <- Eo. by split_and!.
Qed.

(** *** A failed attempt *)

(** The connection after an attempt is as good as it was. *)
Record conn_ready (w w' : WorkerConn SS) : Prop := {
  cr_os : wc_os w' = wc_os w;
  cr_arch : wc_arch w' = wc_arch w;
  cr_capacity : wc_capacity w' = wc_capacity w;
  cr_state : wc_state w' = wc_state w;
  cr_rejected : ∀ k now, (Get (wc_rejectedJobsCache w') k now).1 = (Get (wc_rejectedJobsCache w) k now).1;
  cr_occupied : wc_occupiedCost w' = wc_occupiedCost w;
  cr_usable : conn_usable (wc_conn w') = conn_usable (wc_conn w);
}.

Lemma conn_ready_after w w0 w1 id cost now0 now1 d1 d2 : conn_like w w0 → AssignTask w0 id cost = Ok w1 →
  (0 ≤ wc_occupiedCost w)%Z → in_int64 (wc_occupiedCost w) →
  let w' := CompleteTask (sent (UpdateHeartbeat (sent w1 d1) now0) d2) id cost now1 in conn_ready w w' ∧ freed id w w'.
Proof.
  intros Hlike Hr Hocc0 Hocc. assert (wc_occupiedCost w0 = wc_occupiedCost w ∧ wc_inFlight w0 = wc_inFlight w) as [Eo Ei]
    by (rewrite (proj1 Hlike); done).
  destruct (job_freed w0 w1 id cost now0 now1 d1 d2 Hr) as [Hif Ho]; [by rewrite Eo|by rewrite Eo|]. rewrite Eo in Ho. rewrite Ei in Hif.
  split; [|by split]. revert Hr Ho. destruct Hlike as [E Hget]. unfold AssignTask. do 2 (case_match; [done|]). intros [= <-] Ho.
  split; try done; cbn; try (rewrite E; done).
Qed.

Lemma eligible_ready p p' cost id now a w w' : wp_conns p !! a = Some w → wp_conns p' !! a = Some w' → conn_ready w w' →
  eligible p' cost id now a = eligible p cost id now a.
Proof.
  intros Ha Ha' [Eo Er Ec Es Eg Eoc _]. unfold eligible, IsInState, AvailableCapacity. by rewrite Ha, Ha', Es, Eg, Ec, Eoc.
Qed.

Lemma eligible_other p p' cost id now b : option_Forall2 conn_like (wp_conns p !! b) (wp_conns p' !! b) →
  eligible p' cost id now b = eligible p cost id now b.
Proof.
  intros Hl. unfold eligible. inversion Hl as [w w' [E Hget]|]; [|done]. rewrite Hget, E. by destruct w.
Qed.

Lemma only_choice_ready p p' job keys a w w' : only_choice p job keys a → candidates p' keys = candidates p keys →
  wp_conns p !! a = Some w → wp_conns p' !! a = Some w' → conn_ready w w' →
  (∀ b, b ≠ a → option_Forall2 conn_like (wp_conns p !! b) (wp_conns p' !! b)) → only_choice p' job keys a.
Proof.
  intros [A B C] Hc Ha Ha' Hr Hb. split; rewrite ?Hc; [done| |].
  - intros now. by rewrite (eligible_ready p p' _ _ _ _ w w').
  - intros now b Hin He. destruct (decide (b = a)) as [|Hne]; [done|]. apply (C now); [done|]. by rewrite <- (eligible_other p p' _ _ _ _ (Hb b Hne)).
Qed.

(** The timer puts the job back into the queue and notifies the dispatcher. *)
Record requeued m (j : Job) (now : Time) m' : Prop := {
  rq_ok : manager_ok m → manager_ok m';
  rq_workers : mg_workers m' = pool_notifyDispatcher (mg_workers m);
  rq_queue : pq_inv job_higher (mg_queue m) → Values (mg_queue m') ≡ₚ (j <| job_Status := JobStatusPending |>) :: Values (mg_queue m);
  rq_stored : jobs (ents m') !! job_ID j = Some (j <| job_Status := JobStatusPending |> <| job_UpdatedAt := now |>);
  rq_cancelled : mg_cancelledJobIDs m' = mg_cancelledJobIDs m;
  rq_timers : mg_timers m' = mg_timers m;
  rq_tasks : taskDefs (ents m') = taskDefs (ents m);
  rq_ulids : wd_ulids (mg_webhooks m') = wd_ulids (mg_webhooks m);
}.

Lemma timer_requeues m due j now : jobs (ents m) !! job_ID j = Some j → IsTerminal (job_Status j) = false →
  requeued m j now (retry_timer_fired m (MkRetryTimer due (job_ID j)) now).
Proof.
  intros Hj Ht. pose proof (ok_timer (exact := True) m (MkRetryTimer due (job_ID j)) now) as Hok. revert Hok. unfold retry_timer_fired, GetJob. cbn [rt_jobID]. rewrite Hj, Ht.
  set (f := λ jk : Job, jk <| job_Status := JobStatusPending |> <| job_UpdatedAt := now |>).
  destruct (update_job_spec m (job_ID j) f) as (_ & Ue & Uq & _ & Uw & _). destruct (kept_update_job 0 m (job_ID j) f) as [_ Kc Kt Kd _ _ _ _ Ku].
  destruct (update_job m (job_ID j) f) as [m1 e]. cbn [fst] in *. unfold UpdateJob in Ue. rewrite Hj in Ue. intros Hok.
  split; [exact Hok|..]; try done.
  - cbn. by rewrite Uw.
  - intros Hq. rewrite <- Uq in *. exact (PushItem_values job_higher (mg_queue m1) _ Hq).
  - change (jobs (ents m1) !! job_ID j = Some (f j)). rewrite Ue. apply lookup_insert_eq.
  - cbn. lia.
Qed.

(** The process fails with an error that may be retried, what is reported fits, and the timer is given time to come due
    after the policy's delay for the attempt [k]. *)
Definition fails_retriably (task : Task) (policy : RetryPolicy) (k : Z) (y : Try) (e : run_error) : Prop :=
  RunTask (task_NoResult task) (tr_process y) = Err e ∧ in_int64 (fail_code e) ∧ do_not_retry cfg (fail_code e) = false ∧
  duration_reads (tr_duration y) ∧ text_fits (log_footer "failed" (tr_now y 8) (tr_duration y) (fail_reason e)) ∧ text_fits (fail_reason e) ∧
  (tr_now y 10%nat + retryDelay policy k ≤ tr_now y 12%nat)%Z.

Definition policy_of (task : Task) : RetryPolicy := mergeRetryPolicy (task_RetryPolicy task) (DefaultRetryPolicy cfg).

(** The job as it is stored and queued after a failed attempt. *)
Definition retried (e : run_error) (now : Time) job : Job :=
  job <| job_Attempts := wrap64 (job_Attempts job + 1) |> <| job_FailureReason := fail_reason e |>
      <| job_Status := JobStatusPending |> <| job_UpdatedAt := now |>.

(** What the attempts at the job [id] leave as it was, with at most [k] new identifiers. *)
Record same_service (id : string) (k : nat) c c' : Prop := {
  sv_clients : sv_clientRL (cl_server c') = sv_clientRL (cl_server c);
  sv_conn : cl_conn c' = cl_conn c;
  sv_timers : mg_timers (cl_manager c') = mg_timers (cl_manager c);
  sv_ulids : wd_ulids (mg_webhooks (cl_manager c')) ≤ k + wd_ulids (mg_webhooks (cl_manager c));
  sv_running : w_running (cl_worker c') = w_running (cl_worker c);
  sv_tasks : delete id (w_tasks (cl_worker c')) = delete id (w_tasks (cl_worker c));
  sv_used : w_usedCap (cl_worker c') = w_usedCap (cl_worker c);
  sv_cfg : w_cfg (cl_worker c') = w_cfg (cl_worker c);
}.

Lemma same_service_trans id k1 k2 c1 c2 c3 : same_service id k1 c1 c2 → same_service id k2 c2 c3 → same_service id (k2 + k1) c1 c3.
Proof. intros [] []. split; try congruence. lia. Qed.

(** The service after the attempt and the timer. *)
Definition after_failure c (m' : Manager SS ST) (x : System SS ST) : Cluster SS ST :=
  MkCluster (Server.with_manager (cl_server c) m') P_blocked (sy_worker x) (sy_conn x) (sy_managerRead x) (sy_workerRead x).

(** From the end of the attempt to the job back in the queue. *)
Lemma timer_run c m x due job now11 now12 : cl_dispatcher c = P_select → cl_manager c = m →
  wp_dispatchSignal (mg_workers m) = MkSigChan 0 0 false → mg_timers m = x ++ [MkRetryTimer due (job_ID job)] → (due ≤ now12)%Z →
  cluster_run c [DispatcherTurn now11; TimerFires (length x) now12] =
    Some (MkCluster (Server.with_manager (cl_server c) (retry_timer_fired (set_signal m (MkSigChan 0 0 true) <| mg_timers := x |>)
      (MkRetryTimer due (job_ID job)) now12)) P_blocked (cl_worker c) (cl_conn c) (cl_managerRead c) (cl_workerRead c), []).
Proof.
  intros Hd <- Hs Ht Hdue. cbn [EndToEnd.cluster_run EndToEnd.cluster_step mbind option_bind]. rewrite blocking_turn by done.
  set (c1 := MkCluster _ _ _ _ _ _). assert (mg_timers (cl_manager c1) = x ++ [MkRetryTimer due (job_ID job)]) as Ht1 by exact Ht.
  rewrite Ht1, list_lookup_middle by done. cbn [mbind option_bind rt_due]. rewrite (proj2 (Z.leb_le _ _) Hdue).
  rewrite delete_middle, app_nil_r. reflexivity.
Qed.

(** The service is ready again once the timer fired. *)
Lemma ready_again c x job task art keys lookpath w m0 w0 w1 s d1 d2 e y due timers : ready c x job task art keys lookpath w →
  pass_from (cl_manager c) job keys (cl_conn c) w m0 w0 → AssignTask w0 (job_ID job) (job_Cost job) = Ok w1 →
  let w' := CompleteTask (sent (UpdateHeartbeat (sent w1 d1) (tr_now y 0)) d2) (job_ID job) (job_Cost job) (tr_now y 10) in
  let j := record_attempt (wrap64 (job_Attempts job + 1)) (fail_reason e) (tr_now y 10)
    (job <| job_Status := JobStatusRunning |> <| job_UpdatedAt := tr_now y 6 |>) in
  manager_ok (sy_manager s) → jobs (ents (sy_manager s)) !! job_ID job = Some j →
  wp_conns (mg_workers (sy_manager s)) !! cl_conn c = Some w' → streams s "" "" → sy_conn s = cl_conn c → connected (sy_worker s) →
  w_usedCap (sy_worker s) = w_usedCap (cl_worker c) → worker_kept (cl_worker c) (sy_worker s) →
  kept (cl_conn c) 3 (NotifyDispatcher m0 <| mg_timers := timers |>) (sy_manager s) →
  let m' := retry_timer_fired (set_signal (sy_manager s) (MkSigChan 0 0 true) <| mg_timers := mg_timers (cl_manager c) |>)
    (MkRetryTimer due (job_ID job)) (tr_now y 12) in
  requeued (set_signal (sy_manager s) (MkSigChan 0 0 true) <| mg_timers := mg_timers (cl_manager c) |>) j (tr_now y 12) m' →
  ready (after_failure c m' s) (j <| job_Status := JobStatusPending |>) (retried e (tr_now y 12) job) task art keys lookpath w'.
Proof.
  intros [Hcan _ Hsig _ _ _] [Hm0 Hwh Hq0 Hcc Ht0 Hpl Hw0 Hlike] Hr w' j Hok Hj Hc' Hst Hcn Hco Hus Hwk [Kq Kc _ Kd Kw Kp _ Kn _] m' [Rok Rw Rq Rs Rc Rt Rd _].
  destruct Hcan as [Hm Hl Ha Ht Hph Hpub Hch Hcon Hu [w1' Hroom] (Hocc0 & Hocc & Hused) Hart Hwords Hnamed (Hc0 & Hc1 & _ & Hpay) Hul _ Hacc _].
  destruct (conn_ready_after w w0 w1 (job_ID job) (job_Cost job) (tr_now y 0) (tr_now y 10) d1 d2 Hlike Hr Hocc0 Hocc) as [Hcr _]. fold w' in Hcr.
  pose proof Hcr as [Eos Ear Eca Est Erj Eoc Eus].
  assert (wp_conns (mg_workers m') = wp_conns (mg_workers (sy_manager s)) ∧ wp_workers (mg_workers m') = wp_workers (mg_workers (cl_manager c)) ∧
    wp_platform (mg_workers m') = wp_platform (mg_workers (cl_manager c))) as (Ec & Ew & Ep).
  { rewrite Rw. split_and!; [done|..]; cbn; rewrite ?Kw, ?Kp; apply Hpl. }
  assert (ents m0 = ents (cl_manager c)) as Ee by (unfold ents, mg_store; by rewrite Hwh).
  split; try done.
  - split; cbn [after_failure cl_manager cl_server cl_worker cl_conn sv_manager Server.with_manager field_set rebuild Server_rebuild]; try done.
    + apply Rok. apply (ok_same (set_signal (sy_manager s) (MkSigChan 0 0 true))); [by apply ok_set_signal|done..].
    + unfold cl_manager. cbn. rewrite Rc. cbn. rewrite Kc. cbn. by rewrite Hcc.
    + change (taskDefs (ents m') !! job_TaskName job = Some task). rewrite Rd.
      change (taskDefs (ents (sy_manager s)) !! job_TaskName job = Some task). rewrite Kd.
      change (taskDefs (ents m0) !! job_TaskName job = Some task). by rewrite Ee.
    + rewrite Hcn. change (mg_workers (cl_manager _)) with (mg_workers m').
      destruct (only_choice_ready (mg_workers (cl_manager c)) (mg_workers m') job keys (cl_conn c) w w' Hch) as [A B C]; try done.
      * unfold candidates, allWorkers. by rewrite Ew, Ep.
      * by rewrite Ec.
      * intros b Hb. rewrite Ec, (Kn b Hb). apply (pl_conns _ _ Hpl).
    + rewrite Hcn. change (mg_workers (cl_manager _)) with (mg_workers m'). by rewrite Ec.
    + by rewrite Eus.
    + revert Hroom. unfold AssignTask. change (job_Cost (retried e (tr_now y 12) job)) with (job_Cost job). rewrite Eca, Eoc. cbv zeta.
      destruct (wrap64 (wc_capacity w - wc_occupiedCost w) <=? 0)%Z; [done|].
      destruct (wrap64 (wrap64 (wc_capacity w - wc_occupiedCost w) - job_Cost job) <? 0)%Z; [done|]. intros _. by eexists.
    + by rewrite Eoc, Hus.
    + rewrite <- Hart. unfold artifact_info, resolve_artifact. by rewrite Eos, Ear.
    + split_and!; try done. apply wrap64_range.
    + by apply (may_accept_kept (cl_worker c)).
    + revert Hst. intros [A B C D]. assert (manager_out m' (sy_conn s) = manager_out (sy_manager s) (sy_conn s)) as Eout by (unfold manager_out; by rewrite Ec).
      split; unfold pair_of, for_worker, for_manager, cl_manager in *; cbn in *; rewrite ?Eout; done.
  - unfold cl_manager. cbn. by rewrite Rw.
  - unfold cl_manager. cbn. etrans; [apply Rq; cbn; rewrite Kq; apply (mo_queue _ Hm0)|]. cbn. rewrite Kq. cbn. by rewrite Hq0.
  - exists (tr_now y 10), (job_Priority job). reflexivity.
Qed.

(** A failed attempt that may be retried leaves the service ready for the next one, with the job's attempts counted. *)
Lemma attempt_fails c x job task art keys lookpath w y e : ready c x job task art keys lookpath w →
  fails_retriably task (policy_of task) (wrap64 (job_Attempts job + 1)) y e → (wrap64 (job_Attempts job + 1) < MaxAttempts (policy_of task))%Z →
  (∃ path, (fetch (w_artifactCache (cl_worker c)) art y).2 = Ok path) →
  header_fits (cl_worker c) job task art (1 + wd_ulids (mg_webhooks (cl_manager c))) →
  ∃ c' x' w', cluster_run c (retry_events lookpath (length (w_running (cl_worker c))) (length (mg_timers (cl_manager c))) y) = Some (c', []) ∧
    ready c' x' (retried e (tr_now y 12) job) task art keys lookpath w' ∧ freed (job_ID job) w w' ∧
    same_service (job_ID job) 3 c c' ∧ w_artifactCache (cl_worker c') = (fetch (w_artifactCache (cl_worker c)) art y).1.
Proof.
  intros Hrd (Hrun & Hcode & Hdnr & Hdur & Hfit2 & Hfit3 & Hdue) Hmax Hfetch Hhead. pose proof (rd_can _ _ _ _ _ _ _ _ Hrd) as Hcan.
  destruct (ca_occupied _ _ _ _ _ _ _ Hcan) as (Hocc0 & Hocc & Hused).
  destruct (attempt_dispatched c x job task art keys lookpath w (tr_now y 0) (tr_now y 0) Hrd)
    as (m0 & w0 & w1 & x' & m2 & Hpf & Hx' & Hprop & Hpt & Hk & Hturn). pose proof Hpf as [Hm0 Hwh Hq0 Hc0 Ht0 Hpl Hw0 Hlike].
  assert (effective_policy cfg m0 job = policy_of task) as Hpol.
  { unfold effective_policy, GetTask, ents, mg_store. rewrite Hwh. fold (mg_store (cl_manager c)). fold (ents (cl_manager c)).
    by rewrite (ca_task _ _ _ _ _ _ _ Hcan). }
  destruct (life_fails cfg sha256_hex goos (pair_at c m0) x' job task art lookpath w0 w1 (tr_fetch y) (tr_download y) (tr_process y)
    (tr_duration y) e (tr_now y) Hprop Hx' Hused Hfetch Hrun Hcode Hdur)
    as (s & run' & d1 & d2 & Hacts & [Hok Hj Hc' _ Hst] & _ & _ & Scn & Sco & Stk & Sus & Srn & Swk & Sca & Stm & Skp); [|done|done| |].
  { cbn [pair_at sy_manager sy_conn sy_worker]. rewrite Hpt. apply Hhead. cbn [fst]. pose proof (kp_ulids _ _ _ _ Hk). rewrite Hwh in *. lia. }
  { unfold permanent. cbn [failure_report rm_ExitCode pair_at sy_manager]. rewrite Hdnr, Hpol. cbn [orb]. by apply Z.leb_gt. }
  assert (sy_conn s = cl_conn c) as Hcn by exact Scn.
  pose proof (pr_conn _ _ _ _ _ _ _ Hprop) as Hcw. cbn in Hcw. cbn zeta in Stm, Skp. cbn [pair_at sy_manager sy_conn] in Stm, Skp. rewrite Hpol, Ht0 in Stm, Skp.
  rewrite Hcn in Hc'. set (c1 := with_pair (dispatched_cluster c m2) s).
  erewrite acts_cons in Hacts; [|cbn [System.act pair_at sy_manager sy_conn]; rewrite Hcw; cbn [mbind option_bind]; by rewrite Hpt].
  assert (wp_dispatchSignal (mg_workers (sy_manager s)) = MkSigChan 0 0 false) as Hsig.
  { rewrite (kp_signal _ _ _ _ Skp). cbn. by rewrite (pl_signal _ _ Hpl), (rd_signal _ _ _ _ _ _ _ _ Hrd). }
  set (j := record_attempt (wrap64 (job_Attempts job + 1)) (fail_reason e) (tr_now y 10) (job <| job_Status := JobStatusRunning |> <| job_UpdatedAt := tr_now y 6 |>)) in *.
  set (due := (tr_now y 10%nat + retryDelay (policy_of task) (wrap64 (job_Attempts job + 1)))%Z) in *.
  set (m3 := set_signal (sy_manager s) (MkSigChan 0 0 true) <| mg_timers := mg_timers (cl_manager c) |>).
  assert (jobs (ents m3) !! job_ID j = Some j) as Hj3 by (change (ents m3) with (ents (sy_manager s)); exact Hj).
  pose proof (timer_requeues m3 due j (tr_now y 12) Hj3 eq_refl) as Hrq.
  destruct (conn_ready_after w w0 w1 (job_ID job) (job_Cost job) (tr_now y 0) (tr_now y 10) d1 d2 Hlike (pr_room _ _ _ _ _ _ _ Hprop) Hocc0 Hocc) as [_ Hfr].
  eexists (after_failure c _ s), _, _. split; [|split; [|split; [exact Hfr|split]]].
  - unfold retry_events. change (@nil http_answer) with (@nil http_answer ++ []). eapply run_app; [by apply attempt_run|].
    apply (timer_run c1 (sy_manager s) (mg_timers (cl_manager c)) due job); done.
  - eapply (ready_again c x job task art keys lookpath w m0 w0 w1 s d1 d2 e y due); try eassumption. exact (pr_room _ _ _ _ _ _ _ Hprop).
  - destruct Hrq as [_ _ _ _ _ Rt _ Ru]. split; try done.
    + etrans; [apply Nat.eq_le_incl, Ru|]. pose proof (kp_ulids _ _ _ _ Skp) as Hu. cbn in Hu. rewrite Hwh in Hu. exact (proj2 Hu).
    + cbn. rewrite Stk. cbn. apply delete_delete_eq.
    + cbn. by rewrite (wk_cfg _ _ Swk).
  - exact Sca.
Qed.

(** *** Any number of failed attempts *)

(** The job as the attempts change it. *)
Definition again (job job' : Job) : Prop := ∃ a r s u,
  job' = job <| job_Attempts := a |> <| job_FailureReason := r |> <| job_Status := s |> <| job_UpdatedAt := u |>.

#[local] Instance again_preorder : PreOrder again.
Proof.
  split.
  - intros job. exists (job_Attempts job), (job_FailureReason job), (job_Status job), (job_UpdatedAt job). by destruct job.
  - intros j1 j2 j3 (a & r & s & u & ->) (a' & r' & s' & u' & ->). by exists a', r', s', u'.
Qed.

(** The head of the log fits for every attempt up to the [b]-th. *)
Definition heads_fit (worker : Worker) job (task : Task) (art : ArtifactInfo) (b : Z) (n : nat) : Prop :=
  ∀ a, (0 ≤ a < b)%Z → header_fits worker (job <| job_Attempts := a |>) task art n.

Lemma heads_fit_again w w' job job' task art b n n' : heads_fit w job task art b n → again job job' → w_cfg w' = w_cfg w → n' ≤ n →
  heads_fit w' job' task art b n'.
Proof.
  intros Hf (a0 & r & st & u & ->) Hw Hn a Ha k now Hk. specialize (Hf a Ha k now ltac:(lia)). unfold log_header in *. rewrite Hw. exact Hf.
Qed.

Lemma heads_fit_now w job task art b n : heads_fit w job task art b n → (0 ≤ job_Attempts job < b)%Z → header_fits w job task art n.
Proof. intros Hf Ha. specialize (Hf _ Ha). by destruct job. Qed.

(** The tries fail one after the other, the first of them being the attempt [a + 1]. *)
Fixpoint failing (task : Task) (a : Z) (l : list (Try * run_error)) : Prop :=
  match l with
  | [] => True
  | (y, e) :: l => fails_retriably task (policy_of task) (a + 1)%Z y e ∧ failing task (a + 1)%Z l
  end.

(** Nothing is reserved that was not, the job [id] apart. *)
Definition free_but (id : string) (w w' : WorkerConn SS) : Prop :=
  ss_view (wc_inFlight w') ∖ {[id]} = ss_view (wc_inFlight w) ∖ {[id]} ∧ wc_occupiedCost w' = wc_occupiedCost w.

Lemma freed_but id w1 w2 w3 : freed id w1 w2 → free_but id w2 w3 → free_but id w1 w3.
Proof. intros [A1 B1] [A2 B2]. split; [rewrite A2, A1; set_solver|congruence]. Qed.

Lemma free_but_freed id w1 w2 w3 : free_but id w1 w2 → freed id w2 w3 → freed id w1 w3.
Proof. intros [A1 B1] [A2 B2]. split; [by rewrite A2, A1|congruence]. Qed.

Lemma retries_run fails rest c x job task art keys lookpath w : ready c x job task art keys lookpath w →
  failing task (job_Attempts job) fails → (0 ≤ job_Attempts job)%Z →
  (job_Attempts job + Z.of_nat (length fails) < MaxAttempts (policy_of task))%Z → in_int64 (MaxAttempts (policy_of task)) →
  fetchable (w_artifactCache (cl_worker c)) art (fails.*1 ++ rest) →
  heads_fit (cl_worker c) job task art (MaxAttempts (policy_of task)) (1 + 3 * length fails + wd_ulids (mg_webhooks (cl_manager c))) →
  ∃ c' x' job' w', cluster_run c (concat (retry_events lookpath (length (w_running (cl_worker c))) (length (mg_timers (cl_manager c))) <$> fails.*1)) =
      Some (c', []) ∧ ready c' x' job' task art keys lookpath w' ∧ again job job' ∧
    job_Attempts job' = (job_Attempts job + Z.of_nat (length fails))%Z ∧ free_but (job_ID job) w w' ∧
    same_service (job_ID job) (3 * length fails) c c' ∧ fetchable (w_artifactCache (cl_worker c')) art rest.
Proof.
  revert c x job w. induction fails as [|[y e] fails IH]; intros c x job w Hrd Hf Hge Hmax Hin Hfetch Hhead.
  { exists c, x, job, w. split_and!; try done. cbn. lia. }
  cbn [length] in *. destruct Hf as [Hy Hf]. destruct Hfetch as [Hfetch Hfetch'].
  assert (wrap64 (job_Attempts job + 1) = job_Attempts job + 1)%Z as Hwr by (apply wrap64_id; i64; lia).
  destruct (attempt_fails c x job task art keys lookpath w y e Hrd) as (c1 & x1 & w1 & Hrun & Hrd1 & Hfr & Hsv & Hca);
    [by rewrite Hwr|rewrite Hwr; lia|done| |].
  { eapply heads_fit_now; [|split; [exact Hge|]]; [apply (heads_fit_again _ _ _ _ _ _ _ _ _ Hhead); [done|done|lia]|lia]. }
  set (j1 := retried e (tr_now y 12) job) in *. assert (job_Attempts j1 = (job_Attempts job + 1)%Z) as Ha1 by exact Hwr.
  assert (again job j1) as Hag by (by eexists _, _, _, _).
  destruct (IH c1 x1 j1 w1) as (c2 & x2 & j2 & w2 & Hrun2 & Hrd2 & Hag2 & Ha2 & Hfb & Hsv2 & Hfetch2); [done|by rewrite Ha1|lia|lia|done|by rewrite Hca| |].
  { apply (heads_fit_again _ _ _ _ _ _ _ _ _ Hhead Hag); [by apply Hsv|]. pose proof (sv_ulids _ _ _ _ Hsv). lia. }
  exists c2, x2, j2, w2. split; [|split; [done|split; [by etrans|split; [lia|split; [by eapply freed_but|split; [|done]]]]]].
  - cbn [fmap list_fmap concat fst]. change (@nil http_answer) with (@nil http_answer ++ []). eapply run_app; [exact Hrun|].
    revert Hrun2. by rewrite (sv_running _ _ _ _ Hsv), (sv_timers _ _ _ _ Hsv).
  - replace (3 * S (length fails)) with (3 * length fails + 3) by lia. by eapply same_service_trans.
Qed.

(** The submission makes an idle service ready. *)
Lemma submission_ready c job task art keys lookpath w m1 l : capable c job task art keys lookpath w → cl_dispatcher c = P_blocked →
  wp_dispatchSignal (mg_workers (cl_manager c)) = MkSigChan 0 0 true → Values (mg_queue (cl_manager c)) = [] →
  accepted_submission (cl_manager c) job m1 →
  ready (serving c (Server.with_manager (cl_server c <| sv_clientRL := l |>) m1)) job job task art keys lookpath w.
Proof.
  intros [Hm Hl Ha Ht Hph Hpub Hch Hcon Hu Hroom Hocc Hart Hwords Hnamed Hsz Hul Hco Hacc Hst] Hb Hs Hq [Sok Sw Sq Sc St Sj _ _].
  assert (wp_conns (mg_workers m1) = wp_conns (mg_workers (cl_manager c)) ∧ wp_platform (mg_workers m1) = wp_platform (mg_workers (cl_manager c))
    ∧ wp_workers (mg_workers m1) = wp_workers (mg_workers (cl_manager c))) as (Ec & Ep & Ew) by (by rewrite Sw).
  split.
  - split; try done; unfold cl_manager; cbn [serving cl_server cl_conn sv_manager Server.with_manager field_set rebuild Server_rebuild].
    + by apply Sok.
    + by rewrite Sc.
    + by rewrite St.
    + revert Hch. clear -Ec Ep Ew. intros [A B C]. unfold candidates, allWorkers, eligible in *. rewrite <- Ec, <- Ep, <- Ew in *. by split.
    + by rewrite Ec.
    + revert Hst. intros [A B C D]. assert (manager_out m1 (cl_conn c) = manager_out (cl_manager c) (cl_conn c)) as E by (unfold manager_out; by rewrite Ec).
      split; unfold pair_of, for_worker, for_manager, cl_manager in *; cbn in *; rewrite ?E; done.
  - done.
  - unfold cl_manager. cbn. rewrite Sw. unfold pool_notifyDispatcher. cbn. by rewrite Hs.
  - unfold cl_manager. cbn. by rewrite (Sq (mo_queue _ Hm)), Hq.
  - apply queued_as_refl.
  - change (jobs (ents m1) !! job_ID job = Some job). rewrite Sj. apply lookup_insert_eq.
Qed.

(** A service at rest: the dispatcher's loop is blocked on its signal and nothing is queued. *)
Record idle c : Prop := {
  id_blocked : cl_dispatcher c = P_blocked;
  id_signal : wp_dispatchSignal (mg_workers (cl_manager c)) = MkSigChan 0 0 true;
  id_queue : Values (mg_queue (cl_manager c)) = [];
}.

(** What the tries need: the failing ones fail with errors that are retried and are fewer than the policy allows, the
    last one gives [result], the artifact can be fetched each time and the logs fit. *)
Record tries c job (task : Task) (art : ArtifactInfo) (fails : list (Try * run_error)) (last : Try) (result : string) : Prop := {
  ts_failing : failing task 0 fails;
  ts_allowed : (Z.of_nat (length fails) < MaxAttempts (policy_of task))%Z;
  ts_policy : in_int64 (MaxAttempts (policy_of task));
  ts_succeeds : succeeds task last result;
  ts_fetch : fetchable (w_artifactCache (cl_worker c)) art (fails.*1 ++ [last]);
  ts_heads : heads_fit (cl_worker c) job task art (MaxAttempts (policy_of task)) (2 + 3 * length fails + wd_ulids (mg_webhooks (cl_manager c)));
}.

(** The events from the submission to the last try: every failed attempt with its timer, then the one that succeeds. *)
Definition delivery_events c (lookpath : string → bool) (fails : list (Try * run_error)) (last : Try) : list event :=
  let i := length (w_running (cl_worker c)) in
  concat (retry_events lookpath i (length (mg_timers (cl_manager c))) <$> fails.*1) ++ attempt_events lookpath i last.

(** From a service that is ready to the job's completion. *)
Lemma ready_delivers c x job task art keys lookpath w fails last result : ready c x job task art keys lookpath w → job_Attempts job = 0%Z →
  failing task 0 fails → (Z.of_nat (length fails) < MaxAttempts (policy_of task))%Z → in_int64 (MaxAttempts (policy_of task)) →
  succeeds task last result → fetchable (w_artifactCache (cl_worker c)) art (fails.*1 ++ [last]) →
  heads_fit (cl_worker c) job task art (MaxAttempts (policy_of task)) (1 + 3 * length fails + wd_ulids (mg_webhooks (cl_manager c))) →
  ∃ c' job' w', cluster_run c (delivery_events c lookpath fails last) = Some (c', []) ∧ cl_dispatcher c' = P_select ∧
    sv_clientRL (cl_server c') = sv_clientRL (cl_server c) ∧
    manager_ok (cl_manager c') ∧ jobs (ents (cl_manager c')) !! job_ID job = Some job' ∧
    job_ID job' = job_ID job ∧ job_Status job' = JobStatusCompleted ∧ job_Result job' = result ∧
    wp_conns (mg_workers (cl_manager c')) !! cl_conn c = Some w' ∧ freed (job_ID job) w w' ∧
    w_tasks (cl_worker c') = delete (job_ID job) (w_tasks (cl_worker c)) ∧ w_usedCap (cl_worker c') = w_usedCap (cl_worker c).
Proof.
  intros Hrd Ha0 Hf Hlt Hin Hsu Hfetch Hhead.
  destruct (retries_run fails [last] c x job task art keys lookpath w Hrd) as (c1 & x1 & j1 & w1 & Hrun1 & Hrd1 & Hag & Ha1 & Hfb & Hsv & Hfetch1);
    rewrite ?Ha0; [done..|]. assert (job_ID j1 = job_ID job) as Eid by (by destruct Hag as (? & ? & ? & ? & ->)).
  destruct (attempt_succeeds c1 x1 j1 task art keys lookpath w1 last result Hrd1 Hsu) as (m' & pair' & job' & w' & Hrun2 & Hok & Hj & Jid & Jst & Jr & Hw' & Hfr & Ht & Hu);
    [apply Hfetch1| |].
  { eapply heads_fit_now; [apply (heads_fit_again _ _ _ _ _ _ _ _ _ Hhead Hag); [by apply Hsv|]|rewrite Ha1, Ha0; lia].
    pose proof (sv_ulids _ _ _ _ Hsv). lia. }
  set (c2 := with_pair _ _) in *. rewrite Eid in *. exists c2, job', w'. split; [|split_and!; try done].
  - unfold delivery_events. change (@nil http_answer) with (@nil http_answer ++ []). eapply run_app; [exact Hrun1|].
    revert Hrun2. by rewrite (sv_running _ _ _ _ Hsv).
  - exact (sv_clients _ _ _ _ Hsv).
  - by rewrite <- (sv_conn _ _ _ _ Hsv).
  - by eapply free_but_freed.
  - rewrite Ht. exact (sv_tasks _ _ _ _ Hsv).
  - rewrite Hu. exact (sv_used _ _ _ _ Hsv).
Qed.
End attempts.

(** ** Property *)

(** C1: What a client posts is run, retried when it fails, and its result handed back. On an idle service with a worker
    that may take the job, for any task the service knows, any number of tries that fail with errors the policy retries,
    fewer than its attempts, and a try whose process exits with a result: the request that posts the job is answered 202
    with the new job; each time the dispatcher's blocked loop wakes up it proposes the job, and the messages the two
    programs write and read carry it to its end; after a failure the timer puts it back into the queue and wakes the
    loop; and the client's later request for the job is answered 200 with the job completed and exactly the result the
    last process wrote. Both sides then have their capacity back, and the loop is ready for the next job. *)
Theorem submitted_job_is_delivered `{SimpleSet SS} `{Store ST} `{GoRuntime} `{Ulid} `{SerialLanes} `{WebhookEnv} `{WorkerSelector SS}
    `{ConsolidateJson} `{argv : NetArgv FL} `{parsers : Parsers} `{verreg : !Verreg FL} `{reader : !NetArgvReader FL} `{fmt : TimeFormat}
    `{RegistryCodec} `{mux : Muxx} (cfg : Config) (sha256_hex : string → string) (goos : string) clientAuthFunc workerAuthFunc signer domain
    (rootJobLog runLog : ST → string → res error string) reads tbl (c : Cluster SS ST) (submit poll : request) (body : submitJobRequest)
    (task : Task) (art : ArtifactInfo) keys lookpath w (fails : list (Try * run_error)) (last : Try) result (posted polled : Time) :
  let n := wd_ulids (mg_webhooks (cl_manager c)) in
  let job := submitted_job n body task posted in
  let clients := sv_clientRL (cl_server c) in
  buildMux cfg = Some tbl → connect_path_free (WorkerConnectPath cfg) = true →
  rq_Method submit = "POST" → rq_Path submit = ["jobs"] → rq_submit submit = Ok body →
  rq_Method poll = "GET" → rq_Path poll = ["jobs"; ulid n] →
  let_in clientAuthFunc clients submit posted → let_in clientAuthFunc (used clients submit posted) poll polled →
  idle c → capable cfg c job task art keys lookpath w → tries cfg sha256_hex goos c job task art fails last result →
  ∃ c' a1 a2 job' w',
    cluster_run cfg sha256_hex goos clientAuthFunc workerAuthFunc signer domain rootJobLog runLog reads tbl c
      ([Request submit posted] ++ delivery_events c lookpath fails last ++ [Request poll polled]) = Some (c', [a1; a2]) ∧
    an_reply a1 = Replied (Reply 202 (B_job job)) ∧ an_reply a2 = Replied (Reply 200 (B_job job')) ∧
    job_ID job' = job_ID job ∧ job_Status job' = JobStatusCompleted ∧ job_Result job' = result ∧
    manager_ok (cl_manager c') ∧ cl_dispatcher c' = P_select ∧
    wp_conns (mg_workers (cl_manager c')) !! cl_conn c = Some w' ∧ freed (job_ID job) w w' ∧
    w_tasks (cl_worker c') = delete (job_ID job) (w_tasks (cl_worker c)) ∧ w_usedCap (cl_worker c') = w_usedCap (cl_worker c).
Proof.
  intros n job clients Ht Hfree Hm1 Hp1 Hb Hm2 Hp2 Hin1 Hin2 [Hbl Hsg Hq] Hcan [Hf Hlt Hin Hsu Hfetch Hhead].
  destruct (submitted_fields n body task posted) as (Eid & Etn & Eph & _ & Eat). fold job in Eid, Etn, Eph, Eat.
  pose proof (ca_task _ _ _ _ _ _ _ _ Hcan) as Htask. destruct (ca_named _ _ _ _ _ _ _ _ Hcan) as (_ & Hne & _). rewrite Etn in Htask, Hne.
  destruct (submit_served cfg sha256_hex goos clientAuthFunc workerAuthFunc signer domain rootJobLog runLog reads tbl c submit body task posted)
    as (m1 & a1 & Hsub & Ha1 & Hstep1); [done..|]. fold n job clients in Hsub, Ha1, Hstep1.
  set (c1 := serving c _) in Hstep1.
  assert (ready cfg c1 job job task art keys lookpath w) as Hrd by by apply submission_ready.
  destruct (ready_delivers cfg sha256_hex goos clientAuthFunc workerAuthFunc signer domain rootJobLog runLog reads tbl
    c1 job job task art keys lookpath w fails last result Hrd Eat Hf Hlt Hin Hsu Hfetch) as (c2 & job' & w' & Hrun & Hd & Hcl & Hok & Hj & Jid & Jst & Jr & Hw & Hfr & Hts & Hu).
  { intros a Ha k now Hk. apply (Hhead a Ha k now). etrans; [exact Hk|]. change (cl_manager c1) with m1. rewrite (as_ulids _ _ _ Hsub). fold n. lia. }
  destruct (poll_served cfg sha256_hex goos clientAuthFunc workerAuthFunc signer domain rootJobLog runLog reads tbl c2 poll (ulid n) job' polled)
    as (s3 & a2 & Hs3 & Ha2 & Hstep3); [done..|apply ulid_nonempty|by rewrite <- Eid|by rewrite Hcl|].
  exists (serving c2 s3), a1, a2, job', w'. split.
  - change [a1; a2] with ([a1] ++ [] ++ [a2]). eapply (run_cons _ _ _ _ _ _ _ _ _ _ _ _ _ _ _ [a1]); [exact Hstep1|]. eapply run_app.
    + rewrite <- Hrun. unfold delivery_events. change (cl_manager c1) with m1. by rewrite (as_timers _ _ _ Hsub).
    + by eapply (run_cons _ _ _ _ _ _ _ _ _ _ _ _ _ _ _ [a2] _ []).
  - unfold cl_manager. cbn [serving cl_server cl_worker]. rewrite Hs3. by split_and!.
Qed.

(** ** Sample run: a client of the demo server, the demo worker, a process that fails once *)
Section samples.
#[local] Existing Instances gset_simple_set canonical_runtime unary_ulid open_lanes sample_env least_loaded tagged_payload bit_codec first_match.
#[local] Existing Instances plain_argv demo_parsers only_version_0 plain_reader demo_format.

Definition delivery_platform (os : string) : ArtifactPlatform := MkArtifactPlatform "resize" "1.0" os "amd64" "h1" 1 ["sh"] "u".

Definition delivery_config : Config :=
  applyDefaults (sample_config <| cfg_ArtifactsRegistry := Some (MkArtifactRegistry (λ _ os _, Ok (delivery_platform os))
    (λ _ _ os _, Ok (delivery_platform os)) (λ _ _, Ok [delivery_platform "linux"])) |>).

(** The demo server with its dispatcher blocked, and the demo worker on the first connection. *)
Definition demo_cluster : Cluster (gset string) MemStore :=
  MkCluster (Server.with_manager demo_server (set_signal (sv_manager demo_server) (MkSigChan 0 0 true))) P_blocked online_demo 0 0 0.

Definition demo_body : submitJobRequest := MkSubmitJobRequest "resize" "{}" None.
Definition demo_submitted : Job := submitted_job 1 demo_body wire_task (demo_clock 0).

(** A clock of seconds, from the [k]-th on. *)
Definition seconds (k n : nat) : Time := (demo_instant + Z.of_nat (k + n) * 1000000000)%Z.
Definition demo_failed : Try := MkTry (seconds 0) 25 (demo_download "a") (Exited (Some (ExitError 1 "exit status 1")) "" "" "boom") 5.
Definition demo_done : Try := MkTry (seconds 20) 25 (demo_download "a") (Exited None "done" "" "") 5.
Definition demo_fails : list (Try * run_error) := [(demo_failed, exitError 1 "boom")].

Lemma demo_capable : capable delivery_config demo_cluster demo_submitted wire_task demo_artifact
  (platform_keys [delivery_platform "linux"]) (λ _, true) demo_wc.
Proof.
  split.
  - apply ok_set_signal, demo_server_ok.
  - reflexivity.
  - apply (bool_decide_unpack _). vm_compute. exact I.
  - vm_compute. reflexivity.
  - reflexivity.
  - exists [delivery_platform "linux"]. split_and!; [reflexivity|reflexivity|discriminate].
  - assert (candidates (mg_workers (cl_manager demo_cluster)) (platform_keys [delivery_platform "linux"]) = [0]) as E by (vm_compute; reflexivity).
    split; rewrite ?E; [left|intros now; vm_compute; reflexivity|]. intros now b Hb _. by apply list_elem_of_singleton in Hb.
  - vm_compute. reflexivity.
  - reflexivity.
  - exists demo_wc1. vm_compute. reflexivity.
  - split_and!; vm_compute; discriminate || (split; discriminate).
  - vm_compute. reflexivity.
  - split_and!; try reflexivity. apply Forall_singleton. reflexivity.
  - split_and!; discriminate.
  - repeat split; vm_compute; discriminate.
  - exact unary_word.
  - exact online_demo_connected.
  - split_and!; [vm_compute; reflexivity..|by right|vm_compute; discriminate].
  - split; vm_compute; reflexivity.
Qed.

Lemma demo_tries : tries delivery_config demo_sha "linux" demo_cluster demo_submitted wire_task demo_artifact demo_fails demo_done "done".
Proof.
  split.
  - split; [|exact I]. split_and!; try reflexivity; try (vm_compute; discriminate); try (split; vm_compute; discriminate).
    split_and!; [reflexivity|discriminate|reflexivity].
  - reflexivity.
  - split; vm_compute; discriminate.
  - split_and!; [by eexists| |split; vm_compute; discriminate..]. split_and!; [reflexivity|discriminate|reflexivity].
  - split; [exists ["c"; "h1"]; vm_compute; reflexivity|]. split; [exists ["c"; "h1"]; vm_compute; reflexivity|exact I].
  - intros a Ha k now Hk. assert (a = 0 ∨ a = 1 ∨ a = 2)%Z as Ha'.
    { change (MaxAttempts _) with 3%Z in Ha. clear -Ha. lia. }
    assert (k < 7) as Hk' by (clear -Hk; vm_compute in Hk; lia). clear Ha Hk.
    destruct Ha' as [-> | [-> | ->]]; do 7 (destruct k as [|k]; [split; vm_compute; discriminate|]); lia.
Qed.

Lemma submitted_job_is_delivered_witness : ∃ tbl c' a1 a2 job', buildMux delivery_config = Some tbl ∧
  cluster_run delivery_config demo_sha "linux" (Some demo_auth) None None "" (λ _ _, Ok "") (λ _ _, Ok "") (λ s, [s]) tbl demo_cluster
    ([Request (of_client "POST" ["jobs"]) (demo_clock 0)] ++ delivery_events demo_cluster (λ _, true) demo_fails demo_done ++
     [Request (of_client "GET" ["jobs"; "xu"]) (seconds 40 0)]) = Some (c', [a1; a2]) ∧
  an_reply a1 = Replied (Reply 202 (B_job demo_submitted)) ∧ an_reply a2 = Replied (Reply 200 (B_job job')) ∧
  job_Status job' = JobStatusCompleted ∧ job_Result job' = "done".
Proof.
  destruct (buildMux delivery_config) as [tbl|] eqn:Ht; [|discriminate Ht].
  destruct (submitted_job_is_delivered delivery_config demo_sha "linux" (Some demo_auth) None None "" (λ _ _, Ok "") (λ _ _, Ok "") (λ s, [s])
    tbl demo_cluster (of_client "POST" ["jobs"]) (of_client "GET" ["jobs"; "xu"]) demo_body wire_task demo_artifact
    (platform_keys [delivery_platform "linux"]) (λ _, true) demo_wc demo_fails demo_done "done" (demo_clock 0) (seconds 40 0))
    as (c' & a1 & a2 & job' & w' & Hrun & Ha1 & Ha2 & _ & Hst & Hres & _).
  - exact Ht.
  - vm_compute. reflexivity.
  - reflexivity.
  - reflexivity.
  - reflexivity.
  - reflexivity.
  - vm_compute. reflexivity.
  - split; vm_compute; reflexivity.
  - split; vm_compute; reflexivity.
  - split; vm_compute; reflexivity.
  - exact demo_capable.
  - exact demo_tries.
  - exists tbl, c', a1, a2, job'. exact (conj eq_refl (conj Hrun (conj Ha1 (conj Ha2 (conj Hst Hres))))).
Defined.
End samples.
